(** * Worker-to-station assignment engine: a shallow embedding of
    [alg/Algorithm.py] and the properties of its specification.

    Python floats are idealised as the real numbers of the Standard
    Library ([R], with the library's [exp]); a division whose divisor is
    zero raises [ZeroDivisionError] in Python and is [None] here; where
    the range of a binary64 number decides a property, the computation is
    given again over the kernel's floats, in [Binary64].  Python
    dictionaries are association lists in insertion order; a missing key
    ([KeyError]) or an index out of range ([IndexError]) is [None].
    Station numbers are natural numbers, worker ids are strings. *)

From Stdlib Require Import String Ascii Bool Arith ZArith Lia List.
From Stdlib Require Import Reals Lra Permutation.
From Stdlib Require DecimalString DecimalNat.
From Stdlib Require Floats.
Import ListNotations.

(* ================================================================== *)
(** * Part I: the program                                              *)
(* ================================================================== *)

(** ** Errors: the option monad *)

Definition bind {A B : Type} (x : option A) (f : A -> option B) : option B :=
  match x with
  | Some a => f a
  | None => None
  end.

Notation "x <- e ;; k" := (bind e (fun x => k))
  (at level 61, e at next level, right associativity).
Notation "' p <- e ;; k" := (bind e (fun p => k))
  (at level 61, p pattern, e at next level, right associativity).

(** [for x in xs: s = f(s, x)], where the body may raise. *)
Fixpoint foldM {A S : Type} (f : S -> A -> option S) (xs : list A) (s : S)
  : option S :=
  match xs with
  | [] => Some s
  | x :: xs' => s' <- f s x ;; foldM f xs' s'
  end.

(** [enumerate(l)] *)
Definition enumerate {A : Type} (l : list A) : list (nat * A) :=
  combine (seq 0 (length l)) l.

(** ** Dictionaries in insertion order *)

Section Dict.
Variables K V : Type.
Variable eqb : K -> K -> bool.

Fixpoint dict_get (k : K) (d : list (K * V)) : option V :=
  match d with
  | [] => None
  | (k', v) :: d' => if eqb k k' then Some v else dict_get k d'
  end.

(** [d[k] = v]: an existing key keeps its place, a new key goes last. *)
Fixpoint dict_set (k : K) (v : V) (d : list (K * V)) : list (K * V) :=
  match d with
  | [] => [(k, v)]
  | (k', v') :: d' =>
      if eqb k k' then (k', v) :: d' else (k', v') :: dict_set k v d'
  end.

End Dict.

Arguments dict_get {K V} eqb k d.
Arguments dict_set {K V} eqb k v d.

(** ** Configuration *)

Definition WSTATION : nat := 6.
Definition SIMULATION_TIME : R := 8%R.

(** [range(1, WSTATION + 1)] *)
Definition stations : list nat := seq 1 WSTATION.

(** ** Assignments: [Dict[int, List[str]]] *)

Abbreviation WorkerId := string (only parsing).
Definition Assignment : Type := list (nat * list WorkerId).

Definition station_get (station : nat) (a : Assignment) : option (list WorkerId) :=
  dict_get Nat.eqb station a.

Definition station_set (station : nat) (row : list WorkerId) (a : Assignment)
  : Assignment :=
  dict_set Nat.eqb station row a.

(** [{station: [] for station in range(1, WSTATION + 1)}] *)
Definition empty_assignment : Assignment :=
  map (fun station => (station, [])) stations.

(** [assignment[station].append(worker_id)] *)
Definition station_append (station : nat) (worker_id : WorkerId) (a : Assignment)
  : option Assignment :=
  row <- station_get station a ;;
  Some (station_set station (row ++ [worker_id]) a).

(** The loop shared by [create_initial_assignment_sequential] and the
    second half of [fire_worker_from_assignment]:
    [for idx, wid in enumerate(ws): a[(idx % WSTATION) + 1].append(wid)]. *)
Definition redistribute (ws : list WorkerId) (a : Assignment) : option Assignment :=
  foldM (fun acc iw => station_append ((fst iw) mod WSTATION + 1) (snd iw) acc)
        (enumerate ws) a.

Definition create_initial_assignment_sequential (worker_ids : list WorkerId)
  : option Assignment :=
  redistribute worker_ids empty_assignment.

(** [fire_worker_from_assignment]: collect the remaining workers station by
    station, then redistribute them. *)
Definition remaining_workers (worker_id : WorkerId) (assignment : Assignment)
  : option (list WorkerId) :=
  foldM (fun all_workers station =>
           row <- station_get station assignment ;;
           Some (all_workers
                   ++ filter (fun wid => negb (String.eqb wid worker_id)) row))
        stations [].

Definition fire_worker_from_assignment (worker_id : WorkerId)
  (assignment : Assignment) : option Assignment :=
  all_workers <- remaining_workers worker_id assignment ;;
  redistribute all_workers empty_assignment.

(** *** Readings of an assignment used by the statements *)

(** All workers, stations in dictionary order, each station in sequence. *)
Definition all_workers_of (a : Assignment) : list WorkerId :=
  concat (map snd a).

(** The stations that have a position [p], with the occupant of it:
    the loop [for station in range(1, WSTATION + 1):
    if position_idx < len(a[station]): ...] of the collector and of the
    optimizer. *)
Definition position_cohort (a : Assignment) (position_idx : nat)
  : option (list (nat * WorkerId)) :=
  foldM (fun acc station =>
           row <- station_get station a ;;
           match nth_error row position_idx with
           | Some worker_id => Some (acc ++ [(station, worker_id)])
           | None => Some acc
           end)
        stations [].

(** [max(len(workers) for workers in a.values())]; [max] of an empty
    sequence raises. *)
Definition max_workers_per_station (a : Assignment) : option nat :=
  match a with
  | [] => None
  | _ => Some (fold_right Nat.max 0 (map (fun kv => length (snd kv)) a))
  end.

(** Reading position by position: for each position in ascending order,
    the occupants of that position in ascending station order. *)
Definition round_robin_order (a : Assignment) : option (list WorkerId) :=
  n <- max_workers_per_station a ;;
  foldM (fun acc p =>
           cohort <- position_cohort a p ;;
           Some (acc ++ map snd cohort))
        (seq 0 n) [].

(** The assignment whose six stations hold the given sequences. *)
Definition well_keyed (a : Assignment) : Prop := map fst a = stations.

(** ** Domain model *)

(** [x / y] on floats: [ZeroDivisionError] when [y] is zero. *)
Definition rdiv (x y : R) : option R :=
  if Req_dec_T y 0 then None else Some (x / y)%R.

(** [TrueWorkerProfile]; its field [worker_id] is [true_worker_id] here. *)
Record TrueWorkerProfile : Type := {
  true_worker_id : WorkerId;
  skill1 : R;
  skill2 : R;
  skill3 : R;
  skill4 : R;
  skill5 : R;
  skill6 : R;
  fatigue_base : R
}.

(** [skills[station - 1]]: index [-1] is the last skill, an index past the
    end raises. *)
Definition get_skill (self : TrueWorkerProfile) (station : nat) : option R :=
  let skills := [skill1 self; skill2 self; skill3 self;
                 skill4 self; skill5 self; skill6 self] in
  match station with
  | 0 => Some (skill6 self)
  | S i => nth_error skills i
  end.

Definition calculate_energy_avg (self : TrueWorkerProfile) (fatigue_cost T : R)
  : option R :=
  k <- rdiv fatigue_cost (fatigue_base self + 5) ;;
  if Rlt_dec (k * T) (1 / 1000)
  then Some 1%R
  else rdiv (1 - exp (- k * T)) (k * T).

Definition calculate_performance (self : TrueWorkerProfile) (station : nat)
  (task_delivery_time task_fatigue_cost : R) : option R :=
  skill <- get_skill self station ;;
  energy_avg <- calculate_energy_avg self task_fatigue_cost SIMULATION_TIME ;;
  q <- rdiv skill task_delivery_time ;;
  Some (q * energy_avg)%R.

(** [FactoryWorkerProfile]: the learned observations, station by station. *)
Record FactoryWorkerProfile : Type := {
  worker_id : WorkerId;
  performance_percentages : list (nat * list R)
}.

Definition observations (self : FactoryWorkerProfile) (station : nat) : list R :=
  match dict_get Nat.eqb station (performance_percentages self) with
  | Some row => row
  | None => []
  end.

(** A missing station first gets the empty list, then the value is
    appended to the station's list. *)
Definition record_performance_percentage (self : FactoryWorkerProfile)
  (station : nat) (percentage : R) : FactoryWorkerProfile :=
  {| worker_id := worker_id self;
     performance_percentages :=
       dict_set Nat.eqb station (observations self station ++ [percentage])
                (performance_percentages self) |}.

(** [sum(l)] *)
Definition rsum (l : list R) : R := fold_left Rplus l 0%R.

Definition get_average_percentage (self : FactoryWorkerProfile) (station : nat) : R :=
  match observations self station with
  | [] => 0%R
  | row => (rsum row / INR (length row))%R
  end.

Definition has_data_for_station (self : FactoryWorkerProfile) (station : nat) : bool :=
  match observations self station with
  | [] => false
  | _ :: _ => true
  end.

Definition stations_with_data (self : FactoryWorkerProfile) : nat :=
  length (filter (has_data_for_station self) stations).

Definition get_data_completeness (self : FactoryWorkerProfile) : R :=
  (INR (stations_with_data self) / INR WSTATION * 100)%R.

(** [get_data_completeness() < 100] *)
Definition incomplete (self : FactoryWorkerProfile) : bool :=
  if Rlt_dec (get_data_completeness self) 100 then true else false.

Record TaskProfile : Type := {
  station_id : nat;
  delivery_time : R;
  fatigue_cost : R
}.

(** [{key(x): value(x) for x in l}]: a later entry replaces the value of an
    earlier one with the same key. *)
Definition dict_of {A K V : Type} (eqb : K -> K -> bool) (key : A -> K)
  (value : A -> V) (l : list A) : list (K * V) :=
  fold_left (fun d x => dict_set eqb (key x) (value x) d) l [].

(** ** Performance oracle over an assignment *)

Definition station_total (true_worker_dict : list (WorkerId * TrueWorkerProfile))
  (station : nat) (task : TaskProfile) (worker_ids : list WorkerId) : option R :=
  foldM (fun total_performance wid =>
           match dict_get String.eqb wid true_worker_dict with
           | Some true_worker =>
               performance <- calculate_performance true_worker station
                                (delivery_time task) (fatigue_cost task) ;;
               Some (total_performance + performance)%R
           | None => Some total_performance
           end)
        worker_ids 0%R.

Definition simulate_station_performance (true_workers : list TrueWorkerProfile)
  (tasks : list TaskProfile) (assignment : Assignment) : option (list (nat * R)) :=
  let true_worker_dict := dict_of String.eqb true_worker_id (fun w => w) true_workers in
  let task_dict := dict_of Nat.eqb station_id (fun t => t) tasks in
  foldM (fun station_performance kv =>
           task <- dict_get Nat.eqb (fst kv) task_dict ;;
           total <- station_total true_worker_dict (fst kv) task (snd kv) ;;
           Some (dict_set Nat.eqb (fst kv) total station_performance))
        assignment [].

(** ** The solver's quotas *)

Definition workers_needed_per_station (num_workers : Z) : list (nat * Z) :=
  let base_workers := (num_workers / Z.of_nat WSTATION)%Z in
  let extra_workers := (num_workers mod Z.of_nat WSTATION)%Z in
  map (fun station =>
         (station,
          (base_workers
           + (if (Z.of_nat station <=? extra_workers)%Z then 1 else 0))%Z))
      stations.

(** ** The learned model as a store of shared objects

    [factory_workers] is a list of mutable profiles.  Every function builds
    [factory_worker_dict = {w.worker_id: w for w in factory_workers}], whose
    values are the list's own objects: the dictionary maps an id to the
    index of its object in the list, and recording through the dictionary
    updates the list in place. *)

Definition Store : Type := list FactoryWorkerProfile.

Definition factory_worker_dict (factory_workers : Store) : list (WorkerId * nat) :=
  dict_of String.eqb (fun iw => worker_id (snd iw)) (fun iw => fst iw)
          (enumerate factory_workers).

(** [l[i] = x]; an index out of range raises. *)
Fixpoint list_set {A : Type} (i : nat) (x : A) (l : list A) {struct l}
  : option (list A) :=
  match l, i with
  | [], _ => None
  | _ :: l', 0 => Some (x :: l')
  | y :: l', S i' => l'' <- list_set i' x l' ;; Some (y :: l'')
  end.

(** [factory_worker_dict[worker_id]] *)
Definition deref (fd : list (WorkerId * nat)) (store : Store) (wid : WorkerId)
  : option FactoryWorkerProfile :=
  i <- dict_get String.eqb wid fd ;;
  nth_error store i.

(** [factory_worker_dict[worker_id].record_performance_percentage(station, pct)] *)
Definition store_record (fd : list (WorkerId * nat)) (store : Store)
  (wid : WorkerId) (station : nat) (percentage : R) : option Store :=
  i <- dict_get String.eqb wid fd ;;
  w <- nth_error store i ;;
  list_set i (record_performance_percentage w station percentage) store.

(** ** Position optimizer *)

(** [-float('inf')] with no best worker yet is [None]; every real score
    exceeds it. *)
Definition exceeds (score : R) (best : option (WorkerId * R)) : bool :=
  match best with
  | None => true
  | Some (_, best_score) => if Rgt_dec score best_score then true else false
  end.

Definition mem_string (x : WorkerId) (l : list WorkerId) : bool :=
  existsb (String.eqb x) l.

(** The inner loop of [optimize_position]: the best unassigned worker of
    the cohort for [station]. *)
Definition best_for_station (fd : list (WorkerId * nat)) (store : Store)
  (position_workers assigned_workers : list WorkerId) (station : nat)
  : option (option (WorkerId * R)) :=
  foldM (fun best wid =>
           if mem_string wid assigned_workers then Some best
           else
             w <- deref fd store wid ;;
             let score := get_average_percentage w station in
             if exceeds score best then Some (Some (wid, score)) else Some best)
        position_workers None.

(** Truth value of a string: the empty string is false. *)
Definition truthy (s : string) : bool :=
  match s with
  | EmptyString => false
  | _ => true
  end.

Record OptimizationDetail : Type := {
  old_worker : WorkerId;
  new_worker : WorkerId;
  score : R
}.

(** [a[station][position_idx] = worker_id] *)
Definition place (station position_idx : nat) (wid : WorkerId) (a : Assignment)
  : option Assignment :=
  row <- station_get station a ;;
  row' <- list_set position_idx wid row ;;
  Some (station_set station row' a).

Definition optimize_step (fd : list (WorkerId * nat)) (store : Store)
  (position_workers : list WorkerId) (position_idx : nat)
  (st : Assignment * list WorkerId * list (nat * OptimizationDetail))
  (station : nat)
  : option (Assignment * list WorkerId * list (nat * OptimizationDetail)) :=
  let '(optimized_assignment, assigned_workers, optimization_details) := st in
  best <- best_for_station fd store position_workers assigned_workers station ;;
  match best with
  | Some (best_worker, best_score) =>
      if truthy best_worker then
        row <- station_get station optimized_assignment ;;
        old <- nth_error row position_idx ;;
        a' <- place station position_idx best_worker optimized_assignment ;;
        Some (a', best_worker :: assigned_workers,
              dict_set Nat.eqb station
                       {| old_worker := old; new_worker := best_worker;
                          score := best_score |}
                       optimization_details)
      else Some st
  | None => Some st
  end.

Definition optimize_position (factory_workers : Store)
  (current_assignment : Assignment) (position_idx : nat)
  : option (Assignment * list (nat * OptimizationDetail)) :=
  let fd := factory_worker_dict factory_workers in
  cohort <- position_cohort current_assignment position_idx ;;
  let position_workers := map snd cohort in
  let stations_with_position := map fst cohort in
  match position_workers with
  | [] => Some (current_assignment, [])
  | _ =>
      '(optimized_assignment, _, optimization_details) <-
        foldM (optimize_step fd factory_workers position_workers position_idx)
              stations_with_position (current_assignment, [], []) ;;
      Some (optimized_assignment, optimization_details)
  end.

(** ** Rotation-based data collector *)

(** The loop of [check_position_needs_testing]; it returns at the first
    incomplete worker. *)
Fixpoint needs_testing_from (fd : list (WorkerId * nat)) (store : Store)
  (assignment : Assignment) (position_idx : nat) (sts : list nat) : option bool :=
  match sts with
  | [] => Some false
  | station :: rest =>
      row <- station_get station assignment ;;
      match nth_error row position_idx with
      | Some wid =>
          match deref fd store wid with
          | Some w =>
              if incomplete w then Some true
              else needs_testing_from fd store assignment position_idx rest
          | None => needs_testing_from fd store assignment position_idx rest
          end
      | None => needs_testing_from fd store assignment position_idx rest
      end
  end.

Definition check_position_needs_testing (factory_workers : Store)
  (assignment : Assignment) (position_idx : nat) : option bool :=
  needs_testing_from (factory_worker_dict factory_workers) factory_workers
                     assignment position_idx stations.

(** The events handed to [cycle_callback], in order of emission. *)
Inductive Phase : Type :=
| base | skip | rotation | optimization | incomplete_fix.

Record Comparison : Type := {
  raw_percentage : option R;
  adjusted_percentage : R;
  worker : WorkerId
}.

Record Event : Type := {
  phase : Phase;
  position_idx_of : option nat;
  assignment_of : Assignment;
  performance_comparison : list (nat * Comparison);
  optimization_details_of : list (nat * OptimizationDetail);
  factory_workers_of : Store
}.

(** [for station_id, worker_ids in initial_assign.items(): for worker_id in
    worker_ids: if worker_id in factory_worker_dict: record 100.0]. *)
Definition record_base (fd : list (WorkerId * nat)) (initial_assign : Assignment)
  (store : Store) : option Store :=
  foldM (fun st kv =>
           foldM (fun st' wid =>
                    match dict_get String.eqb wid fd with
                    | Some _ => store_record fd st' wid (fst kv) 100
                    | None => Some st'
                    end)
                 (snd kv) st)
        initial_assign store.

(** [workers_to_rotate[rotation:] + workers_to_rotate[:rotation]] *)
Definition rotate (rotation : nat) (workers_to_rotate : list WorkerId)
  : list WorkerId :=
  skipn rotation workers_to_rotate ++ firstn rotation workers_to_rotate.

(** [for i, station in enumerate(source_stations):
    temp_assignment[station][position_idx] = rotated_workers[i]] *)
Definition place_rotated (source_stations : list nat) (rotated_workers : list WorkerId)
  (position_idx : nat) (temp_assignment : Assignment) : option Assignment :=
  foldM (fun t is_ =>
           wid <- nth_error rotated_workers (fst is_) ;;
           place (snd is_) position_idx wid t)
        (enumerate source_stations) temp_assignment.

(** The adjustment loop over the positions of a station. *)
Definition adjustment_of (fd : list (WorkerId * nat)) (store : Store)
  (original_assignment temp_assignment : Assignment)
  (position_idx station : nat) : option R :=
  temp_row <- station_get station temp_assignment ;;
  foldM (fun adjustment pw =>
           if fst pw =? position_idx then Some adjustment
           else
             original_row <- station_get station original_assignment ;;
             match nth_error original_row (fst pw) with
             | Some original_worker_at_pos =>
                 if String.eqb (snd pw) original_worker_at_pos
                 then Some adjustment
                 else
                   w <- deref fd store (snd pw) ;;
                   Some (adjustment + (get_average_percentage w station - 100))%R
             | None => Some adjustment
             end)
        (enumerate temp_row) 0%R.

(** [(curr_perf / base_perf) * 100 if base_perf != 0 else 100.0] *)
Definition raw_percentage_of (curr_perf base_perf : R) : R :=
  if Req_dec_T base_perf 0 then 100%R else (curr_perf / base_perf * 100)%R.

(** The body of the loop over [source_stations] inside one rotation: the
    observation of the rotated occupant of [station], if it has none yet. *)
Definition record_rotation (fd : list (WorkerId * nat))
  (base_performance current_performance : list (nat * R))
  (original_assignment temp_assignment : Assignment)
  (rotated_workers : list WorkerId) (position_idx : nat)
  (st : Store * list (nat * Comparison)) (is_ : nat * nat)
  : option (Store * list (nat * Comparison)) :=
  let '(store, comparison) := st in
  let station := snd is_ in
  base_perf <- dict_get Nat.eqb station base_performance ;;
  curr_perf <- dict_get Nat.eqb station current_performance ;;
  let raw := raw_percentage_of curr_perf base_perf in
  swapped_worker <- nth_error rotated_workers (fst is_) ;;
  w <- deref fd store swapped_worker ;;
  if has_data_for_station w station then Some st
  else
    adjustment <- adjustment_of fd store original_assignment temp_assignment
                                position_idx station ;;
    let adjusted := (raw - adjustment)%R in
    store' <- store_record fd store swapped_worker station adjusted ;;
    Some (store',
          dict_set Nat.eqb station
                   {| raw_percentage := Some raw; adjusted_percentage := adjusted;
                      worker := swapped_worker |}
                   comparison).

Record CollectorState : Type := {
  current_assignment_of : Assignment;
  store_of : Store;
  log_of : list Event
}.

(** One rotation of the cohort of [position_idx]. *)
Definition rotation_step (true_workers : list TrueWorkerProfile)
  (tasks : list TaskProfile) (fd : list (WorkerId * nat))
  (base_performance : list (nat * R)) (original_assignment : Assignment)
  (source_stations : list nat) (workers_to_rotate : list WorkerId)
  (position_idx : nat) (st : Assignment * Store * list Event) (rotation_idx : nat)
  : option (Assignment * Store * list Event) :=
  let '(temp_assignment, store, log) := st in
  let rotated_workers := rotate rotation_idx workers_to_rotate in
  temp' <- place_rotated source_stations rotated_workers position_idx
                         temp_assignment ;;
  current_performance <- simulate_station_performance true_workers tasks temp' ;;
  '(store', comparison) <-
    foldM (record_rotation fd base_performance current_performance
                           original_assignment temp' rotated_workers position_idx)
          (enumerate source_stations) (store, []) ;;
  Some (temp', store',
        log ++ [{| phase := rotation; position_idx_of := Some position_idx;
                   assignment_of := temp'; performance_comparison := comparison;
                   optimization_details_of := [];
                   factory_workers_of := store' |}]).

(** The body of the loop over the positions. *)
Definition position_step (true_workers : list TrueWorkerProfile)
  (tasks : list TaskProfile) (fd : list (WorkerId * nat))
  (base_performance : list (nat * R)) (original_assignment : Assignment)
  (max_workers : nat) (st : CollectorState) (position_idx : nat)
  : option CollectorState :=
  let current_assignment := current_assignment_of st in
  needs <- check_position_needs_testing (store_of st) original_assignment
                                        position_idx ;;
  if negb needs then
    Some {| current_assignment_of := current_assignment;
            store_of := store_of st;
            log_of := log_of st
                      ++ [{| phase := skip; position_idx_of := Some position_idx;
                             assignment_of := current_assignment;
                             performance_comparison := [];
                             optimization_details_of := [];
                             factory_workers_of := [] |}] |}
  else
    cohort <- position_cohort original_assignment position_idx ;;
    let workers_to_rotate := map snd cohort in
    let source_stations := map fst cohort in
    match workers_to_rotate with
    | [] => Some st
    | _ =>
        '(_, store', log') <-
          foldM (rotation_step true_workers tasks fd base_performance
                               original_assignment source_stations
                               workers_to_rotate position_idx)
                (seq 0 (length workers_to_rotate))
                (current_assignment, store_of st, log_of st) ;;
        if position_idx <? max_workers - 1 then
          '(optimized, opt_details) <-
            optimize_position store' current_assignment position_idx ;;
          Some {| current_assignment_of := optimized;
                  store_of := store';
                  log_of := log'
                            ++ [{| phase := optimization;
                                   position_idx_of := Some position_idx;
                                   assignment_of := optimized;
                                   performance_comparison := [];
                                   optimization_details_of := opt_details;
                                   factory_workers_of := store' |}] |}
        else
          Some {| current_assignment_of := current_assignment;
                  store_of := store'; log_of := log' |}
    end.

(** The rotation phase: every position of the original assignment. *)
Definition rotation_phase (true_workers : list TrueWorkerProfile)
  (tasks : list TaskProfile) (fd : list (WorkerId * nat))
  (base_performance : list (nat * R)) (original_assignment : Assignment)
  (max_workers : nat) (st : CollectorState) : option CollectorState :=
  foldM (position_step true_workers tasks fd base_performance
                       original_assignment max_workers)
        (seq 0 max_workers) st.

(** ** Gap filler *)

(** [l.index(x)] for an [x] that occurs in [l]. *)
Fixpoint index_of (x : WorkerId) (l : list WorkerId) : nat :=
  match l with
  | [] => 0
  | y :: l' => if String.eqb y x then 0 else S (index_of x l')
  end.

(** [l.remove(x)]: the first occurrence goes. *)
Fixpoint remove_first (x : WorkerId) (l : list WorkerId) : list WorkerId :=
  match l with
  | [] => []
  | y :: l' => if String.eqb y x then l' else y :: remove_first x l'
  end.

(** The first station, in dictionary order, that holds the worker, with the
    worker's index there. *)
Fixpoint locate_worker (wid : WorkerId) (a : Assignment) : option (nat * nat) :=
  match a with
  | [] => None
  | (station, row) :: a' =>
      if mem_string wid row then Some (station, index_of wid row)
      else locate_worker wid a'
  end.

(** The per-probe copy of the assignment: the worker leaves its current
    station and enters the target station at its position index, or at the
    end when that index is out of range. *)
Definition probe_assignment (wid : WorkerId) (location : option (nat * nat))
  (test_station : nat) (current_assignment : Assignment) : option Assignment :=
  temp1 <-
    match location with
    | Some (S _ as current_station, _) =>
        row <- station_get current_station current_assignment ;;
        if mem_string wid row
        then Some (station_set current_station (remove_first wid row)
                               current_assignment)
        else Some current_assignment
    | _ => Some current_assignment
    end ;;
  target_row <- station_get test_station temp1 ;;
  match location with
  | Some (_, current_position) =>
      if current_position <? length target_row
      then Some (station_set test_station
                   (firstn current_position target_row ++ wid
                      :: skipn current_position target_row) temp1)
      else Some (station_set test_station (target_row ++ [wid]) temp1)
  | None => Some (station_set test_station (target_row ++ [wid]) temp1)
  end.

(** [(individual / base_perf) * 100 + 100 if base_perf > 0 else 100.0] *)
Definition isolated_percentage (individual_performance base_perf : R) : R :=
  if Rgt_dec base_perf 0
  then (individual_performance / base_perf * 100 + 100)%R
  else 100%R.

(** One probe of the gap filler: worker [wid] at [test_station]. *)
Definition probe_step (true_worker_dict : list (WorkerId * TrueWorkerProfile))
  (tasks : list TaskProfile) (fd : list (WorkerId * nat))
  (base_performance : list (nat * R)) (current_assignment : Assignment)
  (wid : WorkerId) (location : option (nat * nat))
  (st : Store * list Event) (test_station : nat) : option (Store * list Event) :=
  let '(store, log) := st in
  temp_assignment <- probe_assignment wid location test_station current_assignment ;;
  true_worker <- dict_get String.eqb wid true_worker_dict ;;
  task <- nth_error tasks (test_station - 1) ;;
  individual_performance <-
    calculate_performance true_worker test_station
                          (delivery_time task) (fatigue_cost task) ;;
  base_perf <- dict_get Nat.eqb test_station base_performance ;;
  let percentage := isolated_percentage individual_performance base_perf in
  store' <- store_record fd store wid test_station percentage ;;
  Some (store',
        log ++ [{| phase := incomplete_fix; position_idx_of := None;
                   assignment_of := temp_assignment;
                   performance_comparison :=
                     [(test_station,
                       {| raw_percentage := None;
                          adjusted_percentage := percentage;
                          worker := wid |})];
                   optimization_details_of := [];
                   factory_workers_of := store' |}]).

(** The body of the loop over the incomplete workers. *)
Definition fix_worker (true_worker_dict : list (WorkerId * TrueWorkerProfile))
  (tasks : list TaskProfile) (fd : list (WorkerId * nat))
  (base_performance : list (nat * R)) (current_assignment : Assignment)
  (st : Store * list Event) (wid : WorkerId) : option (Store * list Event) :=
  w <- deref fd (fst st) wid ;;
  let missing_stations :=
    filter (fun s => negb (has_data_for_station w s)) stations in
  let location := locate_worker wid current_assignment in
  foldM (probe_step true_worker_dict tasks fd base_performance
                    current_assignment wid location)
        missing_stations st.

Definition collect_incomplete_worker_data_ui (true_workers : list TrueWorkerProfile)
  (factory_workers : Store) (tasks : list TaskProfile)
  (current_assignment : Assignment) : option CollectorState :=
  let workers_to_process := map worker_id (filter incomplete factory_workers) in
  match workers_to_process with
  | [] => Some {| current_assignment_of := current_assignment;
                  store_of := factory_workers; log_of := [] |}
  | _ =>
      base_performance <-
        simulate_station_performance true_workers tasks current_assignment ;;
      let fd := factory_worker_dict factory_workers in
      let true_worker_dict :=
        dict_of String.eqb true_worker_id (fun w => w) true_workers in
      '(store', log) <-
        foldM (fix_worker true_worker_dict tasks fd base_performance
                          current_assignment)
              workers_to_process (factory_workers, []) ;;
      Some {| current_assignment_of := current_assignment;
              store_of := store'; log_of := log |}
  end.

(** ** The whole collection run *)

Definition systematic_data_collection_ui (true_workers : list TrueWorkerProfile)
  (factory_workers : Store) (tasks : list TaskProfile)
  (initial_assign : Assignment) : option CollectorState :=
  base_performance <-
    simulate_station_performance true_workers tasks initial_assign ;;
  let fd := factory_worker_dict factory_workers in
  store1 <- record_base fd initial_assign factory_workers ;;
  let base_event :=
    {| phase := base; position_idx_of := None; assignment_of := initial_assign;
       performance_comparison := []; optimization_details_of := [];
       factory_workers_of := store1 |} in
  max_workers <- max_workers_per_station initial_assign ;;
  st <- rotation_phase true_workers tasks fd base_performance initial_assign
                       max_workers
                       {| current_assignment_of := initial_assign;
                          store_of := store1; log_of := [base_event] |} ;;
  match filter incomplete (store_of st) with
  | [] => Some st
  | _ =>
      fixed <- collect_incomplete_worker_data_ui true_workers (store_of st) tasks
                                                 (current_assignment_of st) ;;
      Some {| current_assignment_of := current_assignment_of fixed;
              store_of := store_of fixed;
              log_of := log_of st ++ log_of fixed |}
  end.

(** ** Final assignment solver *)

(** [l.sort(key=...)] is stable; [before x y] says that [x] may stand
    before a [y] that followed it in [l]. *)
Fixpoint insert_by {A : Type} (before : A -> A -> bool) (x : A) (l : list A)
  : list A :=
  match l with
  | [] => [x]
  | y :: l' => if before x y then x :: l else y :: insert_by before x l'
  end.

Definition sort_by {A : Type} (before : A -> A -> bool) (l : list A) : list A :=
  fold_right (insert_by before) [] l.

Definition ascending {A : Type} (key : A -> R) (x y : A) : bool :=
  if Rle_dec (key x) (key y) then true else false.

(** [reverse=True] keeps the order of equal keys. *)
Definition descending {A : Type} (key : A -> R) (x y : A) : bool :=
  if Rge_dec (key x) (key y) then true else false.

Definition ScoreTable : Type := list (WorkerId * list (nat * R)).

Definition worker_station_scores_of (factory_workers : Store) : ScoreTable :=
  dict_of String.eqb worker_id
          (fun w => map (fun station => (station, get_average_percentage w station))
                        stations)
          factory_workers.

(** [worker_station_scores[wid][station]] *)
Definition score_of (scores : ScoreTable) (wid : WorkerId) (station : nat)
  : option R :=
  row <- dict_get String.eqb wid scores ;;
  dict_get Nat.eqb station row.

(** [sum(worker_station_scores[wid][station] for wid in worker_ids)] *)
Definition score_total (scores : ScoreTable) (station : nat)
  (worker_ids : list WorkerId) : option R :=
  foldM (fun total wid => s <- score_of scores wid station ;; Some (total + s)%R)
        worker_ids 0%R.

Definition max_quota (needed : list (nat * Z)) : option Z :=
  match needed with
  | [] => None
  | kv :: rest => Some (fold_left Z.max (map snd rest) (snd kv))
  end.

(** The stations still under quota, each with its accumulated total. *)
Definition stations_needing_worker (scores : ScoreTable) (needed : list (nat * Z))
  (optimal_assignment : Assignment) : option (list (nat * R)) :=
  station_totals <-
    foldM (fun totals station =>
             row <- station_get station optimal_assignment ;;
             total <- score_total scores station row ;;
             Some (dict_set Nat.eqb station total totals))
          stations [] ;;
  foldM (fun acc station =>
           row <- station_get station optimal_assignment ;;
           quota <- dict_get Nat.eqb station needed ;;
           if (Z.of_nat (length row) <? quota)%Z
           then total <- dict_get Nat.eqb station station_totals ;;
                Some (acc ++ [(station, total)])
           else Some acc)
        stations [].

(** The unassigned workers with their score for [station], in the order of
    the score table's keys. *)
Definition available_for (scores : ScoreTable) (assigned_workers : list WorkerId)
  (station : nat) : option (list (WorkerId * R)) :=
  foldM (fun acc wid =>
           if mem_string wid assigned_workers then Some acc
           else s <- score_of scores wid station ;; Some (acc ++ [(wid, s)]))
        (map fst scores) [].

Definition fill_station (scores : ScoreTable)
  (st : Assignment * list WorkerId) (station : nat)
  : option (Assignment * list WorkerId) :=
  let '(optimal_assignment, assigned_workers) := st in
  available <- available_for scores assigned_workers station ;;
  match sort_by (descending snd) available with
  | [] => Some st
  | (best_worker_id, _) :: _ =>
      a' <- station_append station best_worker_id optimal_assignment ;;
      Some (a', best_worker_id :: assigned_workers)
  end.

Definition fill_round (scores : ScoreTable) (needed : list (nat * Z))
  (st : Assignment * list WorkerId) (position_idx : nat)
  : option (Assignment * list WorkerId) :=
  needing <- stations_needing_worker scores needed (fst st) ;;
  foldM (fill_station scores) (map fst (sort_by (ascending snd) needing)) st.

Record StationDetail : Type := {
  workers : list WorkerId;
  total_performance_of : R;
  worker_count : nat
}.

Record Efficiency : Type := {
  eff_worker_id : WorkerId;
  eff_station : nat;
  efficiency : R
}.

Record Results : Type := {
  assignment : Assignment;
  worker_station_scores : ScoreTable;
  total_performance : R;
  average_performance : R;
  station_details : list (nat * StationDetail);
  best_workers : list Efficiency;
  worst_workers : list Efficiency
}.

Definition find_optimal_assignment (factory_workers : Store) (num_workers : Z)
  (assignment_arg : Assignment) : option (Assignment * Results) :=
  let scores := worker_station_scores_of factory_workers in
  let needed := workers_needed_per_station num_workers in
  max_workers_any_station <- max_quota needed ;;
  '(optimal_assignment, _) <-
    foldM (fill_round scores needed)
          (seq 0 (Z.to_nat max_workers_any_station)) (empty_assignment, []) ;;
  '(total_expected_performance, total_workers, details) <-
    foldM (fun acc kv =>
             let '(total, count, details) := acc in
             station_total <- score_total scores (fst kv) (snd kv) ;;
             Some ((total + station_total)%R, count + length (snd kv),
                   dict_set Nat.eqb (fst kv)
                            {| workers := snd kv;
                               total_performance_of := station_total;
                               worker_count := length (snd kv) |}
                            details))
          optimal_assignment (0%R, 0, []) ;;
  let avg_performance :=
    if 0 <? total_workers
    then (total_expected_performance / INR total_workers)%R else 0%R in
  worker_efficiencies <-
    foldM (fun acc kv =>
             foldM (fun acc' wid =>
                      e <- score_of scores wid (fst kv) ;;
                      Some (acc' ++ [{| eff_worker_id := wid;
                                        eff_station := fst kv;
                                        efficiency := e |}]))
                   (snd kv) acc)
          optimal_assignment [] ;;
  let sorted := sort_by (descending efficiency) worker_efficiencies in
  Some (optimal_assignment,
        {| assignment := optimal_assignment;
           worker_station_scores := scores;
           total_performance := total_expected_performance;
           average_performance := avg_performance;
           station_details := details;
           best_workers := firstn 3 sorted;
           worst_workers := skipn (length sorted - 3) sorted |}).


(** ** Worker ids and sampled parameters *)

(** The state of the module that the generators use: the global
    [_WORKER_ID_COUNTER] and the random generator, given as the stream of
    the values that the successive calls of [random.random()] return. *)
Record World : Type := {
  worker_id_counter : nat;
  random_stream : nat -> R
}.

Definition get_next_worker_id (w : World) : nat * World :=
  (worker_id_counter w,
   {| worker_id_counter := worker_id_counter w + 1;
      random_stream := random_stream w |}).

Definition reset_worker_id_counter (w : World) : World :=
  {| worker_id_counter := 1; random_stream := random_stream w |}.

(** [random.uniform(a, b)] is [a + (b - a) * random()]. *)
Definition random_uniform (a b : R) (w : World) : R * World :=
  ((a + (b - a) * random_stream w 0)%R,
   {| worker_id_counter := worker_id_counter w;
      random_stream := fun n => random_stream w (S n) |}).

Fixpoint zeros (n : nat) : string :=
  match n with
  | 0 => EmptyString
  | S n' => String "0"%char (zeros n')
  end.

(** [f"{worker_id:04d}"]: the decimal digits, padded with zeros on the left
    to four characters. *)
Definition format_04d (n : nat) : string :=
  let digits := DecimalString.NilEmpty.string_of_uint (Nat.to_uint n) in
  String.append (zeros (4 - String.length digits)) digits.

Definition generate_true_worker (w : World) : TrueWorkerProfile * World :=
  let '(wid, w) := get_next_worker_id w in
  let '(s1, w) := random_uniform 1 10 w in
  let '(s2, w) := random_uniform 1 10 w in
  let '(s3, w) := random_uniform 1 10 w in
  let '(s4, w) := random_uniform 1 10 w in
  let '(s5, w) := random_uniform 1 10 w in
  let '(s6, w) := random_uniform 1 10 w in
  let '(fb, w) := random_uniform 1 10 w in
  ({| true_worker_id := format_04d wid;
      skill1 := s1; skill2 := s2; skill3 := s3;
      skill4 := s4; skill5 := s5; skill6 := s6;
      fatigue_base := fb |}, w).

Definition generate_task_profiles (w : World) : list TaskProfile * World :=
  fold_left (fun acc station =>
               let '(tasks, w) := acc in
               let '(dt, w) := random_uniform 2 5 w in
               let '(fc, w) := random_uniform 1 10 w in
               (tasks ++ [{| station_id := station; delivery_time := dt;
                             fatigue_cost := fc |}], w))
            stations ([], w).

(** ** The scheduler window: [alg/ui.py]

    The class [FactorySchedulerUI] without its drawing: the session it
    holds, its four operations, the hit test and the event handler.  The
    events of the callback are the collector's log; printing is left
    out. *)

Module FactorySchedulerUI.

Inductive State : Type := hiring | running | completed.

(** [results['assignment']] *)
Definition results_assignment (results : Results) : Assignment :=
  assignment results.

Record UI : Type := {
  state : State;
  true_workers : list TrueWorkerProfile;
  factory_workers : Store;
  tasks : list TaskProfile;
  assignment : Assignment;
  current_cycle_data : option Event;
  cycle_history : list Event;
  current_cycle_index : nat;
  final_results : option Results;
  hovered_worker : option WorkerId;
  animating : bool;
  animation_progress : R;
  old_assignment : option Assignment;
  scroll_offset : Z;
  max_scroll : Z
}.

(** [__init__] *)
Definition init (w : World) : UI * World :=
  let '(generated, w') := generate_task_profiles w in
  ({| state := hiring;
      true_workers := [];
      factory_workers := [];
      tasks := generated;
      assignment := empty_assignment;
      current_cycle_data := None;
      cycle_history := [];
      current_cycle_index := 0;
      final_results := None;
      hovered_worker := None;
      animating := false;
      animation_progress := 0;
      old_assignment := None;
      scroll_offset := 0;
      max_scroll := 0 |}, w').

(** Once a run has completed, [self.assignment] is the dictionary of the
    report, so the append below also shows in [final_results]; the report
    is kept here as the solver returned it, and nothing below reads it
    after a hire in state [completed]. *)
Definition hire_worker (self : UI) (w : World) : option (UI * World) :=
  let '(true_worker, w') := generate_true_worker w in
  let factory_worker :=
    {| worker_id := true_worker_id true_worker;
       performance_percentages := [] |} in
  let true_workers' := true_workers self ++ [true_worker] in
  let worker_count := length true_workers' in
  let station := (worker_count - 1) mod WSTATION + 1 in
  assignment' <- station_append station (true_worker_id true_worker)
                                (assignment self) ;;
  Some ({| state := state self;
           true_workers := true_workers';
           factory_workers := factory_workers self ++ [factory_worker];
           tasks := tasks self;
           assignment := assignment';
           current_cycle_data := current_cycle_data self;
           cycle_history := cycle_history self;
           current_cycle_index := current_cycle_index self;
           final_results := final_results self;
           hovered_worker := hovered_worker self;
           animating := animating self;
           animation_progress := animation_progress self;
           old_assignment := old_assignment self;
           scroll_offset := scroll_offset self;
           max_scroll := max_scroll self |}, w').

Definition fire_worker (self : UI) (wid : WorkerId) : option UI :=
  let true_workers' :=
    filter (fun w => negb (String.eqb (true_worker_id w) wid))
           (true_workers self) in
  let factory_workers' :=
    filter (fun w => negb (String.eqb (worker_id w) wid))
           (factory_workers self) in
  assignment' <- fire_worker_from_assignment wid (assignment self) ;;
  let reset := match state self with completed => true | _ => false end in
  Some {| state := state self;
          true_workers := true_workers';
          factory_workers := factory_workers';
          tasks := tasks self;
          assignment := assignment';
          current_cycle_data :=
            if reset then None else current_cycle_data self;
          cycle_history := if reset then [] else cycle_history self;
          current_cycle_index :=
            if reset then 0 else current_cycle_index self;
          final_results := if reset then None else final_results self;
          hovered_worker := None;
          animating := animating self;
          animation_progress := animation_progress self;
          old_assignment := old_assignment self;
          scroll_offset := scroll_offset self;
          max_scroll := max_scroll self |}.

(** The collector records into the window's own profiles, so the store it
    leaves is the window's [factory_workers]; the assignment it returns is
    not used. *)
Definition start_optimization (self : UI) : option UI :=
  match true_workers self with
  | [] => Some self
  | _ =>
      collected <- systematic_data_collection_ui
                     (true_workers self) (factory_workers self)
                     (tasks self) (assignment self) ;;
      '(_, results) <- find_optimal_assignment
                         (store_of collected)
                         (Z.of_nat (length (true_workers self)))
                         (assignment self) ;;
      Some {| state := running;
              true_workers := true_workers self;
              factory_workers := store_of collected;
              tasks := tasks self;
              assignment := assignment self;
              current_cycle_data :=
                match log_of collected with
                | [] => current_cycle_data self
                | head_event :: _ => Some head_event
                end;
              cycle_history := log_of collected;
              current_cycle_index := 0;
              final_results := Some results;
              hovered_worker := hovered_worker self;
              animating := animating self;
              animation_progress := animation_progress self;
              old_assignment := old_assignment self;
              scroll_offset := scroll_offset self;
              max_scroll := max_scroll self |}
  end.

(** Subscripting [None] raises. *)
Definition next_cycle (self : UI) : option UI :=
  if current_cycle_index self <? length (cycle_history self) - 1 then
    shown <- current_cycle_data self ;;
    next <- nth_error (cycle_history self) (current_cycle_index self + 1) ;;
    Some {| state := state self;
            true_workers := true_workers self;
            factory_workers := factory_workers self;
            tasks := tasks self;
            assignment := assignment self;
            current_cycle_data := Some next;
            cycle_history := cycle_history self;
            current_cycle_index := current_cycle_index self + 1;
            final_results := final_results self;
            hovered_worker := hovered_worker self;
            animating := true;
            animation_progress := 0;
            old_assignment := Some (assignment_of shown);
            scroll_offset := scroll_offset self;
            max_scroll := max_scroll self |}
  else
    results <- final_results self ;;
    Some {| state := completed;
            true_workers := true_workers self;
            factory_workers := factory_workers self;
            tasks := tasks self;
            assignment := results_assignment results;
            current_cycle_data := current_cycle_data self;
            cycle_history := cycle_history self;
            current_cycle_index := current_cycle_index self;
            final_results := final_results self;
            hovered_worker := hovered_worker self;
            animating := animating self;
            animation_progress := animation_progress self;
            old_assignment := old_assignment self;
            scroll_offset := scroll_offset self;
            max_scroll := max_scroll self |}.

(** [pygame.Rect(x, y, width, height).collidepoint(pos)]: the right and
    the bottom edge are outside. *)
Definition collidepoint (rect : Z * Z * Z * Z) (pos : Z * Z) : bool :=
  let '(x, y, width, height) := rect in
  ((x <=? fst pos) && (fst pos <? x + width)
   && (y <=? snd pos) && (snd pos <? y + height))%Z.

Definition hire_button : Z * Z * Z * Z := (50, 50, 200, 50)%Z.
Definition start_button : Z * Z * Z * Z := (50, 120, 200, 50)%Z.
Definition next_cycle_button : Z * Z * Z * Z := (50, 50, 200, 50)%Z.

(** The loop over one station's workers: the first whose picture, 67 by
    85 at [(200 + idx * 80, y)], holds the mouse. *)
Fixpoint worker_in_row (y : Z) (mouse_pos : Z * Z) (row : list (nat * WorkerId))
  : option WorkerId :=
  match row with
  | [] => None
  | (idx, wid) :: rest =>
      if collidepoint ((200 + Z.of_nat idx * 80)%Z, y, 67%Z, 85%Z) mouse_pos
      then Some wid
      else worker_in_row y mouse_pos rest
  end.

(** The top edge of the pictures of [station], state by state. *)
Definition picture_y (self : UI) (station : nat) : Z :=
  match state self with
  | completed =>
      (200 + (Z.of_nat station - 1) * 100 - 10 - scroll_offset self)%Z
  | hiring =>
      (200 + scroll_offset self + (Z.of_nat station - 1) * 100 - 10)%Z
  | running => (120 + (Z.of_nat station - 1) * 100)%Z
  end.

(** [self.assignment[station]], and [self.assignment.get(station, [])]
    while running. *)
Definition pictures_of (self : UI) (station : nat) : option (list WorkerId) :=
  match state self with
  | running =>
      match station_get station (assignment self) with
      | Some row => Some row
      | None => Some []
      end
  | _ => station_get station (assignment self)
  end.

Fixpoint worker_at_mouse_from (self : UI) (mouse_pos : Z * Z) (sts : list nat)
  : option (option WorkerId) :=
  match sts with
  | [] => Some None
  | station :: rest =>
      row <- pictures_of self station ;;
      match worker_in_row (picture_y self station) mouse_pos (enumerate row) with
      | Some wid => Some (Some wid)
      | None => worker_at_mouse_from self mouse_pos rest
      end
  end.

Definition get_worker_at_mouse (self : UI) (mouse_pos : Z * Z)
  : option (option WorkerId) :=
  worker_at_mouse_from self mouse_pos stations.

(** The events the handler looks at; [mouse_pos] is what
    [pygame.mouse.get_pos()] returns when the click is handled. *)
Inductive PygameEvent : Type :=
| QUIT
| MOUSEBUTTONDOWN (button : Z) (mouse_pos : Z * Z)
| MOUSEWHEEL (y : Z)
| OTHER.

Definition with_scroll (self : UI) (offset : Z) : UI :=
  {| state := state self;
     true_workers := true_workers self;
     factory_workers := factory_workers self;
     tasks := tasks self;
     assignment := assignment self;
     current_cycle_data := current_cycle_data self;
     cycle_history := cycle_history self;
     current_cycle_index := current_cycle_index self;
     final_results := final_results self;
     hovered_worker := hovered_worker self;
     animating := animating self;
     animation_progress := animation_progress self;
     old_assignment := old_assignment self;
     scroll_offset := offset;
     max_scroll := max_scroll self |}.

Definition move_up (rect : Z * Z * Z * Z) (offset : Z) : Z * Z * Z * Z :=
  let '(x, y, width, height) := rect in (x, (y - offset)%Z, width, height).

(** The body of the loop of [handle_events] for an event other than
    [QUIT]. *)
Definition handle_event (self : UI) (w : World) (event : PygameEvent)
  : option (UI * World) :=
  match event with
  | MOUSEBUTTONDOWN button mouse_pos =>
      if (button =? 1)%Z then
        match state self with
        | running =>
            if collidepoint next_cycle_button mouse_pos
            then self' <- next_cycle self ;; Some (self', w)
            else Some (self, w)
        | _ =>
            if collidepoint (move_up hire_button (scroll_offset self)) mouse_pos
            then hire_worker self w
            else if collidepoint (move_up start_button (scroll_offset self))
                                 mouse_pos
                    && (0 <? length (true_workers self))
                 then self' <- start_optimization self ;; Some (self', w)
                 else Some (self, w)
        end
      else if (button =? 3)%Z then
        found <- get_worker_at_mouse self mouse_pos ;;
        match found with
        | Some wid =>
            if truthy wid
            then self' <- fire_worker self wid ;; Some (self', w)
            else Some (self, w)
        | None => Some (self, w)
        end
      else Some (self, w)
  | MOUSEWHEEL y =>
      match state self with
      | running => Some (self, w)
      | _ =>
          Some (with_scroll self
                  (Z.max 0 (Z.min (max_scroll self)
                                  (scroll_offset self - y * 30))), w)
      end
  | _ => Some (self, w)
  end.

(** [handle_events]: [False] at the first [QUIT], [True] after the last
    event. *)
Fixpoint handle_events (events : list PygameEvent) (self : UI) (w : World)
  : option (bool * UI * World) :=
  match events with
  | [] => Some (true, self, w)
  | QUIT :: _ => Some (false, self, w)
  | event :: rest =>
      '(self', w') <- handle_event self w event ;;
      handle_events rest self' w'
  end.

End FactorySchedulerUI.
(* ================================================================== *)
(** * Vocabulary of the statements                                     *)
(* ================================================================== *)

(** The workers that [redistribute] sends to [station] when the first
    worker of [ws] has index [k]. *)
Fixpoint sel (k station : nat) (ws : list WorkerId) : list WorkerId :=
  match ws with
  | [] => []
  | w :: ws' =>
      if (k mod WSTATION + 1 =? station)
      then w :: sel (S k) station ws'
      else sel (S k) station ws'
  end.

(** The well-keyed assignment with sequence [f station] at each station. *)
Definition mk_assignment (f : nat -> list WorkerId) : Assignment :=
  map (fun station => (station, f station)) stations.

Definition row_of (a : Assignment) (station : nat) : list WorkerId :=
  match station_get station a with
  | Some row => row
  | None => []
  end.

(** Occupants of position [p], ascending stations, as a pure function of
    the station sequences. *)
Definition cohort_of (f : nat -> list WorkerId) (p : nat) : list (nat * WorkerId) :=
  flat_map (fun s => match nth_error (f s) p with
                     | Some w => [(s, w)]
                     | None => []
                     end) stations.

Definition max_len (f : nat -> list WorkerId) : nat :=
  fold_right Nat.max 0 (map (fun s => length (f s)) stations).

Definition round_robin_of (f : nat -> list WorkerId) : list WorkerId :=
  flat_map (fun p => map snd (cohort_of f p)) (seq 0 (max_len f)).

(** Every station's count differs from every other's by at most one. *)
Definition balanced (a : Assignment) : Prop :=
  forall s s' row row',
    station_get s a = Some row -> station_get s' a = Some row' ->
    length row <= length row' + 1.

Definition total_workers (a : Assignment) : nat := length (all_workers_of a).

Definition drop_worker (x : WorkerId) (ws : list WorkerId) : list WorkerId :=
  filter (fun wid => negb (String.eqb wid x)) ws.

Definition ids_of (store : Store) : list WorkerId := map worker_id store.

(** The index dictionary of a list of ids: what [factory_worker_dict] is
    for every store with these ids. *)
Definition id_index (ids : list WorkerId) : list (WorkerId * nat) :=
  dict_of String.eqb (fun iw => snd iw) (fun iw => fst iw) (enumerate ids).

(** A row without its position [p]. *)
Definition others {A : Type} (p : nat) (row : list A) : list A :=
  firstn p row ++ skipn (S p) row.

Definition occupant {A : Type} (p : nat) (row : list A) : list A :=
  match nth_error row p with
  | Some w => [w]
  | None => []
  end.

(** Two stores hold the same workers, related one by one by [P]. *)
Definition store_rel (P : FactoryWorkerProfile -> FactoryWorkerProfile -> Prop)
  (store store' : Store) : Prop :=
  length store' = length store
  /\ forall i prof, nth_error store i = Some prof ->
       exists prof', nth_error store' i = Some prof'
                     /\ worker_id prof' = worker_id prof
                     /\ P prof prof'.

(** The rotation phase adds at most one observation to a worker and
    station, and none where there is one already. *)
Definition grows_by_rotation (prof prof' : FactoryWorkerProfile) : Prop :=
  forall s,
    observations prof' s = observations prof s
    \/ (observations prof s = [] /\ exists v, observations prof' s = [v]).

(** At most [n w] observations are added per station to worker [w]. *)
Definition grows_at_most (n : WorkerId -> nat) (prof prof' : FactoryWorkerProfile)
  : Prop :=
  forall s, length (observations prof' s)
            <= length (observations prof s) + n (worker_id prof).

(** The percentage a probe of the gap filler records: the part of
    [probe_step] that does not touch the store. *)
Definition probe_value (true_worker_dict : list (WorkerId * TrueWorkerProfile))
  (tasks : list TaskProfile) (base_performance : list (nat * R))
  (wid : WorkerId) (test_station : nat) : option R :=
  true_worker <- dict_get String.eqb wid true_worker_dict ;;
  task <- nth_error tasks (test_station - 1) ;;
  individual_performance <-
    calculate_performance true_worker test_station
                          (delivery_time task) (fatigue_cost task) ;;
  base_perf <- dict_get Nat.eqb test_station base_performance ;;
  Some (isolated_percentage individual_performance base_perf).

Definition mem_nat (x : nat) (l : list nat) : bool := existsb (Nat.eqb x) l.

(** Worker [wid] gets the observation [val s] appended at every station
    of [ms]; nothing else changes. *)
Definition appended_at (wid : WorkerId) (ms : list nat) (val : nat -> option R)
  (prof prof' : FactoryWorkerProfile) : Prop :=
  forall s,
    if String.eqb (worker_id prof) wid && mem_nat s ms
    then exists v, val s = Some v
                   /\ observations prof' s = observations prof s ++ [v]
    else observations prof' s = observations prof s.

(** Every station of [stations] without data gets the single observation
    [val w s]; nothing else changes. *)
Definition gaps_filled (val : WorkerId -> nat -> option R)
  (prof prof' : FactoryWorkerProfile) : Prop :=
  forall s,
    if mem_nat s stations && negb (has_data_for_station prof s)
    then exists v, val (worker_id prof) s = Some v /\ observations prof' s = [v]
    else observations prof' s = observations prof s.

(** Worker [wid] gets the observation [val s] at every station of
    [stations] it has no data for; nothing else changes. *)
Definition filled_for (wid : WorkerId) (val : nat -> option R)
  (prof prof' : FactoryWorkerProfile) : Prop :=
  forall s,
    if String.eqb (worker_id prof) wid && mem_nat s stations
       && negb (has_data_for_station prof s)
    then exists v, val s = Some v /\ observations prof' s = [v]
    else observations prof' s = observations prof s.

(** The same for every worker of [wids]. *)
Definition filled_for_all (wids : list WorkerId) (val : WorkerId -> nat -> option R)
  (prof prof' : FactoryWorkerProfile) : Prop :=
  forall s,
    if mem_string (worker_id prof) wids && mem_nat s stations
       && negb (has_data_for_station prof s)
    then exists v, val (worker_id prof) s = Some v /\ observations prof' s = [v]
    else observations prof' s = observations prof s.

(** An event of the gap filler shows a per-probe copy of the assignment
    [a] the gap filler was given. *)
Definition probe_event (a : Assignment) (ev : Event) : Prop :=
  phase ev = incomplete_fix
  /\ exists wid test_station,
       probe_assignment wid (locate_worker wid a) test_station a
       = Some (assignment_of ev).

Definition true_worker_dict_of (true_workers : list TrueWorkerProfile)
  : list (WorkerId * TrueWorkerProfile) :=
  dict_of String.eqb true_worker_id (fun w => w) true_workers.

(** The ranges the parameters are sampled from, as far as the properties
    need them: delivery times are positive, fatigue costs and skills are
    not negative, the fatigue base is above -5. *)
Definition task_ok (t : TaskProfile) : Prop :=
  (0 < delivery_time t)%R /\ (0 <= fatigue_cost t)%R.

Definition true_worker_ok (tw : TrueWorkerProfile) : Prop :=
  (-5 < fatigue_base tw)%R
  /\ (0 <= skill1 tw)%R /\ (0 <= skill2 tw)%R /\ (0 <= skill3 tw)%R
  /\ (0 <= skill4 tw)%R /\ (0 <= skill5 tw)%R /\ (0 <= skill6 tw)%R.

(** One task per station, in station order, as [generate_task_profiles]
    builds them. *)
Definition tasks_ok (tasks : list TaskProfile) : Prop :=
  map station_id tasks = stations /\ forall t, In t tasks -> task_ok t.

Definition true_workers_ok (true_workers : list TrueWorkerProfile) : Prop :=
  forall tw, In tw true_workers -> true_worker_ok tw.

Definition task_dict_of (tasks : list TaskProfile) : list (nat * TaskProfile) :=
  dict_of Nat.eqb station_id (fun t => t) tasks.

(** A small session used to instantiate the statements: two workers, of
    which the first sits at station 1 and has been measured there. *)
Definition example_true_workers : list TrueWorkerProfile :=
  [{| true_worker_id := "0001"; skill1 := 1; skill2 := 2; skill3 := 3;
      skill4 := 4; skill5 := 5; skill6 := 6; fatigue_base := 1 |};
   {| true_worker_id := "0002"; skill1 := 6; skill2 := 5; skill3 := 4;
      skill4 := 3; skill5 := 2; skill6 := 1; fatigue_base := 2 |}].

Definition example_tasks : list TaskProfile :=
  map (fun s => {| station_id := s; delivery_time := 2; fatigue_cost := 1 |})
      stations.

Definition example_assignment : Assignment :=
  [(1, ["0001"]); (2, ["0002"]); (3, []); (4, []); (5, []); (6, [])]%string.

Definition example_fresh_store : Store :=
  [{| worker_id := "0001"; performance_percentages := [] |};
   {| worker_id := "0002"; performance_percentages := [] |}].

Definition example_store : Store :=
  [{| worker_id := "0001"; performance_percentages := [(1, [100%R])] |};
   {| worker_id := "0002"; performance_percentages := [(2, [100%R])] |}].

(** The learned average percentage of a worker for a station, as the store
    holds it; 0 for an unknown worker. *)
Definition learned_average (store : Store) (wid : WorkerId) (station : nat) : R :=
  match deref (factory_worker_dict store) store wid with
  | Some w => get_average_percentage w station
  | None => 0%R
  end.



(** An assignment with the shape of the original one (six stations, the
    same lengths) whose workers all have a profile. *)
Definition shaped (f : nat -> list WorkerId) (ids : list WorkerId)
  (a : Assignment) : Prop :=
  exists g,
    a = mk_assignment g
    /\ (forall s, length (g s) = length (f s))
    /\ (forall s w, In s stations -> In w (g s) -> In w ids).

(** Observations a worker holds over the stations 1..WSTATION. *)
Definition total_observations (prof : FactoryWorkerProfile) : nat :=
  fold_right Nat.add 0 (map (fun s => length (observations prof s)) stations).

(** Sum of a list of integers. *)
Definition zsum (l : list Z) : Z := fold_right Z.add 0%Z l.

(** [log'] is [log] followed by events that all satisfy [P]. *)
Definition log_extends (P : Event -> Prop) (log log' : list Event) : Prop :=
  exists evs, log' = log ++ evs /\ Forall P evs.

(** A six-station assignment whose workers all have a row in the score
    table. *)
Definition scored (scores : ScoreTable) (a : Assignment) : Prop :=
  exists g,
    a = mk_assignment g
    /\ forall s w, In s stations -> In w (g s) -> In w (map fst scores).



(** ** Vocabulary of the further properties *)

(** Every value of [random.random()] is in [0, 1). *)
Definition draws_ok (w : World) : Prop :=
  forall i, (0 <= random_stream w i < 1)%R.

(** A world whose generator always returns one half. *)
Definition example_world : World :=
  {| worker_id_counter := 1; random_stream := fun _ => (1 / 2)%R |}.

(** The number of workers that round-robin placement of [n] workers gives
    to [station]. *)
Definition quota (n station : nat) : nat :=
  n / WSTATION + (if station <=? n mod WSTATION then 1 else 0).

(** The assignment restricted to the workers that have a true profile. *)
Definition known_only (true_workers : list TrueWorkerProfile) (a : Assignment)
  : Assignment :=
  map (fun kv =>
         (fst kv,
          filter (fun wid =>
                    match dict_get String.eqb wid
                                   (true_worker_dict_of true_workers) with
                    | Some _ => true
                    | None => false
                    end) (snd kv))) a.

(** A greedy choice: going through the picks in order, each worker is one
    of [pw] that no earlier pick (nor [taken]) holds, and none of the
    workers still free has a higher score for the pick's station. *)
Fixpoint greedy_choice (score_at : WorkerId -> nat -> R) (pw taken : list WorkerId)
  (picks : list (nat * WorkerId)) : Prop :=
  match picks with
  | [] => True
  | (s, b) :: rest =>
      In b pw /\ ~ In b taken
      /\ (forall w, In w pw -> ~ In w taken -> (score_at w s <= score_at b s)%R)
      /\ greedy_choice score_at pw (b :: taken) rest
  end.

(** What the base phase adds to a profile: at every station, one
    observation of 100 for each time the worker stands in the station's
    sequence. *)
Definition base_recorded (a : Assignment) (prof prof' : FactoryWorkerProfile)
  : Prop :=
  forall s,
    observations prof' s
    = observations prof s
      ++ repeat 100%R (count_occ string_dec (row_of a s) (worker_id prof)).

(** Two profiles with one observation at each station. *)
Definition example_complete_store : Store :=
  [{| worker_id := "0001";
      performance_percentages := map (fun s => (s, [100%R])) stations |};
   {| worker_id := "0002";
      performance_percentages := map (fun s => (s, [100%R])) stations |}].

(** *** Sessions of the window *)

Section WindowVocabulary.
Import FactorySchedulerUI.

(** The ids of the hired workers, in hiring order. *)
Definition hired (ui : UI) : list WorkerId :=
  map true_worker_id (true_workers ui).

(** An assignment of the six stations that holds exactly the workers
    [ids], each once, with the station sizes of a sequential placement. *)
Definition places (ids : list WorkerId) (a : Assignment) : Prop :=
  well_keyed a
  /\ (forall s, In s stations -> length (row_of a s) = quota (length ids) s)
  /\ Permutation (all_workers_of a) ids.

(** A sound session: draws and parameters in range, one factory profile
    per hired worker in the same order, distinct ids that were written
    for earlier values of the counter, an assignment that places the
    hired workers, and, while a run is shown, a current event and a report
    whose assignment places the hired workers. *)
Definition session_ok (ui : UI) (w : World) : Prop :=
  draws_ok w
  /\ tasks_ok (tasks ui)
  /\ true_workers_ok (true_workers ui)
  /\ ids_of (factory_workers ui) = hired ui
  /\ NoDup (hired ui)
  /\ (forall id, In id (hired ui) ->
                 exists k, k < worker_id_counter w /\ id = format_04d k)
  /\ places (hired ui) (assignment ui)
  /\ (state ui = running ->
      current_cycle_data ui <> None
      /\ exists results,
           final_results ui = Some results
           /\ places (hired ui) (results_assignment results)).

(** Two windows that show the same session: they differ at most in the
    hover, scroll and animation fields, which drawing updates. *)
Definition same_session (ui ui' : UI) : Prop :=
  state ui' = state ui
  /\ true_workers ui' = true_workers ui
  /\ factory_workers ui' = factory_workers ui
  /\ tasks ui' = tasks ui
  /\ assignment ui' = assignment ui
  /\ current_cycle_data ui' = current_cycle_data ui
  /\ cycle_history ui' = cycle_history ui
  /\ current_cycle_index ui' = current_cycle_index ui
  /\ final_results ui' = final_results ui.

(** A right click while a run is shown. *)
Definition fires_while_running (ui : UI) (event : PygameEvent) : Prop :=
  state ui = running /\ exists mouse_pos, event = MOUSEBUTTONDOWN 3 mouse_pos.

(** The windows that the main loop reaches from a fresh window by
    handling events and redrawing, no worker being fired while a run is
    shown. *)
Inductive reachable : UI -> World -> Prop :=
| reach_init (w : World) :
    draws_ok w -> reachable (fst (init w)) (snd (init w))
| reach_event (ui : UI) (w : World) (event : PygameEvent) (ui' : UI) (w' : World) :
    reachable ui w ->
    ~ fires_while_running ui event ->
    handle_event ui w event = Some (ui', w') ->
    reachable ui' w'
| reach_redraw (ui : UI) (w : World) (ui' : UI) :
    reachable ui w -> same_session ui ui' -> reachable ui' w.

(** The mouse is in the picture, 67 by 85, that the hit test gives to the
    worker of index [idx] at [station]. *)
Definition in_picture (ui : UI) (station idx : nat) (pos : Z * Z) : Prop :=
  (200 + Z.of_nat idx * 80 <= fst pos < 200 + Z.of_nat idx * 80 + 67)%Z
  /\ (picture_y ui station <= snd pos < picture_y ui station + 85)%Z.

(** [k] presses of the next-cycle button. *)
Fixpoint presses (k : nat) (ui : UI) : option UI :=
  match k with
  | 0 => Some ui
  | S k' => ui' <- next_cycle ui ;; presses k' ui'
  end.

(** A fresh window in which one worker has been hired. *)
Definition example_window : UI * World :=
  match hire_worker (fst (init example_world)) (snd (init example_world)) with
  | Some hired_one => hired_one
  | None => init example_world
  end.

End WindowVocabulary.

(** *** The energy average in binary64 arithmetic

    Where a property depends on the range of a Python float, the
    computation is given again over the kernel's binary64 numbers, with
    the operations of [calculate_energy_avg] in their order.  [math.exp]
    is the C library's function, [libm_exp], with the checks that Python
    adds: an infinite or undefined result of a finite argument raises.
    Its values at the infinities are those of the C standard. *)

Module Binary64.
Import PrimFloat.
Local Open Scope float_scope.

(** [x / y]; a zero divisor raises [ZeroDivisionError]. *)
Definition fdiv (x y : float) : option float :=
  if y =? 0 then None else Some (x / y).

Definition math_exp (libm_exp : float -> float) (x : float) : option float :=
  if is_nan x then Some x
  else if is_infinity x then Some (if x <? 0 then 0 else infinity)
  else
    let r := libm_exp x in
    if is_infinity r || is_nan r then None else Some r.

(** The literal [0.001] is the binary64 number nearest to it. *)
Definition calculate_energy_avg (libm_exp : float -> float)
  (fatigue_base fatigue_cost T : float) : option float :=
  k <- fdiv fatigue_cost (fatigue_base + 5) ;;
  if k * T <? 0x1.0624dd2f1a9fcp-10 then Some 1
  else
    e <- math_exp libm_exp (- k * T) ;;
    fdiv (1 - e) (k * T).

End Binary64.

(** *** The rotation phase as its events show it *)












(* ================================================================== *)
(** * Part II: properties                                              *)
(* ================================================================== *)

(** ** Round-robin placement *)

Lemma mk_assignment_ext (f g : nat -> list WorkerId) :
  (forall s, In s stations -> f s = g s) -> mk_assignment f = mk_assignment g.
Proof.
  intros H. unfold mk_assignment. apply map_ext_in.
  intros s Hs. now rewrite H.
Qed.

Lemma well_keyed_mk (a : Assignment) :
  well_keyed a -> a = mk_assignment (row_of a).
Proof.
  unfold well_keyed, stations, WSTATION. intros H.
  destruct a as [|[k1 r1] [|[k2 r2] [|[k3 r3] [|[k4 r4] [|[k5 r5] [|[k6 r6] [|? ?]]]]]]];
    simpl in H; try discriminate.
  injection H as -> -> -> -> -> ->. reflexivity.
Qed.

Lemma mk_well_keyed (f : nat -> list WorkerId) : well_keyed (mk_assignment f).
Proof.
  unfold well_keyed, mk_assignment. rewrite map_map. apply map_id.
Qed.

Lemma in_stations (s : nat) : In s stations <-> 1 <= s <= 6.
Proof.
  unfold stations, WSTATION. rewrite in_seq. lia.
Qed.

Lemma station_get_mk (f : nat -> list WorkerId) (s : nat) :
  In s stations -> station_get s (mk_assignment f) = Some (f s).
Proof.
  rewrite in_stations. intros Hs.
  destruct s as [|[|[|[|[|[|[|s]]]]]]]; try lia; reflexivity.
Qed.

Lemma station_get_mk_none (f : nat -> list WorkerId) (s : nat) :
  ~ In s stations -> station_get s (mk_assignment f) = None.
Proof.
  rewrite in_stations. intros Hs.
  destruct s as [|[|[|[|[|[|[|s]]]]]]]; try lia; reflexivity.
Qed.

Lemma row_of_mk (f : nat -> list WorkerId) (s : nat) :
  In s stations -> row_of (mk_assignment f) s = f s.
Proof.
  intros Hs. unfold row_of. now rewrite station_get_mk.
Qed.

Lemma station_set_mk (f : nat -> list WorkerId) (s : nat) (row : list WorkerId) :
  In s stations ->
  station_set s row (mk_assignment f)
  = mk_assignment (fun s' => if s' =? s then row else f s').
Proof.
  rewrite in_stations. intros Hs.
  destruct s as [|[|[|[|[|[|[|s]]]]]]]; try lia; reflexivity.
Qed.

Lemma station_append_mk (f : nat -> list WorkerId) (s : nat) (w : WorkerId) :
  In s stations ->
  station_append s w (mk_assignment f)
  = Some (mk_assignment (fun s' => f s' ++ (if s' =? s then [w] else []))).
Proof.
  intros Hs. unfold station_append.
  rewrite station_get_mk by assumption. cbn [bind].
  rewrite station_set_mk by assumption. f_equal.
  apply mk_assignment_ext. intros s' _.
  destruct (s' =? s) eqn:E.
  - apply Nat.eqb_eq in E. now subst.
  - now rewrite app_nil_r.
Qed.

Lemma mod_station_in (k : nat) : In (k mod WSTATION + 1) stations.
Proof.
  rewrite in_stations. unfold WSTATION.
  pose proof (Nat.mod_upper_bound k 6). lia.
Qed.

Lemma redistribute_from (ws : list WorkerId) :
  forall (k : nat) (f : nat -> list WorkerId),
    foldM (fun acc iw => station_append ((fst iw) mod WSTATION + 1) (snd iw) acc)
          (combine (seq k (length ws)) ws) (mk_assignment f)
    = Some (mk_assignment (fun s => f s ++ sel k s ws)).
Proof.
  induction ws as [|w ws IH]; intros k f.
  - simpl. f_equal. apply mk_assignment_ext. intros s _. now rewrite app_nil_r.
  - cbn [length seq combine foldM fst snd].
    rewrite station_append_mk by apply mod_station_in.
    cbn [bind]. rewrite IH. f_equal.
    apply mk_assignment_ext. intros s _. cbn [sel].
    rewrite <- app_assoc. f_equal.
    rewrite (Nat.eqb_sym s).
    destruct (k mod WSTATION + 1 =? s); reflexivity.
Qed.

Lemma create_initial_assignment_rows (ws : list WorkerId) :
  create_initial_assignment_sequential ws = Some (mk_assignment (fun s => sel 0 s ws)).
Proof.
  unfold create_initial_assignment_sequential, redistribute, enumerate.
  change empty_assignment with (mk_assignment (fun _ => [])).
  rewrite redistribute_from. reflexivity.
Qed.

(** A loop that only appends to its accumulator and cannot fail. *)
Lemma foldM_appending {A B : Type} (step : list B -> A -> option (list B))
  (g : A -> list B) (xs : list A) :
  (forall acc x, In x xs -> step acc x = Some (acc ++ g x)) ->
  forall acc, foldM step xs acc = Some (acc ++ flat_map g xs).
Proof.
  induction xs as [|x xs IH]; intros H acc.
  - simpl. now rewrite app_nil_r.
  - cbn [foldM flat_map]. rewrite H by now left. cbn [bind].
    rewrite IH by (intros; apply H; now right).
    now rewrite app_assoc.
Qed.

Lemma position_cohort_mk (f : nat -> list WorkerId) (p : nat) :
  position_cohort (mk_assignment f) p = Some (cohort_of f p).
Proof.
  unfold position_cohort, cohort_of.
  rewrite foldM_appending with
    (g := fun s => match nth_error (f s) p with Some w => [(s, w)] | None => [] end).
  - reflexivity.
  - intros acc s Hs. rewrite station_get_mk by assumption. cbn [bind].
    destruct (nth_error (f s) p); [reflexivity | now rewrite app_nil_r].
Qed.

Lemma max_workers_per_station_mk (f : nat -> list WorkerId) :
  max_workers_per_station (mk_assignment f) = Some (max_len f).
Proof.
  unfold max_workers_per_station, max_len, mk_assignment.
  rewrite map_map. reflexivity.
Qed.

Lemma round_robin_order_mk (f : nat -> list WorkerId) :
  round_robin_order (mk_assignment f)
  = Some (flat_map (fun p => map snd (cohort_of f p)) (seq 0 (max_len f))).
Proof.
  unfold round_robin_order. rewrite max_workers_per_station_mk. cbn [bind].
  rewrite foldM_appending with (g := fun p => map snd (cohort_of f p)).
  - reflexivity.
  - intros acc p _. now rewrite position_cohort_mk.
Qed.

Lemma list_ind6 {A : Type} (P : list A -> Prop) :
  (forall l, length l < 6 -> P l) ->
  (forall a b c d e f l, P l -> P (a :: b :: c :: d :: e :: f :: l)) ->
  forall l, P l.
Proof.
  intros Hbase Hstep l.
  remember (length l) as n eqn:Hn. revert l Hn.
  induction n as [n IH] using lt_wf_ind. intros l Hn.
  destruct (Nat.lt_ge_cases (length l) 6) as [Hlt|Hge].
  - now apply Hbase.
  - destruct l as [|a [|b [|c [|d [|e [|f l]]]]]]; simpl in Hge; try lia.
    apply Hstep. apply (IH (length l)); [subst n; simpl; lia | reflexivity].
Qed.

Lemma sel_shift (ws : list WorkerId) :
  forall k s, sel (k + 6) s ws = sel k s ws.
Proof.
  induction ws as [|w ws IH]; intros k s; [reflexivity|].
  cbn [sel]. change (S (k + 6)) with (S k + 6). rewrite !IH.
  unfold WSTATION.
  replace ((k + 6) mod 6) with (k mod 6)
    by (rewrite <- (Nat.Div0.mod_add k 1 6); f_equal; lia).
  reflexivity.
Qed.

Lemma sel_chunk (a b c d e f : WorkerId) (ws : list WorkerId) (s : nat) :
  In s stations ->
  sel 0 s (a :: b :: c :: d :: e :: f :: ws)
  = nth (s - 1) [a; b; c; d; e; f] a :: sel 0 s ws.
Proof.
  rewrite in_stations. intros Hs.
  rewrite <- (sel_shift ws 0 s).
  destruct s as [|[|[|[|[|[|[|s]]]]]]]; try lia; reflexivity.
Qed.

Lemma sel_length (ws : list WorkerId) (s : nat) :
  In s stations ->
  length (sel 0 s ws)
  = length ws / 6 + (if s <=? length ws mod 6 then 1 else 0).
Proof.
  intros Hs. induction ws as [ws Hlen | a b c d e f ws IH] using list_ind6.
  - apply in_stations in Hs.
    destruct ws as [|a [|b [|c [|d [|e [|f ws]]]]]]; simpl in Hlen; try lia;
      destruct s as [|[|[|[|[|[|[|s]]]]]]]; try lia; reflexivity.
  - rewrite sel_chunk by assumption. cbn [length]. rewrite IH.
    replace (S (S (S (S (S (S (length ws))))))) with (length ws + 1 * 6) by lia.
    rewrite Nat.div_add by lia. rewrite Nat.Div0.mod_add. lia.
Qed.

Lemma round_robin_of_cons (f g : nat -> list WorkerId) (h : nat -> WorkerId) :
  (forall s, In s stations -> f s = h s :: g s) ->
  round_robin_of f = map h stations ++ round_robin_of g.
Proof.
  intros H. unfold round_robin_of.
  assert (Hmax : max_len f = S (max_len g)).
  { unfold max_len, stations, WSTATION. cbn [seq map fold_right].
    rewrite !H by (apply in_stations; lia). cbn [length]. lia. }
  assert (H0 : map snd (cohort_of f 0) = map h stations).
  { unfold cohort_of, stations, WSTATION. cbn [seq flat_map].
    rewrite !H by (apply in_stations; lia). reflexivity. }
  assert (HS : forall p, cohort_of f (S p) = cohort_of g p).
  { intros p. unfold cohort_of. rewrite !flat_map_concat_map. f_equal.
    apply map_ext_in. intros s Hs. now rewrite H. }
  rewrite Hmax. cbn [seq flat_map]. rewrite H0. f_equal.
  rewrite <- seq_shift.
  rewrite !flat_map_concat_map, map_map. f_equal.
  apply map_ext. intros p. now rewrite HS.
Qed.

Lemma round_robin_of_sel (ws : list WorkerId) :
  round_robin_of (fun s => sel 0 s ws) = ws.
Proof.
  induction ws as [ws Hlen | a b c d e f ws IH] using list_ind6.
  - destruct ws as [|a [|b [|c [|d [|e [|f ws]]]]]]; simpl in Hlen; try lia;
      reflexivity.
  - rewrite round_robin_of_cons
      with (g := fun s => sel 0 s ws)
           (h := fun s => nth (s - 1) [a; b; c; d; e; f] a).
    + rewrite IH. reflexivity.
    + intros s Hs. now apply sel_chunk.
Qed.

Lemma all_workers_of_mk (f : nat -> list WorkerId) :
  all_workers_of (mk_assignment f) = flat_map f stations.
Proof.
  unfold all_workers_of, mk_assignment.
  rewrite map_map, flat_map_concat_map. reflexivity.
Qed.

Lemma concat_sel_short (ws : list WorkerId) :
  length ws <= 6 -> flat_map (fun s => sel 0 s ws) stations = ws.
Proof.
  intros Hlen.
  destruct ws as [|a [|b [|c [|d [|e [|f [|g ws]]]]]]]; simpl in Hlen; try lia;
    reflexivity.
Qed.

Lemma balanced_sel (ws : list WorkerId) :
  balanced (mk_assignment (fun s => sel 0 s ws)).
Proof.
  intros s s' row row' H H'.
  destruct (in_dec Nat.eq_dec s stations) as [Hs|Hs];
    [|rewrite station_get_mk_none in H by assumption; discriminate].
  destruct (in_dec Nat.eq_dec s' stations) as [Hs'|Hs'];
    [|rewrite station_get_mk_none in H' by assumption; discriminate].
  rewrite station_get_mk in H, H' by assumption.
  injection H as <-. injection H' as <-.
  rewrite !sel_length by assumption.
  destruct (s <=? length ws mod 6), (s' <=? length ws mod 6); lia.
Qed.

Lemma flat_map_cons_perm {A B : Type} (h : A -> B) (g : A -> list B) (l : list A) :
  Permutation (flat_map (fun s => h s :: g s) l) (map h l ++ flat_map g l).
Proof.
  induction l as [|a l IH]; [constructor|].
  cbn [flat_map map app]. apply perm_skip.
  rewrite IH. apply Permutation_app_swap_app.
Qed.

Lemma flat_map_ext_on {A B : Type} (f g : A -> list B) (l : list A) :
  (forall x, In x l -> f x = g x) -> flat_map f l = flat_map g l.
Proof.
  intros H. rewrite !flat_map_concat_map. f_equal. now apply map_ext_in.
Qed.

Lemma sel_permutation (ws : list WorkerId) :
  Permutation (flat_map (fun s => sel 0 s ws) stations) ws.
Proof.
  induction ws as [ws Hlen | a b c d e f ws IH] using list_ind6.
  - rewrite concat_sel_short by lia. reflexivity.
  - rewrite flat_map_ext_on
      with (g := fun s => nth (s - 1) [a; b; c; d; e; f] a :: sel 0 s ws)
      by (intros s Hs; now apply sel_chunk).
    rewrite flat_map_cons_perm. rewrite IH. reflexivity.
Qed.

Lemma drop_worker_length (x : WorkerId) (ws : list WorkerId) :
  length (drop_worker x ws) = length ws - count_occ string_dec ws x.
Proof.
  induction ws as [|w ws IH]; [reflexivity|].
  cbn [drop_worker filter count_occ length].
  fold (drop_worker x ws).
  pose proof (count_occ_bound string_dec x ws) as Hb.
  destruct (string_dec w x) as [->|Hne].
  - rewrite String.eqb_refl. cbn [negb]. lia.
  - apply String.eqb_neq in Hne. rewrite Hne. cbn [negb length]. lia.
Qed.

Lemma drop_worker_not_in (x : WorkerId) (ws : list WorkerId) :
  ~ In x (drop_worker x ws).
Proof.
  unfold drop_worker. rewrite filter_In. intros [_ H].
  now rewrite String.eqb_refl in H.
Qed.

Lemma remaining_workers_mk (x : WorkerId) (f : nat -> list WorkerId) :
  remaining_workers x (mk_assignment f)
  = Some (drop_worker x (all_workers_of (mk_assignment f))).
Proof.
  unfold remaining_workers.
  rewrite foldM_appending with (g := fun s => drop_worker x (f s)).
  - rewrite all_workers_of_mk. f_equal. cbn [app].
    unfold drop_worker. generalize stations as l.
    induction l as [|s l IH]; [reflexivity|].
    cbn [flat_map]. now rewrite filter_app, IH.
  - intros acc s Hs. now rewrite station_get_mk.
Qed.

(** C3 (as amended).  Round-robin placement balances the stations to within
    one worker; the hire order is what reading the result position by
    position (stations ascending within a position) gives back, and the
    plain concatenation of the stations gives it back when there are at
    most [WSTATION] workers. *)
Theorem create_initial_assignment_sequential_round_robin :
  forall worker_ids : list WorkerId,
  exists a,
    create_initial_assignment_sequential worker_ids = Some a
    /\ well_keyed a
    /\ balanced a
    /\ Permutation (all_workers_of a) worker_ids
    /\ round_robin_order a = Some worker_ids
    /\ (length worker_ids <= WSTATION -> all_workers_of a = worker_ids).
Proof.
  intros ws. exists (mk_assignment (fun s => sel 0 s ws)).
  split; [apply create_initial_assignment_rows|].
  split; [apply mk_well_keyed|].
  split; [apply balanced_sel|].
  split; [rewrite all_workers_of_mk; apply sel_permutation|].
  split.
  - rewrite round_robin_order_mk. f_equal. apply round_robin_of_sel.
  - intros Hlen. rewrite all_workers_of_mk. now apply concat_sel_short.
Qed.

(** C3, as stated, fails: with seven workers the seventh joins station 1,
    so the concatenation of the stations is not the hire order. *)
Lemma create_initial_assignment_concat_counterexample :
  exists a,
    create_initial_assignment_sequential
      ["0001"; "0002"; "0003"; "0004"; "0005"; "0006"; "0007"]%string = Some a
    /\ all_workers_of a
       = ["0001"; "0007"; "0002"; "0003"; "0004"; "0005"; "0006"]%string
    /\ all_workers_of a
       <> ["0001"; "0002"; "0003"; "0004"; "0005"; "0006"; "0007"]%string.
Proof.
  eexists. split; [reflexivity|]. split; [reflexivity|]. discriminate.
Qed.

(** C4 (as amended).  Firing a worker that occurs exactly once in a
    six-station assignment of n workers returns an assignment of n-1
    workers without that worker: it is the round-robin placement of the
    remaining workers taken in their station-ascending, within-station
    order before the fire, so reading it position by position (stations
    ascending within a position) gives exactly that order; the
    station-by-station concatenation gives it when at most [WSTATION]
    workers remain. *)
Theorem fire_worker_from_assignment_preserves_order :
  forall (worker_id : WorkerId) (assignment : Assignment),
    well_keyed assignment ->
    count_occ string_dec (all_workers_of assignment) worker_id = 1 ->
    exists a',
      fire_worker_from_assignment worker_id assignment = Some a'
      /\ well_keyed a'
      /\ total_workers a' = total_workers assignment - 1
      /\ ~ In worker_id (all_workers_of a')
      /\ Permutation (all_workers_of a')
                     (drop_worker worker_id (all_workers_of assignment))
      /\ create_initial_assignment_sequential
           (drop_worker worker_id (all_workers_of assignment)) = Some a'
      /\ round_robin_order a'
         = Some (drop_worker worker_id (all_workers_of assignment))
      /\ (total_workers assignment <= WSTATION + 1 ->
          all_workers_of a' = drop_worker worker_id (all_workers_of assignment)).
Proof.
  intros x a Hk Hc.
  set (ws := drop_worker x (all_workers_of a)).
  exists (mk_assignment (fun s => sel 0 s ws)).
  assert (Hperm : Permutation (all_workers_of (mk_assignment (fun s => sel 0 s ws))) ws)
    by (rewrite all_workers_of_mk; apply sel_permutation).
  assert (Hlen : length ws = total_workers a - 1)
    by (unfold ws, total_workers; rewrite drop_worker_length; lia).
  split.
  { unfold fire_worker_from_assignment.
    rewrite (well_keyed_mk _ Hk) at 1. rewrite remaining_workers_mk.
    rewrite <- (well_keyed_mk _ Hk). cbn [bind]. fold ws.
    apply create_initial_assignment_rows. }
  split; [apply mk_well_keyed|].
  split; [unfold total_workers at 1; now rewrite (Permutation_length Hperm)|].
  split; [intros Hin; apply (Permutation_in _ Hperm) in Hin;
          now apply drop_worker_not_in in Hin|].
  split; [exact Hperm|].
  split; [apply create_initial_assignment_rows|].
  split.
  - rewrite round_robin_order_mk. f_equal. apply round_robin_of_sel.
  - intros Hn. rewrite all_workers_of_mk. apply concat_sel_short.
    unfold WSTATION in Hn. lia.
Qed.

(** C4, as stated, fails when more than [WSTATION] workers remain: firing
    0002 from eight workers leaves seven, the seventh of which (0006) is
    placed second in station 1, ahead of 0007, 0008 and the others that
    preceded it in station-ascending, within-station order before the
    fire. *)
Lemma fire_worker_concat_counterexample :
  exists a',
    fire_worker_from_assignment "0002"
      [(1, ["0001"; "0007"]); (2, ["0002"; "0008"]); (3, ["0003"]);
       (4, ["0004"]); (5, ["0005"]); (6, ["0006"])]%string = Some a'
    /\ a' = [(1, ["0001"; "0006"]); (2, ["0007"]); (3, ["0008"]);
             (4, ["0003"]); (5, ["0004"]); (6, ["0005"])]%string
    /\ index_of "0007"
         (all_workers_of
            [(1, ["0001"; "0007"]); (2, ["0002"; "0008"]); (3, ["0003"]);
             (4, ["0004"]); (5, ["0005"]); (6, ["0006"])]%string)
       < index_of "0006"
           (all_workers_of
              [(1, ["0001"; "0007"]); (2, ["0002"; "0008"]); (3, ["0003"]);
               (4, ["0004"]); (5, ["0005"]); (6, ["0006"])]%string)
    /\ index_of "0006" (all_workers_of a') < index_of "0007" (all_workers_of a').
Proof.
  eexists. split; [reflexivity|]. split; [reflexivity|]. split; cbn; lia.
Qed.

Lemma fire_worker_from_assignment_preserves_order_witness :
  exists a',
    fire_worker_from_assignment "0002"
      [(1, ["0001"; "0007"]); (2, ["0002"; "0008"]); (3, ["0003"]);
       (4, ["0004"]); (5, ["0005"]); (6, ["0006"])]%string = Some a'
    /\ round_robin_order a'
       = Some ["0001"; "0007"; "0008"; "0003"; "0004"; "0005"; "0006"]%string.
Proof.
  destruct (@fire_worker_from_assignment_preserves_order "0002"%string
              [(1, ["0001"; "0007"]); (2, ["0002"; "0008"]); (3, ["0003"]);
               (4, ["0004"]); (5, ["0005"]); (6, ["0006"])]%string
              eq_refl eq_refl)
    as [a' [H1 [_ [_ [_ [_ [_ [H2 _]]]]]]]].
  exists a'. split; [exact H1 | exact H2].
Defined.


(** ** Energy average *)

Lemma energy_ratio_bounds (x : R) :
  (0 < x)%R -> (0 < (1 - exp (- x)) / x < 1)%R.
Proof.
  intros Hx.
  assert (H1 : (exp (- x) < 1)%R).
  { rewrite <- exp_0. apply exp_increasing. lra. }
  assert (H2 : (1 + - x < exp (- x))%R) by (apply exp_ineq1; lra).
  assert (H3 : (0 < / x)%R) by now apply Rinv_0_lt_compat.
  assert (H4 : (x * / x = 1)%R) by (apply Rinv_r; lra).
  unfold Rdiv. split; nra.
Qed.


Lemma rdiv_some (x y : R) : y <> 0%R -> rdiv x y = Some (x / y)%R.
Proof.
  intros Hy. unfold rdiv. destruct (Req_dec_T y 0); [contradiction | reflexivity].
Qed.

(** The value of [calculate_energy_avg] wherever the fatigue base exceeds
    -5 and the fatigue cost is not negative. *)
Lemma calculate_energy_avg_value (self : TrueWorkerProfile) (cost : R) :
  (-5 < fatigue_base self)%R -> (0 <= cost)%R ->
  exists e,
    calculate_energy_avg self cost SIMULATION_TIME = Some e
    /\ (0 < e <= 1)%R
    /\ ((cost / (fatigue_base self + 5) * SIMULATION_TIME < 1 / 1000)%R -> e = 1%R)
    /\ (~ (cost / (fatigue_base self + 5) * SIMULATION_TIME < 1 / 1000)%R ->
        e = ((1 - exp (- (cost / (fatigue_base self + 5) * SIMULATION_TIME)))
             / (cost / (fatigue_base self + 5) * SIMULATION_TIME))%R
        /\ (0 < e < 1)%R).
Proof.
  intros Hb Hc. unfold calculate_energy_avg.
  rewrite rdiv_some by lra. cbn [bind].
  set (x := (cost / (fatigue_base self + 5) * SIMULATION_TIME)%R).
  destruct (Rlt_dec x (1 / 1000)) as [Hlt|Hge].
  - exists 1%R. repeat split; intros; try lra; try contradiction.
  - assert (Hx : (0 < x)%R) by lra.
    rewrite rdiv_some by lra.
    replace (- (cost / (fatigue_base self + 5)) * SIMULATION_TIME)%R with (- x)%R
      by (unfold x; ring).
    pose proof (energy_ratio_bounds _ Hx) as Hr.
    eexists. split; [reflexivity|]. repeat split; intros; try lra; try contradiction.
Qed.



Section BinaryOverflow.
Import PrimFloat.
Local Open Scope float_scope.


End BinaryOverflow.

(** ** Solver quotas *)

(** C7.  For a worker count N >= 0 and six stations the solver's quota of
    station i is N div 6, plus one exactly when i <= N mod 6; the quotas sum
    to N and exactly N mod 6 stations get the extra worker. *)
Theorem workers_needed_per_station_quota :
  forall num_workers : Z,
    (0 <= num_workers)%Z ->
    map fst (workers_needed_per_station num_workers) = stations
    /\ (forall station,
           In station stations ->
           dict_get Nat.eqb station (workers_needed_per_station num_workers)
           = Some (num_workers / 6
                   + (if (Z.of_nat station <=? num_workers mod 6)%Z
                      then 1 else 0))%Z)
    /\ zsum (map snd (workers_needed_per_station num_workers)) = num_workers
    /\ Z.of_nat (length (filter (fun kv => (snd kv =? num_workers / 6 + 1)%Z)
                                (workers_needed_per_station num_workers)))
       = (num_workers mod 6)%Z
    /\ (forall kv, In kv (workers_needed_per_station num_workers) ->
                   snd kv = (num_workers / 6)%Z
                   \/ snd kv = (num_workers / 6 + 1)%Z).
Proof.
  intros N HN.
  pose proof (Z.mod_pos_bound N 6 ltac:(lia)) as Hr.
  pose proof (Z.div_mod N 6 ltac:(lia)) as Hd.
  unfold workers_needed_per_station, stations, WSTATION.
  change (Z.of_nat 6) with 6%Z.
  remember (N / 6)%Z as q eqn:Hq. remember (N mod 6)%Z as r eqn:Hrr.
  assert (Hcases : r = 0%Z \/ r = 1%Z \/ r = 2%Z \/ r = 3%Z \/ r = 4%Z \/ r = 5%Z)
    by lia.
  split; [reflexivity|]. split.
  { intros s Hs. apply in_seq in Hs.
    destruct s as [|[|[|[|[|[|[|s]]]]]]]; try lia; reflexivity. }
  assert (Hne : (q =? q + 1)%Z = false) by (apply Z.eqb_neq; lia).
  destruct Hcases as [->|[->|[->|[->|[->| ->]]]]]; cbn [seq map Z.of_nat Pos.of_succ_nat Pos.succ Z.leb Z.compare Pos.compare Pos.compare_cont zsum fold_right snd filter];
    rewrite ?Z.add_0_r, ?Z.eqb_refl, ?Hne; cbn [length Z.of_nat Pos.of_succ_nat Pos.succ];
    (split; [lia|]); (split; [reflexivity|]);
    intros kv Hin; cbn [In] in Hin;
    repeat (destruct Hin as [<-|Hin]; [cbn [snd]; lia|]); contradiction.
Qed.

Lemma workers_needed_per_station_quota_witness :
  zsum (map snd (workers_needed_per_station 8)) = 8%Z.
Proof.
  exact (proj1 (proj2 (proj2 (@workers_needed_per_station_quota 8%Z ltac:(lia))))).
Defined.


(** ** Dictionaries *)

Section DictFacts.
Variables K V : Type.
Variable eqb : K -> K -> bool.
Hypothesis eqb_eq : forall x y, eqb x y = true <-> x = y.

Lemma dict_get_set (k k' : K) (v : V) (d : list (K * V)) :
  dict_get eqb k (dict_set eqb k' v d)
  = if eqb k k' then Some v else dict_get eqb k d.
Proof.
  induction d as [|[k0 v0] d IH]; cbn [dict_set dict_get].
  - reflexivity.
  - destruct (eqb k' k0) eqn:E'; cbn [dict_get].
    + apply eqb_eq in E'. subst k0.
      destruct (eqb k k'); reflexivity.
    + destruct (eqb k k0) eqn:E0.
      * destruct (eqb k k') eqn:E; [|reflexivity].
        apply eqb_eq in E, E0. subst. 
        assert (eqb k0 k0 = true) by now apply eqb_eq. congruence.
      * exact IH.
Qed.


Variable A : Type.
Variable key : A -> K.
Variable value : A -> V.

Lemma dict_of_snoc (l : list A) (x : A) :
  dict_of eqb key value (l ++ [x])
  = dict_set eqb (key x) (value x) (dict_of eqb key value l).
Proof.
  unfold dict_of. now rewrite fold_left_app.
Qed.

Lemma dict_of_get_some (l : list A) (k : K) (v : V) :
  dict_get eqb k (dict_of eqb key value l) = Some v ->
  exists x, In x l /\ key x = k /\ value x = v.
Proof.
  induction l as [|x l IH] using rev_ind.
  - discriminate.
  - rewrite dict_of_snoc, dict_get_set.
    destruct (eqb k (key x)) eqn:E.
    + intros [= <-]. apply eqb_eq in E. exists x.
      rewrite in_app_iff. cbn [In]. auto.
    + intros H. destruct (IH H) as [y [Hy [Hk Hv]]].
      exists y. rewrite in_app_iff. auto.
Qed.

Lemma dict_of_get_in (l : list A) (k : K) :
  In k (map key l) -> dict_get eqb k (dict_of eqb key value l) <> None.
Proof.
  induction l as [|x l IH] using rev_ind.
  - intros [].
  - rewrite map_app, in_app_iff, dict_of_snoc, dict_get_set. cbn [map In].
    destruct (eqb k (key x)) eqn:E; [discriminate|].
    intros [H|[H|[]]]; [now apply IH|].
    symmetry in H. apply eqb_eq in H. congruence.
Qed.

Lemma dict_of_get_none (l : list A) (k : K) :
  ~ In k (map key l) -> dict_get eqb k (dict_of eqb key value l) = None.
Proof.
  intros Hin. destruct (dict_get eqb k (dict_of eqb key value l)) eqn:E;
    [|reflexivity].
  apply dict_of_get_some in E. destruct E as [x [Hx [Hk _]]].
  contradiction Hin. rewrite <- Hk. now apply in_map.
Qed.

End DictFacts.

Lemma dict_of_map {A B K V : Type} (eqb : K -> K -> bool) (key : B -> K)
  (value : B -> V) (h : A -> B) (l : list A) :
  dict_of eqb key value (map h l)
  = dict_of eqb (fun x => key (h x)) (fun x => value (h x)) l.
Proof.
  unfold dict_of. generalize (@nil (K * V)) as d.
  induction l as [|x l IH]; intros d; [reflexivity|].
  cbn [map fold_left]. apply IH.
Qed.

Lemma enumerate_map {A B : Type} (h : A -> B) (l : list A) :
  enumerate (map h l) = map (fun iw => (fst iw, h (snd iw))) (enumerate l).
Proof.
  unfold enumerate. rewrite length_map. generalize 0 as k.
  induction l as [|x l IH]; intros k; [reflexivity|].
  cbn [length seq combine map fst snd]. now rewrite IH.
Qed.

Lemma in_enumerate {A : Type} (l : list A) (i : nat) (x : A) :
  In (i, x) (enumerate l) <-> nth_error l i = Some x.
Proof.
  unfold enumerate.
  assert (H : forall k, In (i, x) (combine (seq k (length l)) l)
                        <-> k <= i /\ nth_error l (i - k) = Some x).
  { induction l as [|y l IH]; intros k.
    - cbn. split; [intros [] | intros [_ H]]. now destruct (i - k).
    - cbn [length seq combine In]. rewrite IH. split.
      + intros [[= -> ->]|[Hle Hn]].
        * rewrite Nat.sub_diag. split; [lia | reflexivity].
        * split; [lia|]. replace (i - k) with (S (i - S k)) by lia. exact Hn.
      + intros [Hle Hn]. destruct (Nat.eq_dec k i) as [->|Hne].
        * rewrite Nat.sub_diag in Hn. injection Hn as ->. now left.
        * right. split; [lia|].
          replace (i - k) with (S (i - S k)) in Hn by lia. exact Hn. }
  rewrite H, Nat.sub_0_r. split; [intros [_ ?] | split; [lia|]]; assumption.
Qed.


(** ** The store of profiles *)

Lemma factory_worker_dict_ids (store : Store) :
  factory_worker_dict store = id_index (ids_of store).
Proof.
  unfold factory_worker_dict, id_index, ids_of.
  rewrite enumerate_map, dict_of_map. reflexivity.
Qed.

Lemma id_index_get (ids : list WorkerId) (w : WorkerId) (i : nat) :
  dict_get String.eqb w (id_index ids) = Some i -> nth_error ids i = Some w.
Proof.
  intros H. apply (@dict_of_get_some _ _ String.eqb String.eqb_eq) in H.
  destruct H as [[j x] [Hin [Hk Hv]]]. cbn [fst snd] in *. subst.
  now apply in_enumerate.
Qed.

Lemma id_index_in (ids : list WorkerId) (w : WorkerId) :
  In w ids -> exists i, dict_get String.eqb w (id_index ids) = Some i.
Proof.
  intros Hin.
  destruct (dict_get String.eqb w (id_index ids)) as [i|] eqn:E; [now exists i|].
  exfalso. revert E. apply (@dict_of_get_in _ _ String.eqb String.eqb_eq).
  apply In_nth_error in Hin. destruct Hin as [i Hi].
  apply in_enumerate in Hi.
  change w with (snd (i, w)). now apply in_map.
Qed.

Lemma id_index_none (ids : list WorkerId) (w : WorkerId) :
  ~ In w ids -> dict_get String.eqb w (id_index ids) = None.
Proof.
  intros Hin. apply (@dict_of_get_none _ _ String.eqb String.eqb_eq).
  intros H. apply in_map_iff in H. destruct H as [[i x] [Hx Hi]].
  cbn [snd] in Hx. subst x. apply in_enumerate in Hi.
  apply Hin. eapply nth_error_In; eassumption.
Qed.

Lemma nth_error_ids (store : Store) (i : nat) (w : WorkerId) :
  nth_error (ids_of store) i = Some w ->
  exists prof, nth_error store i = Some prof /\ worker_id prof = w.
Proof.
  unfold ids_of. rewrite nth_error_map.
  destruct (nth_error store i) as [prof|]; cbn; [|discriminate].
  intros [= H]. now exists prof.
Qed.

Lemma deref_in (store : Store) (w : WorkerId) :
  In w (ids_of store) ->
  exists prof, deref (id_index (ids_of store)) store w = Some prof
               /\ worker_id prof = w.
Proof.
  intros Hin. destruct (id_index_in _ _ Hin) as [i Hi].
  destruct (nth_error_ids store i _ (id_index_get _ _ _ Hi)) as [prof [Hp Hw]].
  exists prof. unfold deref. rewrite Hi. cbn [bind]. auto.
Qed.

Lemma deref_some (store : Store) (w : WorkerId) (prof : FactoryWorkerProfile) :
  deref (id_index (ids_of store)) store w = Some prof ->
  worker_id prof = w /\ In prof store.
Proof.
  unfold deref. destruct (dict_get String.eqb w (id_index (ids_of store))) as [i|] eqn:E;
    cbn [bind]; [|discriminate].
  intros H. destruct (nth_error_ids store i _ (id_index_get _ _ _ E)) as [prof' [Hp Hw]].
  rewrite Hp in H. injection H as <-. split; [exact Hw|].
  eapply nth_error_In; eassumption.
Qed.

Lemma deref_none (store : Store) (w : WorkerId) :
  ~ In w (ids_of store) -> deref (id_index (ids_of store)) store w = None.
Proof.
  intros H. unfold deref. now rewrite id_index_none.
Qed.

(** ** Lists updated by index *)

Lemma list_set_some {A : Type} (x : A) (l : list A) :
  forall i, i < length l ->
    exists l', list_set i x l = Some l'
               /\ length l' = length l
               /\ nth_error l' i = Some x
               /\ (forall j, j <> i -> nth_error l' j = nth_error l j).
Proof.
  induction l as [|y l IH]; intros i Hi; [cbn in Hi; lia|].
  destruct i as [|i].
  - exists (x :: l). cbn. repeat split; auto.
    intros [|j] Hj; [lia | reflexivity].
  - destruct (IH i ltac:(cbn in Hi; lia)) as [l' [H1 [H2 [H3 H4]]]].
    exists (y :: l'). cbn [list_set]. rewrite H1. cbn. repeat split; auto.
    intros [|j] Hj; [reflexivity|]. cbn. apply H4. lia.
Qed.

Lemma list_set_map {A B : Type} (h : A -> B) (x : A) (l l' : list A) (i : nat) :
  list_set i x l = Some l' -> nth_error (map h l) i = Some (h x) ->
  map h l' = map h l.
Proof.
  revert i l'. induction l as [|y l IH]; intros i l'; [cbn; discriminate|].
  destruct i as [|i]; cbn [list_set].
  - intros [= <-]. cbn. now intros [= ->].
  - destruct (list_set i x l) as [l''|] eqn:E; cbn [bind]; [|discriminate].
    intros [= <-]. cbn. intros H. f_equal. eapply IH; eassumption.
Qed.

Lemma others_agree {A : Type} (p : nat) (l l' : list A) :
  length l = length l' ->
  (forall q, q <> p -> nth_error l q = nth_error l' q) ->
  others p l = others p l'.
Proof.
  revert p l'. induction l as [|x l IH]; intros p [|y l'] Hlen H;
    try discriminate; [reflexivity|].
  destruct p as [|p].
  - unfold others. cbn. apply nth_error_ext. intros n. apply (H (S n)). lia.
  - unfold others. cbn [firstn skipn app].
    assert (x = y) by (specialize (H 0 ltac:(lia)); cbn in H; congruence).
    subst y. f_equal. apply IH.
    + cbn in Hlen. lia.
    + intros q Hq. apply (H (S q)). lia.
Qed.

Lemma occupant_others_perm {A : Type} (p : nat) (row : list A) :
  Permutation row (occupant p row ++ others p row).
Proof.
  unfold occupant, others. destruct (nth_error row p) as [w|] eqn:E.
  - apply nth_error_split in E. destruct E as [l1 [l2 [-> <-]]].
    rewrite firstn_app, firstn_all, Nat.sub_diag. cbn [firstn].
    rewrite app_nil_r.
    replace (skipn (S (length l1)) (l1 ++ w :: l2)) with l2.
    + cbn. symmetry. apply Permutation_middle.
    + rewrite skipn_app.
      rewrite skipn_all2 by lia.
      replace (S (length l1) - length l1) with 1 by lia. reflexivity.
  - apply nth_error_None in E.
    rewrite firstn_all2 by lia. rewrite skipn_all2 by lia.
    now rewrite app_nil_r.
Qed.

Lemma flat_map_app_perm {A B : Type} (u v : A -> list B) (l : list A) :
  Permutation (flat_map (fun s => u s ++ v s) l) (flat_map u l ++ flat_map v l).
Proof.
  induction l as [|a l IH]; [constructor|].
  cbn [flat_map]. rewrite IH.
  rewrite <- !app_assoc. apply Permutation_app_head.
  apply Permutation_app_swap_app.
Qed.

Lemma flat_map_perm {A B : Type} (f g : A -> list B) (l : list A) :
  (forall x, In x l -> Permutation (f x) (g x)) ->
  Permutation (flat_map f l) (flat_map g l).
Proof.
  induction l as [|a l IH]; intros H; [constructor|].
  cbn [flat_map]. apply Permutation_app.
  - apply H. now left.
  - apply IH. intros x Hx. apply H. now right.
Qed.

(** All workers: the occupants of position [p] and everybody else. *)
Lemma all_workers_split (f : nat -> list WorkerId) (p : nat) :
  Permutation (flat_map f stations)
              (map snd (cohort_of f p) ++ flat_map (fun s => others p (f s)) stations).
Proof.
  rewrite (flat_map_perm f (fun s => occupant p (f s) ++ others p (f s)))
    by (intros; apply occupant_others_perm).
  rewrite flat_map_app_perm. apply Permutation_app_tail.
  unfold cohort_of, occupant. generalize stations as l.
  induction l as [|s l IH]; [constructor|].
  cbn [flat_map]. rewrite map_app. apply Permutation_app; [|exact IH].
  destruct (nth_error (f s) p); reflexivity.
Qed.


(** ** Position optimizer *)

Lemma mem_string_in (x : WorkerId) (l : list WorkerId) :
  mem_string x l = true <-> In x l.
Proof.
  unfold mem_string. rewrite existsb_exists. split.
  - intros [y [Hy E]]. apply String.eqb_eq in E. now subst.
  - intros H. exists x. split; [exact H | apply String.eqb_refl].
Qed.

Lemma mem_string_not_in (x : WorkerId) (l : list WorkerId) :
  mem_string x l = false <-> ~ In x l.
Proof.
  rewrite <- mem_string_in. destruct (mem_string x l); split; congruence.
Qed.

Lemma truthy_nonempty (s : string) : truthy s = true <-> s <> EmptyString.
Proof.
  destruct s; cbn; split; congruence.
Qed.

Lemma place_mk (g : nat -> list WorkerId) (s p : nat) (w : WorkerId) :
  In s stations -> p < length (g s) ->
  exists row',
    place s p w (mk_assignment g)
    = Some (mk_assignment (fun s' => if s' =? s then row' else g s'))
    /\ length row' = length (g s)
    /\ nth_error row' p = Some w
    /\ (forall q, q <> p -> nth_error row' q = nth_error (g s) q).
Proof.
  intros Hs Hp. destruct (list_set_some w (g s) p Hp) as [row' [H1 H2]].
  exists row'. split; [|exact H2].
  unfold place. rewrite station_get_mk by assumption. cbn [bind].
  rewrite H1. cbn [bind]. now rewrite station_set_mk.
Qed.

Section Optimizer.
Variable store : Store.
Variable position_workers : list WorkerId.
Variable position_idx : nat.
Hypothesis known : forall w, In w position_workers -> In w (ids_of store).

Let fd := id_index (ids_of store).

Lemma best_for_station_from (assigned : list WorkerId) (station : nat)
  (pw : list WorkerId) :
  (forall w, In w pw -> In w (ids_of store)) ->
  forall best0,
  exists best,
    foldM (fun best wid =>
             if mem_string wid assigned then Some best
             else
               w <- deref fd store wid ;;
               let score := get_average_percentage w station in
               if exceeds score best then Some (Some (wid, score)) else Some best)
          pw best0 = Some best
    /\ match best with
       | None => best0 = None /\ forall w, In w pw -> In w assigned
       | Some b => best0 = Some b \/ (In (fst b) pw /\ ~ In (fst b) assigned)
       end.
Proof.
  induction pw as [|w pw IH]; intros Hk best0.
  - exists best0. split; [reflexivity|].
    destruct best0 as [b|]; [now left | split; [reflexivity | intros _ []]].
  - cbn [foldM]. destruct (mem_string w assigned) eqn:Em.
    + cbn [bind]. destruct (IH (fun x Hx => Hk x (or_intror Hx)) best0)
        as [best [Hf Hb]].
      exists best. split; [exact Hf|].
      destruct best as [b|].
      * destruct Hb as [Hb|[Hb1 Hb2]]; [now left | right; split; [now right | exact Hb2]].
      * destruct Hb as [Hb1 Hb2]. split; [exact Hb1|].
        intros x [<-|Hx]; [now apply mem_string_in | now apply Hb2].
    + apply mem_string_not_in in Em.
      destruct (deref_in store w (Hk w (or_introl eq_refl))) as [prof [Hd _]].
      fold fd in Hd. rewrite Hd. cbn [bind].
      destruct (exceeds (get_average_percentage prof station) best0) eqn:Ex.
      * destruct (IH (fun x Hx => Hk x (or_intror Hx))
                     (Some (w, get_average_percentage prof station)))
          as [best [Hf Hb]].
        exists best. split; [exact Hf|].
        destruct best as [b|]; [|destruct Hb; discriminate].
        right. destruct Hb as [[= <-]|[Hb1 Hb2]]; cbn [fst].
        -- split; [now left | exact Em].
        -- split; [now right | exact Hb2].
      * destruct (IH (fun x Hx => Hk x (or_intror Hx)) best0) as [best [Hf Hb]].
        exists best. split; [exact Hf|].
        destruct best as [b|].
        -- destruct Hb as [Hb|[Hb1 Hb2]]; [now left | right; split; [now right | exact Hb2]].
        -- destruct Hb as [-> _]. discriminate.
Qed.

Lemma best_for_station_spec (assigned : list WorkerId) (station : nat) :
  exists best,
    best_for_station fd store position_workers assigned station = Some best
    /\ match best with
       | None => forall w, In w position_workers -> In w assigned
       | Some b => In (fst b) position_workers /\ ~ In (fst b) assigned
       end.
Proof.
  destruct (best_for_station_from assigned station position_workers known None)
    as [best [Hf Hb]].
  exists best. split; [exact Hf|].
  destruct best as [b|].
  - destruct Hb as [Hb|Hb]; [discriminate | exact Hb].
  - apply Hb.
Qed.

Lemma optimize_step_spec (g : nat -> list WorkerId) (assigned : list WorkerId)
  (details : list (nat * OptimizationDetail)) (s : nat) :
  In s stations -> position_idx < length (g s) ->
  exists st',
    optimize_step fd store position_workers position_idx
                  (mk_assignment g, assigned, details) s = Some st'
    /\ ((st' = (mk_assignment g, assigned, details)
         /\ ((forall w, In w position_workers -> In w assigned)
             \/ exists w, In w position_workers /\ truthy w = false))
        \/ exists bw row' details',
            st' = (mk_assignment (fun s' => if s' =? s then row' else g s'),
                   bw :: assigned, details')
            /\ In bw position_workers /\ ~ In bw assigned
            /\ length row' = length (g s)
            /\ nth_error row' position_idx = Some bw
            /\ (forall q, q <> position_idx ->
                          nth_error row' q = nth_error (g s) q)).
Proof.
  intros Hs Hp. unfold optimize_step.
  destruct (best_for_station_spec assigned s) as [best [Hb Hspec]].
  rewrite Hb. cbn [bind].
  destruct best as [[bw bs]|].
  - cbn [fst] in Hspec. destruct Hspec as [Hin Hnot].
    destruct (truthy bw) eqn:Et.
    + rewrite station_get_mk by assumption. cbn [bind].
      destruct (nth_error (g s) position_idx) as [old|] eqn:Eo;
        [|apply nth_error_None in Eo; lia].
      cbn [bind].
      destruct (place_mk g s position_idx bw Hs Hp) as [row' [Hpl Hrow]].
      rewrite Hpl. cbn [bind]. eexists. split; [reflexivity|].
      right. do 3 eexists. split; [reflexivity|]. tauto.
    + eexists. split; [reflexivity|]. left. split; [reflexivity|].
      right. exists bw. auto.
  - eexists. split; [reflexivity|]. left. split; [reflexivity|]. now left.
Qed.

Lemma optimize_fold (sts : list nat) :
  forall (g : nat -> list WorkerId) (assigned : list WorkerId)
         (details : list (nat * OptimizationDetail)),
    (forall s, In s sts -> In s stations /\ position_idx < length (g s)) ->
    exists g' assigned' details',
      foldM (optimize_step fd store position_workers position_idx) sts
            (mk_assignment g, assigned, details)
      = Some (mk_assignment g', assigned', details')
      /\ (forall s, length (g' s) = length (g s))
      /\ (forall s q, q <> position_idx -> nth_error (g' s) q = nth_error (g s) q)
      /\ (forall s, ~ In s sts -> g' s = g s)
      /\ (forall s w, nth_error (g' s) position_idx = Some w ->
                      nth_error (g s) position_idx = Some w
                      \/ In w position_workers)
      /\ (NoDup sts -> NoDup position_workers ->
          (forall w, In w position_workers -> truthy w = true) ->
          incl assigned position_workers -> NoDup assigned ->
          length assigned + length sts <= length position_workers ->
          exists new,
            assigned' = rev new ++ assigned
            /\ map (fun s => nth_error (g' s) position_idx) sts = map Some new
            /\ NoDup assigned'
            /\ incl assigned' position_workers).
Proof.
  induction sts as [|s sts IH]; intros g assigned details Hsts.
  - exists g, assigned, details. cbn [foldM].
    repeat split; auto.
    intros _ _ _ Hincl Hnd _. exists []. cbn. auto.
  - destruct (Hsts s (or_introl eq_refl)) as [Hs Hp].
    destruct (optimize_step_spec g assigned details s Hs Hp) as [st' [Hstep Hcases]].
    cbn [foldM]. rewrite Hstep. cbn [bind].
    destruct Hcases as [[-> Hwhy] | [bw [row' [details1 [-> [Hbw [Hnew [Hl [Hn Ho]]]]]]]]].
    + destruct (IH g assigned details (fun x Hx => Hsts x (or_intror Hx)))
        as [g' [assigned' [details' [Hf [H1 [H2 [H3 [H4 _]]]]]]]].
      exists g', assigned', details'. split; [exact Hf|].
      split; [exact H1|]. split; [exact H2|].
      split; [intros x Hx; apply H3; intros Hin; apply Hx; now right|].
      split; [exact H4|].
      intros _ Hndp Htruthy Hincl Hnda Hlen. exfalso.
      destruct Hwhy as [Hall | [w [Hw Hf']]].
      * pose proof (NoDup_incl_length Hndp Hall) as Hle. cbn [length] in Hlen. lia.
      * rewrite Htruthy in Hf' by assumption. discriminate.
    + set (g1 := fun s' => if s' =? s then row' else g s').
      assert (Hg1len : forall x, length (g1 x) = length (g x)).
      { intros x. unfold g1. destruct (x =? s) eqn:E; [|reflexivity].
        apply Nat.eqb_eq in E. now subst. }
      assert (Hg1oth : forall x q, q <> position_idx ->
                                   nth_error (g1 x) q = nth_error (g x) q).
      { intros x q Hq. unfold g1. destruct (x =? s) eqn:E; [|reflexivity].
        apply Nat.eqb_eq in E. subst. now apply Ho. }
      destruct (IH g1 (bw :: assigned) details1) as
        [g' [assigned' [details' [Hf [H1 [H2 [H3 [H4 H5]]]]]]]].
      { intros x Hx. destruct (Hsts x (or_intror Hx)) as [Hxs Hxp].
        split; [exact Hxs|]. now rewrite Hg1len. }
      exists g', assigned', details'. split; [exact Hf|].
      split; [intros x; now rewrite H1|].
      split; [intros x q Hq; rewrite H2 by assumption; now apply Hg1oth|].
      split.
      { intros x Hx. rewrite H3 by (intros Hin; apply Hx; now right).
        unfold g1. destruct (x =? s) eqn:E; [|reflexivity].
        apply Nat.eqb_eq in E. subst. contradiction Hx. now left. }
      split.
      { intros x w Hw. destruct (H4 x w Hw) as [Hg1|Hin]; [|now right].
        unfold g1 in Hg1. destruct (x =? s) eqn:E; [|now left].
        right. rewrite Hn in Hg1. now injection Hg1 as <-. }
      intros Hnds Hndp Htruthy Hincl Hnda Hlen.
      apply NoDup_cons_iff in Hnds. destruct Hnds as [Hsnot Hnds].
      destruct H5 as [new [Ha [Hm [Hnd' Hincl']]]]; auto.
      { intros x [<-|Hx]; [exact Hbw | now apply Hincl]. }
      { now constructor. }
      { cbn [length] in *. lia. }
      exists (bw :: new). cbn [rev map].
      split; [rewrite <- app_assoc; exact Ha|].
      split; [|split; assumption].
      rewrite Hm. f_equal.
      rewrite H3 by assumption. unfold g1. now rewrite Nat.eqb_refl.
Qed.

End Optimizer.


Lemma cohort_stations (f : nat -> list WorkerId) (p s : nat) :
  In s (map fst (cohort_of f p)) <-> In s stations /\ p < length (f s).
Proof.
  unfold cohort_of. generalize stations as l.
  induction l as [|x l IH]; cbn [flat_map map In]; [tauto|].
  rewrite map_app, in_app_iff, IH.
  destruct (nth_error (f x) p) as [w|] eqn:E; cbn [map fst In].
  - assert (p < length (f x)) by (apply nth_error_Some; congruence).
    split; [intros [[<-|[]]|[? ?]]; auto | intros [[<-|?] ?]; auto].
  - apply nth_error_None in E.
    split; [intros [[]|[? ?]]; auto | intros [[<-|?] ?]; [lia | auto]].
Qed.

Lemma cohort_stations_nodup (f : nat -> list WorkerId) (p : nat) :
  NoDup (map fst (cohort_of f p)).
Proof.
  unfold cohort_of.
  assert (H : NoDup stations) by apply seq_NoDup.
  revert H. generalize stations as l.
  induction l as [|x l IH]; intros Hnd; cbn [flat_map map]; [constructor|].
  apply NoDup_cons_iff in Hnd. destruct Hnd as [Hx Hnd].
  rewrite map_app. destruct (nth_error (f x) p) as [w0|]; cbn [map fst app];
    [|now apply IH].
  constructor; [|now apply IH].
  intros Hin. apply in_map_iff in Hin. destruct Hin as [[s w] [Hs Hin]].
  cbn [fst] in Hs. subst s. apply in_flat_map in Hin.
  destruct Hin as [y [Hy Hin]].
  destruct (nth_error (f y) p) as [w1|]; [|contradiction].
  destruct Hin as [[= -> _]|[]]. contradiction.
Qed.

Lemma cohort_occupants (f : nat -> list WorkerId) (p : nat) :
  map (fun s => nth_error (f s) p) (map fst (cohort_of f p))
  = map Some (map snd (cohort_of f p)).
Proof.
  unfold cohort_of. generalize stations as l.
  induction l as [|x l IH]; [reflexivity|].
  cbn [flat_map]. rewrite !map_app, IH. f_equal.
  destruct (nth_error (f x) p) eqn:E; cbn; [now rewrite E | reflexivity].
Qed.

Lemma cohort_stations_same (f g : nat -> list WorkerId) (p : nat) :
  (forall s, length (g s) = length (f s)) ->
  map fst (cohort_of g p) = map fst (cohort_of f p).
Proof.
  intros H. unfold cohort_of. generalize stations as l.
  induction l as [|x l IH]; [reflexivity|].
  cbn [flat_map]. rewrite !map_app, IH. f_equal.
  destruct (nth_error (g x) p) eqn:Eg, (nth_error (f x) p) eqn:Ef; try reflexivity.
  - apply nth_error_None in Ef.
    assert (p < length (g x)) by (apply nth_error_Some; congruence).
    rewrite H in *. lia.
  - apply nth_error_None in Eg.
    assert (p < length (f x)) by (apply nth_error_Some; congruence).
    rewrite H in *. lia.
Qed.

Lemma cohort_in (f : nat -> list WorkerId) (p s : nat) (w : WorkerId) :
  In s stations -> nth_error (f s) p = Some w -> In w (map snd (cohort_of f p)).
Proof.
  intros Hs Hw. apply in_map_iff. exists (s, w). split; [reflexivity|].
  unfold cohort_of. apply in_flat_map. exists s. split; [exact Hs|].
  rewrite Hw. now left.
Qed.

Lemma map_Some_inj {A : Type} (l l' : list A) : map Some l = map Some l' -> l = l'.
Proof.
  revert l'. induction l as [|x l IH]; intros [|y l']; cbn; try discriminate;
    [reflexivity|].
  intros [= -> H]. f_equal. now apply IH.
Qed.

(** What [optimize_position] returns on a well-keyed assignment whose
    occupants of the position all have a profile. *)
Lemma optimize_position_spec (store : Store) (f : nat -> list WorkerId) (p : nat) :
  (forall w, In w (map snd (cohort_of f p)) -> In w (ids_of store)) ->
  exists g details,
    optimize_position store (mk_assignment f) p = Some (mk_assignment g, details)
    /\ (forall s, length (g s) = length (f s))
    /\ (forall s q, q <> p -> nth_error (g s) q = nth_error (f s) q)
    /\ (forall s w, In s stations -> nth_error (g s) p = Some w ->
                    In w (map snd (cohort_of f p)))
    /\ (NoDup (map snd (cohort_of f p)) ->
        (forall w, In w (map snd (cohort_of f p)) -> w <> EmptyString) ->
        Permutation (map snd (cohort_of f p)) (map snd (cohort_of g p))
        /\ Permutation (flat_map f stations) (flat_map g stations)).
Proof.
  intros Hknown. unfold optimize_position.
  rewrite position_cohort_mk. cbn [bind].
  destruct (map snd (cohort_of f p)) as [|w0 pw0] eqn:Epw.
  { exists f, []. split; [reflexivity|]. split; [reflexivity|].
    split; [reflexivity|]. split.
    - intros s w Hs Hw. pose proof (@cohort_in f p s w Hs Hw) as Hin.
      now rewrite Epw in Hin.
    - intros _ _. rewrite Epw. split; reflexivity. }
  rewrite <- Epw in *. clear w0 pw0 Epw.
  set (pw := map snd (cohort_of f p)) in *.
  rewrite factory_worker_dict_ids.
  destruct (@optimize_fold store pw p Hknown (map fst (cohort_of f p)) f [] [])
    as [g [assigned' [details' [Hf [H1 [H2 [H3 [H4 H5]]]]]]]].
  { intros s Hs. now apply cohort_stations in Hs. }
  rewrite Hf. cbn [bind]. exists g, details'. split; [reflexivity|].
  split; [exact H1|]. split; [exact H2|].
  split.
  { intros s w Hs Hw. destruct (H4 s w Hw) as [Hold|Hin]; [|exact Hin].
    eapply cohort_in; eassumption. }
  intros Hnd Hne.
  destruct H5 as [new [Ha [Hm [Hnd' Hincl']]]].
  - apply cohort_stations_nodup.
  - exact Hnd.
  - intros w Hw. apply truthy_nonempty. now apply Hne.
  - intros x [].
  - constructor.
  - cbn [length]. unfold pw. rewrite !length_map. lia.
  - rewrite app_nil_r in Ha. subst assigned'.
    assert (Hnew : map snd (cohort_of g p) = new).
    { apply map_Some_inj. rewrite <- cohort_occupants.
      rewrite (cohort_stations_same f g p H1). exact Hm. }
    assert (Hperm : Permutation pw (map snd (cohort_of g p))).
    { rewrite Hnew. symmetry. apply NoDup_Permutation_bis.
      - apply NoDup_rev in Hnd'. now rewrite rev_involutive in Hnd'.
      - apply (f_equal (@length _)) in Hm. rewrite !length_map in Hm.
        unfold pw. rewrite length_map. lia.
      - intros x Hx. apply Hincl'. now apply in_rev in Hx. }
    split; [exact Hperm|].
    rewrite (all_workers_split f p), (all_workers_split g p).
    apply Permutation_app; [exact Hperm|].
    rewrite flat_map_ext_on with (g := fun s => others p (g s)); [reflexivity|].
    intros s _. apply others_agree; [now rewrite H1|].
    intros q Hq. now rewrite H2.
Qed.

(** C8.  On a six-station assignment in which every worker id occurs
    exactly once, no id is empty and the occupants have profiles,
    [optimize_position] returns an assignment with the same property: the
    occupants of the position are permuted among the stations that have the
    position, every other entry and every length is unchanged. *)
Theorem optimize_position_preserves_invariant :
  forall (factory_workers : Store) (current_assignment : Assignment)
         (position_idx : nat),
    well_keyed current_assignment ->
    NoDup (all_workers_of current_assignment) ->
    (forall w, In w (all_workers_of current_assignment) -> w <> EmptyString) ->
    (forall w, In w (all_workers_of current_assignment) ->
               In w (ids_of factory_workers)) ->
    exists optimized details,
      optimize_position factory_workers current_assignment position_idx
      = Some (optimized, details)
      /\ well_keyed optimized
      /\ NoDup (all_workers_of optimized)
      /\ Permutation (all_workers_of current_assignment) (all_workers_of optimized)
      /\ (forall s, length (row_of optimized s) = length (row_of current_assignment s))
      /\ (forall s q, q <> position_idx ->
                      nth_error (row_of optimized s) q
                      = nth_error (row_of current_assignment s) q)
      /\ map fst (cohort_of (row_of optimized) position_idx)
         = map fst (cohort_of (row_of current_assignment) position_idx)
      /\ Permutation (map snd (cohort_of (row_of current_assignment) position_idx))
                     (map snd (cohort_of (row_of optimized) position_idx)).
Proof.
  intros store a p Hk Hnd Hne Hknown.
  pose proof (well_keyed_mk _ Hk) as Ha.
  set (f := row_of a) in *.
  assert (Hall : all_workers_of a = flat_map f stations)
    by (rewrite Ha at 1; apply all_workers_of_mk).
  rewrite Hall in *.
  assert (Hsplit := all_workers_split f p).
  assert (Hcin : forall w, In w (map snd (cohort_of f p)) -> In w (flat_map f stations)).
  { intros w Hw. apply (Permutation_in _ (Permutation_sym Hsplit)).
    apply in_app_iff. now left. }
  destruct (@optimize_position_spec store f p) as [g [details [Ho [H1 [H2 [H3 H4]]]]]].
  { intros w Hw. apply Hknown. now apply Hcin. }
  destruct H4 as [Hp1 Hp2].
  { apply (Permutation_NoDup Hsplit) in Hnd. now apply NoDup_app_remove_r in Hnd. }
  { intros w Hw. apply Hne. now apply Hcin. }
  rewrite <- Ha in Ho.
  exists (mk_assignment g), details.
  assert (Hrow : forall s, In s stations -> row_of (mk_assignment g) s = g s)
    by (intros; now apply row_of_mk).
  assert (Hrow' : forall s, ~ In s stations -> row_of (mk_assignment g) s = []).
  { intros s Hs. unfold row_of. now rewrite station_get_mk_none. }
  assert (Hf' : forall s, ~ In s stations -> f s = []).
  { intros s Hs. unfold f, row_of. rewrite Ha.
    now rewrite station_get_mk_none. }
  split; [exact Ho|]. split; [apply mk_well_keyed|].
  rewrite all_workers_of_mk.
  split; [exact (Permutation_NoDup Hp2 Hnd)|]. split; [exact Hp2|].
  split.
  { intros s. destruct (in_dec Nat.eq_dec s stations) as [Hs|Hs].
    - rewrite Hrow by assumption. apply H1.
    - now rewrite Hrow', Hf'. }
  split.
  { intros s q Hq. destruct (in_dec Nat.eq_dec s stations) as [Hs|Hs].
    - rewrite Hrow by assumption. now apply H2.
    - now rewrite Hrow', Hf'. }
  assert (Hco : cohort_of (row_of (mk_assignment g)) p = cohort_of g p).
  { unfold cohort_of. apply flat_map_ext_on. intros s Hs. now rewrite Hrow. }
  rewrite Hco. split; [now apply cohort_stations_same | exact Hp1].
Qed.

Lemma optimize_position_preserves_invariant_witness :
  exists optimized details,
    optimize_position
      [{| worker_id := "0001"; performance_percentages := [] |};
       {| worker_id := "0002"; performance_percentages := [] |}]
      [(1, ["0001"]); (2, ["0002"]); (3, []); (4, []); (5, []); (6, [])]%string
      0
    = Some (optimized, details)
    /\ NoDup (all_workers_of optimized).
Proof.
  destruct (@optimize_position_preserves_invariant
              [{| worker_id := "0001"; performance_percentages := [] |};
               {| worker_id := "0002"; performance_percentages := [] |}]
              [(1, ["0001"]); (2, ["0002"]); (3, []); (4, []); (5, []); (6, [])]%string
              0 eq_refl)
    as [optimized [details [H1 [_ [H2 _]]]]].
  - cbn. repeat constructor; cbn; intuition discriminate.
  - cbn. intros w [<-|[<-|[]]]; discriminate.
  - cbn. intros w [<-|[<-|[]]]; auto.
  - exists optimized, details. split; [exact H1 | exact H2].
Defined.


(** ** Stores related profile by profile *)

Lemma list_set_inv {A : Type} (x : A) (l : list A) :
  forall i l', list_set i x l = Some l' ->
    i < length l
    /\ length l' = length l
    /\ nth_error l' i = Some x
    /\ (forall j, j <> i -> nth_error l' j = nth_error l j).
Proof.
  intros i l' H.
  destruct (Nat.lt_ge_cases i (length l)) as [Hlt|Hge].
  - destruct (list_set_some x l i Hlt) as [l'' [H1 H2]].
    rewrite H1 in H. injection H as <-. tauto.
  - exfalso. revert i l' H Hge.
    induction l as [|y l IH]; intros i l' H Hge; [discriminate|].
    destruct i as [|i]; [cbn in Hge; lia|].
    cbn [list_set] in H. destruct (list_set i x l) as [l''|] eqn:E; [|discriminate].
    apply (IH i l'' E). cbn in Hge. lia.
Qed.

Section StoreRel.
Variable P : FactoryWorkerProfile -> FactoryWorkerProfile -> Prop.
Hypothesis P_refl : forall prof, P prof prof.
Hypothesis P_trans : forall a b c, P a b -> P b c -> P a c.

Lemma store_rel_refl (store : Store) : store_rel P store store.
Proof.
  split; [reflexivity|]. intros i prof H. exists prof. auto.
Qed.

Lemma store_rel_trans (s1 s2 s3 : Store) :
  store_rel P s1 s2 -> store_rel P s2 s3 -> store_rel P s1 s3.
Proof.
  intros [L1 H1] [L2 H2]. split; [congruence|].
  intros i prof Hp. destruct (H1 i prof Hp) as [p2 [Hp2 [Hid2 HP2]]].
  destruct (H2 i p2 Hp2) as [p3 [Hp3 [Hid3 HP3]]].
  exists p3. split; [exact Hp3|]. split; [congruence|]. eauto.
Qed.

Lemma store_record_rel (fd : list (WorkerId * nat)) (store store' : Store)
  (w : WorkerId) (s : nat) (v : R) :
  store_record fd store w s v = Some store' ->
  (forall prof, deref fd store w = Some prof ->
                P prof (record_performance_percentage prof s v)) ->
  store_rel P store store'.
Proof.
  unfold store_record, deref.
  destruct (dict_get String.eqb w fd) as [i|]; cbn [bind]; [|discriminate].
  destruct (nth_error store i) as [prof|] eqn:Ei; cbn [bind]; [|discriminate].
  intros Hset HP. specialize (HP prof eq_refl).
  apply list_set_inv in Hset. destruct Hset as [Hi [Hlen [Hn Ho]]].
  split; [exact Hlen|]. intros j pj Hj.
  destruct (Nat.eq_dec j i) as [->|Hne].
  - rewrite Ei in Hj. injection Hj as <-.
    eexists. split; [exact Hn|]. split; [reflexivity | exact HP].
  - exists pj. rewrite Ho by assumption. auto.
Qed.

End StoreRel.

Lemma store_rel_ids (P : FactoryWorkerProfile -> FactoryWorkerProfile -> Prop)
  (store store' : Store) :
  store_rel P store store' -> ids_of store' = ids_of store.
Proof.
  intros [Hlen H]. unfold ids_of. apply nth_error_ext. intros i.
  rewrite !nth_error_map.
  destruct (nth_error store i) as [prof|] eqn:E.
  - destruct (H i prof E) as [prof' [-> [Hid _]]]. cbn. now rewrite Hid.
  - apply nth_error_None in E.
    assert (E' : nth_error store' i = None) by (apply nth_error_None; lia).
    now rewrite E'.
Qed.

Lemma store_rel_impl (P Q : FactoryWorkerProfile -> FactoryWorkerProfile -> Prop)
  (store store' : Store) :
  (forall a b, P a b -> Q a b) -> store_rel P store store' -> store_rel Q store store'.
Proof.
  intros HPQ [Hlen H]. split; [exact Hlen|].
  intros i prof Hp. destruct (H i prof Hp) as [prof' [H1 [H2 H3]]].
  exists prof'. auto.
Qed.

(** A loop whose every step is within a reflexive and transitive relation
    stays within it. *)
Lemma foldM_rel {A S : Type} (Rel : S -> S -> Prop) (f : S -> A -> option S)
  (xs : list A) :
  (forall s, Rel s s) ->
  (forall a b c, Rel a b -> Rel b c -> Rel a c) ->
  (forall s x s', In x xs -> f s x = Some s' -> Rel s s') ->
  forall s s', foldM f xs s = Some s' -> Rel s s'.
Proof.
  intros Hrefl Htrans. induction xs as [|x xs IH]; intros Hstep s s'.
  - cbn. intros [= <-]. apply Hrefl.
  - cbn [foldM]. destruct (f s x) as [s1|] eqn:E; cbn [bind]; [|discriminate].
    intros H. apply Htrans with s1.
    + apply (Hstep s x s1); [now left | exact E].
    + apply IH; [|exact H]. intros s0 x0 s0' Hin. apply Hstep. now right.
Qed.

Lemma observations_record (prof : FactoryWorkerProfile) (s s' : nat) (v : R) :
  observations (record_performance_percentage prof s v) s'
  = if s' =? s then observations prof s ++ [v] else observations prof s'.
Proof.
  unfold observations at 1. cbn [record_performance_percentage performance_percentages].
  rewrite (@dict_get_set _ _ Nat.eqb Nat.eqb_eq).
  destruct (s' =? s); reflexivity.
Qed.

Lemma has_data_false (prof : FactoryWorkerProfile) (s : nat) :
  has_data_for_station prof s = false <-> observations prof s = [].
Proof.
  unfold has_data_for_station. destruct (observations prof s); split; congruence.
Qed.

Lemma grows_by_rotation_refl (prof : FactoryWorkerProfile) :
  grows_by_rotation prof prof.
Proof.
  intros s. now left.
Qed.

Lemma grows_by_rotation_trans (a b c : FactoryWorkerProfile) :
  grows_by_rotation a b -> grows_by_rotation b c -> grows_by_rotation a c.
Proof.
  intros Hab Hbc s. destruct (Hab s) as [E1|[E1 [v Hv]]], (Hbc s) as [E2|[E2 [v' Hv']]].
  - left. congruence.
  - right. split; [congruence | eauto].
  - right. split; [exact E1|]. exists v. congruence.
  - rewrite Hv in E2. discriminate.
Qed.

Lemma grows_by_rotation_record (prof : FactoryWorkerProfile) (s : nat) (v : R) :
  has_data_for_station prof s = false ->
  grows_by_rotation prof (record_performance_percentage prof s v).
Proof.
  intros H s'. rewrite observations_record.
  destruct (s' =? s) eqn:E; [|now left].
  apply Nat.eqb_eq in E. subst s'. apply has_data_false in H.
  right. split; [exact H|]. exists v. now rewrite H.
Qed.


(** ** The rotation phase records at most once *)

Ltac inv_bind H :=
  match type of H with
  | bind ?e _ = Some _ =>
      let E := fresh "E" in
      destruct e eqn:E; cbn [bind] in H; [|discriminate H]
  end.

Lemma record_rotation_rel (fd : list (WorkerId * nat))
  (bp cp : list (nat * R)) (original temp : Assignment)
  (rotated : list WorkerId) (p : nat) (st st' : Store * list (nat * Comparison))
  (is_ : nat * nat) :
  record_rotation fd bp cp original temp rotated p st is_ = Some st' ->
  store_rel grows_by_rotation (fst st) (fst st').
Proof.
  destruct st as [store cmp]. unfold record_rotation. intros H.
  do 4 inv_bind H.
  destruct (has_data_for_station f (snd is_)) eqn:Hd.
  - injection H as <-. apply store_rel_refl. apply grows_by_rotation_refl.
  - do 2 inv_bind H. injection H as <-. cbn [fst].
    eapply store_record_rel; [apply grows_by_rotation_refl | eassumption |].
    intros prof Hp. rewrite Hp in E2. injection E2 as ->.
    now apply grows_by_rotation_record.
Qed.

Lemma rotation_step_rel (true_workers : list TrueWorkerProfile)
  (tasks : list TaskProfile) (fd : list (WorkerId * nat)) (bp : list (nat * R))
  (original : Assignment) (source_stations : list nat)
  (workers_to_rotate : list WorkerId) (p : nat)
  (st st' : Assignment * Store * list Event) (r : nat) :
  rotation_step true_workers tasks fd bp original source_stations
                workers_to_rotate p st r = Some st' ->
  store_rel grows_by_rotation (snd (fst st)) (snd (fst st')).
Proof.
  destruct st as [[temp store] log]. unfold rotation_step. intros H.
  do 3 inv_bind H. destruct p0 as [store' cmp]. injection H as <-. cbn [fst snd].
  apply (@foldM_rel _ _ (fun s s' => store_rel grows_by_rotation (fst s) (fst s')))
    in E1; [exact E1 | | |].
  - intros s. apply store_rel_refl. apply grows_by_rotation_refl.
  - intros a0 b c. apply store_rel_trans. apply grows_by_rotation_trans.
  - intros s x s' _. apply record_rotation_rel.
Qed.

Lemma position_step_rel (true_workers : list TrueWorkerProfile)
  (tasks : list TaskProfile) (fd : list (WorkerId * nat)) (bp : list (nat * R))
  (original : Assignment) (max_workers : nat) (st st' : CollectorState) (p : nat) :
  position_step true_workers tasks fd bp original max_workers st p = Some st' ->
  store_rel grows_by_rotation (store_of st) (store_of st').
Proof.
  unfold position_step. intros H. inv_bind H.
  destruct (negb b).
  { injection H as <-. apply store_rel_refl. apply grows_by_rotation_refl. }
  inv_bind H.
  destruct (map snd l) as [|w0 ws0] eqn:Ews.
  { injection H as <-. apply store_rel_refl. apply grows_by_rotation_refl. }
  rewrite <- Ews in *. inv_bind H. destruct p0 as [[temp' store'] log'].
  assert (Hrel : store_rel grows_by_rotation (store_of st) store').
  { apply (@foldM_rel _ _ (fun s s' => store_rel grows_by_rotation
                                            (snd (fst s)) (snd (fst s'))))
      in E1; [exact E1 | | |].
    - intros s. apply store_rel_refl. apply grows_by_rotation_refl.
    - intros a b0 c. apply store_rel_trans. apply grows_by_rotation_trans.
    - intros s x s' _. apply rotation_step_rel. }
  destruct (p <? max_workers - 1).
  - inv_bind H. destruct p0 as [optimized details]. now injection H as <-.
  - now injection H as <-.
Qed.

Lemma rotation_phase_rel (true_workers : list TrueWorkerProfile)
  (tasks : list TaskProfile) (fd : list (WorkerId * nat)) (bp : list (nat * R))
  (original : Assignment) (max_workers : nat) (st st' : CollectorState) :
  rotation_phase true_workers tasks fd bp original max_workers st = Some st' ->
  store_rel grows_by_rotation (store_of st) (store_of st').
Proof.
  unfold rotation_phase. intros H.
  apply (@foldM_rel _ _ (fun s s' => store_rel grows_by_rotation
                                          (store_of s) (store_of s')))
    in H; [exact H | | |].
  - intros s. apply store_rel_refl. apply grows_by_rotation_refl.
  - intros a b c. apply store_rel_trans. apply grows_by_rotation_trans.
  - intros s x s' _. apply position_step_rel.
Qed.


(** ** Recording through the dictionary *)

Lemma store_record_inv (store store' : Store) (wid : WorkerId) (s : nat) (v : R) :
  store_record (id_index (ids_of store)) store wid s v = Some store' ->
  exists i prof,
    nth_error store i = Some prof
    /\ worker_id prof = wid
    /\ deref (id_index (ids_of store)) store wid = Some prof
    /\ nth_error store' i = Some (record_performance_percentage prof s v)
    /\ length store' = length store
    /\ (forall j, j <> i -> nth_error store' j = nth_error store j)
    /\ ids_of store' = ids_of store.
Proof.
  unfold store_record, deref. intros H.
  destruct (dict_get String.eqb wid (id_index (ids_of store))) as [i|] eqn:Ei;
    cbn [bind] in *; [|discriminate].
  destruct (nth_error_ids store i _ (id_index_get _ _ _ Ei)) as [prof [Hp Hw]].
  rewrite Hp in *. cbn [bind] in H.
  pose proof (list_set_inv _ _ _ _ H) as [Hi [Hlen [Hn Ho]]].
  exists i, prof. repeat split; auto.
  unfold ids_of. eapply list_set_map; [exact H|].
  rewrite nth_error_map, Hp. reflexivity.
Qed.

Lemma store_rel_compose
  (P Q T : FactoryWorkerProfile -> FactoryWorkerProfile -> Prop)
  (s1 s2 s3 : Store) :
  (forall a b c, worker_id b = worker_id a -> P a b -> Q b c -> T a c) ->
  store_rel P s1 s2 -> store_rel Q s2 s3 -> store_rel T s1 s3.
Proof.
  intros HT [L1 H1] [L2 H2]. split; [congruence|].
  intros i prof Hp. destruct (H1 i prof Hp) as [p2 [Hp2 [Hid2 HP2]]].
  destruct (H2 i p2 Hp2) as [p3 [Hp3 [Hid3 HP3]]].
  exists p3. split; [exact Hp3|]. split; [congruence|]. eauto.
Qed.

Lemma store_record_at_most (store store' : Store) (wid : WorkerId) (s : nat) (v : R) :
  store_record (id_index (ids_of store)) store wid s v = Some store' ->
  store_rel (grows_at_most (fun w => if string_dec wid w then 1 else 0))
            store store'.
Proof.
  intros H. apply store_record_inv in H.
  destruct H as [i [prof [Hp [Hw [_ [Hn [Hlen [Ho _]]]]]]]].
  split; [exact Hlen|]. intros j pj Hj.
  destruct (Nat.eq_dec j i) as [->|Hne].
  - rewrite Hp in Hj. injection Hj as <-.
    eexists. split; [exact Hn|]. split; [reflexivity|].
    intros s'. rewrite observations_record, Hw.
    destruct (string_dec wid wid); [|contradiction].
    destruct (s' =? s) eqn:E; [|lia].
    apply Nat.eqb_eq in E. subst. rewrite length_app. cbn. lia.
  - exists pj. rewrite Ho by assumption. split; [exact Hj|].
    split; [reflexivity|]. intros s'. lia.
Qed.

(** ** Base phase *)

Lemma record_base_row (ids : list WorkerId) (k : nat) (row : list WorkerId) :
  forall store store',
    ids_of store = ids ->
    foldM (fun st' wid =>
             match dict_get String.eqb wid (id_index ids) with
             | Some _ => store_record (id_index ids) st' wid k 100
             | None => Some st'
             end) row store = Some store' ->
    store_rel (grows_at_most (count_occ string_dec row)) store store'.
Proof.
  induction row as [|wid row IH]; intros store store' Hids H.
  - cbn in H. injection H as <-. split; [reflexivity|].
    intros i prof Hp. exists prof. repeat split; auto. intros s. cbn. lia.
  - cbn [foldM] in H. inv_bind H.
    assert (Hstep : store_rel (grows_at_most (fun w => if string_dec wid w then 1 else 0))
                              store s).
    { destruct (dict_get String.eqb wid (id_index ids)).
      - subst ids. now apply store_record_at_most in E.
      - injection E as <-. split; [reflexivity|].
        intros i prof Hp. exists prof. repeat split; auto. intros s'. lia. }
    assert (Hids' : ids_of s = ids) by (rewrite <- Hids; eapply store_rel_ids; eassumption).
    specialize (IH s store' Hids' H).
    eapply store_rel_compose; [|exact Hstep|exact IH].
    intros a b c Hid Hab Hbc s'. specialize (Hab s'). specialize (Hbc s').
    rewrite Hid in Hbc. cbn [count_occ]. cbn beta in Hab.
    destruct (string_dec wid (worker_id a)); lia.
Qed.

Lemma record_base_at_most (ids : list WorkerId) (initial_assign : Assignment) :
  forall store store',
    ids_of store = ids ->
    record_base (id_index ids) initial_assign store = Some store' ->
    store_rel (grows_at_most (count_occ string_dec (all_workers_of initial_assign)))
              store store'.
Proof.
  unfold record_base.
  induction initial_assign as [|[k row] ia IH]; intros store store' Hids H.
  - cbn in H. injection H as <-. split; [reflexivity|].
    intros i prof Hp. exists prof. repeat split; auto. intros s. cbn. lia.
  - cbn [foldM fst snd] in H. inv_bind H.
    pose proof (record_base_row _ _ _ _ _ Hids E) as Hrow.
    assert (Hids' : ids_of s = ids) by (rewrite <- Hids; eapply store_rel_ids; eassumption).
    specialize (IH s store' Hids' H).
    eapply store_rel_compose; [|exact Hrow|exact IH].
    intros a b c Hid Hab Hbc s'. specialize (Hab s'). specialize (Hbc s').
    rewrite Hid in Hbc. unfold all_workers_of in *. cbn [map concat snd].
    rewrite count_occ_app. lia.
Qed.


(** ** Data completeness *)

Lemma filter_length_all {A : Type} (f : A -> bool) (l : list A) :
  length (filter f l) <= length l
  /\ (length (filter f l) = length l <-> forall x, In x l -> f x = true).
Proof.
  induction l as [|a l [IH1 IH2]]; cbn [filter length].
  - split; [lia|]. split; [intros _ x [] | reflexivity].
  - destruct (f a) eqn:E; cbn [length].
    + split; [lia|]. split.
      * intros H x [<-|Hx]; [exact E|]. apply IH2; [lia | exact Hx].
      * intros H. f_equal. apply IH2. intros x Hx. apply H. now right.
    + split; [lia|]. split; [lia|].
      intros H. specialize (H a (or_introl eq_refl)). congruence.
Qed.

Lemma incomplete_false (prof : FactoryWorkerProfile) :
  incomplete prof = false
  <-> forall s, In s stations -> has_data_for_station prof s = true.
Proof.
  unfold incomplete, get_data_completeness, stations_with_data.
  destruct (filter_length_all (has_data_for_station prof) stations) as [Hle Hall].
  rewrite <- Hall.
  change (length stations) with 6 in *. change WSTATION with 6.
  set (n := length (filter (has_data_for_station prof) stations)) in *.
  assert (H6 : INR 6 = 6%R) by (cbn; lra).
  rewrite H6.
  destruct (Rlt_dec (INR n / 6 * 100) 100) as [Hlt|Hge]; split; try congruence.
  - intros ->. rewrite H6 in Hlt. lra.
  - intros _. destruct (Nat.eq_dec n 6) as [|Hne]; [assumption|].
    exfalso. apply Hge.
    assert (Hn : (INR n <= 5)%R).
    { replace 5%R with (INR 5) by (cbn; lra). apply le_INR. lia. }
    lra.
Qed.

Lemma incomplete_true (prof : FactoryWorkerProfile) :
  incomplete prof = true
  <-> exists s, In s stations /\ has_data_for_station prof s = false.
Proof.
  split.
  - intros H. 
    destruct (forallb (has_data_for_station prof) stations) eqn:E.
    + rewrite forallb_forall in E. apply incomplete_false in E. congruence.
    + assert (Hex : existsb (fun s => negb (has_data_for_station prof s)) stations = true).
      { revert E. generalize stations as l.
        induction l as [|x l IH]; cbn; [discriminate|].
        destruct (has_data_for_station prof x); cbn; auto. }
      apply existsb_exists in Hex. destruct Hex as [s [Hs Hd]].
      exists s. split; [exact Hs|]. now destruct (has_data_for_station prof s).
  - intros [s [Hs Hd]]. destruct (incomplete prof) eqn:E; [reflexivity|].
    rewrite incomplete_false in E. rewrite E in Hd by assumption. discriminate.
Qed.

Lemma complete_100 (prof : FactoryWorkerProfile) :
  incomplete prof = false -> get_data_completeness prof = 100%R.
Proof.
  intros H. pose proof (proj1 (@incomplete_false prof) H) as H'. clear H.
  rename H' into H.
  unfold get_data_completeness, stations_with_data.
  destruct (filter_length_all (has_data_for_station prof) stations) as [_ Hall].
  apply Hall in H. rewrite H.
  change (length stations) with 6. change WSTATION with 6.
  assert (H6 : INR 6 = 6%R) by (cbn; lra). rewrite H6. lra.
Qed.

Lemma mem_nat_in (x : nat) (l : list nat) : mem_nat x l = true <-> In x l.
Proof.
  unfold mem_nat. rewrite existsb_exists. split.
  - intros [y [Hy E]]. apply Nat.eqb_eq in E. now subst.
  - intros H. exists x. split; [exact H | apply Nat.eqb_refl].
Qed.

(** ** Gap filler *)

Lemma nodup_ids_index (store : Store) (i j : nat) (a b : FactoryWorkerProfile) :
  NoDup (ids_of store) ->
  nth_error store i = Some a -> nth_error store j = Some b ->
  worker_id a = worker_id b -> i = j.
Proof.
  intros Hnd Ha Hb Hid.
  assert (Hi : nth_error (ids_of store) i = Some (worker_id a))
    by (unfold ids_of; rewrite nth_error_map, Ha; reflexivity).
  assert (Hj : nth_error (ids_of store) j = Some (worker_id a))
    by (unfold ids_of; rewrite nth_error_map, Hb, Hid; reflexivity).
  eapply NoDup_nth_error; [exact Hnd | | congruence].
  apply nth_error_Some. congruence.
Qed.

Lemma deref_unique (store : Store) (i : nat) (prof : FactoryWorkerProfile) :
  NoDup (ids_of store) -> nth_error store i = Some prof ->
  deref (id_index (ids_of store)) store (worker_id prof) = Some prof.
Proof.
  intros Hnd Hp.
  assert (Hin : In (worker_id prof) (ids_of store)).
  { unfold ids_of. apply in_map. eapply nth_error_In; eassumption. }
  destruct (deref_in store _ Hin) as [prof' [Hd Hid]].
  rewrite Hd. f_equal.
  unfold deref in Hd.
  destruct (dict_get String.eqb (worker_id prof) (id_index (ids_of store))) as [j|];
    cbn [bind] in Hd; [|discriminate].
  pose proof (nodup_ids_index store j i prof' prof Hnd Hd Hp Hid) as ->. congruence.
Qed.

Lemma store_record_appended (store store' : Store) (wid : WorkerId) (s : nat) (v : R) :
  NoDup (ids_of store) ->
  store_record (id_index (ids_of store)) store wid s v = Some store' ->
  store_rel (appended_at wid [s] (fun _ => Some v)) store store'.
Proof.
  intros Hnd H. apply store_record_inv in H.
  destruct H as [i [prof [Hp [Hw [_ [Hn [Hlen [Ho _]]]]]]]].
  split; [exact Hlen|]. intros j pj Hj.
  destruct (Nat.eq_dec j i) as [->|Hne].
  - rewrite Hp in Hj. injection Hj as <-.
    eexists. split; [exact Hn|]. split; [reflexivity|].
    intros s'. rewrite observations_record, Hw, String.eqb_refl.
    unfold mem_nat. cbn [existsb andb]. rewrite orb_false_r.
    destruct (s' =? s) eqn:E; [|reflexivity].
    apply Nat.eqb_eq in E. subst. exists v. auto.
  - exists pj. rewrite Ho by assumption. split; [exact Hj|].
    split; [reflexivity|]. intros s'.
    destruct (String.eqb (worker_id pj) wid) eqn:E; [|reflexivity].
    apply String.eqb_eq in E. exfalso. apply Hne.
    eapply nodup_ids_index; eauto. congruence.
Qed.

Lemma store_rel_impl_in
  (P Q : FactoryWorkerProfile -> FactoryWorkerProfile -> Prop)
  (store store' : Store) :
  (forall i a b, nth_error store i = Some a -> P a b -> Q a b) ->
  store_rel P store store' -> store_rel Q store store'.
Proof.
  intros HPQ [Hlen H]. split; [exact Hlen|].
  intros i prof Hp. destruct (H i prof Hp) as [prof' [H1 [H2 H3]]].
  exists prof'. eauto.
Qed.

Lemma probe_step_inv (twd : list (WorkerId * TrueWorkerProfile))
  (tasks : list TaskProfile) (fd : list (WorkerId * nat)) (bp : list (nat * R))
  (a : Assignment) (wid : WorkerId) (loc : option (nat * nat))
  (store : Store) (log : list Event) (s : nat) (store' : Store) (log' : list Event) :
  probe_step twd tasks fd bp a wid loc (store, log) s = Some (store', log') ->
  exists v temp ev,
    probe_value twd tasks bp wid s = Some v
    /\ probe_assignment wid loc s a = Some temp
    /\ store_record fd store wid s v = Some store'
    /\ log' = log ++ [ev]
    /\ phase ev = incomplete_fix
    /\ assignment_of ev = temp.
Proof.
  unfold probe_step, probe_value. intros H.
  do 6 inv_bind H. injection H as <- <-.
  repeat (cbn [bind]; rewrite ?E0, ?E1, ?E2, ?E3).
  eexists _, _, _.
  split; [reflexivity|]. split; [reflexivity|]. split; [eassumption|].
  split; [reflexivity|]. split; reflexivity.
Qed.

Lemma mem_nat_filter (f : nat -> bool) (l : list nat) (s : nat) :
  mem_nat s (filter f l) = mem_nat s l && f s.
Proof.
  destruct (mem_nat s (filter f l)) eqn:E.
  - apply mem_nat_in in E. apply filter_In in E. destruct E as [Hin Hf].
    apply mem_nat_in in Hin. now rewrite Hin, Hf.
  - destruct (mem_nat s l) eqn:El; [|reflexivity].
    destruct (f s) eqn:Ef; [|reflexivity].
    apply mem_nat_in in El.
    assert (Hin : In s (filter f l)) by (apply filter_In; auto).
    apply mem_nat_in in Hin. congruence.
Qed.

Section GapFiller.
Variable ids : list WorkerId.
Hypothesis ids_nodup : NoDup ids.
Variable twd : list (WorkerId * TrueWorkerProfile).
Variable tasks : list TaskProfile.
Variable bp : list (nat * R).
Variable a : Assignment.

Lemma probes_fold (wid : WorkerId) (loc : option (nat * nat)) (ms : list nat) :
  forall store log store' log',
    ids_of store = ids -> NoDup ms ->
    foldM (probe_step twd tasks (id_index ids) bp a wid loc) ms (store, log)
    = Some (store', log') ->
    store_rel (appended_at wid ms (probe_value twd tasks bp wid)) store store'.
Proof.
  induction ms as [|s ms IH]; intros store log store' log' Hids Hnd H.
  - cbn in H. injection H as <- <-. split; [reflexivity|].
    intros i prof Hp. exists prof. repeat split; auto.
    intros s. now rewrite andb_false_r.
  - cbn [foldM] in H. inv_bind H. destruct p as [s1 log1].
    apply probe_step_inv in E.
    destruct E as [v [temp [ev [Hv [_ [Hrec _]]]]]].
    apply NoDup_cons_iff in Hnd. destruct Hnd as [Hs Hnd].
    rewrite <- Hids in Hrec.
    pose proof (store_record_appended _ _ _ _ _ ltac:(now rewrite Hids) Hrec) as Hstep.
    assert (Hids1 : ids_of s1 = ids)
      by (rewrite <- Hids; eapply store_rel_ids; eassumption).
    specialize (IH s1 log1 store' log' Hids1 Hnd H).
    eapply store_rel_compose; [|exact Hstep|exact IH].
    intros pa pb pc Hid Hab Hbc s'. specialize (Hab s'). specialize (Hbc s').
    rewrite Hid in Hbc. unfold mem_nat in *. cbn [existsb] in *.
    rewrite orb_false_r in Hab.
    destruct (String.eqb (worker_id pa) wid); cbn [andb] in *; [|congruence].
    destruct (s' =? s) eqn:Es; cbn [orb] in *.
    + apply Nat.eqb_eq in Es. subst s'.
      destruct (existsb (Nat.eqb s) ms) eqn:Em.
      { exfalso. apply Hs. now apply mem_nat_in. }
      destruct Hab as [v0 [[= <-] Hab]]. exists v. split; [exact Hv|]. congruence.
    + destruct (existsb (Nat.eqb s') ms).
      * destruct Hbc as [v1 [Hv1 Hbc]]. exists v1. split; [exact Hv1|]. congruence.
      * congruence.
Qed.

Lemma fix_worker_rel (wid : WorkerId) (store : Store) (log : list Event)
  (store' : Store) (log' : list Event) :
  ids_of store = ids ->
  fix_worker twd tasks (id_index ids) bp a (store, log) wid = Some (store', log') ->
  store_rel (filled_for wid (probe_value twd tasks bp wid)) store store'.
Proof.
  intros Hids H. unfold fix_worker in H. cbn [fst] in H. inv_bind H.
  rename f into w.
  apply probes_fold in H; [|assumption|].
  2:{ apply NoDup_filter. apply seq_NoDup. }
  revert H. apply store_rel_impl_in.
  intros i pa pb Hpa Hab s. specialize (Hab s).
  destruct (String.eqb (worker_id pa) wid) eqn:Eid; cbn [andb] in *; [|exact Hab].
  apply String.eqb_eq in Eid.
  assert (pa = w).
  { pose proof (deref_unique store i pa ltac:(now rewrite Hids) Hpa) as Hd.
    rewrite Hids, Eid in Hd. congruence. }
  subst pa. rewrite mem_nat_filter in Hab.
  destruct (mem_nat s stations && negb (has_data_for_station w s)) eqn:Ec;
    [|exact Hab].
  destruct Hab as [v [Hv Hab]]. exists v. split; [exact Hv|].
  apply andb_prop in Ec. destruct Ec as [_ Ec].
  apply negb_true_iff, has_data_false in Ec. now rewrite Ec in Hab.
Qed.

Lemma has_data_obs (pa pb : FactoryWorkerProfile) (s : nat) :
  observations pb s = observations pa s ->
  has_data_for_station pb s = has_data_for_station pa s.
Proof.
  unfold has_data_for_station. now intros ->.
Qed.

Lemma fix_workers_fold (wids : list WorkerId) :
  forall store log store' log',
    ids_of store = ids ->
    foldM (fix_worker twd tasks (id_index ids) bp a) wids (store, log)
    = Some (store', log') ->
    store_rel (filled_for_all wids (probe_value twd tasks bp)) store store'.
Proof.
  induction wids as [|wid wids IH]; intros store log store' log' Hids H.
  - cbn in H. injection H as <- <-. split; [reflexivity|].
    intros i prof Hp. exists prof. repeat split; auto.
  - cbn [foldM] in H. inv_bind H. destruct p as [s1 log1].
    pose proof (fix_worker_rel _ _ _ _ _ Hids E) as Hstep.
    assert (Hids1 : ids_of s1 = ids)
      by (rewrite <- Hids; eapply store_rel_ids; eassumption).
    specialize (IH s1 log1 store' log' Hids1 H).
    eapply store_rel_compose; [|exact Hstep|exact IH].
    intros pa pb pc Hid Hab Hbc s. specialize (Hab s). specialize (Hbc s).
    rewrite Hid in Hbc. unfold mem_string in *. cbn [existsb].
    destruct (String.eqb (worker_id pa) wid) eqn:Eid; cbn [andb orb] in *.
    + apply String.eqb_eq in Eid.
      destruct (mem_nat s stations) eqn:Es; cbn [andb] in *.
      * destruct (has_data_for_station pa s) eqn:Ed; cbn [negb] in *.
        -- rewrite andb_true_r in Hbc.
           rewrite (has_data_obs pa pb s Hab), Ed in Hbc.
           rewrite andb_false_r in Hbc. congruence.
        -- destruct Hab as [v [Hv Hab]].
           assert (Hdb : has_data_for_station pb s = true)
             by (unfold has_data_for_station; now rewrite Hab).
           rewrite Hdb in Hbc. cbn [negb] in Hbc. rewrite andb_false_r in Hbc.
           exists v. rewrite Eid. split; [exact Hv | congruence].
      * rewrite andb_false_r in Hbc. cbn [andb] in Hbc. congruence.
    + rewrite (has_data_obs pa pb s Hab) in Hbc.
      destruct (existsb (String.eqb (worker_id pa)) wids && mem_nat s stations
                && negb (has_data_for_station pa s)).
      * destruct Hbc as [v [Hv Hbc]]. exists v. split; [exact Hv | congruence].
      * congruence.
Qed.

End GapFiller.


(** *** What the gap filler returns *)

Lemma gap_filler_spec (true_workers : list TrueWorkerProfile) (store : Store)
  (tasks : list TaskProfile) (a : Assignment) (st : CollectorState) :
  NoDup (ids_of store) ->
  collect_incomplete_worker_data_ui true_workers store tasks a = Some st ->
  current_assignment_of st = a
  /\ exists val,
       store_rel (gaps_filled val) store (store_of st)
       /\ forall w s v,
            val w s = Some v ->
            exists bp,
              simulate_station_performance true_workers tasks a = Some bp
              /\ probe_value (true_worker_dict_of true_workers) tasks bp w s = Some v.
Proof.
  intros Hnd H. unfold collect_incomplete_worker_data_ui in H.
  destruct (map worker_id (filter incomplete store)) as [|w0 ws0] eqn:Ew.
  - injection H as <-. cbn. split; [reflexivity|].
    exists (fun _ _ => None). split; [|discriminate].
    split; [reflexivity|]. intros i prof Hp. exists prof. repeat split; auto.
    intros s.
    assert (Hc : incomplete prof = false).
    { destruct (incomplete prof) eqn:E; [|reflexivity].
      assert (Hin : In prof (filter incomplete store)).
      { apply filter_In. split; [eapply nth_error_In; eassumption | exact E]. }
      apply (in_map worker_id) in Hin. rewrite Ew in Hin. destruct Hin. }
    destruct (mem_nat s stations) eqn:Es; [|reflexivity].
    apply mem_nat_in in Es.
    rewrite (proj1 (incomplete_false prof) Hc s Es). reflexivity.
  - rewrite <- Ew in H. clear w0 ws0 Ew. inv_bind H. rename l into bp.
    inv_bind H. destruct p as [store' log]. injection H as <-. cbn.
    split; [reflexivity|].
    exists (probe_value (true_worker_dict_of true_workers) tasks bp).
    split.
    + rewrite factory_worker_dict_ids in E0.
      apply fix_workers_fold in E0; [|assumption|reflexivity].
      revert E0. apply store_rel_impl_in.
      intros i pa pb Hpa Hab s. specialize (Hab s).
      destruct (mem_string (worker_id pa) (map worker_id (filter incomplete store)))
        eqn:Em; cbn [andb] in Hab; [exact Hab|].
      assert (Hc : incomplete pa = false).
      { destruct (incomplete pa) eqn:Ei; [|reflexivity].
        assert (Hin : In pa (filter incomplete store)).
        { apply filter_In. split; [eapply nth_error_In; eassumption | exact Ei]. }
        apply (in_map worker_id) in Hin. apply mem_string_in in Hin. congruence. }
      destruct (mem_nat s stations) eqn:Es; cbn [andb]; [|exact Hab].
      apply mem_nat_in in Es.
      rewrite (proj1 (incomplete_false pa) Hc s Es). exact Hab.
    + intros w s v Hv. exists bp. split; [reflexivity | exact Hv].
Qed.

(** *** The events of the gap filler *)

Lemma log_extends_refl (P : Event -> Prop) (log : list Event) :
  log_extends P log log.
Proof.
  exists []. split; [now rewrite app_nil_r | constructor].
Qed.

Lemma log_extends_trans (P : Event -> Prop) (l1 l2 l3 : list Event) :
  log_extends P l1 l2 -> log_extends P l2 l3 -> log_extends P l1 l3.
Proof.
  intros [e1 [-> H1]] [e2 [-> H2]]. exists (e1 ++ e2).
  split; [now rewrite app_assoc | now apply Forall_app].
Qed.

Lemma gap_filler_log (true_workers : list TrueWorkerProfile) (store : Store)
  (tasks : list TaskProfile) (a : Assignment) (st : CollectorState) :
  collect_incomplete_worker_data_ui true_workers store tasks a = Some st ->
  Forall (probe_event a) (log_of st).
Proof.
  intros H. unfold collect_incomplete_worker_data_ui in H.
  destruct (map worker_id (filter incomplete store)) as [|w0 ws0] eqn:Ew.
  - injection H as <-. constructor.
  - rewrite <- Ew in H. clear w0 ws0 Ew. do 2 inv_bind H.
    destruct p as [store' log]. injection H as <-. cbn [log_of].
    apply (@foldM_rel _ _ (fun s s' => log_extends (probe_event a) (snd s) (snd s')))
      in E0.
    + cbn [snd] in E0. destruct E0 as [evs [-> Hevs]]. exact Hevs.
    + intros s. apply log_extends_refl.
    + intros x y z. apply log_extends_trans.
    + intros [s0 l0] wid [s1 l1] _ Hfix. unfold fix_worker in Hfix.
      inv_bind Hfix.
      apply (@foldM_rel _ _ (fun s s' => log_extends (probe_event a) (snd s) (snd s')))
        in Hfix; [exact Hfix | | |].
      * intros s. apply log_extends_refl.
      * intros x y z. apply log_extends_trans.
      * intros [s2 l2] ts [s3 l3] _ Hprobe. apply probe_step_inv in Hprobe.
        destruct Hprobe as [v [temp [ev [_ [Hpa [_ [-> [Hph Hev]]]]]]]].
        exists [ev]. split; [reflexivity|]. constructor; [|constructor].
        split; [exact Hph|]. exists wid, ts. now rewrite Hev.
Qed.


(** ** Performance oracle *)

Lemma calculate_performance_ok (tw : TrueWorkerProfile) (s : nat) (dt fc : R) :
  true_worker_ok tw -> In s stations -> (0 < dt)%R -> (0 <= fc)%R ->
  exists v, calculate_performance tw s dt fc = Some v /\ (0 <= v)%R.
Proof.
  intros [Hb [H1 [H2 [H3 [H4 [H5 H6]]]]]] Hs Hdt Hfc.
  destruct (calculate_energy_avg_value tw fc Hb Hfc) as [e [He [[He0 _] _]]].
  unfold calculate_performance. apply in_stations in Hs.
  assert (Hsk : exists sk, get_skill tw s = Some sk /\ (0 <= sk)%R).
  { destruct s as [|[|[|[|[|[|[|s]]]]]]]; try lia; cbn; eauto. }
  destruct Hsk as [sk [-> Hsk]]. cbn [bind]. rewrite He. cbn [bind].
  rewrite rdiv_some by lra. cbn [bind]. eexists. split; [reflexivity|].
  apply Rmult_le_pos; [|lra].
  apply Rmult_le_pos; [exact Hsk|]. apply Rlt_le. now apply Rinv_0_lt_compat.
Qed.

Lemma true_worker_dict_in (true_workers : list TrueWorkerProfile) (w : WorkerId)
  (tw : TrueWorkerProfile) :
  dict_get String.eqb w (true_worker_dict_of true_workers) = Some tw ->
  In tw true_workers /\ true_worker_id tw = w.
Proof.
  intros H. apply (dict_of_get_some _ _ String.eqb String.eqb_eq) in H.
  destruct H as [x [Hx [Hk Hv]]]. subst. auto.
Qed.

Lemma station_total_ok (true_workers : list TrueWorkerProfile) (s : nat)
  (task : TaskProfile) (row : list WorkerId) :
  true_workers_ok true_workers -> task_ok task -> In s stations ->
  exists v, station_total (true_worker_dict_of true_workers) s task row = Some v
            /\ (0 <= v)%R.
Proof.
  intros Hw [Hdt Hfc] Hs. unfold station_total.
  assert (H : forall acc, (0 <= acc)%R ->
    exists v,
      foldM (fun total_performance wid =>
               match dict_get String.eqb wid (true_worker_dict_of true_workers) with
               | Some true_worker =>
                   performance <- calculate_performance true_worker s
                                    (delivery_time task) (fatigue_cost task) ;;
                   Some (total_performance + performance)%R
               | None => Some total_performance
               end) row acc = Some v /\ (0 <= v)%R).
  { induction row as [|wid row IH]; intros acc Hacc.
    - exists acc. auto.
    - cbn [foldM].
      destruct (dict_get String.eqb wid (true_worker_dict_of true_workers)) as [tw|] eqn:E.
      + apply true_worker_dict_in in E. destruct E as [Hin _].
        destruct (calculate_performance_ok tw s _ _ (Hw tw Hin) Hs Hdt Hfc)
          as [v [Hv Hv0]].
        rewrite Hv. cbn [bind]. apply IH. lra.
      + cbn [bind]. now apply IH. }
  apply H. lra.
Qed.

Lemma task_dict_ok (tasks : list TaskProfile) (s : nat) :
  tasks_ok tasks -> In s stations ->
  exists t, dict_get Nat.eqb s (task_dict_of tasks) = Some t /\ task_ok t.
Proof.
  intros [Hk Hall] Hs.
  destruct (dict_get Nat.eqb s (task_dict_of tasks)) as [t|] eqn:E.
  - exists t. split; [reflexivity|].
    apply (dict_of_get_some _ _ Nat.eqb Nat.eqb_eq) in E.
    destruct E as [x [Hx [_ <-]]]. now apply Hall.
  - exfalso. revert E. apply (dict_of_get_in _ _ Nat.eqb Nat.eqb_eq).
    now rewrite Hk.
Qed.

Lemma task_nth_ok (tasks : list TaskProfile) (s : nat) :
  tasks_ok tasks -> In s stations ->
  exists t, nth_error tasks (s - 1) = Some t /\ task_ok t.
Proof.
  intros [Hk Hall] Hs. apply in_stations in Hs.
  assert (Hlen : length tasks = 6).
  { apply (f_equal (@length _)) in Hk. now rewrite length_map in Hk. }
  destruct (nth_error tasks (s - 1)) as [t|] eqn:E.
  - exists t. split; [reflexivity|]. apply Hall. eapply nth_error_In; eassumption.
  - apply nth_error_None in E. lia.
Qed.

(** What [simulate_station_performance] returns, entry by entry. *)
Lemma simulate_fold_inv (twd : list (WorkerId * TrueWorkerProfile))
  (td : list (nat * TaskProfile)) (a : Assignment) :
  forall acc bp,
    NoDup (map fst a) ->
    foldM (fun station_performance kv =>
             task <- dict_get Nat.eqb (fst kv) td ;;
             total <- station_total twd (fst kv) task (snd kv) ;;
             Some (dict_set Nat.eqb (fst kv) total station_performance))
          a acc = Some bp ->
    (forall k row, In (k, row) a ->
       exists task v, dict_get Nat.eqb k td = Some task
                      /\ station_total twd k task row = Some v
                      /\ dict_get Nat.eqb k bp = Some v)
    /\ (forall k, ~ In k (map fst a) -> dict_get Nat.eqb k bp = dict_get Nat.eqb k acc).
Proof.
  induction a as [|[k0 row0] a IH]; intros acc bp Hnd H.
  - cbn in H. injection H as <-. split; [intros k row [] | reflexivity].
  - cbn [foldM fst snd] in H. inv_bind H. rename E into Hstep.
    do 2 inv_bind Hstep. injection Hstep as <-. cbn [map fst] in Hnd.
    apply NoDup_cons_iff in Hnd. destruct Hnd as [Hk0 Hnd].
    destruct (IH _ _ Hnd H) as [IH1 IH2]. split.
    + intros k row [[= <- <-]|Hin]; [|now apply IH1].
      exists t, r. split; [exact E|]. split; [exact E0|].
      rewrite IH2 by assumption.
      rewrite (dict_get_set _ _ Nat.eqb Nat.eqb_eq). now rewrite Nat.eqb_refl.
    + intros k Hk. cbn [map fst In] in Hk.
      rewrite IH2 by tauto.
      rewrite (dict_get_set _ _ Nat.eqb Nat.eqb_eq).
      destruct (k =? k0) eqn:Ek; [|reflexivity].
      apply Nat.eqb_eq in Ek. subst. tauto.
Qed.

Lemma well_keyed_nodup (a : Assignment) : well_keyed a -> NoDup (map fst a).
Proof.
  unfold well_keyed. intros ->. apply seq_NoDup.
Qed.

Lemma well_keyed_in (a : Assignment) (s : nat) :
  well_keyed a -> In s stations -> In (s, row_of a s) a.
Proof.
  intros Hk Hs. rewrite (well_keyed_mk a Hk) at 2.
  unfold mk_assignment. apply in_map_iff. exists s. auto.
Qed.

Lemma simulate_inv (true_workers : list TrueWorkerProfile) (tasks : list TaskProfile)
  (a : Assignment) (bp : list (nat * R)) (s : nat) :
  well_keyed a -> In s stations ->
  simulate_station_performance true_workers tasks a = Some bp ->
  exists task v,
    dict_get Nat.eqb s (task_dict_of tasks) = Some task
    /\ station_total (true_worker_dict_of true_workers) s task (row_of a s) = Some v
    /\ dict_get Nat.eqb s bp = Some v.
Proof.
  intros Hk Hs H. unfold simulate_station_performance in H.
  apply simulate_fold_inv in H; [|now apply well_keyed_nodup].
  destruct H as [H _]. apply H. now apply well_keyed_in.
Qed.

Lemma simulate_total (true_workers : list TrueWorkerProfile)
  (tasks : list TaskProfile) (a : Assignment) :
  well_keyed a -> tasks_ok tasks -> true_workers_ok true_workers ->
  exists bp, simulate_station_performance true_workers tasks a = Some bp.
Proof.
  intros Hk Ht Hw. unfold simulate_station_performance.
  assert (Hkeys : forall kv, In kv a -> In (fst kv) stations).
  { intros kv Hin. rewrite <- Hk. now apply in_map. }
  clear Hk. generalize (@nil (nat * R)) as acc.
  induction a as [|[k row] a IH]; intros acc; [now exists acc|].
  cbn [foldM fst snd].
  assert (Hs : In k stations) by (apply (Hkeys (k, row)); now left).
  destruct (task_dict_ok tasks k Ht Hs) as [t [Hd Hok]].
  fold (task_dict_of tasks). rewrite Hd. cbn [bind].
  destruct (station_total_ok true_workers k t row Hw Hok Hs) as [v [Hv _]].
  fold (true_worker_dict_of true_workers). rewrite Hv. cbn [bind].
  apply IH. intros kv Hin. apply Hkeys. now right.
Qed.

Lemma simulate_nonneg (true_workers : list TrueWorkerProfile)
  (tasks : list TaskProfile) (a : Assignment) (bp : list (nat * R)) (s : nat) (v : R) :
  well_keyed a -> tasks_ok tasks -> true_workers_ok true_workers ->
  In s stations ->
  simulate_station_performance true_workers tasks a = Some bp ->
  dict_get Nat.eqb s bp = Some v -> (0 <= v)%R.
Proof.
  intros Hk Ht Hw Hs H Hv.
  destruct (simulate_inv true_workers tasks a bp s Hk Hs H) as [task [v' [Hd [Htot Hv']]]].
  assert (v' = v) by congruence. subst v'.
  destruct (task_dict_ok tasks s Ht Hs) as [t [Hd' Hok]].
  assert (t = task) by congruence. subst t.
  destruct (station_total_ok true_workers s task (row_of a s) Hw Hok Hs) as [v' [Hv'' H0]].
  congruence.
Qed.


(** ** The run completes on a well-formed session *)

Lemma foldM_total {A S : Type} (Inv : S -> Prop) (f : S -> A -> option S)
  (xs : list A) :
  (forall s x, In x xs -> Inv s -> exists s', f s x = Some s' /\ Inv s') ->
  forall s, Inv s -> exists s', foldM f xs s = Some s' /\ Inv s'.
Proof.
  induction xs as [|x xs IH]; intros Hstep s Hs.
  - exists s. auto.
  - destruct (Hstep s x (or_introl eq_refl) Hs) as [s1 [H1 Hs1]].
    cbn [foldM]. rewrite H1. cbn [bind].
    apply IH; [|exact Hs1]. intros s0 x0 Hin. apply Hstep. now right.
Qed.

Lemma store_record_total (store : Store) (wid : WorkerId) (s : nat) (v : R) :
  In wid (ids_of store) ->
  exists store',
    store_record (id_index (ids_of store)) store wid s v = Some store'
    /\ ids_of store' = ids_of store.
Proof.
  intros Hin. destruct (id_index_in _ _ Hin) as [i Hi].
  destruct (nth_error_ids store i _ (id_index_get _ _ _ Hi)) as [prof [Hp Hw]].
  assert (Hlt : i < length store) by (apply nth_error_Some; congruence).
  destruct (list_set_some (record_performance_percentage prof s v) store i Hlt)
    as [store' [Hset _]].
  exists store'. unfold store_record. rewrite Hi. cbn [bind]. rewrite Hp. cbn [bind].
  split; [exact Hset|].
  unfold ids_of. eapply list_set_map; [exact Hset|].
  rewrite nth_error_map, Hp. reflexivity.
Qed.

Lemma locate_worker_in (wid : WorkerId) (a : Assignment) (cs cp : nat) :
  locate_worker wid a = Some (cs, cp) -> In cs (map fst a).
Proof.
  induction a as [|[k row] a IH]; cbn [locate_worker map fst In]; [discriminate|].
  destruct (mem_string wid row).
  - intros [= <- _]. now left.
  - intros H. right. now apply IH.
Qed.

Lemma probe_assignment_total (wid : WorkerId) (s : nat) (a : Assignment) :
  well_keyed a -> In s stations ->
  exists temp, probe_assignment wid (locate_worker wid a) s a = Some temp.
Proof.
  intros Hk Hs. unfold probe_assignment.
  assert (Hset : forall cs row, In cs stations ->
            exists r, station_get s (station_set cs row a) = Some r).
  { intros cs row Hcs. rewrite (well_keyed_mk a Hk).
    rewrite station_set_mk by assumption. rewrite station_get_mk by assumption.
    eauto. }
  assert (Hget : exists r, station_get s a = Some r).
  { rewrite (well_keyed_mk a Hk). rewrite station_get_mk by assumption. eauto. }
  destruct (locate_worker wid a) as [[cs cp]|] eqn:El.
  - apply locate_worker_in in El. rewrite Hk in El.
    assert (Hcs : exists row, station_get cs a = Some row).
    { rewrite (well_keyed_mk a Hk). rewrite station_get_mk by assumption. eauto. }
    destruct Hcs as [row Hrow].
    destruct cs as [|cs]; [apply in_stations in El; lia|].
    rewrite Hrow. cbn [bind].
    destruct (mem_string wid row); cbn [bind].
    + destruct (Hset (S cs) (remove_first wid row) El) as [r ->]. cbn [bind].
      destruct (cp <? length r); eauto.
    + destruct Hget as [r ->]. cbn [bind]. destruct (cp <? length r); eauto.
  - cbn [bind]. destruct Hget as [r ->]. cbn [bind]. eauto.
Qed.

Lemma gap_filler_total (true_workers : list TrueWorkerProfile) (store : Store)
  (tasks : list TaskProfile) (a : Assignment) :
  well_keyed a -> tasks_ok tasks -> true_workers_ok true_workers ->
  (forall w, In w (ids_of store) -> In w (map true_worker_id true_workers)) ->
  exists st, collect_incomplete_worker_data_ui true_workers store tasks a = Some st.
Proof.
  intros Hk Ht Hw Htrue. unfold collect_incomplete_worker_data_ui.
  destruct (map worker_id (filter incomplete store)) as [|w0 ws0] eqn:Ew; [eauto|].
  rewrite <- Ew. clear w0 ws0 Ew.
  destruct (simulate_total true_workers tasks a Hk Ht Hw) as [bp Hbp].
  rewrite Hbp. cbn [bind]. rewrite factory_worker_dict_ids.
  fold (true_worker_dict_of true_workers).
  remember (ids_of store) as ids eqn:Eids.
  destruct (@foldM_total _ _ (fun st => ids_of (fst st) = ids)
              (fix_worker (true_worker_dict_of true_workers) tasks (id_index ids) bp a)
              (map worker_id (filter incomplete store)))
    with (s := (store, @nil Event)) as [[store' log] [Hf _]]; [|now symmetry|].
  2:{ rewrite Hf. cbn [bind]. eauto. }
  intros [s0 l0] wid Hwid Hids. cbn [fst] in Hids.
  assert (Hin : In wid ids).
  { apply in_map_iff in Hwid. destruct Hwid as [prof [<- Hp]].
    apply filter_In in Hp. rewrite Eids. unfold ids_of. apply in_map. tauto. }
  unfold fix_worker. cbn [fst]. rewrite <- Hids in Hin |- *.
  destruct (deref_in s0 wid Hin) as [prof [Hd _]]. rewrite Hd. cbn [bind].
  rewrite Hids.
  apply (@foldM_total _ _ (fun st => ids_of (fst st) = ids)); [|exact Hids].
  intros [s1 l1] ts Hts Hids1. cbn [fst] in Hids1.
  apply filter_In in Hts. destruct Hts as [Hts _].
  unfold probe_step.
  destruct (probe_assignment_total wid ts a Hk Hts) as [temp ->]. cbn [bind].
  assert (Hwt : In wid (map true_worker_id true_workers)).
  { apply Htrue. rewrite <- Hids. exact Hin. }
  destruct (dict_get String.eqb wid (true_worker_dict_of true_workers)) as [tw|] eqn:Etw.
  2:{ exfalso. revert Etw. now apply (dict_of_get_in _ _ String.eqb String.eqb_eq). }
  cbn [bind]. apply true_worker_dict_in in Etw. destruct Etw as [Htw _].
  destruct (task_nth_ok tasks ts Ht Hts) as [task [-> [Hdt Hfc]]]. cbn [bind].
  destruct (calculate_performance_ok tw ts _ _ (Hw tw Htw) Hts Hdt Hfc) as [v [-> _]].
  cbn [bind].
  destruct (simulate_inv true_workers tasks a bp ts Hk Hts Hbp) as [_ [b [_ [_ ->]]]].
  cbn [bind]. rewrite <- Hids1.
  destruct (store_record_total s1 wid ts (isolated_percentage v b)) as [s2 [-> Hids2]].
  { rewrite Hids1, <- Hids. exact Hin. }
  cbn [bind]. eexists. split; [reflexivity|]. cbn [fst]. congruence.
Qed.


Lemma example_tasks_ok : tasks_ok example_tasks.
Proof.
  split; [reflexivity|]. unfold example_tasks. intros t Hin.
  apply in_map_iff in Hin. destruct Hin as [s [<- _]].
  split; cbn; lra.
Qed.

Lemma example_true_workers_ok : true_workers_ok example_true_workers.
Proof.
  intros tw [<-|[<-|[]]]; unfold true_worker_ok; cbn; repeat split; lra.
Qed.

Lemma example_ids_nodup : NoDup (ids_of example_store).
Proof.
  cbn. repeat constructor; cbn; intuition discriminate.
Qed.

Lemma example_true_profiles :
  forall w, In w (ids_of example_store) ->
            In w (map true_worker_id example_true_workers).
Proof.
  cbn. tauto.
Qed.

(** C6.  In a session whose ids are unique, whose assignment has the six
    stations and whose parameters lie in their ranges, every worker and
    station the gap filler probes (the stations of 1..6 the worker has no
    data for) ends with the single observation
    individual / base * 100 + 100, or 100 when the base is zero, where
    base is the station total of the current assignment, taken from the one
    simulation made on entry, and individual is the oracle performance of
    the worker at that station. *)
Theorem gap_filler_percentage :
  forall (true_workers : list TrueWorkerProfile) (factory_workers : Store)
         (tasks : list TaskProfile) (current_assignment : Assignment)
         (st : CollectorState),
    NoDup (ids_of factory_workers) ->
    well_keyed current_assignment ->
    tasks_ok tasks ->
    true_workers_ok true_workers ->
    collect_incomplete_worker_data_ui true_workers factory_workers tasks
                                      current_assignment = Some st ->
    forall i prof test_station,
      nth_error factory_workers i = Some prof ->
      In test_station stations ->
      has_data_for_station prof test_station = false ->
      exists base_performance true_worker task station_task individual base prof',
        simulate_station_performance true_workers tasks current_assignment
        = Some base_performance
        /\ dict_get Nat.eqb test_station base_performance = Some base
        /\ dict_get Nat.eqb test_station (task_dict_of tasks) = Some station_task
        /\ station_total (true_worker_dict_of true_workers) test_station
                         station_task (row_of current_assignment test_station)
           = Some base
        /\ dict_get String.eqb (worker_id prof)
                    (true_worker_dict_of true_workers) = Some true_worker
        /\ nth_error tasks (test_station - 1) = Some task
        /\ calculate_performance true_worker test_station
                                 (delivery_time task) (fatigue_cost task)
           = Some individual
        /\ nth_error (store_of st) i = Some prof'
        /\ worker_id prof' = worker_id prof
        /\ observations prof' test_station
           = [if Req_dec_T base 0 then 100%R
              else (individual / base * 100 + 100)%R].
Proof.
  intros tws store tasks a st Hnd Hk Ht Hw Hrun i prof s Hp Hs Hd.
  destruct (gap_filler_spec tws store tasks a st Hnd Hrun) as [_ [val [[_ Hrel] Hval]]].
  destruct (Hrel i prof Hp) as [prof' [Hp' [Hid Hfill]]].
  specialize (Hfill s).
  rewrite (proj2 (mem_nat_in s stations) Hs), Hd in Hfill. cbn in Hfill.
  destruct Hfill as [v [Hv Hobs]].
  destruct (Hval _ _ _ Hv) as [bp [Hbp Hpv]].
  unfold probe_value in Hpv. do 4 inv_bind Hpv. injection Hpv as <-.
  destruct (simulate_inv tws tasks a bp s Hk Hs Hbp) as [stask [b [Hd1 [Htot Hb]]]].
  assert (b = r0) by congruence. subst b.
  pose proof (simulate_nonneg tws tasks a bp s r0 Hk Ht Hw Hs Hbp Hb) as Hpos.
  exists bp, t, t0, stask, r, r0, prof'.
  repeat (split; [first [assumption | reflexivity]|]). rewrite Hobs. f_equal.
  unfold isolated_percentage.
  destruct (Rgt_dec r0 0) as [Hgt|Hngt], (Req_dec_T r0 0) as [Heq|Hneq];
    try reflexivity; [lra | exfalso; apply Hneq; lra].
Qed.

Lemma gap_filler_percentage_witness :
  exists st prof',
    collect_incomplete_worker_data_ui example_true_workers example_store
                                      example_tasks example_assignment = Some st
    /\ nth_error (store_of st) 0 = Some prof'
    /\ length (observations prof' 2) = 1.
Proof.
  destruct (gap_filler_total example_true_workers example_store example_tasks
              example_assignment eq_refl example_tasks_ok
              example_true_workers_ok example_true_profiles) as [st Hst].
  destruct (gap_filler_percentage example_true_workers example_store example_tasks
              example_assignment st example_ids_nodup eq_refl example_tasks_ok
              example_true_workers_ok Hst 0 _ 2 eq_refl
              ltac:(apply in_stations; lia) eq_refl)
    as [bp [tw [task [stask [ind [b [prof' [_ [_ [_ [_ [_ [_ [_ [Hp [_ Hobs]]]]]]]]]]]]]]]].
  exists st, prof'. split; [exact Hst|]. split; [exact Hp|].
  now rewrite Hobs.
Defined.

(** C9.  Whatever the gap filler is given, the assignment it returns is
    the current assignment it received, unchanged; every event it emits
    shows a copy of that same assignment in which one worker has left its
    station and entered the probed one. *)
Theorem gap_filler_moves_are_temporary :
  forall (true_workers : list TrueWorkerProfile) (factory_workers : Store)
         (tasks : list TaskProfile) (current_assignment : Assignment)
         (st : CollectorState),
    collect_incomplete_worker_data_ui true_workers factory_workers tasks
                                      current_assignment = Some st ->
    current_assignment_of st = current_assignment
    /\ Forall (probe_event current_assignment) (log_of st).
Proof.
  intros tws store tasks a st Hrun. split.
  - unfold collect_incomplete_worker_data_ui in Hrun.
    destruct (map worker_id (filter incomplete store)).
    + now injection Hrun as <-.
    + do 2 inv_bind Hrun. destruct p as [store' log]. now injection Hrun as <-.
  - eapply gap_filler_log. exact Hrun.
Qed.

Lemma gap_filler_moves_are_temporary_witness :
  exists st,
    collect_incomplete_worker_data_ui example_true_workers example_store
                                      example_tasks example_assignment = Some st
    /\ current_assignment_of st = example_assignment.
Proof.
  destruct (gap_filler_total example_true_workers example_store example_tasks
              example_assignment eq_refl example_tasks_ok
              example_true_workers_ok example_true_profiles) as [st Hst].
  exists st. split; [exact Hst|].
  exact (proj1 (gap_filler_moves_are_temporary _ _ _ _ _ Hst)).
Defined.


(** ** The observation of a rotation *)

Lemma foldM_ext {A S : Type} (f g : S -> A -> option S) (xs : list A) :
  (forall s x, f s x = g s x) -> forall s, foldM f xs s = foldM g xs s.
Proof.
  intros H. induction xs as [|x xs IH]; intros s; [reflexivity|].
  cbn [foldM]. rewrite H. destruct (g s x); cbn [bind]; auto.
Qed.






(** ** The rotation phase completes *)

Lemma rotate_length (r : nat) (l : list WorkerId) : length (rotate r l) = length l.
Proof.
  unfold rotate. rewrite length_app, length_skipn, length_firstn. lia.
Qed.

Lemma rotate_in (r : nat) (l : list WorkerId) (w : WorkerId) :
  In w (rotate r l) -> In w l.
Proof.
  unfold rotate. rewrite in_app_iff. rewrite <- (firstn_skipn r l) at 3.
  rewrite in_app_iff. tauto.
Qed.

Lemma cohort_workers_in (f : nat -> list WorkerId) (p : nat) (w : WorkerId) :
  In w (map snd (cohort_of f p)) ->
  exists s, In s stations /\ nth_error (f s) p = Some w.
Proof.
  intros H. apply in_map_iff in H. destruct H as [[s w'] [Hw Hin]].
  cbn [snd] in Hw. subst w'. unfold cohort_of in Hin.
  apply in_flat_map in Hin. destruct Hin as [s' [Hs' Hin]].
  destruct (nth_error (f s') p) as [w0|] eqn:E; [|contradiction].
  destruct Hin as [[= <- <-]|[]]. eauto.
Qed.

Lemma list_set_in {A : Type} (x : A) (l l' : list A) (i : nat) (y : A) :
  list_set i x l = Some l' -> In y l' -> y = x \/ In y l.
Proof.
  intros Hset Hin. apply list_set_inv in Hset.
  destruct Hset as [_ [_ [Hn Ho]]].
  apply In_nth_error in Hin. destruct Hin as [j Hj].
  destruct (Nat.eq_dec j i) as [->|Hne].
  - left. congruence.
  - right. rewrite Ho in Hj by assumption. eapply nth_error_In; eassumption.
Qed.

Section RotationTotal.
Variable true_workers : list TrueWorkerProfile.
Variable tasks : list TaskProfile.
Hypothesis tasks_wf : tasks_ok tasks.
Hypothesis true_workers_wf : true_workers_ok true_workers.
Variable ids : list WorkerId.
Variable f : nat -> list WorkerId.
Hypothesis f_known : forall s w, In s stations -> In w (f s) -> In w ids.
Variable bp : list (nat * R).
Hypothesis bp_keys : forall s, In s stations -> exists v, dict_get Nat.eqb s bp = Some v.

Lemma shaped_original : shaped f ids (mk_assignment f).
Proof.
  exists f. auto.
Qed.

Lemma needs_testing_total (store : Store) (p : nat) :
  exists b, check_position_needs_testing store (mk_assignment f) p = Some b.
Proof.
  unfold check_position_needs_testing.
  assert (H : forall sts, incl sts stations ->
            exists b, needs_testing_from (factory_worker_dict store) store
                                         (mk_assignment f) p sts = Some b).
  { induction sts as [|s sts IH]; intros Hincl; [cbn; eauto|].
    cbn [needs_testing_from].
    rewrite station_get_mk by (apply Hincl; now left). cbn [bind].
    assert (Hrest := IH (fun x Hx => Hincl x (or_intror Hx))).
    destruct (nth_error (f s) p); [|exact Hrest].
    destruct (deref (factory_worker_dict store) store s0); [|exact Hrest].
    destruct (incomplete f0); [eauto | exact Hrest]. }
  apply H. apply incl_refl.
Qed.

Lemma place_total (a : Assignment) (s p : nat) (w : WorkerId) :
  shaped f ids a -> In s stations -> p < length (f s) -> In w ids ->
  exists a', place s p w a = Some a' /\ shaped f ids a'.
Proof.
  intros [g [-> [Hlen Hin]]] Hs Hp Hw.
  destruct (place_mk g s p w Hs ltac:(now rewrite Hlen)) as [row' [Hpl [Hl [Hn Ho]]]].
  eexists. split; [exact Hpl|].
  eexists. split; [reflexivity|]. split.
  - intros s'. destruct (s' =? s) eqn:E; [|apply Hlen].
    apply Nat.eqb_eq in E. subst. now rewrite Hl.
  - intros s' w' Hs' Hw'. destruct (s' =? s) eqn:E; [|now apply (Hin s')].
    apply Nat.eqb_eq in E. subst s'.
    apply In_nth_error in Hw'. destruct Hw' as [j Hj].
    destruct (Nat.eq_dec j p) as [->|Hne]; [congruence|].
    rewrite Ho in Hj by assumption. apply (Hin s); [exact Hs|].
    eapply nth_error_In; eassumption.
Qed.

Lemma place_rotated_total (temp : Assignment) (p : nat) (rotated : list WorkerId) :
  shaped f ids temp ->
  length rotated = length (cohort_of f p) ->
  (forall w, In w rotated -> In w ids) ->
  exists temp',
    place_rotated (map fst (cohort_of f p)) rotated p temp = Some temp'
    /\ shaped f ids temp'.
Proof.
  intros Hsh Hlen Hrot. unfold place_rotated.
  apply (@foldM_total _ _ (shaped f ids)); [|exact Hsh].
  intros t [i s] Hin Ht. cbn [fst snd]. apply in_enumerate in Hin.
  assert (Hi : i < length rotated).
  { rewrite Hlen, <- (length_map fst). apply nth_error_Some. congruence. }
  destruct (nth_error rotated i) as [w|] eqn:Ew; [|apply nth_error_None in Ew; lia].
  cbn [bind]. apply nth_error_In in Hin. apply cohort_stations in Hin.
  destruct Hin as [Hs Hp].
  apply place_total; auto. apply Hrot. eapply nth_error_In; eassumption.
Qed.

Lemma adjustment_total (store : Store) (temp : Assignment) (p s : nat) :
  shaped f ids temp -> ids_of store = ids -> In s stations ->
  exists adj, adjustment_of (id_index ids) store (mk_assignment f) temp p s = Some adj.
Proof.
  intros [g [-> [Hlen Hin]]] Hids Hs. unfold adjustment_of.
  rewrite station_get_mk by assumption. cbn [bind].
  destruct (@foldM_total _ _ (fun _ : R => True)
              (fun adjustment pw =>
                 if fst pw =? p then Some adjustment
                 else
                   original_row <- station_get s (mk_assignment f) ;;
                   match nth_error original_row (fst pw) with
                   | Some original_worker_at_pos =>
                       if String.eqb (snd pw) original_worker_at_pos
                       then Some adjustment
                       else
                         w <- deref (id_index ids) store (snd pw) ;;
                         Some (adjustment + (get_average_percentage w s - 100))%R
                   | None => Some adjustment
                   end)
              (enumerate (g s))) with (s := 0%R) as [adj [Hadj _]]; [|exact I|eauto].
  intros acc [q w] Hqw _. cbn [fst snd]. apply in_enumerate in Hqw.
  destruct (q =? p); [eauto|].
  rewrite station_get_mk by assumption. cbn [bind].
  destruct (nth_error (f s) q); [|eauto].
  destruct (String.eqb w s0); [eauto|].
  assert (Hw : In w (ids_of store)).
  { rewrite Hids. apply (Hin s); [exact Hs|]. eapply nth_error_In; eassumption. }
  destruct (deref_in store w Hw) as [prof [Hd _]]. rewrite Hids in Hd.
  rewrite Hd. cbn [bind]. eauto.
Qed.

Lemma record_rotation_total (store : Store) (temp : Assignment)
  (cp : list (nat * R)) (rotated : list WorkerId) (p idx s : nat)
  (cmp : list (nat * Comparison)) :
  shaped f ids temp -> ids_of store = ids ->
  (forall s, In s stations -> exists v, dict_get Nat.eqb s cp = Some v) ->
  In s stations ->
  (exists w, nth_error rotated idx = Some w /\ In w ids) ->
  exists st',
    record_rotation (id_index ids) bp cp (mk_assignment f) temp rotated p
                    (store, cmp) (idx, s) = Some st'
    /\ ids_of (fst st') = ids.
Proof.
  intros Hsh Hids Hcp Hs [w [Hw Hwin]]. unfold record_rotation. cbn [fst snd].
  destruct (bp_keys s Hs) as [b ->]. destruct (Hcp s Hs) as [c ->].
  cbn [bind]. rewrite Hw. cbn [bind].
  rewrite <- Hids in Hwin. destruct (deref_in store w Hwin) as [prof [Hd _]].
  rewrite Hids in Hd. rewrite Hd. cbn [bind].
  destruct (has_data_for_station prof s); [eauto|].
  destruct (adjustment_total store temp p s Hsh Hids Hs) as [adj ->]. cbn [bind].
  destruct (store_record_total store w s (raw_percentage_of c b - adj) Hwin)
    as [store' [Hrec Hids']].
  rewrite Hids in Hrec. rewrite Hrec. cbn [bind].
  eexists. split; [reflexivity|]. cbn [fst]. congruence.
Qed.

Lemma rotation_step_total (p r : nat) (st : Assignment * Store * list Event) :
  shaped f ids (fst (fst st)) -> ids_of (snd (fst st)) = ids ->
  exists st',
    rotation_step true_workers tasks (id_index ids) bp (mk_assignment f)
                  (map fst (cohort_of f p)) (map snd (cohort_of f p)) p st r
    = Some st'
    /\ shaped f ids (fst (fst st')) /\ ids_of (snd (fst st')) = ids.
Proof.
  destruct st as [[temp store] log]. cbn [fst snd]. intros Hsh Hids.
  unfold rotation_step.
  set (rotated := rotate r (map snd (cohort_of f p))).
  assert (Hrl : length rotated = length (cohort_of f p)).
  { unfold rotated. now rewrite rotate_length, length_map. }
  assert (Hrin : forall w, In w rotated -> In w ids).
  { intros w Hw. apply rotate_in in Hw. apply cohort_workers_in in Hw.
    destruct Hw as [s [Hs Hn]]. apply (f_known s); [exact Hs|].
    eapply nth_error_In; eassumption. }
  destruct (place_rotated_total temp p rotated Hsh Hrl Hrin) as [temp' [Hpl Hsh']].
  rewrite Hpl. cbn [bind].
  assert (Hk' : well_keyed temp').
  { destruct Hsh' as [g [-> _]]. apply mk_well_keyed. }
  destruct (simulate_total true_workers tasks temp' Hk' tasks_wf true_workers_wf)
    as [cp Hcp].
  rewrite Hcp. cbn [bind].
  assert (Hcpk : forall s, In s stations -> exists v, dict_get Nat.eqb s cp = Some v).
  { intros s Hs.
    destruct (simulate_inv true_workers tasks temp' cp s Hk' Hs Hcp) as [t [v [_ [_ Hv]]]].
    eauto. }
  destruct (@foldM_total _ _ (fun st => ids_of (fst st) = ids)
              (record_rotation (id_index ids) bp cp (mk_assignment f) temp' rotated p)
              (enumerate (map fst (cohort_of f p))))
    with (s := (store, @nil (nat * Comparison))) as [[store' cmp] [Hfold Hids']];
    [|exact Hids|].
  - intros [s0 c0] [idx s] Hin Hs0. cbn [fst] in Hs0. apply in_enumerate in Hin.
    assert (Hidx : idx < length rotated).
    { rewrite Hrl, <- (length_map fst). apply nth_error_Some. congruence. }
    apply nth_error_In in Hin. apply cohort_stations in Hin. destruct Hin as [Hs _].
    apply record_rotation_total; auto.
    destruct (nth_error rotated idx) as [w|] eqn:Ew;
      [|apply nth_error_None in Ew; lia].
    exists w. split; [reflexivity|]. apply Hrin. eapply nth_error_In; eassumption.
  - rewrite Hfold. cbn [bind]. eexists. split; [reflexivity|]. cbn [fst snd]. auto.
Qed.

Lemma position_step_total (max_workers p : nat) (st : CollectorState) :
  shaped f ids (current_assignment_of st) -> ids_of (store_of st) = ids ->
  exists st',
    position_step true_workers tasks (id_index ids) bp (mk_assignment f)
                  max_workers st p = Some st'
    /\ shaped f ids (current_assignment_of st') /\ ids_of (store_of st') = ids.
Proof.
  intros Hsh Hids. unfold position_step.
  destruct (needs_testing_total (store_of st) p) as [b ->]. cbn [bind].
  destruct (negb b); [eexists; split; [reflexivity|]; cbn; auto|].
  rewrite position_cohort_mk. cbn [bind].
  destruct (map snd (cohort_of f p)) as [|w0 ws0] eqn:Ews; [eauto|].
  rewrite <- Ews. clear w0 ws0 Ews.
  destruct (@foldM_total _ _
              (fun s => shaped f ids (fst (fst s)) /\ ids_of (snd (fst s)) = ids)
              (rotation_step true_workers tasks (id_index ids) bp (mk_assignment f)
                             (map fst (cohort_of f p)) (map snd (cohort_of f p)) p)
              (seq 0 (length (map snd (cohort_of f p)))))
    with (s := (current_assignment_of st, store_of st, log_of st))
    as [[[temp' store'] log'] [Hfold [_ Hids']]]; [|cbn; auto|].
  { intros s r _ [H1 H2]. now apply rotation_step_total. }
  rewrite Hfold. cbn [bind]. cbn [fst snd] in Hids'.
  destruct (p <? max_workers - 1).
  - destruct Hsh as [g [Hg [Hlen Hin]]]. rewrite Hg.
    destruct (optimize_position_spec store' g p) as [g' [details [Ho [H1 [H2 [H3 _]]]]]].
    { intros w Hw. rewrite Hids'. apply cohort_workers_in in Hw.
      destruct Hw as [s [Hs Hn]]. apply (Hin s); [exact Hs|].
      eapply nth_error_In; eassumption. }
    rewrite Ho. cbn [bind]. eexists. split; [reflexivity|]. cbn.
    split; [|exact Hids'].
    exists g'. split; [reflexivity|]. split; [intros s; now rewrite H1, Hlen|].
    intros s w Hs Hw. apply In_nth_error in Hw. destruct Hw as [q Hq].
    destruct (Nat.eq_dec q p) as [->|Hne].
    + apply H3 in Hq; [|exact Hs]. apply cohort_workers_in in Hq.
      destruct Hq as [s' [Hs' Hn]]. apply (Hin s'); [exact Hs'|].
      eapply nth_error_In; eassumption.
    + rewrite H2 in Hq by assumption. apply (Hin s); [exact Hs|].
      eapply nth_error_In; eassumption.
  - eexists. split; [reflexivity|]. cbn. auto.
Qed.

Lemma rotation_phase_total (max_workers : nat) (st : CollectorState) :
  shaped f ids (current_assignment_of st) -> ids_of (store_of st) = ids ->
  exists st',
    rotation_phase true_workers tasks (id_index ids) bp (mk_assignment f)
                   max_workers st = Some st'
    /\ shaped f ids (current_assignment_of st') /\ ids_of (store_of st') = ids.
Proof.
  intros Hsh Hids. unfold rotation_phase.
  apply (@foldM_total _ _
           (fun s => shaped f ids (current_assignment_of s)
                     /\ ids_of (store_of s) = ids)); [|auto].
  intros s p _ [H1 H2]. now apply position_step_total.
Qed.

End RotationTotal.

Lemma record_base_total (ids : list WorkerId) (initial_assign : Assignment)
  (store : Store) :
  ids_of store = ids ->
  exists store',
    record_base (id_index ids) initial_assign store = Some store'
    /\ ids_of store' = ids.
Proof.
  intros Hids. unfold record_base.
  apply (@foldM_total _ _ (fun s => ids_of s = ids)); [|exact Hids].
  intros s [k row] _ Hs. cbn [fst snd].
  apply (@foldM_total _ _ (fun s => ids_of s = ids)); [|exact Hs].
  intros s' wid _ Hs'.
  destruct (dict_get String.eqb wid (id_index ids)) as [i|] eqn:E; [|eauto].
  apply id_index_get in E. apply nth_error_In in E. rewrite <- Hs' in E |- *.
  destruct (store_record_total s' wid k 100 E) as [s'' [H1 H2]]. eauto.
Qed.

(** On a well-formed session the whole collection run returns. *)
Lemma systematic_data_collection_total (true_workers : list TrueWorkerProfile)
  (factory_workers : Store) (tasks : list TaskProfile) (initial_assign : Assignment) :
  well_keyed initial_assign -> tasks_ok tasks -> true_workers_ok true_workers ->
  (forall w, In w (ids_of factory_workers) ->
             In w (map true_worker_id true_workers)) ->
  (forall w, In w (all_workers_of initial_assign) -> In w (ids_of factory_workers)) ->
  exists st,
    systematic_data_collection_ui true_workers factory_workers tasks initial_assign
    = Some st.
Proof.
  intros Hk Ht Hw Htrue Hknown.
  pose proof (well_keyed_mk initial_assign Hk) as Ha.
  remember (row_of initial_assign) as f eqn:Ef. clear Ef. subst initial_assign.
  unfold systematic_data_collection_ui.
  destruct (simulate_total true_workers tasks (mk_assignment f) Hk Ht Hw) as [bp Hbp].
  rewrite Hbp. cbn [bind]. rewrite factory_worker_dict_ids.
  remember (ids_of factory_workers) as ids eqn:Eids.
  destruct (record_base_total ids (mk_assignment f) factory_workers (eq_sym Eids))
    as [store1 [Hbase Hids1]].
  rewrite Hbase. cbn [bind].
  rewrite max_workers_per_station_mk. cbn [bind].
  assert (Hf : forall s w, In s stations -> In w (f s) -> In w ids).
  { intros s w Hs Hin. apply Hknown. rewrite all_workers_of_mk.
    apply in_flat_map. eauto. }
  assert (Hbpk : forall s, In s stations -> exists v, dict_get Nat.eqb s bp = Some v).
  { intros s Hs.
    destruct (simulate_inv true_workers tasks (mk_assignment f) bp s Hk Hs Hbp)
      as [t [v [_ [_ Hv]]]]. eauto. }
  destruct (rotation_phase_total true_workers tasks Ht Hw ids f Hf bp Hbpk (max_len f)
              {| current_assignment_of := mk_assignment f; store_of := store1;
                 log_of := [{| phase := base; position_idx_of := None;
                               assignment_of := mk_assignment f;
                               performance_comparison := [];
                               optimization_details_of := [];
                               factory_workers_of := store1 |}] |})
    as [st [Hrot [Hsh Hids']]].
  { cbn. apply shaped_original. exact Hf. }
  { exact Hids1. }
  rewrite Hrot. cbn [bind].
  destruct (filter incomplete (store_of st)); [eauto|].
  destruct (gap_filler_total true_workers (store_of st) tasks
              (current_assignment_of st)) as [fixed Hfix]; auto.
  - destruct Hsh as [g [-> _]]. apply mk_well_keyed.
  - intros w Hin. apply Htrue. congruence.
  - rewrite Hfix. cbn [bind]. eauto.
Qed.


(** ** A full collection run *)

Lemma has_data_length (prof : FactoryWorkerProfile) (s : nat) :
  has_data_for_station prof s = true <-> 1 <= length (observations prof s).
Proof.
  unfold has_data_for_station. destruct (observations prof s); cbn; split;
    try congruence; lia.
Qed.

Lemma one_each_total (prof : FactoryWorkerProfile) :
  (forall s, In s stations -> length (observations prof s) = 1) ->
  total_observations prof = WSTATION
  /\ get_data_completeness prof = 100%R.
Proof.
  intros H. split.
  - unfold total_observations, stations, WSTATION. cbn [seq map fold_right].
    rewrite !H by (apply in_stations; lia). reflexivity.
  - apply complete_100. apply incomplete_false. intros s Hs.
    apply has_data_length. rewrite H by assumption. lia.
Qed.

Lemma collection_run_fills (true_workers : list TrueWorkerProfile)
  (factory_workers : Store) (tasks : list TaskProfile) (initial_assign : Assignment)
  (st : CollectorState) :
  NoDup (ids_of factory_workers) ->
  systematic_data_collection_ui true_workers factory_workers tasks initial_assign
  = Some st ->
  forall i prof,
    nth_error factory_workers i = Some prof ->
    (forall s, In s stations -> observations prof s = []) ->
    count_occ string_dec (all_workers_of initial_assign) (worker_id prof) <= 1 ->
    exists prof',
      nth_error (store_of st) i = Some prof'
      /\ worker_id prof' = worker_id prof
      /\ forall s, In s stations -> length (observations prof' s) = 1.
Proof.
  intros Hnd Hrun i prof Hp Hfresh Hcount.
  unfold systematic_data_collection_ui in Hrun.
  inv_bind Hrun. rename l into bp. inv_bind Hrun. rename s into store1.
  inv_bind Hrun. inv_bind Hrun. rename c into st_rot.
  rewrite factory_worker_dict_ids in E0.
  apply record_base_at_most in E0; [|reflexivity].
  apply rotation_phase_rel in E2. cbn [store_of] in E2.
  pose proof (store_rel_ids _ _ _ E0) as Hids1.
  pose proof (store_rel_ids _ _ _ E2) as Hids2.
  rewrite Hids1 in Hids2.
  destruct E0 as [_ Hbase]. destruct (Hbase i prof Hp) as [prof1 [Hp1 [Hid1 Hb1]]].
  pose proof E2 as [_ Hrot]. destruct (Hrot i prof1 Hp1) as [prof2 [Hp2 [Hid2 Hb2]]].
  assert (Hle2 : forall s, In s stations -> length (observations prof2 s) <= 1).
  { intros s Hs. specialize (Hb1 s). specialize (Hb2 s).
    rewrite (Hfresh s Hs) in Hb1. cbn [length] in Hb1.
    destruct Hb2 as [->|[_ [v ->]]]; [lia | cbn; lia]. }
  destruct (filter incomplete (store_of st_rot)) as [|w0 ws0] eqn:Einc.
  - injection Hrun as <-. exists prof2. split; [exact Hp2|].
    split; [congruence|]. intros s Hs.
    assert (Hc : incomplete prof2 = false).
    { destruct (incomplete prof2) eqn:Ei; [|reflexivity].
      assert (Hin : In prof2 (filter incomplete (store_of st_rot))).
      { apply filter_In. split; [eapply nth_error_In; eassumption | exact Ei]. }
      rewrite Einc in Hin. destruct Hin. }
    pose proof (proj1 (incomplete_false prof2) Hc s Hs) as Hd.
    apply has_data_length in Hd. specialize (Hle2 s Hs). lia.
  - clear w0 ws0 Einc. inv_bind Hrun. injection Hrun as <-. cbn [store_of].
    match goal with
    | H : collect_incomplete_worker_data_ui _ _ _ _ = Some _ |- _ =>
        rename H into Hfix
    end.
    apply gap_filler_spec in Hfix; [|now rewrite Hids2].
    destruct Hfix as [_ [val [[_ Hgap] _]]].
    destruct (Hgap i prof2 Hp2) as [prof3 [Hp3 [Hid3 Hfill]]].
    exists prof3. split; [exact Hp3|]. split; [congruence|].
    intros s Hs. specialize (Hfill s).
    rewrite (proj2 (mem_nat_in s stations) Hs) in Hfill. cbn [andb] in Hfill.
    destruct (has_data_for_station prof2 s) eqn:Ed; cbn [negb] in Hfill.
    + rewrite Hfill. apply has_data_length in Ed. specialize (Hle2 s Hs). lia.
    + destruct Hfill as [v [_ ->]]. reflexivity.
Qed.

(** C1 (as amended).  The rotation phase adds at most one observation to a
    worker and station, and none where the pair already has data.  After a
    full run of [systematic_data_collection_ui] (base phase, rotation
    rounds, gap filler) over uniquely identified factory workers, every
    factory worker that starts the run without observations and occurs at
    most once (in particular exactly once) in the initial assignment holds
    exactly one observation for each of the six stations: six observations
    in all, completeness 100.  On a well-formed session (six stations,
    parameters in range, every worker of the assignment a factory worker,
    every factory worker with a true profile) the run completes. *)
Theorem collection_run_one_observation_per_station :
  forall (true_workers : list TrueWorkerProfile) (factory_workers : Store)
         (tasks : list TaskProfile) (initial_assign : Assignment),
    NoDup (ids_of factory_workers) ->
    (forall fd base_performance max_workers st st',
        rotation_phase true_workers tasks fd base_performance initial_assign
                       max_workers st = Some st' ->
        store_rel grows_by_rotation (store_of st) (store_of st'))
    /\ (forall st,
           systematic_data_collection_ui true_workers factory_workers tasks
                                         initial_assign = Some st ->
           forall i prof,
             nth_error factory_workers i = Some prof ->
             (forall s, In s stations -> observations prof s = []) ->
             count_occ string_dec (all_workers_of initial_assign) (worker_id prof)
             <= 1 ->
             exists prof',
               nth_error (store_of st) i = Some prof'
               /\ worker_id prof' = worker_id prof
               /\ (forall s, In s stations -> length (observations prof' s) = 1)
               /\ total_observations prof' = WSTATION
               /\ get_data_completeness prof' = 100%R)
    /\ (well_keyed initial_assign ->
        tasks_ok tasks ->
        true_workers_ok true_workers ->
        (forall w, In w (ids_of factory_workers) ->
                   In w (map true_worker_id true_workers)) ->
        (forall w, In w (all_workers_of initial_assign) ->
                   In w (ids_of factory_workers)) ->
        exists st,
          systematic_data_collection_ui true_workers factory_workers tasks
                                        initial_assign = Some st).
Proof.
  intros tws store tasks ia Hnd. split; [|split].
  - intros fd bp n st st'. apply rotation_phase_rel.
  - intros st Hrun i prof Hp Hfresh Hcount.
    destruct (collection_run_fills tws store tasks ia st Hnd Hrun i prof Hp Hfresh Hcount)
      as [prof' [Hp' [Hid Hone]]].
    exists prof'. split; [exact Hp'|]. split; [exact Hid|]. split; [exact Hone|].
    now apply one_each_total.
  - apply systematic_data_collection_total.
Qed.

Lemma example_fresh_ids_nodup : NoDup (ids_of example_fresh_store).
Proof.
  cbn. repeat constructor; cbn; intuition discriminate.
Qed.

Lemma example_known :
  forall w, In w (all_workers_of example_assignment) ->
            In w (ids_of example_fresh_store).
Proof.
  cbn. tauto.
Qed.

Lemma collection_run_one_observation_per_station_witness :
  exists st prof',
    systematic_data_collection_ui example_true_workers example_fresh_store
                                  example_tasks example_assignment = Some st
    /\ nth_error (store_of st) 0 = Some prof'
    /\ total_observations prof' = WSTATION.
Proof.
  destruct (collection_run_one_observation_per_station
              example_true_workers example_fresh_store example_tasks
              example_assignment example_fresh_ids_nodup) as [_ [Hfill Htotal]].
  destruct (Htotal eq_refl example_tasks_ok example_true_workers_ok
                   example_true_profiles example_known) as [st Hst].
  destruct (Hfill st Hst 0 _ eq_refl (fun s _ => eq_refl)
                  ltac:(vm_compute; lia))
    as [prof' [Hp [_ [_ [Htot _]]]]].
  exists st, prof'. auto.
Defined.

(** *** A run over profiles that already hold data *)

(** The phases of a completed run, one after the other. *)
Lemma systematic_data_collection_inv (true_workers : list TrueWorkerProfile)
  (factory_workers : Store) (tasks : list TaskProfile) (initial_assign : Assignment)
  (st : CollectorState) :
  NoDup (ids_of factory_workers) ->
  systematic_data_collection_ui true_workers factory_workers tasks initial_assign
  = Some st ->
  exists store1 store2 val,
    record_base (factory_worker_dict factory_workers) initial_assign factory_workers
    = Some store1
    /\ store_rel grows_by_rotation store1 store2
    /\ store_rel (gaps_filled val) store2 (store_of st).
Proof.
  intros Hnd Hrun. unfold systematic_data_collection_ui in Hrun.
  inv_bind Hrun. rename l into bp. inv_bind Hrun. rename s into store1.
  inv_bind Hrun. inv_bind Hrun. rename c into st_rot.
  match goal with
  | H : rotation_phase _ _ _ _ _ _ _ = Some _ |- _ => rename H into Hrot
  end.
  apply rotation_phase_rel in Hrot. cbn [store_of] in Hrot.
  assert (Hids : ids_of (store_of st_rot) = ids_of factory_workers).
  { rewrite (store_rel_ids _ _ _ Hrot).
    rewrite factory_worker_dict_ids in E0.
    apply record_base_at_most in E0; [|reflexivity].
    apply (store_rel_ids _ _ _ E0). }
  exists store1, (store_of st_rot).
  destruct (filter incomplete (store_of st_rot)) as [|w0 ws0] eqn:Einc.
  - injection Hrun as <-. exists (fun _ _ => None).
    split; [reflexivity|]. split; [exact Hrot|].
    split; [reflexivity|]. intros i prof Hp. exists prof.
    split; [exact Hp|]. split; [reflexivity|]. intros s.
    assert (Hc : incomplete prof = false).
    { destruct (incomplete prof) eqn:Ei; [|reflexivity].
      assert (Hin : In prof (filter incomplete (store_of st_rot))).
      { apply filter_In. split; [eapply nth_error_In; eassumption | exact Ei]. }
      rewrite Einc in Hin. destruct Hin. }
    destruct (mem_nat s stations) eqn:Es; [|reflexivity].
    apply mem_nat_in in Es.
    rewrite (proj1 (incomplete_false prof) Hc s Es). reflexivity.
  - clear w0 ws0 Einc. inv_bind Hrun. injection Hrun as <-. cbn [store_of].
    match goal with
    | H : collect_incomplete_worker_data_ui _ _ _ _ = Some _ |- _ =>
        rename H into Hfix
    end.
    apply gap_filler_spec in Hfix; [|now rewrite Hids].
    destruct Hfix as [_ [val [Hgap _]]].
    exists val. auto.
Qed.

(** C1, as stated, fails on a run over profiles that already hold data
    (a second run of the same session): the base phase records 100 for
    every worker of the assignment without looking at what the worker
    holds, so worker 0001, with a true profile and once in the assignment,
    ends with two observations for station 1. *)
Lemma collection_run_repeated_counterexample :
  exists st prof',
    systematic_data_collection_ui example_true_workers example_store
                                  example_tasks example_assignment = Some st
    /\ In "0001"%string (map true_worker_id example_true_workers)
    /\ count_occ string_dec (all_workers_of example_assignment) "0001"%string = 1
    /\ nth_error (store_of st) 0 = Some prof'
    /\ worker_id prof' = "0001"%string
    /\ observations prof' 1 = [100%R; 100%R]
    /\ length (observations prof' 1) <> 1.
Proof.
  destruct (systematic_data_collection_total example_true_workers example_store
              example_tasks example_assignment eq_refl example_tasks_ok
              example_true_workers_ok example_true_profiles example_known)
    as [st Hst].
  destruct (systematic_data_collection_inv _ _ _ _ _ example_ids_nodup Hst)
    as [store1 [store2 [val [Hbase [[_ Hrot] [_ Hgap]]]]]].
  assert (Hstore1 : store1
                    = [{| worker_id := "0001";
                          performance_percentages := [(1, [100%R; 100%R])] |};
                       {| worker_id := "0002";
                          performance_percentages := [(2, [100%R; 100%R])] |}]).
  { cbn in Hbase. now injection Hbase as <-. }
  subst store1.
  destruct (Hrot 0 _ eq_refl) as [prof2 [Hp2 [Hid2 Hg2]]].
  destruct (Hgap 0 _ Hp2) as [prof3 [Hp3 [Hid3 Hg3]]].
  assert (Hobs2 : observations prof2 1 = [100%R; 100%R]).
  { destruct (Hg2 1) as [H|[H _]]; [exact H | discriminate H]. }
  assert (Hobs3 : observations prof3 1 = [100%R; 100%R]).
  { specialize (Hg3 1). unfold has_data_for_station in Hg3.
    rewrite Hobs2 in Hg3. cbn in Hg3. congruence. }
  exists st, prof3. split; [exact Hst|].
  split; [cbn; auto|]. split; [reflexivity|]. split; [exact Hp3|].
  split; [rewrite Hid3, Hid2; reflexivity|]. split; [exact Hobs3|].
  rewrite Hobs3. cbn. discriminate.
Qed.


(** ** The solver returns *)

Lemma dict_get_in_keys {K V : Type} (eqb : K -> K -> bool) (k : K)
  (d : list (K * V)) :
  (forall x y, eqb x y = true <-> x = y) ->
  In k (map fst d) -> dict_get eqb k d <> None.
Proof.
  intros Heq. induction d as [|[k0 v0] d IH]; cbn [map fst In dict_get]; [tauto|].
  intros [->|Hin].
  - rewrite (proj2 (Heq k k) eq_refl). discriminate.
  - destruct (eqb k k0); [discriminate | now apply IH].
Qed.

Lemma dict_get_map_keys {V : Type} (g : nat -> V) (l : list nat) (s : nat) :
  In s l -> dict_get Nat.eqb s (map (fun x => (x, g x)) l) = Some (g s).
Proof.
  induction l as [|x l IH]; cbn [In map dict_get]; [tauto|].
  destruct (s =? x) eqn:E.
  - apply Nat.eqb_eq in E. now subst.
  - intros [->|Hin]; [now rewrite Nat.eqb_refl in E | now apply IH].
Qed.

Lemma insert_by_in {A : Type} (before : A -> A -> bool) (x y : A) (l : list A) :
  In y (insert_by before x l) -> y = x \/ In y l.
Proof.
  induction l as [|z l IH]; cbn [insert_by In].
  - intros [<-|[]]. now left.
  - destruct (before x z); cbn [In].
    + intros [<-|[<-|H]]; auto.
    + intros [<-|H]; auto. destruct (IH H); auto.
Qed.

Lemma sort_by_in {A : Type} (before : A -> A -> bool) (y : A) (l : list A) :
  In y (sort_by before l) -> In y l.
Proof.
  unfold sort_by. induction l as [|x l IH]; cbn [fold_right In]; [tauto|].
  intros H. apply insert_by_in in H. destruct H as [->|H]; auto.
Qed.

Section SolverTotal.
Variable factory_workers : Store.

Let scores := worker_station_scores_of factory_workers.

Lemma score_of_total (wid : WorkerId) (s : nat) :
  In wid (map fst scores) -> In s stations ->
  exists v, score_of scores wid s = Some v.
Proof.
  intros Hw Hs. unfold score_of.
  destruct (dict_get String.eqb wid scores) as [row|] eqn:E.
  - cbn [bind]. apply (dict_of_get_some _ _ String.eqb String.eqb_eq) in E.
    destruct E as [w [_ [_ <-]]]. rewrite dict_get_map_keys by assumption. eauto.
  - exfalso. revert E. apply dict_get_in_keys; [apply String.eqb_eq | exact Hw].
Qed.

Lemma score_total_total (s : nat) (row : list WorkerId) :
  In s stations -> (forall w, In w row -> In w (map fst scores)) ->
  exists v, score_total scores s row = Some v.
Proof.
  intros Hs Hrow. unfold score_total.
  destruct (@foldM_total _ _ (fun _ : R => True)
              (fun total wid => v <- score_of scores wid s ;; Some (total + v)%R)
              row) with (s := 0%R) as [v [Hv _]]; [|exact I|eauto].
  intros acc wid Hin _.
  destruct (score_of_total wid s (Hrow wid Hin) Hs) as [v ->]. cbn [bind]. eauto.
Qed.

Lemma station_totals_total (g : nat -> list WorkerId) (l : list nat) :
  (forall s w, In s stations -> In w (g s) -> In w (map fst scores)) ->
  incl l stations ->
  forall acc,
  exists totals,
    foldM (fun totals station =>
             row <- station_get station (mk_assignment g) ;;
             total <- score_total scores station row ;;
             Some (dict_set Nat.eqb station total totals))
          l acc = Some totals
    /\ forall s, In s l \/ dict_get Nat.eqb s acc <> None ->
                 dict_get Nat.eqb s totals <> None.
Proof.
  intros Hg. induction l as [|x l IH]; intros Hincl acc.
  - exists acc. split; [reflexivity|]. intros s [[]|H]. exact H.
  - assert (Hx : In x stations) by (apply Hincl; now left).
    cbn [foldM]. rewrite station_get_mk by assumption. cbn [bind].
    destruct (score_total_total x (g x) Hx (fun w => Hg x w Hx)) as [v ->].
    cbn [bind].
    destruct (IH (fun y Hy => Hincl y (or_intror Hy)) (dict_set Nat.eqb x v acc))
      as [totals [Hf Hk]].
    exists totals. split; [exact Hf|]. intros s Hs. apply Hk.
    rewrite (dict_get_set _ _ Nat.eqb Nat.eqb_eq).
    destruct (s =? x) eqn:E; [right; discriminate|].
    destruct Hs as [[->|Hs]|Hs]; auto. now rewrite Nat.eqb_refl in E.
Qed.

Lemma stations_needing_worker_total (num_workers : Z) (a : Assignment) :
  scored scores a ->
  exists needing,
    stations_needing_worker scores (workers_needed_per_station num_workers) a
    = Some needing
    /\ forall st, In st needing -> In (fst st) stations.
Proof.
  intros [g [-> Hg]]. unfold stations_needing_worker.
  destruct (station_totals_total g stations Hg (incl_refl _) []) as [totals [-> Hk]].
  cbn [bind].
  apply (@foldM_total _ _ (fun acc : list (nat * R) =>
                             forall st, In st acc -> In (fst st) stations));
    [|intros st []].
  intros acc s Hs Hacc. rewrite station_get_mk by assumption. cbn [bind].
  unfold workers_needed_per_station. rewrite dict_get_map_keys by assumption.
  cbn [bind].
  match goal with |- context [if ?c then _ else _] => destruct c end; [|eauto].
  destruct (dict_get Nat.eqb s totals) as [t|] eqn:Et;
    [|exfalso; revert Et; apply Hk; now left].
  cbn [bind]. eexists. split; [reflexivity|].
  intros st Hin. apply in_app_iff in Hin. destruct Hin as [Hin|[<-|[]]]; auto.
Qed.

Lemma available_for_total (assigned : list WorkerId) (s : nat) :
  In s stations ->
  exists available,
    available_for scores assigned s = Some available
    /\ forall x, In x available -> In (fst x) (map fst scores).
Proof.
  intros Hs. unfold available_for.
  apply (@foldM_total _ _ (fun acc : list (WorkerId * R) =>
                             forall x, In x acc -> In (fst x) (map fst scores)));
    [|intros x []].
  intros acc wid Hwid Hacc. destruct (mem_string wid assigned); [eauto|].
  destruct (score_of_total wid s Hwid Hs) as [v ->]. cbn [bind].
  eexists. split; [reflexivity|].
  intros x Hin. apply in_app_iff in Hin. destruct Hin as [Hin|[<-|[]]]; auto.
Qed.

Lemma fill_station_total (st : Assignment * list WorkerId) (s : nat) :
  scored scores (fst st) -> In s stations ->
  exists st', fill_station scores st s = Some st' /\ scored scores (fst st').
Proof.
  destruct st as [a assigned]. cbn [fst]. intros [g [-> Hg]] Hs.
  unfold fill_station.
  destruct (available_for_total assigned s Hs) as [available [-> Hav]]. cbn [bind].
  destruct (sort_by (descending snd) available) as [|[best sc] rest] eqn:Esort.
  - eexists. split; [reflexivity|]. exists g. auto.
  - assert (Hbest : In best (map fst scores)).
    { apply (Hav (best, sc)). apply (sort_by_in (descending snd)).
      rewrite Esort. now left. }
    rewrite station_append_mk by assumption. cbn [bind].
    eexists. split; [reflexivity|]. cbn [fst].
    eexists. split; [reflexivity|].
    intros s' w Hs' Hw. apply in_app_iff in Hw. destruct Hw as [Hw|Hw].
    + now apply (Hg s').
    + destruct (s' =? s); [|destruct Hw]. destruct Hw as [<-|[]]. exact Hbest.
Qed.

Lemma fill_round_total (num_workers : Z) (st : Assignment * list WorkerId)
  (position_idx : nat) :
  scored scores (fst st) ->
  exists st',
    fill_round scores (workers_needed_per_station num_workers) st position_idx
    = Some st'
    /\ scored scores (fst st').
Proof.
  intros Hsc. unfold fill_round.
  destruct (stations_needing_worker_total num_workers (fst st) Hsc)
    as [needing [-> Hneed]].
  cbn [bind].
  apply (@foldM_total _ _ (fun s => scored scores (fst s))); [|exact Hsc].
  intros s x Hx Hs. apply fill_station_total; [exact Hs|].
  apply in_map_iff in Hx. destruct Hx as [y [<- Hy]].
  apply Hneed. eapply sort_by_in. exact Hy.
Qed.

Lemma find_optimal_assignment_total (num_workers : Z) (a : Assignment) :
  exists result, find_optimal_assignment factory_workers num_workers a = Some result.
Proof.
  unfold find_optimal_assignment. fold scores.
  assert (Hmax : exists m, max_quota (workers_needed_per_station num_workers) = Some m)
    by (cbn; eauto).
  destruct Hmax as [m ->]. cbn [bind].
  destruct (@foldM_total _ _ (fun s => scored scores (fst s))
              (fill_round scores (workers_needed_per_station num_workers))
              (seq 0 (Z.to_nat m)))
    with (s := (empty_assignment, @nil WorkerId)) as [[opt assigned] [-> Hsc]].
  { intros s p _ Hs. now apply fill_round_total. }
  { exists (fun _ => []). split; [reflexivity|]. intros s w _ []. }
  cbn [bind fst] in *. destruct Hsc as [g [-> Hg]].
  destruct (@foldM_total _ _ (fun _ : R * nat * list (nat * StationDetail) => True)
              (fun acc kv =>
                 let '(total, count, details) := acc in
                 station_total <- score_total scores (fst kv) (snd kv) ;;
                 Some ((total + station_total)%R, count + length (snd kv),
                       dict_set Nat.eqb (fst kv)
                                {| workers := snd kv;
                                   total_performance_of := station_total;
                                   worker_count := length (snd kv) |}
                                details))
              (mk_assignment g))
    with (s := (0%R, 0, @nil (nat * StationDetail))) as [[[tot cnt] det] [-> _]];
    [|exact I|].
  { intros [[t c] d] [k row] Hin _. cbn [fst snd].
    unfold mk_assignment in Hin. apply in_map_iff in Hin.
    destruct Hin as [s [[= <- <-] Hs]].
    destruct (score_total_total s (g s) Hs (fun w => Hg s w Hs)) as [v ->].
    cbn [bind]. eauto. }
  cbn [bind].
  destruct (@foldM_total _ _ (fun _ : list Efficiency => True)
              (fun acc kv =>
                 foldM (fun acc' wid =>
                          e <- score_of scores wid (fst kv) ;;
                          Some (acc' ++ [{| eff_worker_id := wid;
                                            eff_station := fst kv;
                                            efficiency := e |}]))
                       (snd kv) acc)
              (mk_assignment g))
    with (s := @nil Efficiency) as [effs [-> _]]; [|exact I|].
  { intros acc [k row] Hin _. cbn [fst snd].
    unfold mk_assignment in Hin. apply in_map_iff in Hin.
    destruct Hin as [s [[= <- <-] Hs]].
    apply (@foldM_total _ _ (fun _ : list Efficiency => True)); [|exact I].
    intros acc' wid Hwid _.
    destruct (score_of_total wid s (Hg s wid Hs Hwid) Hs) as [v ->]. cbn [bind].
    eauto. }
  cbn [bind]. eauto.
Qed.

End SolverTotal.

(** ** The solver does not read the collector's assignment *)

(** C2.  [find_optimal_assignment] depends on the learned model and on the
    worker count only: whatever assignments two calls are handed, both
    return, and they return the same optimal assignment and the same
    report. *)
Theorem find_optimal_assignment_ignores_assignment :
  forall (factory_workers : Store) (num_workers : Z)
         (assignment1 assignment2 : Assignment),
    find_optimal_assignment factory_workers num_workers assignment1
    = find_optimal_assignment factory_workers num_workers assignment2
    /\ exists optimal_assignment results,
         find_optimal_assignment factory_workers num_workers assignment1
         = Some (optimal_assignment, results)
         /\ find_optimal_assignment factory_workers num_workers assignment2
            = Some (optimal_assignment, results).
Proof.
  intros factory_workers num_workers assignment1 assignment2.
  assert (Hsame : find_optimal_assignment factory_workers num_workers assignment1
                  = find_optimal_assignment factory_workers num_workers assignment2)
    by reflexivity.
  split; [exact Hsame|].
  destruct (find_optimal_assignment_total factory_workers num_workers assignment1)
    as [[optimal results] Hr].
  exists optimal, results. split; [exact Hr|]. now rewrite <- Hsame.
Qed.

(** ** One rotation, station by station *)









Section OneRotation.
Variable true_workers : list TrueWorkerProfile.
Variable tasks : list TaskProfile.
Variable bp cp : list (nat * R).
Variable original temp : Assignment.
Variable rotated : list WorkerId.
Variable p : nat.
Hypothesis original_keyed : well_keyed original.
Hypothesis temp_keyed : well_keyed temp.
Hypothesis bp_simulated :
  simulate_station_performance true_workers tasks original = Some bp.
Hypothesis cp_simulated :
  simulate_station_performance true_workers tasks temp = Some cp.


End OneRotation.





(** ** The observation of a rotation, over the whole run *)








Section RotationRun.
Variable true_workers : list TrueWorkerProfile.
Variable tasks : list TaskProfile.
Variable factory_workers : Store.
Variable initial_assign : Assignment.
Hypothesis ids_nodup : NoDup (ids_of factory_workers).
Hypothesis initial_keyed : well_keyed initial_assign.
Hypothesis initial_known :
  forall w, In w (all_workers_of initial_assign) -> In w (ids_of factory_workers).
Variable bp : list (nat * R).
Hypothesis bp_simulated :
  simulate_station_performance true_workers tasks initial_assign = Some bp.

Let f := row_of initial_assign.
Let ids := ids_of factory_workers.
Let twd := true_worker_dict_of true_workers.

















End RotationRun.


(** *** A run in which the adjustment counts a position *)



















(* ================================================================== *)
(** * Part III: further properties of the code                         *)
(* ================================================================== *)

(** ** Learned profiles *)

Lemma rsum_snoc (l : list R) (v : R) : rsum (l ++ [v]) = (rsum l + v)%R.
Proof.
  unfold rsum. rewrite fold_left_app. reflexivity.
Qed.

(** X1.  Recording and reading back.  After [record_performance_percentage]
    the station holds its earlier observations followed by the new one,
    the other stations hold what they held, the station has data, and its
    average is the earlier sum plus the new value over the new count. *)
Theorem record_performance_percentage_reads_back :
  forall (prof : FactoryWorkerProfile) (station : nat) (percentage : R),
    let prof' := record_performance_percentage prof station percentage in
    worker_id prof' = worker_id prof
    /\ observations prof' station = observations prof station ++ [percentage]
    /\ (forall s, s <> station -> observations prof' s = observations prof s)
    /\ has_data_for_station prof' station = true
    /\ get_average_percentage prof' station
       = ((rsum (observations prof station) + percentage)
          / INR (S (length (observations prof station))))%R.
Proof.
  intros prof station percentage prof'.
  assert (Hobs : observations prof' station
                 = observations prof station ++ [percentage]).
  { unfold prof'. rewrite observations_record. now rewrite Nat.eqb_refl. }
  split; [reflexivity|]. split; [exact Hobs|]. split.
  - intros s Hs. unfold prof'. rewrite observations_record.
    apply Nat.eqb_neq in Hs. now rewrite Hs.
  - split.
    + unfold has_data_for_station. rewrite Hobs.
      now destruct (observations prof station).
    + unfold get_average_percentage. rewrite Hobs.
      destruct (observations prof station ++ [percentage]) eqn:E.
      * now destruct (observations prof station).
      * rewrite <- E. rewrite rsum_snoc, length_app. cbn [length].
        now rewrite Nat.add_1_r.
Qed.

Lemma stations_with_data_record_le (prof : FactoryWorkerProfile) (s : nat) (v : R) :
  stations_with_data prof
  <= stations_with_data (record_performance_percentage prof s v)
  /\ (~ In s stations ->
      stations_with_data (record_performance_percentage prof s v)
      = stations_with_data prof).
Proof.
  unfold stations_with_data.
  assert (Hmono : forall s', has_data_for_station prof s' = true ->
            has_data_for_station (record_performance_percentage prof s v) s' = true).
  { intros s' H. unfold has_data_for_station in *. rewrite observations_record.
    destruct (s' =? s) eqn:E; [|exact H].
    now destruct (observations prof s). }
  assert (Hsame : forall s', s' <> s ->
            has_data_for_station (record_performance_percentage prof s v) s'
            = has_data_for_station prof s').
  { intros s' H. unfold has_data_for_station. rewrite observations_record.
    apply Nat.eqb_neq in H. now rewrite H. }
  generalize stations as l. induction l as [|x l [IH1 IH2]].
  - cbn. split; [lia | reflexivity].
  - cbn [filter]. split.
    + destruct (has_data_for_station prof x) eqn:E.
      * rewrite (Hmono _ E). cbn [length]. lia.
      * destruct (has_data_for_station (record_performance_percentage prof s v) x);
          cbn [length]; lia.
    + intros Hn. rewrite Hsame by (intros ->; apply Hn; now left).
      destruct (has_data_for_station prof x); cbn [length];
        rewrite IH2; auto; intros Hin; apply Hn; now right.
Qed.

(** X3.  Data completeness is a percentage: it is 100 exactly when each of the
    six stations has data, recording never lowers it, and recording at a
    station outside 1..6 leaves it as it was. *)
Theorem get_data_completeness_range :
  forall (prof : FactoryWorkerProfile),
    (0 <= get_data_completeness prof <= 100)%R
    /\ (get_data_completeness prof = 100%R
        <-> forall s, In s stations -> has_data_for_station prof s = true)
    /\ forall (station : nat) (percentage : R),
         (get_data_completeness prof
          <= get_data_completeness
               (record_performance_percentage prof station percentage))%R
         /\ (~ In station stations ->
             get_data_completeness
               (record_performance_percentage prof station percentage)
             = get_data_completeness prof).
Proof.
  intros prof.
  assert (H6 : INR WSTATION = 6%R) by (cbn; lra).
  assert (Hle : stations_with_data prof <= 6).
  { unfold stations_with_data.
    destruct (filter_length_all (has_data_for_station prof) stations) as [H _].
    exact H. }
  unfold get_data_completeness. rewrite H6.
  split; [|split].
  - pose proof (pos_INR (stations_with_data prof)) as H0.
    apply le_INR in Hle. replace (INR 6) with 6%R in Hle by (cbn; lra). lra.
  - destruct (filter_length_all (has_data_for_station prof) stations) as [_ Hall].
    rewrite <- Hall. fold (stations_with_data prof).
    change (length stations) with 6. split.
    + intros H. apply INR_eq. replace (INR 6) with 6%R by (cbn; lra). lra.
    + intros ->. replace (INR 6) with 6%R by (cbn; lra). lra.
  - intros station percentage.
    destruct (stations_with_data_record_le prof station percentage) as [Hm Hs].
    split.
    + apply le_INR in Hm. lra.
    + intros Hn. now rewrite (Hs Hn).
Qed.

(** ** Worker ids and sampled parameters *)

Lemma uint_of_string_zeros (k : nat) (s : string) (d : Decimal.uint) :
  DecimalString.NilEmpty.uint_of_string s = Some d ->
  exists d',
    DecimalString.NilEmpty.uint_of_string (String.append (zeros k) s) = Some d'
    /\ Nat.of_uint d' = Nat.of_uint d.
Proof.
  intros H. induction k as [|k [d' [E Hd]]].
  - exists d. split; [exact H | reflexivity].
  - exists (Decimal.D0 d'). split.
    + cbn [zeros String.append DecimalString.NilEmpty.uint_of_string].
      rewrite E. reflexivity.
    + rewrite <- Hd. reflexivity.
Qed.

Lemma string_length_append (s t : string) :
  String.length (String.append s t) = String.length s + String.length t.
Proof.
  induction s as [|c s IH]; cbn; [reflexivity | now rewrite IH].
Qed.

Lemma zeros_length (k : nat) : String.length (zeros k) = k.
Proof.
  induction k as [|k IH]; cbn; [reflexivity | now rewrite IH].
Qed.

Lemma format_04d_decodes (n : nat) :
  4 <= String.length (format_04d n)
  /\ exists d,
       DecimalString.NilEmpty.uint_of_string (format_04d n) = Some d
       /\ Nat.of_uint d = n.
Proof.
  unfold format_04d.
  set (digits := DecimalString.NilEmpty.string_of_uint (Nat.to_uint n)).
  split.
  - rewrite string_length_append, zeros_length. lia.
  - destruct (uint_of_string_zeros (4 - String.length digits) digits
                (Nat.to_uint n)) as [d [E Hd]].
    + apply DecimalString.NilEmpty.usu.
    + exists d. split; [exact E|]. rewrite Hd. apply DecimalNat.Unsigned.of_to.
Qed.

Lemma format_04d_inj (n m : nat) : format_04d n = format_04d m -> n = m.
Proof.
  intros H.
  destruct (format_04d_decodes n) as [_ [d [E Hd]]].
  destruct (format_04d_decodes m) as [_ [d' [E' Hd']]].
  rewrite H in E. congruence.
Qed.

Lemma format_04d_nonempty (n : nat) : format_04d n <> EmptyString.
Proof.
  destruct (format_04d_decodes n) as [H _]. intros E. rewrite E in H.
  cbn in H. lia.
Qed.

(** X4.  Worker ids decode.  The id written for a counter value has at least
    four characters and reads back, as a decimal numeral, to that value; so
    different counter values give different ids. *)
Theorem format_04d_reads_back :
  forall n : nat,
    4 <= String.length (format_04d n)
    /\ (exists d,
          DecimalString.NilEmpty.uint_of_string (format_04d n) = Some d
          /\ Nat.of_uint d = n)
    /\ forall m, format_04d n = format_04d m -> n = m.
Proof.
  intros n. destruct (format_04d_decodes n) as [Hlen Hdec].
  split; [exact Hlen|]. split; [exact Hdec|].
  intros m. apply format_04d_inj.
Qed.

(** X5.  Errors of [calculate_performance]: it raises exactly for a station
    above 6 (the skill list has six entries), a fatigue base of -5 or a
    delivery time of 0; in every other case it returns the skill over the
    delivery time, scaled by an energy average. *)
Theorem calculate_performance_errors :
  forall (tw : TrueWorkerProfile) (station : nat) (dt fc : R),
    (calculate_performance tw station dt fc = None
     <-> (6 < station \/ (fatigue_base tw + 5 = 0)%R \/ dt = 0%R))
    /\ forall v, calculate_performance tw station dt fc = Some v ->
         exists skill e,
           get_skill tw station = Some skill
           /\ calculate_energy_avg tw fc SIMULATION_TIME = Some e
           /\ v = (skill / dt * e)%R.
Proof.
  intros tw station dt fc.
  assert (Hskill : get_skill tw station = None <-> 6 < station).
  { destruct station as [|[|[|[|[|[|[|s]]]]]]]; cbn;
      try (split; [discriminate | lia]).
    split; [lia|]. intros _. now destruct s. }
  assert (Henergy : calculate_energy_avg tw fc SIMULATION_TIME = None
                    <-> (fatigue_base tw + 5 = 0)%R).
  { unfold calculate_energy_avg, rdiv.
    destruct (Req_dec_T (fatigue_base tw + 5) 0) as [E|E]; cbn [bind].
    - split; auto.
    - set (x := (fc / (fatigue_base tw + 5) * SIMULATION_TIME)%R).
      destruct (Rlt_dec x (1 / 1000)) as [Hlt|Hge].
      + split; [discriminate | contradiction].
      + destruct (Req_dec_T x 0) as [E0|E0]; [lra|].
        split; [discriminate | contradiction]. }
  unfold calculate_performance.
  destruct (get_skill tw station) as [skill|] eqn:Es; cbn [bind].
  - destruct (calculate_energy_avg tw fc SIMULATION_TIME) as [e|] eqn:Ee;
      cbn [bind].
    + unfold rdiv. destruct (Req_dec_T dt 0) as [E|E]; cbn [bind].
      * split; [|discriminate]. split; auto.
      * split.
        -- split; [discriminate|]. intros [H|[H|H]].
           ++ apply Hskill in H. discriminate.
           ++ apply Henergy in H. discriminate.
           ++ contradiction.
        -- intros v Hv. injection Hv as <-. now exists skill, e.
    + split; [|discriminate]. split; [|reflexivity].
      intros _. right. left. now apply Henergy.
  - split; [|discriminate]. split; [|reflexivity].
    intros _. left. now apply Hskill.
Qed.

(** X6.  A hired worker is in range.  With every draw of the generator in
    [0, 1), [generate_true_worker] names the worker after the counter,
    advances the counter by one, draws skills and a fatigue base in
    [1, 10); the performance of that worker is then defined at every
    station for every delivery time in [2, 5] and fatigue cost in
    [1, 10], positive and below 5. *)
Theorem generate_true_worker_in_range :
  forall w : World,
    draws_ok w ->
    let tw := fst (generate_true_worker w) in
    let w' := snd (generate_true_worker w) in
    true_worker_id tw = format_04d (worker_id_counter w)
    /\ worker_id_counter w' = worker_id_counter w + 1
    /\ draws_ok w'
    /\ (forall i, random_stream w' i = random_stream w (7 + i))
    /\ (1 <= fatigue_base tw < 10)%R
    /\ (forall station,
          In station stations ->
          exists skill, get_skill tw station = Some skill
                        /\ (1 <= skill < 10)%R)
    /\ forall station dt fc,
         In station stations -> (2 <= dt <= 5)%R -> (1 <= fc <= 10)%R ->
         exists v, calculate_performance tw station dt fc = Some v
                   /\ (0 < v < 5)%R.
Proof.
  intros w Hw tw w'.
  assert (Hu : forall i, (1 <= 1 + (10 - 1) * random_stream w i < 10)%R).
  { intros i. pose proof (Hw i). nra. }
  assert (Hfb : (1 <= fatigue_base tw < 10)%R) by (cbn; apply Hu).
  assert (Hsk : forall station, In station stations ->
            exists skill, get_skill tw station = Some skill
                          /\ (1 <= skill < 10)%R).
  { intros station Hs. apply in_stations in Hs.
    destruct station as [|[|[|[|[|[|[|s]]]]]]]; try lia; cbn;
      eexists; (split; [reflexivity | apply Hu]). }
  split; [reflexivity|]. split; [reflexivity|]. split.
  { intros i. cbn. apply Hw. }
  split; [reflexivity|]. split; [exact Hfb|]. split; [exact Hsk|].
  intros station dt fc Hs Hdt Hfc.
  destruct (Hsk station Hs) as [skill [Es Hskill]].
  destruct (calculate_energy_avg_value tw fc) as [e [Ee [He _]]]; [lra | lra |].
  unfold calculate_performance. rewrite Es. cbn [bind]. rewrite Ee. cbn [bind].
  rewrite rdiv_some by lra. cbn [bind].
  eexists. split; [reflexivity|].
  assert (Hq : (0 < skill / dt < 5)%R).
  { assert (Hi : (0 < / dt)%R) by (apply Rinv_0_lt_compat; lra).
    assert (H2 : (/ dt <= / 2)%R) by (apply Rinv_le_contravar; lra).
    unfold Rdiv. split; nra. }
  nra.
Qed.

Lemma generate_true_worker_in_range_witness :
  exists v,
    calculate_performance (fst (generate_true_worker example_world)) 1 2 1
    = Some v /\ (0 < v < 5)%R.
Proof.
  assert (H : draws_ok example_world).
  { intros i. cbn. lra. }
  apply (proj2 (proj2 (proj2 (proj2 (proj2 (proj2
           (generate_true_worker_in_range example_world H))))))).
  - cbn. auto.
  - lra.
  - lra.
Defined.

(** X7.  The generated tasks are one per station.  With every draw in [0, 1),
    [generate_task_profiles] returns six tasks whose station ids are
    1..6 in this order, with delivery times in [2, 5] and fatigue costs
    in [1, 10], the ends included as [random.uniform] allows for its
    upper end; the task at list index [station - 1], which the gap
    filler reads, is the task the dictionary of the simulation holds for
    [station]; the worker counter is not touched. *)
Theorem generate_task_profiles_in_range :
  forall w : World,
    draws_ok w ->
    let generated := fst (generate_task_profiles w) in
    let w' := snd (generate_task_profiles w) in
    map station_id generated = stations
    /\ (forall t, In t generated ->
          (2 <= delivery_time t <= 5)%R /\ (1 <= fatigue_cost t <= 10)%R)
    /\ (forall station,
          In station stations ->
          exists t,
            nth_error generated (station - 1) = Some t
            /\ dict_get Nat.eqb station (task_dict_of generated) = Some t
            /\ station_id t = station)
    /\ worker_id_counter w' = worker_id_counter w
    /\ draws_ok w'
    /\ forall i, random_stream w' i = random_stream w (12 + i).
Proof.
  intros w Hw generated w'.
  assert (Hd : forall i, (2 <= 2 + (5 - 2) * random_stream w i <= 5)%R).
  { intros i. pose proof (Hw i). nra. }
  assert (Hc : forall i, (1 <= 1 + (10 - 1) * random_stream w i <= 10)%R).
  { intros i. pose proof (Hw i). nra. }
  split; [reflexivity|]. split.
  { intros t Ht. cbn in Ht.
    destruct Ht as [<-|[<-|[<-|[<-|[<-|[<-|[]]]]]]]; cbn; split;
      first [apply Hd | apply Hc]. }
  split.
  { intros station Hs. apply in_stations in Hs.
    destruct station as [|[|[|[|[|[|[|s]]]]]]]; try lia;
      eexists; (split; [reflexivity | split; reflexivity]). }
  split; [reflexivity|]. split.
  { intros i. cbn. apply Hw. }
  reflexivity.
Qed.

Lemma generate_task_profiles_in_range_witness :
  map station_id (fst (generate_task_profiles example_world)) = stations.
Proof.
  assert (H : draws_ok example_world).
  { intros i. cbn. lra. }
  exact (proj1 (generate_task_profiles_in_range example_world H)).
Defined.

Lemma generated_tasks_ok (w : World) :
  draws_ok w -> tasks_ok (fst (generate_task_profiles w)).
Proof.
  intros Hw. split; [reflexivity|].
  intros t Ht. cbn in Ht.
  destruct Ht as [<-|[<-|[<-|[<-|[<-|[<-|[]]]]]]]; split; cbn;
    match goal with
    | |- context [random_stream w ?i] => pose proof (Hw i); nra
    end.
Qed.

Lemma generated_true_worker_ok (w : World) :
  draws_ok w -> true_worker_ok (fst (generate_true_worker w)).
Proof.
  intros Hw.
  assert (Hu : forall i, (1 <= 1 + (10 - 1) * random_stream w i < 10)%R).
  { intros i. pose proof (Hw i). nra. }
  unfold true_worker_ok. cbn.
  repeat split;
    match goal with
    | |- context [random_stream w ?i] => pose proof (Hu i); lra
    end.
Qed.

(** ** Placement and firing *)

Lemma sel_nth (ws : list WorkerId) :
  forall i w, nth_error ws i = Some w ->
              nth_error (sel 0 (i mod 6 + 1) ws) (i / 6) = Some w.
Proof.
  induction ws as [ws Hlen | a b c d e f ws IH] using list_ind6; intros i w H.
  - assert (Hi : i < 6).
    { assert (i < length ws) by (apply nth_error_Some; congruence). lia. }
    destruct ws as [|a [|b [|c [|d [|e [|f ws]]]]]]; simpl in Hlen; try lia;
      destruct i as [|[|[|[|[|[|i]]]]]]; try lia; cbn in H; try discriminate;
      injection H as <-; reflexivity.
  - destruct (Nat.lt_ge_cases i 6) as [Hi|Hi].
    + rewrite sel_chunk by apply mod_station_in.
      destruct i as [|[|[|[|[|[|i]]]]]]; try lia; cbn in H;
        injection H as <-; reflexivity.
    + replace i with ((i - 6) + 1 * 6) in * by lia.
      set (j := i - 6) in *.
      rewrite Nat.Div0.mod_add, Nat.div_add by lia.
      rewrite sel_chunk by apply mod_station_in.
      replace (j / 6 + 1) with (S (j / 6)) by lia. cbn [nth_error]. apply IH.
      replace (j + 1 * 6) with (S (S (S (S (S (S j)))))) in H by lia.
      exact H.
Qed.

Lemma quota_get (n s : nat) :
  In s stations ->
  dict_get Nat.eqb s (workers_needed_per_station (Z.of_nat n))
  = Some (Z.of_nat (quota n s)).
Proof.
  intros Hs. apply in_stations in Hs.
  unfold workers_needed_per_station, quota, stations, WSTATION.
  change (Z.of_nat 6) with 6%Z.
  assert (Hd : (Z.of_nat n / 6)%Z = Z.of_nat (n / 6)).
  { rewrite (Nat2Z.inj_div n 6). reflexivity. }
  assert (Hm : (Z.of_nat n mod 6)%Z = Z.of_nat (n mod 6)).
  { rewrite (Nat2Z.inj_mod n 6). reflexivity. }
  rewrite Hd, Hm.
  assert (Hb : (Z.of_nat s <=? Z.of_nat (n mod 6))%Z = (s <=? n mod 6)).
  { destruct (s <=? n mod 6) eqn:E.
    - apply Nat.leb_le in E. apply Z.leb_le. lia.
    - apply Nat.leb_gt in E. apply Z.leb_gt. lia. }
  destruct s as [|[|[|[|[|[|[|s]]]]]]]; try lia;
    cbn [seq map dict_get Nat.eqb]; rewrite Hb;
    destruct (_ <=? n mod 6); f_equal; lia.
Qed.

(** X8.  Where a hired worker stands.  [create_initial_assignment_sequential]
    always returns; worker number [i] of the list (from 0) is at station
    [i mod 6 + 1], position [i div 6], and every station holds as many
    workers as the solver's quota for the same head count. *)
Theorem create_initial_assignment_sequential_places :
  forall worker_ids : list WorkerId,
    exists a,
      create_initial_assignment_sequential worker_ids = Some a
      /\ well_keyed a
      /\ (forall i w,
            nth_error worker_ids i = Some w ->
            nth_error (row_of a (i mod WSTATION + 1)) (i / WSTATION) = Some w)
      /\ forall station,
           In station stations ->
           dict_get Nat.eqb station
                    (workers_needed_per_station (Z.of_nat (length worker_ids)))
           = Some (Z.of_nat (length (row_of a station))).
Proof.
  intros ws. eexists. split; [apply create_initial_assignment_rows|].
  split; [apply mk_well_keyed|]. split.
  - intros i w H. rewrite row_of_mk by apply mod_station_in.
    now apply sel_nth.
  - intros s Hs. rewrite row_of_mk by assumption.
    rewrite quota_get by assumption. unfold quota. f_equal. f_equal.
    now rewrite sel_length.
Qed.

Lemma remaining_workers_from (x : WorkerId) (a : Assignment) (l : list nat) :
  forall acc,
    foldM (fun all_workers station =>
             row <- station_get station a ;;
             Some (all_workers
                     ++ filter (fun wid => negb (String.eqb wid x)) row))
          l acc
    = if forallb (fun s => match station_get s a with
                           | Some _ => true
                           | None => false
                           end) l
      then Some (acc ++ drop_worker x (flat_map (row_of a) l))
      else None.
Proof.
  induction l as [|s l IH]; intros acc.
  - cbn. now rewrite app_nil_r.
  - cbn [foldM forallb flat_map]. unfold row_of at 1.
    destruct (station_get s a) as [row|]; cbn [bind andb]; [|reflexivity].
    rewrite IH. destruct (forallb _ l); [|reflexivity].
    unfold drop_worker. now rewrite filter_app, app_assoc.
Qed.

Lemma drop_worker_count (x : WorkerId) (ws : list WorkerId) :
  length (drop_worker x ws) + count_occ string_dec ws x = length ws.
Proof.
  induction ws as [|w ws IH]; [reflexivity|].
  cbn [drop_worker filter count_occ length].
  destruct (string_dec w x) as [->|Hne].
  - rewrite String.eqb_refl. cbn [negb]. fold (drop_worker x ws). lia.
  - apply String.eqb_neq in Hne. rewrite Hne. cbn [negb length].
    fold (drop_worker x ws). lia.
Qed.

(** X9.  Firing rebuilds from the stations 1..6.  [fire_worker_from_assignment]
    raises exactly when one of the stations 1..6 is missing from the
    assignment; otherwise the result is the sequential placement of the
    workers of those six stations, station by station, without any
    occurrence of the fired id: the id is gone however often it occurred,
    an id that did not occur only has the others placed anew, and workers
    kept under any other key are lost. *)
Theorem fire_worker_from_assignment_rebuilds :
  forall (x : WorkerId) (a : Assignment),
    (fire_worker_from_assignment x a = None
     <-> exists s, In s stations /\ station_get s a = None)
    /\ forall a',
         fire_worker_from_assignment x a = Some a' ->
         create_initial_assignment_sequential
           (drop_worker x (flat_map (row_of a) stations)) = Some a'
         /\ well_keyed a'
         /\ ~ In x (all_workers_of a')
         /\ total_workers a' + count_occ string_dec (flat_map (row_of a) stations) x
            = length (flat_map (row_of a) stations)
         /\ forall w, In w (all_workers_of a') <->
                      (w <> x /\ exists s, In s stations /\ In w (row_of a s)).
Proof.
  intros x a.
  assert (Hrem : remaining_workers x a
                 = if forallb (fun s => match station_get s a with
                                        | Some _ => true
                                        | None => false
                                        end) stations
                   then Some (drop_worker x (flat_map (row_of a) stations))
                   else None).
  { unfold remaining_workers. now rewrite remaining_workers_from. }
  unfold fire_worker_from_assignment. rewrite Hrem. clear Hrem.
  set (ws := drop_worker x (flat_map (row_of a) stations)).
  destruct (forallb _ stations) eqn:E.
  - cbn [bind].
    change (redistribute ws empty_assignment)
      with (create_initial_assignment_sequential ws).
    rewrite forallb_forall in E. split.
    + rewrite create_initial_assignment_rows. split; [discriminate|].
      intros [s [Hs Hn]]. specialize (E s Hs). now rewrite Hn in E.
    + intros a' Ha'. split; [exact Ha'|].
      rewrite create_initial_assignment_rows in Ha'. injection Ha' as <-.
      assert (Hperm : Permutation (all_workers_of
                                     (mk_assignment (fun s => sel 0 s ws))) ws).
      { rewrite all_workers_of_mk. apply sel_permutation. }
      split; [apply mk_well_keyed|]. split.
      { intros Hin. apply (Permutation_in _ Hperm) in Hin.
        now apply drop_worker_not_in in Hin. }
      split.
      { unfold total_workers. rewrite (Permutation_length Hperm).
        apply drop_worker_count. }
      intros w. split.
      * intros Hin. apply (Permutation_in _ Hperm) in Hin.
        unfold ws, drop_worker in Hin. apply filter_In in Hin.
        destruct Hin as [Hin Hne]. split.
        -- intros ->. rewrite String.eqb_refl in Hne. discriminate.
        -- apply in_flat_map in Hin. exact Hin.
      * intros [Hne Hex]. apply (Permutation_in _ (Permutation_sym Hperm)).
        unfold ws, drop_worker. apply filter_In. split.
        -- apply in_flat_map. exact Hex.
        -- apply String.eqb_neq in Hne. now rewrite Hne.
  - cbn [bind]. split; [|discriminate]. split; [|reflexivity]. intros _.
    assert (Hex : existsb (fun s => match station_get s a with
                                    | Some _ => false
                                    | None => true
                                    end) stations = true).
    { revert E. generalize stations as l. induction l as [|s l IH]; cbn.
      - discriminate.
      - destruct (station_get s a); cbn; auto. }
    apply existsb_exists in Hex. destruct Hex as [s [Hs Hn]].
    exists s. split; [exact Hs|]. now destruct (station_get s a).
Qed.

(** ** The performance oracle *)

Lemma foldM_map {A B S : Type} (f : S -> B -> option S) (h : A -> B)
  (xs : list A) :
  forall s, foldM f (map h xs) s = foldM (fun s x => f s (h x)) xs s.
Proof.
  induction xs as [|x xs IH]; intros s; [reflexivity|].
  cbn [map foldM]. destruct (f s (h x)); cbn [bind]; auto.
Qed.

Lemma foldM_none {A S : Type} (f : S -> A -> option S) (xs : list A) (x : A) :
  In x xs -> (forall s, f s x = None) -> forall s, foldM f xs s = None.
Proof.
  induction xs as [|y xs IH]; intros Hin Hx s; [contradiction|].
  cbn [foldM]. destruct Hin as [->|Hin].
  - now rewrite Hx.
  - destruct (f s y); cbn [bind]; auto.
Qed.

Lemma station_total_known (twd : list (WorkerId * TrueWorkerProfile))
  (s : nat) (task : TaskProfile) (row : list WorkerId) :
  station_total twd s task row
  = station_total twd s task
      (filter (fun wid => match dict_get String.eqb wid twd with
                          | Some _ => true
                          | None => false
                          end) row).
Proof.
  unfold station_total. generalize 0%R as acc.
  induction row as [|w row IH]; intros acc; [reflexivity|].
  cbn [foldM filter].
  destruct (dict_get String.eqb w twd) as [tw|] eqn:E.
  - cbn [foldM]. rewrite E.
    destruct (calculate_performance tw s (delivery_time task) (fatigue_cost task));
      cbn [bind]; auto.
  - cbn [bind]. apply IH.
Qed.

(** X10.  Workers without a true profile do not count.  The simulation of an
    assignment is the simulation of the same assignment without the ids
    that no [TrueWorkerProfile] carries: such ids neither raise nor
    contribute. *)
Theorem simulate_station_performance_ignores_unknown :
  forall (true_workers : list TrueWorkerProfile) (tasks : list TaskProfile)
         (a : Assignment),
    simulate_station_performance true_workers tasks a
    = simulate_station_performance true_workers tasks
                                   (known_only true_workers a).
Proof.
  intros true_workers tasks a. unfold simulate_station_performance, known_only.
  rewrite foldM_map. apply foldM_ext. intros bp kv. cbn [fst snd].
  destruct (dict_get Nat.eqb (fst kv) _) as [task|]; cbn [bind]; [|reflexivity].
  now rewrite <- station_total_known.
Qed.

Lemma simulate_keys_from (twd : list (WorkerId * TrueWorkerProfile))
  (td : list (nat * TaskProfile)) (a : Assignment) :
  forall acc bp,
    foldM (fun station_performance kv =>
             task <- dict_get Nat.eqb (fst kv) td ;;
             total <- station_total twd (fst kv) task (snd kv) ;;
             Some (dict_set Nat.eqb (fst kv) total station_performance))
          a acc = Some bp ->
    forall k, dict_get Nat.eqb k bp <> None
              <-> (dict_get Nat.eqb k acc <> None \/ In k (map fst a)).
Proof.
  induction a as [|kv a IH]; intros acc bp H k.
  - cbn in H. injection H as <-. cbn. tauto.
  - cbn [foldM] in H.
    destruct (dict_get Nat.eqb (fst kv) td) as [task|]; cbn [bind] in H;
      [|discriminate].
    destruct (station_total twd (fst kv) task (snd kv)) as [total|];
      cbn [bind] in H; [|discriminate].
    rewrite (IH _ _ H k). rewrite (@dict_get_set _ _ Nat.eqb Nat.eqb_eq).
    cbn [map In]. destruct (k =? fst kv) eqn:E.
    + apply Nat.eqb_eq in E. subst k. split; [auto|]. intros _. left. discriminate.
    + apply Nat.eqb_neq in E. split.
      * intros [H1|H1]; auto.
      * intros [H1|[H1|H1]]; auto; congruence.
Qed.

(** X11.  Errors of the simulation.  For workers and tasks in range and an
    assignment keyed by stations among 1..6, the simulation raises
    exactly when a station of the assignment, occupied or not, has no
    task; when it returns, the result has an entry for exactly the
    stations of the assignment. *)
Theorem simulate_station_performance_errors :
  forall (true_workers : list TrueWorkerProfile) (tasks : list TaskProfile)
         (a : Assignment),
    true_workers_ok true_workers ->
    (forall t, In t tasks -> task_ok t) ->
    (forall k, In k (map fst a) -> In k stations) ->
    (simulate_station_performance true_workers tasks a = None
     <-> exists k, In k (map fst a) /\ ~ In k (map station_id tasks))
    /\ forall bp,
         simulate_station_performance true_workers tasks a = Some bp ->
         forall k, dict_get Nat.eqb k bp <> None <-> In k (map fst a).
Proof.
  intros true_workers tasks a Hw Ht Hk. split.
  - split.
    + intros Hnone.
      destruct (forallb (fun k => existsb (Nat.eqb k) (map station_id tasks))
                        (map fst a)) eqn:E.
      * exfalso. rewrite forallb_forall in E.
        unfold simulate_station_performance in Hnone.
        destruct (@foldM_total _ _ (fun _ => True)
                    (fun station_performance kv =>
                       task <- dict_get Nat.eqb (fst kv)
                                 (dict_of Nat.eqb station_id (fun t => t) tasks) ;;
                       total <- station_total
                                  (dict_of String.eqb true_worker_id (fun w => w)
                                           true_workers)
                                  (fst kv) task (snd kv) ;;
                       Some (dict_set Nat.eqb (fst kv) total station_performance))
                    a) with (s := @nil (nat * R)) as [bp [Hbp _]];
          [|exact I|congruence].
        intros s kv Hin _.
        assert (Hkey : In (fst kv) (map fst a)) by now apply in_map.
        specialize (E _ Hkey). apply existsb_exists in E.
        destruct E as [k' [Hk' Ek]]. apply Nat.eqb_eq in Ek. subst k'.
        destruct (dict_get Nat.eqb (fst kv)
                    (dict_of Nat.eqb station_id (fun t => t) tasks))
          as [task|] eqn:Et.
        -- cbn [bind].
           apply (dict_of_get_some _ _ Nat.eqb Nat.eqb_eq) in Et.
           destruct Et as [t0 [Hin0 [_ <-]]].
           destruct (station_total_ok true_workers (fst kv) t0 (snd kv) Hw
                       (Ht _ Hin0) (Hk _ Hkey)) as [v [Hv _]].
           unfold true_worker_dict_of in Hv. rewrite Hv. cbn [bind]. eauto.
        -- exfalso. revert Et.
           now apply (dict_of_get_in _ _ Nat.eqb Nat.eqb_eq).
      * assert (Hex : existsb (fun k => negb (existsb (Nat.eqb k)
                                                      (map station_id tasks)))
                              (map fst a) = true).
        { revert E. generalize (map fst a) as l.
          induction l as [|k l IH]; cbn; [discriminate|].
          destruct (existsb (Nat.eqb k) (map station_id tasks)); cbn; auto. }
        apply existsb_exists in Hex. destruct Hex as [k [Hin Hn]].
        exists k. split; [exact Hin|]. intros Hin'.
        assert (existsb (Nat.eqb k) (map station_id tasks) = true).
        { apply existsb_exists. exists k. split; [exact Hin' | apply Nat.eqb_refl]. }
        rewrite H in Hn. discriminate.
    + intros [k [Hin Hn]]. apply in_map_iff in Hin.
      destruct Hin as [kv [<- Hin]].
      unfold simulate_station_performance. apply (foldM_none _ _ kv Hin).
      intros s.
      rewrite (dict_of_get_none _ _ Nat.eqb Nat.eqb_eq _ _ _ tasks (fst kv) Hn).
      reflexivity.
  - intros bp Hbp k. unfold simulate_station_performance in Hbp.
    rewrite (simulate_keys_from _ _ _ _ _ Hbp k). cbn. tauto.
Qed.

Lemma simulate_station_performance_errors_witness :
  simulate_station_performance example_true_workers example_tasks
                               example_assignment = None
  <-> exists k, In k (map fst example_assignment)
                /\ ~ In k (map station_id example_tasks).
Proof.
  apply (proj1 (simulate_station_performance_errors
                  example_true_workers example_tasks example_assignment
                  example_true_workers_ok (proj2 example_tasks_ok)
                  (fun k Hk => Hk))).
Defined.

(** ** The position optimizer *)

Lemma learned_average_deref (store : Store) (w : WorkerId)
  (prof : FactoryWorkerProfile) (s : nat) :
  deref (id_index (ids_of store)) store w = Some prof ->
  learned_average store w s = get_average_percentage prof s.
Proof.
  intros H. unfold learned_average. rewrite factory_worker_dict_ids.
  now rewrite H.
Qed.

Section OptimizerGreedy.
Variable store : Store.
Variable position_workers : list WorkerId.
Variable position_idx : nat.
Hypothesis known : forall w, In w position_workers -> In w (ids_of store).
Hypothesis nonempty : forall w, In w position_workers -> truthy w = true.

Let fd := id_index (ids_of store).

Lemma best_for_station_max_from (assigned : list WorkerId) (station : nat)
  (pw : list WorkerId) :
  (forall w, In w pw -> In w (ids_of store)) ->
  forall best0,
  exists best,
    foldM (fun best wid =>
             if mem_string wid assigned then Some best
             else
               w <- deref fd store wid ;;
               let score := get_average_percentage w station in
               if exceeds score best then Some (Some (wid, score)) else Some best)
          pw best0 = Some best
    /\ match best with
       | None => best0 = None /\ forall w, In w pw -> In w assigned
       | Some (b, sc) =>
           (best0 = Some (b, sc)
            \/ (In b pw /\ ~ In b assigned
                /\ sc = learned_average store b station))
           /\ (forall b0 sc0, best0 = Some (b0, sc0) -> (sc0 <= sc)%R)
           /\ forall w, In w pw -> ~ In w assigned ->
                        (learned_average store w station <= sc)%R
       end.
Proof.
  induction pw as [|w pw IH]; intros Hk best0.
  - exists best0. split; [reflexivity|].
    destruct best0 as [[b sc]|].
    + split; [now left|]. split; [|intros w []].
      intros b0 sc0 [= <- <-]. lra.
    + split; [reflexivity | intros w []].
  - cbn [foldM]. destruct (mem_string w assigned) eqn:Em.
    + cbn [bind]. destruct (IH (fun x Hx => Hk x (or_intror Hx)) best0)
        as [best [Hf Hb]].
      exists best. split; [exact Hf|].
      apply mem_string_in in Em.
      destruct best as [[b sc]|].
      * destruct Hb as [Hb [Hge Hmax]]. split; [|split; [exact Hge|]].
        -- destruct Hb as [Hb|[Hb1 Hb2]]; [now left|].
           right. split; [now right | exact Hb2].
        -- intros x [<-|Hx] Hn; [contradiction | now apply Hmax].
      * destruct Hb as [Hb1 Hb2]. split; [exact Hb1|].
        intros x [<-|Hx]; [exact Em | now apply Hb2].
    + apply mem_string_not_in in Em.
      destruct (deref_in store w (Hk w (or_introl eq_refl))) as [prof [Hd _]].
      pose proof (learned_average_deref store w prof station Hd) as Hla.
      fold fd in Hd. rewrite Hd. cbn [bind].
      destruct (exceeds (get_average_percentage prof station) best0) eqn:Ex.
      * destruct (IH (fun x Hx => Hk x (or_intror Hx))
                     (Some (w, get_average_percentage prof station)))
          as [best [Hf Hb]].
        exists best. split; [exact Hf|].
        destruct best as [[b sc]|]; [|destruct Hb; discriminate].
        destruct Hb as [Hb [Hge Hmax]].
        specialize (Hge _ _ eq_refl).
        split; [|split].
        -- right. destruct Hb as [[= <- <-]|[Hb1 [Hb2 Hb3]]].
           ++ split; [now left|]. split; [exact Em | now rewrite Hla].
           ++ split; [now right|]. split; assumption.
        -- intros b0 sc0 ->. unfold exceeds in Ex.
           destruct (Rgt_dec (get_average_percentage prof station) sc0);
             [lra | discriminate].
        -- intros x [<-|Hx] Hn; [rewrite Hla; exact Hge | now apply Hmax].
      * destruct (IH (fun x Hx => Hk x (or_intror Hx)) best0) as [best [Hf Hb]].
        exists best. split; [exact Hf|].
        destruct best0 as [[b0 sc0]|]; [|discriminate].
        unfold exceeds in Ex.
        destruct (Rgt_dec (get_average_percentage prof station) sc0) as [|Hle];
          [discriminate|].
        destruct best as [[b sc]|]; [|destruct Hb; discriminate].
        destruct Hb as [Hb [Hge Hmax]].
        specialize (Hge _ _ eq_refl).
        split; [|split].
        -- destruct Hb as [Hb|[Hb1 Hb2]]; [now left|].
           right. split; [now right | exact Hb2].
        -- intros b1 sc1 [= <- <-]. exact Hge.
        -- intros x [<-|Hx] Hn; [rewrite Hla; lra | now apply Hmax].
Qed.

Lemma best_for_station_max (assigned : list WorkerId) (station : nat) :
  exists best,
    best_for_station fd store position_workers assigned station = Some best
    /\ match best with
       | None => forall w, In w position_workers -> In w assigned
       | Some (b, sc) =>
           In b position_workers /\ ~ In b assigned
           /\ sc = learned_average store b station
           /\ forall w, In w position_workers -> ~ In w assigned ->
                        (learned_average store w station <= sc)%R
       end.
Proof.
  destruct (best_for_station_max_from assigned station position_workers known None)
    as [best [Hf Hb]].
  exists best. split; [exact Hf|].
  destruct best as [[b sc]|].
  - destruct Hb as [[Hb|[H1 [H2 H3]]] [_ Hmax]]; [discriminate|]. auto.
  - apply Hb.
Qed.

Lemma optimize_step_greedy (g : nat -> list WorkerId) (assigned : list WorkerId)
  (details : list (nat * OptimizationDetail)) (s : nat) :
  In s stations -> position_idx < length (g s) ->
  (exists w, In w position_workers /\ ~ In w assigned) ->
  exists bw row' old,
    optimize_step fd store position_workers position_idx
                  (mk_assignment g, assigned, details) s
    = Some (mk_assignment (fun s' => if s' =? s then row' else g s'),
            bw :: assigned,
            dict_set Nat.eqb s
                     {| old_worker := old; new_worker := bw;
                        score := learned_average store bw s |} details)
    /\ nth_error (g s) position_idx = Some old
    /\ In bw position_workers /\ ~ In bw assigned
    /\ (forall w, In w position_workers -> ~ In w assigned ->
                  (learned_average store w s <= learned_average store bw s)%R)
    /\ length row' = length (g s)
    /\ nth_error row' position_idx = Some bw.
Proof.
  intros Hs Hp [w0 [Hw0 Hn0]]. unfold optimize_step.
  destruct (best_for_station_max assigned s) as [best [Hb Hspec]].
  rewrite Hb. cbn [bind].
  destruct best as [[bw bs]|].
  - destruct Hspec as [Hin [Hnot [Hsc Hmax]]].
    rewrite (nonempty _ Hin).
    rewrite station_get_mk by assumption. cbn [bind].
    destruct (nth_error (g s) position_idx) as [old|] eqn:Eo;
      [|apply nth_error_None in Eo; lia].
    cbn [bind].
    destruct (place_mk g s position_idx bw Hs Hp) as [row' [Hpl [Hl [Hn _]]]].
    rewrite Hpl. cbn [bind]. exists bw, row', old. subst bs.
    split; [reflexivity|]. split; [reflexivity|].
    split; [exact Hin|]. split; [exact Hnot|]. split; [exact Hmax|].
    split; assumption.
  - exfalso. apply Hn0. now apply Hspec.
Qed.

Lemma optimize_fold_greedy (sts : list nat) :
  forall (g : nat -> list WorkerId) (assigned : list WorkerId)
         (details : list (nat * OptimizationDetail)),
    (forall s, In s sts -> In s stations /\ position_idx < length (g s)) ->
    NoDup sts -> NoDup position_workers ->
    incl assigned position_workers -> NoDup assigned ->
    length assigned + length sts <= length position_workers ->
    exists g' assigned' details' picks,
      foldM (optimize_step fd store position_workers position_idx) sts
            (mk_assignment g, assigned, details)
      = Some (mk_assignment g', assigned', details')
      /\ map fst picks = sts
      /\ (forall s, length (g' s) = length (g s))
      /\ (forall s, ~ In s sts -> g' s = g s)
      /\ (forall s, ~ In s sts ->
                    dict_get Nat.eqb s details' = dict_get Nat.eqb s details)
      /\ (forall s b, In (s, b) picks ->
            nth_error (g' s) position_idx = Some b
            /\ exists old,
                 nth_error (g s) position_idx = Some old
                 /\ dict_get Nat.eqb s details'
                    = Some {| old_worker := old; new_worker := b;
                              score := learned_average store b s |})
      /\ greedy_choice (learned_average store) position_workers assigned picks.
Proof.
  induction sts as [|s sts IH];
    intros g assigned details Hsts Hnds Hndp Hincl Hnda Hlen.
  - exists g, assigned, details, []. cbn [foldM map].
    do 5 (split; [reflexivity|]). split; [intros x b [] | exact I].
  - destruct (Hsts s (or_introl eq_refl)) as [Hs Hp].
    apply NoDup_cons_iff in Hnds. destruct Hnds as [Hsnot Hnds].
    assert (Hfree : exists w, In w position_workers /\ ~ In w assigned).
    { destruct (forallb (fun w => mem_string w assigned) position_workers) eqn:E.
      - exfalso. rewrite forallb_forall in E.
        assert (Hall : incl position_workers assigned).
        { intros w Hw. apply mem_string_in. now apply E. }
        pose proof (NoDup_incl_length Hndp Hall) as Hle.
        cbn [length] in Hlen. lia.
      - assert (Hex : existsb (fun w => negb (mem_string w assigned))
                              position_workers = true).
        { revert E. generalize position_workers as l.
          induction l as [|w l IHl]; cbn; [discriminate|].
          destruct (mem_string w assigned); cbn; auto. }
        apply existsb_exists in Hex. destruct Hex as [w [Hw Hn]].
        exists w. split; [exact Hw|]. apply mem_string_not_in.
        now destruct (mem_string w assigned). }
    destruct (optimize_step_greedy g assigned details s Hs Hp Hfree)
      as [bw [row' [old [Hstep [Hold [Hbw [Hnew [Hmax [Hl Hn]]]]]]]]].
    cbn [foldM]. rewrite Hstep. cbn [bind].
    set (g1 := fun s' => if s' =? s then row' else g s').
    set (details1 := dict_set Nat.eqb s _ details).
    assert (Hg1len : forall x, length (g1 x) = length (g x)).
    { intros x. unfold g1. destruct (x =? s) eqn:E; [|reflexivity].
      apply Nat.eqb_eq in E. now subst. }
    destruct (IH g1 (bw :: assigned) details1)
      as [g' [assigned' [details' [picks [Hf [Hm [H2 [H3 [H4 [H5 H6]]]]]]]]]].
    { intros x Hx. destruct (Hsts x (or_intror Hx)) as [Hxs Hxp].
      split; [exact Hxs|]. now rewrite Hg1len. }
    { exact Hnds. }
    { exact Hndp. }
    { intros x [<-|Hx]; [exact Hbw | now apply Hincl]. }
    { now constructor. }
    { cbn [length] in *. lia. }
    exists g', assigned', details', ((s, bw) :: picks).
    split; [exact Hf|]. split; [cbn [map fst]; now rewrite Hm|].
    split; [intros x; now rewrite H2|].
    split.
    { intros x Hx. rewrite H3 by (intros Hin; apply Hx; now right).
      unfold g1. destruct (x =? s) eqn:E; [|reflexivity].
      apply Nat.eqb_eq in E. subst. contradiction Hx. now left. }
    split.
    { intros x Hx. rewrite H4 by (intros Hin; apply Hx; now right).
      unfold details1. rewrite (@dict_get_set _ _ Nat.eqb Nat.eqb_eq).
      destruct (x =? s) eqn:E; [|reflexivity].
      apply Nat.eqb_eq in E. subst. contradiction Hx. now left. }
    split.
    { intros x b [[= <- <-]|Hin].
      - rewrite H3 by assumption. unfold g1 at 1. rewrite Nat.eqb_refl.
        split; [exact Hn|]. exists old. split; [exact Hold|].
        rewrite H4 by assumption. unfold details1.
        rewrite (@dict_get_set _ _ Nat.eqb Nat.eqb_eq). now rewrite Nat.eqb_refl.
      - destruct (H5 x b Hin) as [Hx [old' [Hold' Hd]]].
        split; [exact Hx|]. exists old'. split; [|exact Hd].
        assert (Hxs : In x sts).
        { rewrite <- Hm. apply in_map_iff. now exists (x, b). }
        unfold g1 in Hold'. destruct (x =? s) eqn:E; [|exact Hold'].
        apply Nat.eqb_eq in E. subst. contradiction. }
    cbn [greedy_choice]. split; [exact Hbw|]. split; [exact Hnew|].
    split; [exact Hmax | exact H6].
Qed.

End OptimizerGreedy.

Lemma picks_determined {A B : Type} (F : A -> option B) (l1 l2 : list (A * B)) :
  map fst l1 = map fst l2 ->
  (forall x y, In (x, y) l1 -> F x = Some y) ->
  (forall x y, In (x, y) l2 -> F x = Some y) ->
  l1 = l2.
Proof.
  revert l2. induction l1 as [|[x y] l1 IH]; intros [|[x' y'] l2] Hm H1 H2;
    try discriminate; [reflexivity|].
  cbn [map fst] in Hm. injection Hm as <- Hm.
  pose proof (H1 x y (or_introl eq_refl)) as E1.
  pose proof (H2 x y' (or_introl eq_refl)) as E2.
  assert (y = y') by congruence. subst y'. f_equal.
  apply IH; [exact Hm| |]; intros a b Hin; [apply H1 | apply H2]; now right.
Qed.

Lemma cohort_of_in (f : nat -> list WorkerId) (p s : nat) (w : WorkerId) :
  In (s, w) (cohort_of f p) <-> In s stations /\ nth_error (f s) p = Some w.
Proof.
  unfold cohort_of. rewrite in_flat_map. split.
  - intros [x [Hx Hin]]. destruct (nth_error (f x) p) as [w'|] eqn:E; [|destruct Hin].
    destruct Hin as [[= <- <-]|[]]. auto.
  - intros [Hs Hn]. exists s. split; [exact Hs|]. rewrite Hn. now left.
Qed.

(** X12.  The optimizer is greedy.  On a six-station assignment whose occupants
    of position [p] are distinct, non-empty ids with profiles, the
    stations that have the position are served in ascending order: each
    receives, among the occupants not given to an earlier station, one
    with the highest learned average for that station, and the details
    name the previous occupant, the new one and that average. *)
Theorem optimize_position_is_greedy :
  forall (factory_workers : Store) (current_assignment : Assignment)
         (position_idx : nat),
    well_keyed current_assignment ->
    NoDup (map snd (cohort_of (row_of current_assignment) position_idx)) ->
    (forall w, In w (map snd (cohort_of (row_of current_assignment) position_idx)) ->
               w <> EmptyString /\ In w (ids_of factory_workers)) ->
    exists optimized details,
      optimize_position factory_workers current_assignment position_idx
      = Some (optimized, details)
      /\ map fst (cohort_of (row_of optimized) position_idx)
         = map fst (cohort_of (row_of current_assignment) position_idx)
      /\ greedy_choice (learned_average factory_workers)
           (map snd (cohort_of (row_of current_assignment) position_idx)) []
           (cohort_of (row_of optimized) position_idx)
      /\ forall s old new,
           In (s, old) (cohort_of (row_of current_assignment) position_idx) ->
           In (s, new) (cohort_of (row_of optimized) position_idx) ->
           dict_get Nat.eqb s details
           = Some {| old_worker := old; new_worker := new;
                     score := learned_average factory_workers new s |}.
Proof.
  intros store a p Hk Hnd Hw.
  pose proof (well_keyed_mk _ Hk) as Ha.
  set (f := row_of a) in *.
  assert (Hrun : optimize_position store a p
                 = optimize_position store (mk_assignment f) p)
    by now rewrite <- Ha.
  rewrite Hrun. clear Hrun. unfold optimize_position.
  rewrite position_cohort_mk. cbn [bind].
  destruct (map snd (cohort_of f p)) as [|w0 pw0] eqn:Epw.
  { exists a, []. rewrite <- Ha. split; [reflexivity|]. fold f.
    split; [reflexivity|].
    assert (Hc : cohort_of f p = []).
    { destruct (cohort_of f p); [reflexivity | discriminate]. }
    rewrite Hc. split; [exact I|]. intros s old new []. }
  rewrite <- Epw in *. clear w0 pw0 Epw.
  set (pw := map snd (cohort_of f p)) in *.
  rewrite factory_worker_dict_ids.
  destruct (@optimize_fold_greedy store pw p
              (fun w H => proj2 (Hw w H))
              (fun w H => proj2 (truthy_nonempty w) (proj1 (Hw w H)))
              (map fst (cohort_of f p)) f [] [])
    as [g [assigned' [details' [picks [Hf [Hm [H2 [H3 [H4 [H5 H6]]]]]]]]]].
  { intros s Hs. now apply cohort_stations in Hs. }
  { apply cohort_stations_nodup. }
  { exact Hnd. }
  { intros x []. }
  { constructor. }
  { cbn [length]. unfold pw. rewrite !length_map. lia. }
  rewrite Hf. cbn [bind]. exists (mk_assignment g), details'.
  split; [reflexivity|].
  assert (Hco : cohort_of (row_of (mk_assignment g)) p = cohort_of g p).
  { unfold cohort_of. apply flat_map_ext_on. intros s Hs.
    now rewrite row_of_mk. }
  assert (Hpicks : cohort_of g p = picks).
  { apply (picks_determined (fun s => nth_error (g s) p)).
    - rewrite Hm. now apply cohort_stations_same.
    - intros x y Hin. now apply cohort_of_in in Hin.
    - intros x y Hin. now apply H5. }
  rewrite Hco, Hpicks. split; [exact Hm|]. split; [exact H6|].
  intros s old new Hold Hnew.
  destruct (H5 s new Hnew) as [_ [old' [Hold' Hd]]].
  apply cohort_of_in in Hold. destruct Hold as [_ Hold].
  assert (old' = old) by congruence. now subst old'.
Qed.


Lemma optimize_position_is_greedy_witness :
  exists optimized details,
    optimize_position example_store example_assignment 0
    = Some (optimized, details)
    /\ map fst (cohort_of (row_of optimized) 0) = [1; 2].
Proof.
  destruct (optimize_position_is_greedy example_store example_assignment 0 eq_refl)
    as [optimized [details [H1 [H2 _]]]].
  - cbn. repeat constructor; cbn; intuition discriminate.
  - cbn. intros w [<-|[<-|[]]]; (split; [discriminate | auto]).
  - exists optimized, details. split; [exact H1 | exact H2].
Defined.

(** X13.  Errors of the optimizer.  On a six-station assignment
    [optimize_position] raises exactly when an occupant of the position
    has no profile among the factory workers; when no station has the
    position it returns the assignment as it is, with no details. *)
Theorem optimize_position_errors :
  forall (factory_workers : Store) (current_assignment : Assignment)
         (position_idx : nat),
    well_keyed current_assignment ->
    (optimize_position factory_workers current_assignment position_idx = None
     <-> exists s w,
           In s stations
           /\ nth_error (row_of current_assignment s) position_idx = Some w
           /\ ~ In w (ids_of factory_workers))
    /\ ((forall s, In s stations ->
                   length (row_of current_assignment s) <= position_idx) ->
        optimize_position factory_workers current_assignment position_idx
        = Some (current_assignment, [])).
Proof.
  intros store a p Hk.
  pose proof (well_keyed_mk _ Hk) as Ha.
  set (f := row_of a) in *.
  assert (Hrun : optimize_position store a p
                 = optimize_position store (mk_assignment f) p)
    by now rewrite <- Ha.
  rewrite Hrun. clear Hrun. split; [split|].
  - intros Hnone.
    destruct (forallb (fun w => mem_string w (ids_of store))
                      (map snd (cohort_of f p))) eqn:E.
    + exfalso. rewrite forallb_forall in E.
      destruct (optimize_position_spec store f p) as [g [details [Hsome _]]];
        [|congruence].
      intros w Hw. apply mem_string_in. now apply E.
    + assert (Hex : existsb (fun w => negb (mem_string w (ids_of store)))
                            (map snd (cohort_of f p)) = true).
      { revert E. generalize (map snd (cohort_of f p)) as l.
        induction l as [|w l IH]; cbn; [discriminate|].
        destruct (mem_string w (ids_of store)); cbn; auto. }
      apply existsb_exists in Hex. destruct Hex as [w [Hw Hn]].
      apply in_map_iff in Hw. destruct Hw as [[s w'] [E' Hin]].
      cbn [snd] in E'. subst w'. apply cohort_of_in in Hin.
      destruct Hin as [Hs Hnth]. exists s, w. split; [exact Hs|].
      split; [exact Hnth|]. apply mem_string_not_in.
      now destruct (mem_string w (ids_of store)).
  - intros [s [w [Hs [Hnth Hn]]]].
    assert (Hin : In (s, w) (cohort_of f p)) by (apply cohort_of_in; auto).
    unfold optimize_position. rewrite position_cohort_mk. cbn [bind].
    destruct (cohort_of f p) as [|[s0 w0] rest] eqn:Ec; [destruct Hin|].
    cbn [map fst snd foldM optimize_step].
    assert (Hbest : best_for_station (factory_worker_dict store) store
                      (w0 :: map snd rest) [] s0 = None).
    { unfold best_for_station. apply (foldM_none _ _ w).
      - change (In w (map snd ((s0, w0) :: rest))). apply in_map_iff.
        now exists (s, w).
      - intros best. cbn [mem_string existsb].
        rewrite factory_worker_dict_ids, (deref_none store w Hn). reflexivity. }
    rewrite Hbest. reflexivity.
  - intros Hshort. unfold optimize_position. rewrite position_cohort_mk.
    cbn [bind].
    assert (Hc : cohort_of f p = []).
    { destruct (cohort_of f p) as [|[s w] rest] eqn:Ec; [reflexivity|].
      assert (Hin : In (s, w) (cohort_of f p)) by (rewrite Ec; now left).
      apply cohort_of_in in Hin. destruct Hin as [Hs Hnth].
      specialize (Hshort s Hs).
      assert (p < length (f s)) by (apply nth_error_Some; congruence). lia. }
    rewrite Hc. cbn [map]. now rewrite <- Ha.
Qed.

Lemma optimize_position_errors_witness :
  optimize_position example_store example_assignment 1
  = Some (example_assignment, []).
Proof.
  apply (proj2 (optimize_position_errors example_store example_assignment 1
                  eq_refl)).
  intros s Hs. apply in_stations in Hs.
  destruct s as [|[|[|[|[|[|[|s]]]]]]]; try lia; cbn; lia.
Defined.

(** ** Which positions are tested *)

Lemma incomplete_lt (prof : FactoryWorkerProfile) :
  incomplete prof = true <-> (get_data_completeness prof < 100)%R.
Proof.
  unfold incomplete. destruct (Rlt_dec (get_data_completeness prof) 100);
    split; auto; discriminate.
Qed.

Lemma needs_testing_from_spec (store : Store) (f : nat -> list WorkerId)
  (p : nat) (sts : list nat) :
  incl sts stations ->
  exists b,
    needs_testing_from (factory_worker_dict store) store (mk_assignment f) p sts
    = Some b
    /\ (b = true
        <-> exists s w prof,
              In s sts /\ nth_error (f s) p = Some w
              /\ deref (factory_worker_dict store) store w = Some prof
              /\ incomplete prof = true).
Proof.
  induction sts as [|s sts IH]; intros Hincl.
  - exists false. split; [reflexivity|]. split; [discriminate|].
    intros [s [w [prof [[] _]]]].
  - destruct (IH (fun x Hx => Hincl x (or_intror Hx))) as [b [Hb Hiff]].
    cbn [needs_testing_from].
    rewrite station_get_mk by (apply Hincl; now left). cbn [bind].
    assert (Hskip :
              (forall w prof, nth_error (f s) p = Some w ->
                 deref (factory_worker_dict store) store w = Some prof ->
                 incomplete prof = false) ->
              b = true
              <-> exists s0 w prof,
                    In s0 (s :: sts) /\ nth_error (f s0) p = Some w
                    /\ deref (factory_worker_dict store) store w = Some prof
                    /\ incomplete prof = true).
    { intros Hno. rewrite Hiff. split.
      - intros [s0 [w [prof [Hin H]]]]. exists s0, w, prof. split; [now right | exact H].
      - intros [s0 [w [prof [[<-|Hin] [H1 [H2 H3]]]]]].
        + rewrite (Hno w prof H1 H2) in H3. discriminate.
        + exists s0, w, prof. auto. }
    destruct (nth_error (f s) p) as [w|] eqn:Ew.
    + destruct (deref (factory_worker_dict store) store w) as [prof|] eqn:Ed.
      * destruct (incomplete prof) eqn:Ei.
        -- exists true. split; [reflexivity|]. split; [|reflexivity].
           intros _. exists s, w, prof. split; [now left | auto].
        -- exists b. split; [exact Hb|]. apply Hskip.
           intros w' prof' [= <-] Hd. congruence.
      * exists b. split; [exact Hb|]. apply Hskip.
        intros w' prof' [= <-] Hd. congruence.
    + exists b. split; [exact Hb|]. apply Hskip. intros w' prof' Hn. discriminate.
Qed.

(** X14.  A position needs testing when one of its occupants is incomplete.  On
    a six-station assignment and distinct factory ids,
    [check_position_needs_testing] returns, and it returns [True] exactly
    when some station has at that position a worker whose factory profile
    has a data completeness below 100; occupants without a factory
    profile are passed over. *)
Theorem check_position_needs_testing_spec :
  forall (factory_workers : Store) (a : Assignment) (position_idx : nat),
    well_keyed a ->
    NoDup (ids_of factory_workers) ->
    exists b,
      check_position_needs_testing factory_workers a position_idx = Some b
      /\ (b = true
          <-> exists s prof,
                In s stations /\ In prof factory_workers
                /\ nth_error (row_of a s) position_idx = Some (worker_id prof)
                /\ (get_data_completeness prof < 100)%R).
Proof.
  intros store a p Hk Hnd.
  pose proof (well_keyed_mk _ Hk) as Ha.
  set (f := row_of a) in *.
  assert (Hrun : check_position_needs_testing store a p
                 = check_position_needs_testing store (mk_assignment f) p)
    by now rewrite <- Ha.
  rewrite Hrun. clear Hrun. unfold check_position_needs_testing.
  destruct (needs_testing_from_spec store f p stations (incl_refl _))
    as [b [Hb Hiff]].
  exists b. split; [exact Hb|]. rewrite Hiff. split.
  - intros [s [w [prof [Hs [Hn [Hd Hi]]]]]].
    rewrite factory_worker_dict_ids in Hd.
    destruct (deref_some store w prof Hd) as [Hid Hin].
    exists s, prof. split; [exact Hs|]. split; [exact Hin|].
    split; [now rewrite Hid | now apply incomplete_lt].
  - intros [s [prof [Hs [Hin [Hn Hc]]]]].
    apply In_nth_error in Hin. destruct Hin as [i Hi].
    exists s, (worker_id prof), prof. split; [exact Hs|]. split; [exact Hn|].
    split; [|now apply incomplete_lt].
    rewrite factory_worker_dict_ids. now apply (deref_unique store i).
Qed.

Lemma check_position_needs_testing_spec_witness :
  exists b,
    check_position_needs_testing example_store example_assignment 0 = Some b
    /\ (b = true
        <-> exists s prof,
              In s stations /\ In prof example_store
              /\ nth_error (row_of example_assignment s) 0 = Some (worker_id prof)
              /\ (get_data_completeness prof < 100)%R).
Proof.
  apply (check_position_needs_testing_spec example_store example_assignment 0
           eq_refl example_ids_nodup).
Defined.

(** ** The collection run as a whole *)

Lemma rotation_step_log (true_workers : list TrueWorkerProfile)
  (tasks : list TaskProfile) (fd : list (WorkerId * nat)) (bp : list (nat * R))
  (original : Assignment) (source_stations : list nat)
  (workers_to_rotate : list WorkerId) (p : nat)
  (st st' : Assignment * Store * list Event) (r : nat) :
  rotation_step true_workers tasks fd bp original source_stations
                workers_to_rotate p st r = Some st' ->
  exists ev, snd st' = snd st ++ [ev] /\ phase ev = rotation.
Proof.
  destruct st as [[temp store] log]. unfold rotation_step. intros H.
  do 3 inv_bind H.
  match goal with
  | H : bind _ _ = Some _ |- _ => idtac
  | _ => idtac
  end.
  destruct p0 as [store' cmp]. injection H as <-. cbn [snd].
  eexists. split; reflexivity.
Qed.

Lemma position_step_log (true_workers : list TrueWorkerProfile)
  (tasks : list TaskProfile) (fd : list (WorkerId * nat)) (bp : list (nat * R))
  (original : Assignment) (max_workers : nat) (st st' : CollectorState) (p : nat) :
  position_step true_workers tasks fd bp original max_workers st p = Some st' ->
  exists evs, log_of st' = log_of st ++ evs
              /\ Forall (fun ev => phase ev <> base /\ phase ev <> incomplete_fix) evs.
Proof.
  unfold position_step. intros H. inv_bind H.
  destruct (negb b).
  { injection H as <-. cbn [log_of]. eexists. split; [reflexivity|].
    constructor; [|constructor]. cbn. split; discriminate. }
  inv_bind H.
  destruct (map snd l) as [|w0 ws0] eqn:Ews.
  { injection H as <-. exists []. split; [now rewrite app_nil_r | constructor]. }
  rewrite <- Ews in *. inv_bind H. destruct p0 as [[temp' store'] log'].
  assert (Hlog : exists evs, log' = log_of st ++ evs
                   /\ Forall (fun ev => phase ev <> base
                                        /\ phase ev <> incomplete_fix) evs).
  { match goal with
    | Hf : foldM _ _ _ = Some _ |- _ =>
        apply (@foldM_rel _ _
                 (fun s s' => exists evs, snd s' = snd s ++ evs
                    /\ Forall (fun ev => phase ev <> base
                                         /\ phase ev <> incomplete_fix) evs))
          in Hf; [exact Hf | | |]
    end.
    - intros s. exists []. split; [now rewrite app_nil_r | constructor].
    - intros a b0 c [e1 [H1 F1]] [e2 [H2 F2]]. exists (e1 ++ e2).
      split; [rewrite H2, H1; now rewrite app_assoc | now apply Forall_app].
    - intros s x s' _ Hs. apply rotation_step_log in Hs.
      destruct Hs as [ev [Hs Hph]]. exists [ev]. split; [exact Hs|].
      constructor; [|constructor]. rewrite Hph. split; discriminate. }
  destruct Hlog as [evs [-> Hall]].
  destruct (p <? max_workers - 1).
  - inv_bind H. destruct p0 as [optimized details]. injection H as <-.
    cbn [log_of]. exists (evs ++ [{| phase := optimization;
                                     position_idx_of := Some p;
                                     assignment_of := optimized;
                                     performance_comparison := [];
                                     optimization_details_of := details;
                                     factory_workers_of := store' |}]).
    split; [now rewrite app_assoc|]. apply Forall_app. split; [exact Hall|].
    constructor; [|constructor]. cbn. split; discriminate.
  - injection H as <-. cbn [log_of]. exists evs. auto.
Qed.

Lemma rotation_phase_log (true_workers : list TrueWorkerProfile)
  (tasks : list TaskProfile) (fd : list (WorkerId * nat)) (bp : list (nat * R))
  (original : Assignment) (max_workers : nat) (st st' : CollectorState) :
  rotation_phase true_workers tasks fd bp original max_workers st = Some st' ->
  exists evs, log_of st' = log_of st ++ evs
              /\ Forall (fun ev => phase ev <> base /\ phase ev <> incomplete_fix) evs.
Proof.
  unfold rotation_phase. intros H.
  apply (@foldM_rel _ _
           (fun s s' => exists evs, log_of s' = log_of s ++ evs
              /\ Forall (fun ev => phase ev <> base
                                   /\ phase ev <> incomplete_fix) evs))
    in H; [exact H | | |].
  - intros s. exists []. split; [now rewrite app_nil_r | constructor].
  - intros a b c [e1 [H1 F1]] [e2 [H2 F2]]. exists (e1 ++ e2).
    split; [rewrite H2, H1; now rewrite app_assoc | now apply Forall_app].
  - intros s x s' _. apply position_step_log.
Qed.

Lemma filter_nil_all {A : Type} (f : A -> bool) (l : list A) :
  filter f l = [] -> forall x, In x l -> f x = false.
Proof.
  intros H x Hx. destruct (f x) eqn:E; [|reflexivity].
  assert (Hin : In x (filter f l)) by (apply filter_In; auto).
  rewrite H in Hin. destruct Hin.
Qed.

Lemma collection_run_spec (true_workers : list TrueWorkerProfile)
  (factory_workers : Store) (tasks : list TaskProfile) (initial_assign : Assignment)
  (st : CollectorState) :
  NoDup (ids_of factory_workers) ->
  systematic_data_collection_ui true_workers factory_workers tasks initial_assign
  = Some st ->
  ids_of (store_of st) = ids_of factory_workers
  /\ (forall prof, In prof (store_of st) -> incomplete prof = false)
  /\ exists first rest,
       log_of st = first :: rest
       /\ phase first = base /\ assignment_of first = initial_assign
       /\ Forall (fun ev => phase ev <> base) rest.
Proof.
  intros Hnd Hrun. unfold systematic_data_collection_ui in Hrun.
  inv_bind Hrun. inv_bind Hrun. inv_bind Hrun. inv_bind Hrun.
  match goal with
  | H : rotation_phase _ _ _ _ _ _ _ = Some ?c |- _ =>
      rename H into Hrot; rename c into st_rot
  end.
  match goal with
  | H : record_base _ _ _ = Some ?s |- _ => rename H into Hbase; rename s into store1
  end.
  pose proof (rotation_phase_log _ _ _ _ _ _ _ _ Hrot) as [evs [Hlog Hevs]].
  cbn [log_of] in Hlog.
  apply rotation_phase_rel in Hrot. cbn [store_of] in Hrot.
  assert (Hids : ids_of (store_of st_rot) = ids_of factory_workers).
  { rewrite (store_rel_ids _ _ _ Hrot).
    rewrite factory_worker_dict_ids in Hbase.
    apply record_base_at_most in Hbase; [|reflexivity].
    apply (store_rel_ids _ _ _ Hbase). }
  destruct (filter incomplete (store_of st_rot)) as [|w0 ws0] eqn:Einc.
  - injection Hrun as <-. split; [exact Hids|]. split.
    + now apply filter_nil_all.
    + eexists _, evs. split; [exact Hlog|]. split; [reflexivity|].
      split; [reflexivity|].
      revert Hevs. apply Forall_impl. intros ev H. apply H.
  - clear w0 ws0 Einc. inv_bind Hrun. injection Hrun as <-. cbn [store_of log_of].
    match goal with
    | H : collect_incomplete_worker_data_ui _ _ _ _ = Some ?c |- _ =>
        rename H into Hfix; rename c into fixed
    end.
    pose proof (gap_filler_log _ _ _ _ _ Hfix) as Hflog.
    apply gap_filler_spec in Hfix; [|now rewrite Hids].
    destruct Hfix as [_ [val [Hgap _]]].
    split; [rewrite (store_rel_ids _ _ _ Hgap); exact Hids|]. split.
    + intros prof' Hin. apply In_nth_error in Hin. destruct Hin as [i Hi].
      destruct Hgap as [Hlen Hgap].
      destruct (nth_error (store_of st_rot) i) as [prof|] eqn:Ep.
      * destruct (Hgap i prof Ep) as [prof2 [Hp2 [_ Hfill]]].
        assert (prof2 = prof') by congruence. subst prof2.
        apply incomplete_false. intros s Hs. specialize (Hfill s).
        rewrite (proj2 (mem_nat_in s stations) Hs) in Hfill. cbn [andb] in Hfill.
        destruct (has_data_for_station prof s) eqn:Ed; cbn [negb] in Hfill.
        -- unfold has_data_for_station in *. now rewrite Hfill.
        -- destruct Hfill as [v [_ Hv]]. unfold has_data_for_station.
           now rewrite Hv.
      * apply nth_error_None in Ep.
        assert (i < length (store_of fixed)) by (apply nth_error_Some; congruence).
        lia.
    + eexists _, (evs ++ log_of fixed). rewrite Hlog.
      split; [reflexivity|]. split; [reflexivity|]. split; [reflexivity|].
      apply Forall_app. split.
      * revert Hevs. apply Forall_impl. intros ev H. apply H.
      * revert Hflog. apply Forall_impl. intros ev [Hph _]. rewrite Hph.
        discriminate.
Qed.

(** X15.  After a run nobody is left incomplete.  Whatever the profiles held
    before and whether or not a worker is in the assignment, when
    [systematic_data_collection_ui] returns over uniquely identified
    factory workers, the factory workers are the same ids in the same
    order, every one of them has a data completeness of 100, and the
    events start with the one base event, which shows the initial
    assignment. *)
Theorem collection_run_completes_every_profile :
  forall (true_workers : list TrueWorkerProfile) (factory_workers : Store)
         (tasks : list TaskProfile) (initial_assign : Assignment)
         (st : CollectorState),
    NoDup (ids_of factory_workers) ->
    systematic_data_collection_ui true_workers factory_workers tasks initial_assign
    = Some st ->
    ids_of (store_of st) = ids_of factory_workers
    /\ (forall prof, In prof (store_of st) ->
                     get_data_completeness prof = 100%R)
    /\ exists first rest,
         log_of st = first :: rest
         /\ phase first = base /\ assignment_of first = initial_assign
         /\ Forall (fun ev => phase ev <> base) rest.
Proof.
  intros true_workers factory_workers tasks initial_assign st Hnd Hrun.
  destruct (collection_run_spec _ _ _ _ _ Hnd Hrun) as [Hids [Hall Hlog]].
  split; [exact Hids|]. split; [|exact Hlog].
  intros prof Hin. apply complete_100. now apply Hall.
Qed.

Lemma collection_run_completes_every_profile_witness :
  exists st,
    systematic_data_collection_ui example_true_workers example_store
                                  example_tasks example_assignment = Some st
    /\ forall prof, In prof (store_of st) -> get_data_completeness prof = 100%R.
Proof.
  destruct (systematic_data_collection_total example_true_workers example_store
              example_tasks example_assignment eq_refl example_tasks_ok
              example_true_workers_ok example_true_profiles)
    as [st Hst].
  - cbn. intros w [<-|[<-|[]]]; auto.
  - exists st. split; [exact Hst|].
    exact (proj1 (proj2 (collection_run_completes_every_profile
                           example_true_workers example_store example_tasks
                           example_assignment st example_ids_nodup Hst))).
Defined.

(** *** The assignment the run returns *)

Lemma position_step_assignment (true_workers : list TrueWorkerProfile)
  (tasks : list TaskProfile) (fd : list (WorkerId * nat)) (bp : list (nat * R))
  (original : Assignment) (max_workers : nat) (st st' : CollectorState) (p : nat) :
  position_step true_workers tasks fd bp original max_workers st p = Some st' ->
  current_assignment_of st' = current_assignment_of st
  \/ exists store' details,
       ids_of store' = ids_of (store_of st)
       /\ optimize_position store' (current_assignment_of st) p
          = Some (current_assignment_of st', details).
Proof.
  unfold position_step. intros H. inv_bind H.
  destruct (negb b).
  { injection H as <-. now left. }
  inv_bind H.
  destruct (map snd l) as [|w0 ws0] eqn:Ews.
  { injection H as <-. now left. }
  rewrite <- Ews in *. inv_bind H. destruct p0 as [[temp' store'] log'].
  assert (Hrel : store_rel grows_by_rotation (store_of st) store').
  { match goal with
    | Hf : foldM _ _ _ = Some _ |- _ =>
        apply (@foldM_rel _ _ (fun s s' => store_rel grows_by_rotation
                                                  (snd (fst s)) (snd (fst s'))))
          in Hf; [exact Hf | | |]
    end.
    - intros s. apply store_rel_refl. apply grows_by_rotation_refl.
    - intros a b0 c. apply store_rel_trans. apply grows_by_rotation_trans.
    - intros s x s' _. apply rotation_step_rel. }
  destruct (p <? max_workers - 1).
  - inv_bind H. destruct p0 as [optimized details]. injection H as <-.
    right. exists store', details. split; [|assumption].
    apply (store_rel_ids _ _ _ Hrel).
  - injection H as <-. now left.
Qed.

Lemma cohort_of_same_at (f g : nat -> list WorkerId) (q : nat) :
  (forall s, In s stations -> nth_error (g s) q = nth_error (f s) q) ->
  cohort_of g q = cohort_of f q.
Proof.
  intros H. unfold cohort_of. apply flat_map_ext_on. intros s Hs.
  now rewrite H.
Qed.

Section Rearranged.
Variable f : nat -> list WorkerId.
Variable ids : list WorkerId.
Hypothesis f_nodup : NoDup (flat_map f stations).
Hypothesis f_ids : forall w, In w (flat_map f stations) ->
                             w <> EmptyString /\ In w ids.

Let keeps (st : CollectorState) : Prop :=
  ids_of (store_of st) = ids
  /\ exists g,
       current_assignment_of st = mk_assignment g
       /\ (forall s, length (g s) = length (f s))
       /\ Permutation (flat_map f stations) (flat_map g stations)
       /\ forall q, Permutation (map snd (cohort_of f q)) (map snd (cohort_of g q)).

Lemma position_step_keeps (true_workers : list TrueWorkerProfile)
  (tasks : list TaskProfile) (fd : list (WorkerId * nat)) (bp : list (nat * R))
  (original : Assignment) (max_workers : nat) (st st' : CollectorState) (p : nat) :
  position_step true_workers tasks fd bp original max_workers st p = Some st' ->
  keeps st -> keeps st'.
Proof.
  intros Hstep [Hids [g [Hg [Hlen [Hall Hpos]]]]].
  assert (Hids' : ids_of (store_of st') = ids).
  { apply position_step_rel in Hstep. rewrite (store_rel_ids _ _ _ Hstep).
    exact Hids. }
  apply position_step_assignment in Hstep.
  destruct Hstep as [Hsame | [store' [details [Hs' Hopt]]]].
  - split; [exact Hids'|]. exists g. rewrite Hsame. auto.
  - rewrite Hg in Hopt.
    assert (Hin : forall w, In w (map snd (cohort_of g p)) ->
                            In w (flat_map f stations)).
    { intros w Hw. apply (Permutation_in _ (Permutation_sym (Hpos p))) in Hw.
      apply (Permutation_in _ (Permutation_sym (all_workers_split f p))).
      apply in_or_app. now left. }
    destruct (optimize_position_spec store' g p)
      as [g' [details' [Ho [H1 [H2 [_ H4]]]]]].
    { intros w Hw. rewrite Hs', Hids. now apply f_ids, Hin. }
    rewrite Ho in Hopt. injection Hopt as Ha' _.
    destruct H4 as [Hp1 Hp2].
    { apply (Permutation_NoDup (Hpos p)).
      pose proof (Permutation_NoDup (all_workers_split f p) f_nodup) as Hnd.
      now apply NoDup_app_remove_r in Hnd. }
    { intros w Hw. now apply f_ids, Hin. }
    split; [exact Hids'|]. exists g'. split; [now symmetry|].
    split; [intros s; now rewrite H1|].
    split; [now rewrite Hall|].
    intros q. destruct (Nat.eq_dec q p) as [->|Hne].
    + now rewrite (Hpos p).
    + rewrite (Hpos q). rewrite (cohort_of_same_at g g' q); [reflexivity|].
      intros s _. now apply H2.
Qed.

Lemma rotation_phase_keeps (true_workers : list TrueWorkerProfile)
  (tasks : list TaskProfile) (fd : list (WorkerId * nat)) (bp : list (nat * R))
  (original : Assignment) (max_workers : nat) (st st' : CollectorState) :
  rotation_phase true_workers tasks fd bp original max_workers st = Some st' ->
  keeps st -> keeps st'.
Proof.
  unfold rotation_phase.
  apply (@foldM_rel _ _ (fun s s' => keeps s -> keeps s')).
  - auto.
  - auto.
  - intros s x s' _. apply position_step_keeps.
Qed.

Lemma collection_run_keeps (true_workers : list TrueWorkerProfile)
  (factory_workers : Store) (tasks : list TaskProfile) (st : CollectorState) :
  ids_of factory_workers = ids ->
  NoDup ids ->
  systematic_data_collection_ui true_workers factory_workers tasks
                                (mk_assignment f) = Some st ->
  exists g,
    current_assignment_of st = mk_assignment g
    /\ (forall s, length (g s) = length (f s))
    /\ Permutation (flat_map f stations) (flat_map g stations)
    /\ forall q, Permutation (map snd (cohort_of f q)) (map snd (cohort_of g q)).
Proof.
  intros Hids Hnd Hrun. unfold systematic_data_collection_ui in Hrun.
  inv_bind Hrun. inv_bind Hrun. inv_bind Hrun. inv_bind Hrun.
  match goal with
  | H : rotation_phase _ _ _ _ _ _ _ = Some ?c |- _ =>
      rename H into Hrot; rename c into st_rot
  end.
  match goal with
  | H : record_base _ _ _ = Some ?s |- _ => rename H into Hbase; rename s into store1
  end.
  apply rotation_phase_keeps in Hrot.
  - destruct Hrot as [Hids2 Hg].
    destruct (filter incomplete (store_of st_rot)) as [|w0 ws0] eqn:Einc.
    + injection Hrun as <-. exact Hg.
    + clear w0 ws0 Einc. inv_bind Hrun. injection Hrun as <-.
      cbn [current_assignment_of].
      match goal with
      | H : collect_incomplete_worker_data_ui _ _ _ _ = Some ?c |- _ =>
          rename H into Hfix; rename c into fixed
      end.
      apply gap_filler_spec in Hfix; [|now rewrite Hids2].
      destruct Hfix as [-> _]. exact Hg.
  - split; cbn [store_of current_assignment_of].
    + rewrite factory_worker_dict_ids in Hbase.
      apply record_base_at_most in Hbase; [|reflexivity].
      rewrite (store_rel_ids _ _ _ Hbase). exact Hids.
    + exists f. split; [reflexivity|]. split; [reflexivity|].
      split; reflexivity.
Qed.

End Rearranged.

(** X16.  Workers keep their position index.  When the run returns over
    uniquely identified factory workers and a six-station assignment of
    distinct, non-empty ids that all are factory workers, the assignment
    it returns has the six stations with their sizes, and at every
    position index the same workers as the initial assignment, possibly
    at other stations: the run moves workers between stations, never
    between positions, and loses or duplicates nobody. *)
Theorem collection_run_rearranges_positions :
  forall (true_workers : list TrueWorkerProfile) (factory_workers : Store)
         (tasks : list TaskProfile) (initial_assign : Assignment)
         (st : CollectorState),
    NoDup (ids_of factory_workers) ->
    well_keyed initial_assign ->
    NoDup (all_workers_of initial_assign) ->
    (forall w, In w (all_workers_of initial_assign) ->
               w <> EmptyString /\ In w (ids_of factory_workers)) ->
    systematic_data_collection_ui true_workers factory_workers tasks initial_assign
    = Some st ->
    well_keyed (current_assignment_of st)
    /\ (forall s, length (row_of (current_assignment_of st) s)
                  = length (row_of initial_assign s))
    /\ (forall q,
          Permutation
            (map snd (cohort_of (row_of initial_assign) q))
            (map snd (cohort_of (row_of (current_assignment_of st)) q)))
    /\ Permutation (all_workers_of initial_assign)
                   (all_workers_of (current_assignment_of st)).
Proof.
  intros true_workers factory_workers tasks a st Hnd Hk Hnda Hw Hrun.
  pose proof (well_keyed_mk _ Hk) as Ha.
  set (f := row_of a) in *.
  assert (Hall : all_workers_of a = flat_map f stations).
  { rewrite Ha. apply all_workers_of_mk. }
  assert (Hrun' : systematic_data_collection_ui true_workers factory_workers tasks
                    (mk_assignment f) = Some st) by now rewrite <- Ha.
  assert (Hnd' : NoDup (flat_map f stations)) by (rewrite <- Hall; exact Hnda).
  assert (Hw' : forall w, In w (flat_map f stations) ->
                          w <> EmptyString /\ In w (ids_of factory_workers))
    by (intros w H; apply Hw; now rewrite Hall).
  destruct (collection_run_keeps f (ids_of factory_workers) Hnd' Hw'
              true_workers factory_workers tasks st eq_refl Hnd Hrun')
    as [g [Hg [Hlen [Hperm Hpos]]]].
  rewrite Hg. split; [apply mk_well_keyed|].
  assert (Hrow : forall s, In s stations -> row_of (mk_assignment g) s = g s)
    by (intros s Hs; now apply row_of_mk).
  split.
  { intros s. destruct (in_dec Nat.eq_dec s stations) as [Hs|Hs].
    - rewrite Hrow by assumption. apply Hlen.
    - unfold f. rewrite Ha. unfold row_of.
      now rewrite !station_get_mk_none by assumption. }
  split.
  { intros q. rewrite (Hpos q).
    rewrite (cohort_of_same_at g (row_of (mk_assignment g)) q); [reflexivity|].
    intros s Hs. now rewrite Hrow. }
  rewrite Hall, all_workers_of_mk. exact Hperm.
Qed.

Lemma collection_run_rearranges_positions_witness :
  exists st,
    systematic_data_collection_ui example_true_workers example_fresh_store
                                  example_tasks example_assignment = Some st
    /\ Permutation (all_workers_of example_assignment)
                   (all_workers_of (current_assignment_of st)).
Proof.
  destruct (systematic_data_collection_total example_true_workers
              example_fresh_store example_tasks example_assignment eq_refl
              example_tasks_ok example_true_workers_ok example_true_profiles
              example_known)
    as [st Hst].
  exists st. split; [exact Hst|].
  apply (collection_run_rearranges_positions
           example_true_workers example_fresh_store example_tasks
           example_assignment st example_fresh_ids_nodup eq_refl).
  - cbn. repeat constructor; cbn; intuition discriminate.
  - cbn. intros w [<-|[<-|[]]]; (split; [discriminate | auto]).
  - exact Hst.
Defined.

(** *** The base phase *)

Section BasePhase.
Variable ids : list WorkerId.
Hypothesis ids_nodup : NoDup ids.

Let row_recorded (k : nat) (row : list WorkerId)
  (prof prof' : FactoryWorkerProfile) : Prop :=
  forall s,
    observations prof' s
    = observations prof s
      ++ repeat 100%R (if s =? k
                       then count_occ string_dec row (worker_id prof) else 0).

Lemma record_base_row_spec (k : nat) (row : list WorkerId) :
  forall store store',
    ids_of store = ids ->
    foldM (fun st' wid =>
             match dict_get String.eqb wid (id_index ids) with
             | Some _ => store_record (id_index ids) st' wid k 100
             | None => Some st'
             end) row store = Some store' ->
    store_rel (row_recorded k row) store store'.
Proof.
  induction row as [|wid row IH]; intros store store' Hids H.
  - cbn in H. injection H as <-. split; [reflexivity|].
    intros i prof Hp. exists prof. split; [exact Hp|]. split; [reflexivity|].
    intros s. cbn [count_occ]. destruct (s =? k); cbn; now rewrite app_nil_r.
  - cbn [foldM] in H. inv_bind H.
    match goal with
    | Hs : _ = Some ?x, Hf : foldM _ row ?x = Some _ |- _ =>
        rename x into store1; rename Hs into Hstep
    end.
    assert (Hrel1 : store_rel (row_recorded k [wid]) store store1).
    { destruct (dict_get String.eqb wid (id_index ids)) as [j|] eqn:Ej.
      - subst ids. apply store_record_appended in Hstep; [|exact ids_nodup].
        revert Hstep. apply store_rel_impl. intros pa pb Hab s.
        specialize (Hab s). cbn [count_occ].
        unfold mem_nat in Hab. cbn [existsb] in Hab. rewrite orb_false_r in Hab.
        destruct (string_dec wid (worker_id pa)) as [E|E].
        + subst wid. rewrite String.eqb_refl in Hab. cbn [andb] in Hab.
          destruct (s =? k); [|now rewrite app_nil_r].
          destruct Hab as [v [[= <-] Hv]]. exact Hv.
        + assert (En : String.eqb (worker_id pa) wid = false).
          { apply String.eqb_neq. congruence. }
          rewrite En in Hab. cbn [andb] in Hab. rewrite Hab.
          destruct (s =? k); cbn; now rewrite app_nil_r.
      - injection Hstep as <-. split; [reflexivity|].
        intros i prof Hp. exists prof. split; [exact Hp|].
        split; [reflexivity|]. intros s. cbn [count_occ].
        destruct (string_dec wid (worker_id prof)) as [E|E].
        + exfalso.
          assert (Hin : In wid ids).
          { rewrite <- Hids, E. unfold ids_of. apply in_map.
            eapply nth_error_In; eassumption. }
          apply id_index_in in Hin. destruct Hin as [j Hj]. congruence.
        + destruct (s =? k); cbn; now rewrite app_nil_r. }
    assert (Hids1 : ids_of store1 = ids)
      by (rewrite <- Hids; apply (store_rel_ids _ _ _ Hrel1)).
    specialize (IH store1 store' Hids1 H).
    eapply store_rel_compose; [|exact Hrel1|exact IH].
    intros a b c Hid Hab Hbc s. specialize (Hab s). specialize (Hbc s).
    rewrite Hbc, Hab, Hid. rewrite <- app_assoc, <- repeat_app.
    f_equal. f_equal. cbn [count_occ].
    destruct (s =? k); [|reflexivity].
    destruct (string_dec wid (worker_id a)); lia.
Qed.

Lemma record_base_stations_spec (f : nat -> list WorkerId) (l : list nat) :
  NoDup l ->
  forall store store',
    ids_of store = ids ->
    foldM (fun st kv =>
             foldM (fun st' wid =>
                      match dict_get String.eqb wid (id_index ids) with
                      | Some _ => store_record (id_index ids) st' wid (fst kv) 100
                      | None => Some st'
                      end)
                   (snd kv) st)
          (map (fun s => (s, f s)) l) store = Some store' ->
    store_rel (fun prof prof' =>
                 forall s,
                   observations prof' s
                   = observations prof s
                     ++ repeat 100%R
                          (if mem_nat s l
                           then count_occ string_dec (f s) (worker_id prof)
                           else 0))
              store store'.
Proof.
  induction l as [|k l IH]; intros Hnd store store' Hids H.
  - cbn in H. injection H as <-. split; [reflexivity|].
    intros i prof Hp. exists prof. split; [exact Hp|]. split; [reflexivity|].
    intros s. cbn. now rewrite app_nil_r.
  - apply NoDup_cons_iff in Hnd. destruct Hnd as [Hk Hnd].
    cbn [map foldM fst snd] in H. inv_bind H.
    match goal with
    | Hs : _ = Some ?x, Hf : foldM _ (map _ l) ?x = Some _ |- _ =>
        rename x into store1; rename Hs into Hrow
    end.
    apply (record_base_row_spec k (f k) store store1 Hids) in Hrow.
    assert (Hids1 : ids_of store1 = ids)
      by (rewrite <- Hids; apply (store_rel_ids _ _ _ Hrow)).
    specialize (IH Hnd store1 store' Hids1 H).
    eapply store_rel_compose; [|exact Hrow|exact IH].
    intros a b c Hid Hab Hbc s. specialize (Hab s). specialize (Hbc s).
    rewrite Hbc, Hab, Hid. rewrite <- app_assoc, <- repeat_app.
    f_equal. f_equal. unfold mem_nat. cbn [existsb].
    destruct (s =? k) eqn:E.
    + apply Nat.eqb_eq in E. subst s. cbn [orb].
      assert (Hn : existsb (Nat.eqb k) l = false).
      { destruct (existsb (Nat.eqb k) l) eqn:Ex; [|reflexivity].
        exfalso. apply Hk. now apply mem_nat_in. }
      rewrite Hn. lia.
    + cbn [orb]. reflexivity.
Qed.

End BasePhase.

Lemma record_base_spec (store store' : Store) (a : Assignment) :
  NoDup (ids_of store) -> well_keyed a ->
  record_base (factory_worker_dict store) a store = Some store' ->
  store_rel (base_recorded a) store store'.
Proof.
  intros Hnd Hk H. pose proof (well_keyed_mk _ Hk) as Ha.
  rewrite factory_worker_dict_ids in H. unfold record_base in H.
  rewrite Ha in H. unfold mk_assignment in H.
  apply (record_base_stations_spec (ids_of store) Hnd (row_of a) stations)
    in H; [|apply seq_NoDup|reflexivity].
  revert H. apply store_rel_impl. intros pa pb Hab s. rewrite (Hab s).
  f_equal. f_equal. destruct (mem_nat s stations) eqn:E; [reflexivity|].
  assert (Hn : ~ In s stations).
  { intros Hin. apply mem_nat_in in Hin. congruence. }
  unfold row_of. rewrite Ha. now rewrite station_get_mk_none.
Qed.

(** X17.  The base phase, profile by profile.  On a six-station assignment and
    uniquely identified factory workers the base phase returns, keeps
    the workers and their order, and appends to each worker, at each
    station, one observation of 100 for each time the worker stands in
    that station's sequence, whatever the worker held there before;
    nothing else changes, and an id without a factory profile is passed
    over. *)
Theorem base_phase_records_100 :
  forall (factory_workers : Store) (initial_assign : Assignment),
    NoDup (ids_of factory_workers) ->
    well_keyed initial_assign ->
    exists store',
      record_base (factory_worker_dict factory_workers) initial_assign
                  factory_workers = Some store'
      /\ ids_of store' = ids_of factory_workers
      /\ forall i prof,
           nth_error factory_workers i = Some prof ->
           exists prof',
             nth_error store' i = Some prof'
             /\ forall s,
                  observations prof' s
                  = observations prof s
                    ++ repeat 100%R
                         (count_occ string_dec (row_of initial_assign s)
                                    (worker_id prof)).
Proof.
  intros store a Hnd Hk.
  destruct (record_base_total (ids_of store) a store eq_refl) as [store' [H Hids]].
  rewrite <- factory_worker_dict_ids in H.
  exists store'. split; [exact H|]. split; [exact Hids|].
  apply record_base_spec in H; [|assumption|assumption].
  intros i prof Hp. destruct H as [_ H].
  destruct (H i prof Hp) as [prof' [Hp' [_ Hrec]]].
  exists prof'. split; [exact Hp' | exact Hrec].
Qed.

Lemma base_phase_records_100_witness :
  exists store',
    record_base (factory_worker_dict example_store) example_assignment
                example_store = Some store'
    /\ ids_of store' = ids_of example_store.
Proof.
  destruct (base_phase_records_100 example_store example_assignment
              example_ids_nodup eq_refl) as [store' [H [Hids _]]].
  exists store'. split; [exact H | exact Hids].
Defined.

(** *** A second run *)

Lemma all_complete_needs_no_testing (store : Store) (f : nat -> list WorkerId)
  (p : nat) :
  (forall prof, In prof store -> incomplete prof = false) ->
  check_position_needs_testing store (mk_assignment f) p = Some false.
Proof.
  intros Hall. unfold check_position_needs_testing.
  destruct (needs_testing_from_spec store f p stations (incl_refl _))
    as [b [Hb Hiff]].
  rewrite Hb. f_equal. destruct b; [|reflexivity]. exfalso.
  destruct (proj1 Hiff eq_refl) as [s [w [prof [_ [_ [Hd Hi]]]]]].
  rewrite factory_worker_dict_ids in Hd.
  destruct (deref_some store w prof Hd) as [_ Hin].
  rewrite (Hall prof Hin) in Hi. discriminate.
Qed.

Lemma rotation_phase_skips (true_workers : list TrueWorkerProfile)
  (tasks : list TaskProfile) (fd : list (WorkerId * nat)) (bp : list (nat * R))
  (f : nat -> list WorkerId) (max_workers : nat) (ps : list nat) :
  forall st st',
    (forall prof, In prof (store_of st) -> incomplete prof = false) ->
    foldM (position_step true_workers tasks fd bp (mk_assignment f) max_workers)
          ps st = Some st' ->
    current_assignment_of st' = current_assignment_of st
    /\ store_of st' = store_of st
    /\ exists evs,
         log_of st' = log_of st ++ evs
         /\ map position_idx_of evs = map Some ps
         /\ Forall (fun ev => phase ev = skip
                              /\ assignment_of ev = current_assignment_of st) evs.
Proof.
  induction ps as [|p ps IH]; intros st st' Hall H.
  - cbn in H. injection H as <-. split; [reflexivity|]. split; [reflexivity|].
    exists []. split; [now rewrite app_nil_r|]. split; [reflexivity | constructor].
  - cbn [foldM] in H. unfold position_step at 1 in H.
    rewrite (all_complete_needs_no_testing _ f p Hall) in H.
    cbn [bind negb] in H.
    apply IH in H; [|exact Hall]. cbn [current_assignment_of store_of log_of] in H.
    destruct H as [H1 [H2 [evs [H3 [H4 H5]]]]].
    split; [exact H1|]. split; [exact H2|].
    eexists (_ :: evs). split; [rewrite H3, <- app_assoc; reflexivity|].
    split; [cbn [map position_idx_of]; now rewrite H4|].
    constructor; [split; reflexivity | exact H5].
Qed.

Lemma filter_all_false {A : Type} (f : A -> bool) (l : list A) :
  (forall x, In x l -> f x = false) -> filter f l = [].
Proof.
  induction l as [|x l IH]; intros H; [reflexivity|].
  cbn [filter]. rewrite (H x (or_introl eq_refl)).
  apply IH. intros y Hy. apply H. now right.
Qed.

(** X18.  A run over complete data only repeats the base phase.  When every
    factory worker already has a data completeness of 100 (a second run
    of a finished session), a run over a six-station assignment rotates
    and optimizes nothing: it returns the assignment it was given, its
    events are the base event followed by one skip event for each
    position index, and the profiles only receive the base phase's
    observation of 100, once more, at the station where the worker is
    assigned. *)
Theorem collection_rerun_only_repeats_base :
  forall (true_workers : list TrueWorkerProfile) (factory_workers : Store)
         (tasks : list TaskProfile) (initial_assign : Assignment)
         (st : CollectorState),
    NoDup (ids_of factory_workers) ->
    well_keyed initial_assign ->
    (forall prof, In prof factory_workers ->
                  get_data_completeness prof = 100%R) ->
    systematic_data_collection_ui true_workers factory_workers tasks initial_assign
    = Some st ->
    current_assignment_of st = initial_assign
    /\ (forall i prof,
          nth_error factory_workers i = Some prof ->
          exists prof',
            nth_error (store_of st) i = Some prof'
            /\ forall s,
                 observations prof' s
                 = observations prof s
                   ++ repeat 100%R
                        (count_occ string_dec (row_of initial_assign s)
                                   (worker_id prof)))
    /\ exists first rest,
         log_of st = first :: rest
         /\ phase first = base
         /\ map position_idx_of rest
            = map Some (seq 0 (max_len (row_of initial_assign)))
         /\ Forall (fun ev => phase ev = skip
                              /\ assignment_of ev = initial_assign) rest.
Proof.
  intros true_workers factory_workers tasks a st Hnd Hk Hcomplete Hrun.
  pose proof (well_keyed_mk _ Hk) as Ha.
  unfold systematic_data_collection_ui in Hrun.
  inv_bind Hrun. inv_bind Hrun. inv_bind Hrun. inv_bind Hrun.
  match goal with
  | H : rotation_phase _ _ _ _ _ _ _ = Some ?c |- _ =>
      rename H into Hrot; rename c into st_rot
  end.
  match goal with
  | H : record_base _ _ _ = Some ?s |- _ => rename H into Hbase; rename s into store1
  end.
  match goal with
  | H : max_workers_per_station _ = Some ?m |- _ => rename H into Hmax; rename m into mw
  end.
  apply record_base_spec in Hbase; [|assumption|assumption].
  assert (Hall1 : forall prof, In prof store1 -> incomplete prof = false).
  { intros prof1 Hin. apply In_nth_error in Hin. destruct Hin as [i Hi].
    destruct Hbase as [Hlen Hb].
    destruct (nth_error factory_workers i) as [prof|] eqn:Ep.
    - destruct (Hb i prof Ep) as [prof' [Hp' [_ Hrec]]].
      assert (prof' = prof1) by congruence. subst prof'.
      assert (Hc : incomplete prof = false).
      { destruct (incomplete prof) eqn:Ei; [|reflexivity].
        apply incomplete_lt in Ei.
        rewrite (Hcomplete prof (nth_error_In _ _ Ep)) in Ei. lra. }
      apply incomplete_false. intros s Hs.
      pose proof (proj1 (incomplete_false prof) Hc s Hs) as Hd.
      unfold has_data_for_station in *. rewrite (Hrec s).
      now destruct (observations prof s).
    - apply nth_error_None in Ep.
      assert (i < length store1) by (apply nth_error_Some; congruence). lia. }
  rewrite Ha in Hmax, Hrot. rewrite max_workers_per_station_mk in Hmax.
  injection Hmax as <-.
  unfold rotation_phase in Hrot.
  apply rotation_phase_skips in Hrot; [|exact Hall1].
  cbn [current_assignment_of store_of log_of] in Hrot.
  destruct Hrot as [Hcur [Hstore [evs [Hlog [Hidx Hevs]]]]].
  rewrite Hstore, (filter_all_false _ _ Hall1) in Hrun.
  injection Hrun as <-. rewrite Hcur, Hstore, Hlog, <- Ha.
  split; [reflexivity|]. split.
  - intros i prof Hp. destruct Hbase as [_ Hb].
    destruct (Hb i prof Hp) as [prof' [Hp' [_ Hrec]]]. eauto.
  - eexists _, evs. split; [reflexivity|]. split; [reflexivity|].
    split; [exact Hidx|]. rewrite <- Ha in Hevs. exact Hevs.
Qed.

Lemma collection_rerun_only_repeats_base_witness :
  exists st,
    systematic_data_collection_ui example_true_workers example_complete_store
                                  example_tasks example_assignment = Some st
    /\ current_assignment_of st = example_assignment.
Proof.
  assert (Hnd : NoDup (ids_of example_complete_store)).
  { cbn. repeat constructor; cbn; intuition discriminate. }
  destruct (systematic_data_collection_total example_true_workers
              example_complete_store example_tasks example_assignment eq_refl
              example_tasks_ok example_true_workers_ok)
    as [st Hst].
  - cbn. intros w [<-|[<-|[]]]; auto.
  - cbn. intros w [<-|[<-|[]]]; auto.
  - exists st. split; [exact Hst|].
    apply (collection_rerun_only_repeats_base
             example_true_workers example_complete_store example_tasks
             example_assignment st Hnd eq_refl).
    + intros prof [<-|[<-|[]]]; unfold get_data_completeness; cbn; lra.
    + exact Hst.
Defined.

(** ** The gap filler and missing true profiles *)

Lemma foldM_none_after {A S : Type} (P : S -> Prop) (f : S -> A -> option S)
  (l1 l2 : list A) (x : A) :
  (forall s, P s -> f s x = None) ->
  (forall s y s', In y l1 -> P s -> f s y = Some s' -> P s') ->
  forall s, P s -> foldM f (l1 ++ x :: l2) s = None.
Proof.
  intros Hx. induction l1 as [|y l1 IH]; intros Hstep s Hs.
  - cbn [app foldM]. now rewrite (Hx s Hs).
  - cbn [app foldM]. destruct (f s y) as [s'|] eqn:E; cbn [bind]; [|reflexivity].
    apply IH.
    + intros s0 y0 s0' Hin. apply Hstep. now right.
    + apply (Hstep s y s'); auto. now left.
Qed.

Lemma incomplete_same_observations (pa pb : FactoryWorkerProfile) :
  (forall s, observations pb s = observations pa s) ->
  incomplete pb = incomplete pa.
Proof.
  intros H.
  assert (Hd : forall s, has_data_for_station pb s = has_data_for_station pa s).
  { intros s. unfold has_data_for_station. now rewrite H. }
  unfold incomplete, get_data_completeness, stations_with_data.
  now rewrite (filter_ext _ _ Hd).
Qed.

(** X19.  The gap filler needs a true profile for everyone it probes.  Over
    uniquely identified factory workers, the gap filler raises as soon as
    one incomplete factory worker has no [TrueWorkerProfile], although
    the simulation passes such workers over; on a six-station assignment
    with parameters in range and a true profile for every factory worker
    it returns. *)
Theorem gap_filler_needs_true_profiles :
  forall (true_workers : list TrueWorkerProfile) (factory_workers : Store)
         (tasks : list TaskProfile) (current_assignment : Assignment),
    NoDup (ids_of factory_workers) ->
    ((exists prof,
         In prof factory_workers
         /\ (get_data_completeness prof < 100)%R
         /\ ~ In (worker_id prof) (map true_worker_id true_workers)) ->
     collect_incomplete_worker_data_ui true_workers factory_workers tasks
                                       current_assignment = None)
    /\ (well_keyed current_assignment -> tasks_ok tasks ->
        true_workers_ok true_workers ->
        (forall w, In w (ids_of factory_workers) ->
                   In w (map true_worker_id true_workers)) ->
        exists st,
          collect_incomplete_worker_data_ui true_workers factory_workers tasks
                                            current_assignment = Some st).
Proof.
  intros tws store tasks a Hnd. split.
  2:{ intros Hk Ht Hw Hall. now apply gap_filler_total. }
  intros [prof [Hin [Hlt Hno]]]. apply incomplete_lt in Hlt.
  unfold collect_incomplete_worker_data_ui.
  assert (Hinf : In prof (filter incomplete store)) by (apply filter_In; auto).
  destruct (in_split _ _ Hinf) as [l1 [l2 Hsplit]].
  rewrite Hsplit, map_app. cbn [map].
  destruct (map worker_id l1 ++ worker_id prof :: map worker_id l2)
    as [|w0 ws0] eqn:Ews.
  { destruct (map worker_id l1); discriminate. }
  rewrite <- Ews. clear Ews.
  destruct (simulate_station_performance tws tasks a) as [bp|]; cbn [bind];
    [|reflexivity].
  rewrite factory_worker_dict_ids.
  set (wid := worker_id prof).
  rewrite (foldM_none_after
             (fun st => ids_of (fst st) = ids_of store
                        /\ exists prof', In prof' (fst st)
                                         /\ worker_id prof' = wid
                                         /\ incomplete prof' = true)).
  - reflexivity.
  - intros [store0 log0] [Hids [prof' [Hin' [Hid' Hi']]]]. cbn [fst] in *.
    unfold fix_worker. cbn [fst].
    apply In_nth_error in Hin'. destruct Hin' as [i Hi].
    assert (Hnd0 : NoDup (ids_of store0)) by now rewrite Hids.
    pose proof (deref_unique store0 i prof' Hnd0 Hi) as Hd.
    rewrite Hid', Hids in Hd. rewrite Hd. cbn [bind].
    apply incomplete_true in Hi'. destruct Hi' as [sx [Hs Hns]].
    destruct (filter (fun s0 => negb (has_data_for_station prof' s0)) stations)
      as [|s0 rest] eqn:Ef.
    { exfalso. assert (Hf : In sx (filter (fun s0 =>
                                             negb (has_data_for_station prof' s0))
                                          stations)).
      { apply filter_In. split; [exact Hs|]. now rewrite Hns. }
      rewrite Ef in Hf. destruct Hf. }
    cbn [foldM]. unfold probe_step at 1.
    destruct (probe_assignment wid (locate_worker wid a) s0 a); cbn [bind];
      [|reflexivity].
    rewrite (dict_of_get_none _ _ String.eqb String.eqb_eq _ _ _ tws wid Hno).
    reflexivity.
  - intros [store0 log0] y [store1 log1] Hy [Hids [prof' [Hin' [Hid' Hi']]]] Hfix.
    cbn [fst] in *.
    assert (Hne : y <> wid).
    { intros ->. apply in_map_iff in Hy. destruct Hy as [py [Hyid Hyin]].
      assert (Hndf : NoDup (map worker_id (filter incomplete store))).
      { clear - Hnd. unfold ids_of in Hnd. induction store as [|p0 st IH].
        - constructor.
        - cbn [map] in Hnd. apply NoDup_cons_iff in Hnd. destruct Hnd as [Hn Hnd].
          cbn [filter]. destruct (incomplete p0); [|now apply IH].
          cbn [map]. constructor; [|now apply IH].
          intros Hin. apply Hn. apply in_map_iff in Hin.
          destruct Hin as [q [Hq Hqin]]. apply filter_In in Hqin.
          apply in_map_iff. exists q. tauto. }
      rewrite Hsplit, map_app in Hndf. cbn [map] in Hndf.
      apply NoDup_remove_2 in Hndf. apply Hndf. apply in_or_app. left.
      apply in_map_iff. exists py. auto. }
    rewrite <- Hids in Hfix.
    apply (fix_worker_rel (ids_of store0)) in Hfix;
      [|now rewrite Hids|reflexivity].
    split; [rewrite (store_rel_ids _ _ _ Hfix); exact Hids|].
    apply In_nth_error in Hin'. destruct Hin' as [i Hi].
    destruct Hfix as [_ Hrel]. destruct (Hrel i prof' Hi) as [prof2 [Hp2 [Hid2 Hfill]]].
    exists prof2. split; [eapply nth_error_In; eassumption|].
    split; [congruence|]. rewrite <- Hi'.
    apply incomplete_same_observations. intros sx. specialize (Hfill sx).
    assert (En : String.eqb (worker_id prof') y = false).
    { apply String.eqb_neq. congruence. }
    now rewrite En in Hfill.
  - cbn [fst]. split; [reflexivity|]. exists prof. auto.
Qed.

Lemma gap_filler_needs_true_profiles_witness :
  exists st,
    collect_incomplete_worker_data_ui example_true_workers example_store
                                      example_tasks example_assignment = Some st.
Proof.
  apply (proj2 (gap_filler_needs_true_profiles
                  example_true_workers example_store example_tasks
                  example_assignment example_ids_nodup)
           eq_refl example_tasks_ok example_true_workers_ok
           example_true_profiles).
Defined.

(** ** The solver fills the quotas greedily *)

Lemma dict_set_new_key {K V : Type} (eqb : K -> K -> bool) (k : K) (v : V)
  (d : list (K * V)) :
  (forall x y, eqb x y = true <-> x = y) ->
  ~ In k (map fst d) -> map fst (dict_set eqb k v d) = map fst d ++ [k].
Proof.
  intros Heq. induction d as [|[k0 v0] d IH]; intros Hn; [reflexivity|].
  cbn [dict_set]. destruct (eqb k k0) eqn:E.
  - apply Heq in E. subst. exfalso. apply Hn. now left.
  - cbn [map fst app]. f_equal. apply IH. intros Hin. apply Hn. now right.
Qed.

Lemma dict_of_keys {A K V : Type} (eqb : K -> K -> bool) (key : A -> K)
  (value : A -> V) (l : list A) :
  (forall x y, eqb x y = true <-> x = y) ->
  NoDup (map key l) -> map fst (dict_of eqb key value l) = map key l.
Proof.
  intros Heq. induction l as [|x l IH] using rev_ind; intros Hnd; [reflexivity|].
  rewrite (dict_of_snoc _ _ eqb).
  rewrite map_app in Hnd |- *. cbn [map] in *.
  apply NoDup_remove in Hnd. rewrite app_nil_r in Hnd. destruct Hnd as [Hnd Hx].
  rewrite dict_set_new_key; [now rewrite IH | exact Heq | now rewrite IH].
Qed.

Lemma insert_by_perm {A : Type} (before : A -> A -> bool) (x : A) (l : list A) :
  Permutation (insert_by before x l) (x :: l).
Proof.
  induction l as [|y l IH]; cbn [insert_by]; [reflexivity|].
  destruct (before x y); [reflexivity|].
  rewrite IH. apply perm_swap.
Qed.

Lemma sort_by_perm {A : Type} (before : A -> A -> bool) (l : list A) :
  Permutation (sort_by before l) l.
Proof.
  unfold sort_by. induction l as [|x l IH]; cbn [fold_right]; [reflexivity|].
  rewrite insert_by_perm. now constructor.
Qed.

Lemma insert_by_head_max {A : Type} (key : A -> R) (x : A) (l : list A) :
  (forall h rest, l = h :: rest -> forall y, In y l -> (key y <= key h)%R) ->
  forall h rest, insert_by (descending key) x l = h :: rest ->
                 forall y, In y (x :: l) -> (key y <= key h)%R.
Proof.
  destruct l as [|z l]; cbn [insert_by].
  - intros _ h rest [= <- <-] y [<-|[]]. lra.
  - intros Hmax h rest. unfold descending at 1.
    destruct (Rge_dec (key x) (key z)) as [Hge|Hlt].
    + intros [= <- <-] y [<-|Hy]; [lra|].
      specialize (Hmax z l eq_refl y Hy). lra.
    + intros [= <- <-] y [<-|Hy]; [lra|].
      now apply (Hmax z l eq_refl).
Qed.

Lemma sort_by_head_max {A : Type} (key : A -> R) (l : list A) :
  forall h rest, sort_by (descending key) l = h :: rest ->
                 forall y, In y l -> (key y <= key h)%R.
Proof.
  unfold sort_by. induction l as [|x l IH]; cbn [fold_right].
  - intros h rest H. discriminate.
  - intros h rest H y Hy.
    apply (insert_by_head_max key x (fold_right (insert_by (descending key)) [] l))
      with (rest := rest); [|exact H|].
    + intros h0 rest0 E y0 Hy0. apply (IH h0 rest0 E).
      apply (Permutation_in _ (sort_by_perm (descending key) l)). exact Hy0.
    + destruct Hy as [<-|Hy]; [now left | right].
      apply (Permutation_in _ (Permutation_sym (sort_by_perm (descending key) l))).
      exact Hy.
Qed.

Lemma greedy_choice_ext (score_at : WorkerId -> nat -> R) (pw : list WorkerId)
  (picks : list (nat * WorkerId)) :
  forall t1 t2, (forall w, In w t1 <-> In w t2) ->
                greedy_choice score_at pw t1 picks ->
                greedy_choice score_at pw t2 picks.
Proof.
  induction picks as [|[s b] picks IH]; intros t1 t2 Heq; [auto|].
  cbn [greedy_choice]. intros [H1 [H2 [H3 H4]]].
  split; [exact H1|]. split; [now rewrite <- Heq|]. split.
  - intros w Hw Hn. apply H3; [exact Hw | now rewrite Heq].
  - apply (IH (b :: t1)); [|exact H4].
    intros w. cbn [In]. now rewrite Heq.
Qed.

Lemma greedy_choice_app (score_at : WorkerId -> nat -> R) (pw : list WorkerId)
  (p1 p2 : list (nat * WorkerId)) :
  forall taken,
    greedy_choice score_at pw taken p1 ->
    greedy_choice score_at pw (rev (map snd p1) ++ taken) p2 ->
    greedy_choice score_at pw taken (p1 ++ p2).
Proof.
  induction p1 as [|[s b] p1 IH]; intros taken H1 H2; [exact H2|].
  cbn [app greedy_choice] in *. destruct H1 as [Ha [Hb [Hc Hd]]].
  split; [exact Ha|]. split; [exact Hb|]. split; [exact Hc|].
  apply IH; [exact Hd|].
  cbn [map snd rev] in H2. now rewrite <- app_assoc in H2.
Qed.

Lemma list_sum_cons (x : nat) (l : list nat) :
  list_sum (x :: l) = x + list_sum l.
Proof.
  reflexivity.
Qed.

Lemma list_sum_min_filter (q : nat -> nat) (k : nat) (l : list nat) :
  list_sum (map (fun s => Nat.min (q s) k) l)
  + length (filter (fun s => k <? q s) l)
  = list_sum (map (fun s => Nat.min (q s) (S k)) l).
Proof.
  induction l as [|s l IH]; [reflexivity|].
  cbn [map filter]. rewrite !list_sum_cons.
  destruct (k <? q s) eqn:E; cbn [length].
  - apply Nat.ltb_lt in E. lia.
  - apply Nat.ltb_ge in E. lia.
Qed.

Lemma list_sum_min_le (q : nat -> nat) (k : nat) (l : list nat) :
  list_sum (map (fun s => Nat.min (q s) k) l) <= list_sum (map q l).
Proof.
  induction l as [|s l IH]; cbn [map]; [cbn; lia|].
  rewrite !list_sum_cons. lia.
Qed.

Lemma quota_sum (n : nat) : list_sum (map (quota n) stations) = n.
Proof.
  unfold quota, stations, WSTATION. cbn [seq map].
  rewrite !list_sum_cons. change (list_sum []) with 0.
  pose proof (Nat.div_mod_eq n 6) as Hd.
  pose proof (Nat.mod_upper_bound n 6 ltac:(lia)) as Hm.
  remember (n mod 6) as r eqn:Er. remember (n / 6) as d eqn:Ed.
  destruct r as [|[|[|[|[|[|r]]]]]]; cbn [Nat.leb]; lia.
Qed.

Lemma fold_left_max_ge (l : list Z) :
  forall a, (a <= fold_left Z.max l a)%Z
            /\ forall x, In x l -> (x <= fold_left Z.max l a)%Z.
Proof.
  induction l as [|y l IH]; intros a; cbn [fold_left].
  - split; [lia | intros x []].
  - destruct (IH (Z.max a y)) as [H1 H2]. split; [lia|].
    intros x [<-|Hx]; [lia | now apply H2].
Qed.

Lemma dict_get_in {K V : Type} (eqb : K -> K -> bool) (k : K) (v : V)
  (d : list (K * V)) :
  (forall x y, eqb x y = true <-> x = y) ->
  dict_get eqb k d = Some v -> In (k, v) d.
Proof.
  intros Heq. induction d as [|[k0 v0] d IH]; cbn [dict_get]; [discriminate|].
  destruct (eqb k k0) eqn:E.
  - apply Heq in E. subst. intros [= ->]. now left.
  - intros H. right. now apply IH.
Qed.

Lemma quota_le_max (n : nat) :
  exists m, max_quota (workers_needed_per_station (Z.of_nat n)) = Some m
            /\ forall s, In s stations -> quota n s <= Z.to_nat m.
Proof.
  destruct (workers_needed_per_station (Z.of_nat n)) as [|kv rest] eqn:E.
  { discriminate. }
  cbn [max_quota]. eexists. split; [reflexivity|].
  intros s Hs. pose proof (quota_get n s Hs) as Hq. rewrite E in Hq.
  apply (dict_get_in _ _ _ _ Nat.eqb_eq) in Hq.
  destruct (fold_left_max_ge (map snd rest) (snd kv)) as [H1 H2].
  destruct Hq as [->|Hin].
  - cbn [snd] in *. lia.
  - assert (Hx : In (Z.of_nat (quota n s)) (map snd rest)).
    { apply in_map_iff. exists (s, Z.of_nat (quota n s)). auto. }
    apply H2 in Hx. lia.
Qed.

Section SolverFills.
Variable factory_workers : Store.
Hypothesis ids_nodup : NoDup (ids_of factory_workers).
Variable n : nat.

Let scores := worker_station_scores_of factory_workers.
Let ids := ids_of factory_workers.
Let needed := workers_needed_per_station (Z.of_nat n).
Let la := learned_average factory_workers.

Lemma scores_keys : map fst scores = ids.
Proof.
  unfold scores, worker_station_scores_of.
  apply dict_of_keys; [apply String.eqb_eq | exact ids_nodup].
Qed.

Lemma score_of_learned (w : WorkerId) (s : nat) :
  In w ids -> In s stations -> score_of scores w s = Some (la w s).
Proof.
  intros Hw Hs. unfold score_of.
  destruct (dict_get String.eqb w scores) as [row|] eqn:E.
  - cbn [bind]. apply (dict_of_get_some _ _ String.eqb String.eqb_eq) in E.
    destruct E as [prof [Hin [Hid <-]]]. rewrite dict_get_map_keys by assumption.
    f_equal. unfold la, learned_average. rewrite factory_worker_dict_ids.
    apply In_nth_error in Hin. destruct Hin as [i Hi].
    pose proof (deref_unique factory_workers i prof ids_nodup Hi) as Hd.
    rewrite Hid in Hd. now rewrite Hd.
  - exfalso. revert E. apply dict_get_in_keys; [apply String.eqb_eq|].
    now rewrite scores_keys.
Qed.

Lemma available_for_from (assigned : list WorkerId) (s : nat) (l : list WorkerId) :
  In s stations -> incl l ids ->
  forall acc,
  exists av,
    foldM (fun acc wid =>
             if mem_string wid assigned then Some acc
             else sc <- score_of scores wid s ;; Some (acc ++ [(wid, sc)]))
          l acc = Some av
    /\ forall w sc, In (w, sc) av
                    <-> (In (w, sc) acc
                         \/ (In w l /\ ~ In w assigned /\ sc = la w s)).
Proof.
  intros Hs. induction l as [|x l IH]; intros Hincl acc.
  - exists acc. split; [reflexivity|]. intros w sc. cbn [In]. tauto.
  - cbn [foldM].
    assert (Hl : incl l ids) by (intros y Hy; apply Hincl; now right).
    destruct (mem_string x assigned) eqn:Em.
    + cbn [bind]. destruct (IH Hl acc) as [av [Hf Hav]].
      exists av. split; [exact Hf|]. intros w sc. rewrite Hav.
      apply mem_string_in in Em. cbn [In]. split.
      * intros [H|[H1 [H2 H3]]]; auto.
      * intros [H|[[<-|H1] [H2 H3]]]; auto. contradiction.
    + apply mem_string_not_in in Em.
      rewrite (score_of_learned x s (Hincl x (or_introl eq_refl)) Hs).
      cbn [bind]. destruct (IH Hl (acc ++ [(x, la x s)])) as [av [Hf Hav]].
      exists av. split; [exact Hf|]. intros w sc. rewrite Hav.
      rewrite in_app_iff. cbn [In]. split.
      * intros [[H|[[= <- <-]|[]]]|[H1 [H2 H3]]]; auto.
      * intros [H|[[<-|H1] [H2 H3]]]; auto. subst sc. auto.
Qed.

Lemma fill_station_spec (g : nat -> list WorkerId) (assigned : list WorkerId)
  (s : nat) :
  In s stations ->
  (exists w, In w ids /\ ~ In w assigned) ->
  exists best,
    fill_station scores (mk_assignment g, assigned) s
    = Some (mk_assignment (fun s' => g s' ++ (if s' =? s then [best] else [])),
            best :: assigned)
    /\ In best ids /\ ~ In best assigned
    /\ forall w, In w ids -> ~ In w assigned -> (la w s <= la best s)%R.
Proof.
  intros Hs [w0 [Hw0 Hn0]]. unfold fill_station, available_for.
  rewrite scores_keys.
  destruct (available_for_from assigned s ids Hs (incl_refl _) [])
    as [av [Hf Hav]].
  rewrite Hf. cbn [bind].
  destruct (sort_by (descending snd) av) as [|[best sc] rest] eqn:Esort.
  - exfalso.
    assert (Hin : In (w0, la w0 s) av) by (apply Hav; right; auto).
    apply (Permutation_in _ (Permutation_sym (sort_by_perm (descending snd) av)))
      in Hin.
    rewrite Esort in Hin. destruct Hin.
  - assert (Hb : In (best, sc) av).
    { apply (Permutation_in _ (sort_by_perm (descending snd) av)).
      rewrite Esort. now left. }
    apply Hav in Hb. destruct Hb as [[]|[Hb1 [Hb2 Hb3]]].
    rewrite station_append_mk by assumption. cbn [bind].
    exists best. split; [reflexivity|]. split; [exact Hb1|]. split; [exact Hb2|].
    intros w Hw Hn.
    assert (Hin : In (w, la w s) av) by (apply Hav; right; auto).
    pose proof (sort_by_head_max snd av _ _ Esort _ Hin) as Hmax.
    cbn [snd] in Hmax. now subst sc.
Qed.

Lemma free_worker (assigned : list WorkerId) :
  NoDup assigned -> incl assigned ids -> length assigned < length ids ->
  exists w, In w ids /\ ~ In w assigned.
Proof.
  intros Hnd Hincl Hlen.
  destruct (forallb (fun w => mem_string w assigned) ids) eqn:E.
  - exfalso. rewrite forallb_forall in E.
    assert (Hall : incl ids assigned).
    { intros w Hw. apply mem_string_in. now apply E. }
    pose proof (NoDup_incl_length ids_nodup Hall) as Hle. fold ids in Hle. lia.
  - assert (Hex : existsb (fun w => negb (mem_string w assigned)) ids = true).
    { revert E. generalize ids as l.
      induction l as [|w l IHl]; cbn; [discriminate|].
      destruct (mem_string w assigned); cbn; auto. }
    apply existsb_exists in Hex. destruct Hex as [w [Hw Hn]].
    exists w. split; [exact Hw|]. apply mem_string_not_in.
    now destruct (mem_string w assigned).
Qed.

Lemma fill_fold (sts : list nat) :
  forall (g : nat -> list WorkerId) (assigned : list WorkerId),
    NoDup sts -> incl sts stations ->
    NoDup assigned -> incl assigned ids ->
    length assigned + length sts <= length ids ->
    exists g' assigned' picks,
      foldM (fill_station scores) sts (mk_assignment g, assigned)
      = Some (mk_assignment g', assigned')
      /\ map fst picks = sts
      /\ assigned' = rev (map snd picks) ++ assigned
      /\ (forall s, g' s = g s ++ map snd (filter (fun p => fst p =? s) picks))
      /\ greedy_choice la ids assigned picks
      /\ NoDup assigned' /\ incl assigned' ids.
Proof.
  induction sts as [|s sts IH]; intros g assigned Hnds Hincl Hnda Hia Hlen.
  - exists g, assigned, []. cbn [foldM map rev app filter].
    split; [reflexivity|]. split; [reflexivity|]. split; [reflexivity|].
    split; [intros s; now rewrite app_nil_r|]. split; [exact I|]. auto.
  - apply NoDup_cons_iff in Hnds. destruct Hnds as [Hsn Hnds].
    assert (Hs : In s stations) by (apply Hincl; now left).
    destruct (fill_station_spec g assigned s Hs) as [best [Hstep [Hb1 [Hb2 Hmax]]]].
    { apply free_worker; auto. cbn [length] in Hlen. lia. }
    cbn [foldM]. rewrite Hstep. cbn [bind].
    destruct (IH (fun s' => g s' ++ (if s' =? s then [best] else []))
                 (best :: assigned))
      as [g' [assigned' [picks [Hf [Hm [Ha [Hg [Hgr [Hnd' Hi']]]]]]]]].
    { exact Hnds. }
    { intros x Hx. apply Hincl. now right. }
    { now constructor. }
    { intros x [<-|Hx]; auto. }
    { cbn [length] in *. lia. }
    exists g', assigned', ((s, best) :: picks).
    split; [exact Hf|]. split; [cbn [map fst]; now rewrite Hm|].
    split; [cbn [map snd rev]; rewrite <- app_assoc; exact Ha|].
    split.
    { intros x. rewrite Hg. cbn [filter fst].
      destruct (x =? s) eqn:E.
      - apply Nat.eqb_eq in E. subst x. rewrite Nat.eqb_refl.
        cbn [map snd]. now rewrite <- app_assoc.
      - rewrite Nat.eqb_sym, E. now rewrite app_nil_r. }
    split; [|auto].
    cbn [greedy_choice]. auto.
Qed.

Lemma needing_from (g : nat -> list WorkerId) (totals : list (nat * R))
  (l : list nat) :
  incl l stations ->
  (forall s, In s l -> dict_get Nat.eqb s totals <> None) ->
  forall acc,
  exists res,
    foldM (fun acc station =>
             row <- station_get station (mk_assignment g) ;;
             quota_z <- dict_get Nat.eqb station needed ;;
             if (Z.of_nat (length row) <? quota_z)%Z
             then total <- dict_get Nat.eqb station totals ;;
                  Some (acc ++ [(station, total)])
             else Some acc)
          l acc = Some res
    /\ map fst res
       = map fst acc ++ filter (fun s => length (g s) <? quota n s) l.
Proof.
  intros Hincl Htot. induction l as [|s l IH]; intros acc.
  - exists acc. split; [reflexivity|]. cbn. now rewrite app_nil_r.
  - assert (Hs : In s stations) by (apply Hincl; now left).
    cbn [foldM filter]. rewrite station_get_mk by assumption. cbn [bind].
    unfold needed. rewrite quota_get by assumption. cbn [bind].
    assert (Hb : (Z.of_nat (length (g s)) <? Z.of_nat (quota n s))%Z
                 = (length (g s) <? quota n s)).
    { destruct (length (g s) <? quota n s) eqn:E.
      - apply Nat.ltb_lt in E. apply Z.ltb_lt. lia.
      - apply Nat.ltb_ge in E. apply Z.ltb_ge. lia. }
    rewrite Hb.
    assert (Hl : incl l stations) by (intros y Hy; apply Hincl; now right).
    assert (Ht : forall x, In x l -> dict_get Nat.eqb x totals <> None)
      by (intros y Hy; apply Htot; now right).
    destruct (length (g s) <? quota n s).
    + destruct (dict_get Nat.eqb s totals) as [t|] eqn:Et;
        [|exfalso; revert Et; apply Htot; now left].
      cbn [bind]. destruct (IH Hl Ht (acc ++ [(s, t)])) as [res [Hf Hres]].
      exists res. split; [exact Hf|]. rewrite Hres, map_app. cbn [map fst].
      now rewrite <- app_assoc.
    + apply (IH Hl Ht).
Qed.

Lemma stations_needing_spec (g : nat -> list WorkerId) :
  (forall s w, In s stations -> In w (g s) -> In w ids) ->
  exists needing,
    stations_needing_worker scores needed (mk_assignment g) = Some needing
    /\ map fst needing = filter (fun s => length (g s) <? quota n s) stations.
Proof.
  intros Hg. unfold stations_needing_worker.
  destruct (station_totals_total factory_workers g stations) with (acc := @nil (nat * R))
    as [totals [Ht Hk]].
  { intros s w Hs Hw. fold scores. rewrite scores_keys. now apply (Hg s). }
  { apply incl_refl. }
  fold scores in Ht. rewrite Ht. cbn [bind].
  destruct (needing_from g totals stations (incl_refl _)) with (acc := @nil (nat * R))
    as [res [Hf Hres]].
  { intros s Hs. apply Hk. now left. }
  exists res. split; [exact Hf | exact Hres].
Qed.

Let keeps (k : nat) (g : nat -> list WorkerId) (assigned : list WorkerId) : Prop :=
  (forall s, In s stations -> length (g s) = Nat.min (quota n s) k)
  /\ Permutation assigned (flat_map g stations)
  /\ NoDup assigned /\ incl assigned ids.

Lemma length_flat_map_stations (g : nat -> list WorkerId) :
  length (flat_map g stations) = list_sum (map (fun s => length (g s)) stations).
Proof.
  generalize stations as l. induction l as [|s l IH]; [reflexivity|].
  cbn [flat_map map]. rewrite length_app, list_sum_cons. now rewrite IH.
Qed.

Lemma flat_map_picks (g : nat -> list WorkerId) (picks : list (nat * WorkerId)) :
  NoDup (map fst picks) -> incl (map fst picks) stations ->
  Permutation
    (flat_map (fun s => g s ++ map snd (filter (fun p => fst p =? s) picks))
              stations)
    (map snd picks ++ flat_map g stations).
Proof.
  intros Hnd Hincl.
  rewrite (flat_map_app_perm g
             (fun s => map snd (filter (fun p => fst p =? s) picks)) stations).
  rewrite Permutation_app_comm. apply Permutation_app_tail.
  clear g. revert Hnd Hincl. induction picks as [|[s b] picks IH]; intros Hnd Hincl.
  - cbn [filter map]. generalize stations as l.
    induction l as [|x l IHl]; [reflexivity | exact IHl].
  - cbn [map fst] in Hnd, Hincl. apply NoDup_cons_iff in Hnd.
    destruct Hnd as [Hs Hnd].
    assert (Hin : In s stations) by (apply Hincl; now left).
    assert (Hincl' : incl (map fst picks) stations)
      by (intros x Hx; apply Hincl; now right).
    specialize (IH Hnd Hincl'). cbn [map snd]. rewrite <- IH.
    cbn [filter fst].
    assert (Hgen : forall l, NoDup l -> In s l ->
              Permutation
                (flat_map (fun s0 => map snd
                             (if s =? s0
                              then (s, b) :: filter (fun p => fst p =? s0) picks
                              else filter (fun p => fst p =? s0) picks)) l)
                (b :: flat_map (fun s0 => map snd
                                  (filter (fun p => fst p =? s0) picks)) l)).
    { induction l as [|x l IHl]; intros Hndl Hinl; [destruct Hinl|].
      apply NoDup_cons_iff in Hndl. destruct Hndl as [Hx Hndl].
      cbn [flat_map]. destruct (s =? x) eqn:E.
      - apply Nat.eqb_eq in E. subst x. cbn [map snd app]. constructor.
        apply Permutation_app_head.
        rewrite flat_map_ext_on
          with (g := fun s0 => map snd (filter (fun p => fst p =? s0) picks));
          [reflexivity|].
        intros y Hy. destruct (s =? y) eqn:Ey; [|reflexivity].
        apply Nat.eqb_eq in Ey. subst y. contradiction.
      - destruct Hinl as [->|Hinl]; [now rewrite Nat.eqb_refl in E|].
        rewrite (IHl Hndl Hinl). now rewrite Permutation_middle. }
    apply Hgen; [apply seq_NoDup | exact Hin].
Qed.

Lemma filter_fst_count (picks : list (nat * WorkerId)) (s : nat) :
  NoDup (map fst picks) ->
  length (filter (fun p => fst p =? s) picks)
  = if in_dec Nat.eq_dec s (map fst picks) then 1 else 0.
Proof.
  induction picks as [|[x b] picks IH]; intros Hnd; [reflexivity|].
  cbn [map fst] in Hnd. apply NoDup_cons_iff in Hnd. destruct Hnd as [Hx Hnd].
  cbn [filter fst]. specialize (IH Hnd).
  destruct (x =? s) eqn:E.
  - apply Nat.eqb_eq in E. subst x. cbn [length]. rewrite IH.
    destruct (in_dec Nat.eq_dec s (map fst picks)) as [Hin|Hout]; [contradiction|].
    destruct (in_dec Nat.eq_dec s (map fst ((s, b) :: picks))) as [_|Hn];
      [reflexivity|]. exfalso. apply Hn. now left.
  - rewrite IH. apply Nat.eqb_neq in E.
    destruct (in_dec Nat.eq_dec s (map fst picks)) as [Hin|Hout];
      destruct (in_dec Nat.eq_dec s (map fst ((x, b) :: picks))) as [Hin'|Hout'];
      try reflexivity.
    + exfalso. apply Hout'. now right.
    + exfalso. destruct Hin' as [H|H]; [cbn in H; congruence | contradiction].
Qed.

Lemma fill_round_spec (k p : nat) (g : nat -> list WorkerId)
  (assigned : list WorkerId) :
  n <= length ids ->
  keeps k g assigned ->
  exists g' assigned' picks,
    fill_round scores needed (mk_assignment g, assigned) p
    = Some (mk_assignment g', assigned')
    /\ keeps (S k) g' assigned'
    /\ greedy_choice la ids assigned picks
    /\ assigned' = rev (map snd picks) ++ assigned
    /\ (forall s, g' s = g s ++ map snd (filter (fun p => fst p =? s) picks))
    /\ incl (map fst picks) stations.
Proof.
  intros Hn [Hlen [Hperm [Hnd Hincl]]].
  assert (Hg : forall s w, In s stations -> In w (g s) -> In w ids).
  { intros s w Hs Hw. apply Hincl.
    apply (Permutation_in _ (Permutation_sym Hperm)).
    apply in_flat_map. eauto. }
  unfold fill_round. cbn [fst].
  destruct (stations_needing_spec g Hg) as [needing [Hneed Hkeys]].
  rewrite Hneed. cbn [bind].
  set (sts := map fst (sort_by (ascending snd) needing)).
  set (F := filter (fun s => length (g s) <? quota n s) stations) in *.
  assert (HpF : Permutation sts F).
  { unfold sts. rewrite <- Hkeys. apply Permutation_map. apply sort_by_perm. }
  assert (HndF : NoDup F) by (apply NoDup_filter, seq_NoDup).
  assert (Hnds : NoDup sts)
    by (apply (Permutation_NoDup (Permutation_sym HpF)); exact HndF).
  assert (Hinsts : forall s, In s sts <-> In s stations /\ k < quota n s).
  { intros s. split.
    - intros Hs. apply (Permutation_in _ HpF) in Hs. unfold F in Hs.
      apply filter_In in Hs. destruct Hs as [Hs Hlt]. split; [exact Hs|].
      apply Nat.ltb_lt in Hlt. rewrite (Hlen s Hs) in Hlt. lia.
    - intros [Hs Hlt]. apply (Permutation_in _ (Permutation_sym HpF)).
      unfold F. apply filter_In. split; [exact Hs|].
      apply Nat.ltb_lt. rewrite (Hlen s Hs). lia. }
  assert (Hcount : length assigned + length sts <= length ids).
  { rewrite (Permutation_length Hperm), length_flat_map_stations.
    rewrite (Permutation_length HpF). unfold F.
    rewrite (map_ext_in _ (fun s => Nat.min (quota n s) k))
      by (intros s Hs; now apply Hlen).
    rewrite (filter_ext_in _ (fun s => k <? quota n s)).
    2:{ intros s Hs. rewrite (Hlen s Hs).
        destruct (k <? quota n s) eqn:E.
        - apply Nat.ltb_lt in E. apply Nat.ltb_lt. lia.
        - apply Nat.ltb_ge in E. apply Nat.ltb_ge. lia. }
    rewrite list_sum_min_filter.
    pose proof (list_sum_min_le (quota n) (S k) stations) as Hle.
    rewrite quota_sum in Hle. lia. }
  destruct (fill_fold sts g assigned Hnds) as
    [g' [assigned' [picks [Hf [Hm [Ha [Hrows [Hgr [Hnd' Hi']]]]]]]]]; auto.
  { intros s Hs. now apply Hinsts in Hs. }
  exists g', assigned', picks. split; [exact Hf|].
  assert (Hpk : incl (map fst picks) stations).
  { rewrite Hm. intros s Hs. now apply Hinsts in Hs. }
  split; [|auto].
  split; [|split; [|auto]].
  - intros s Hs. rewrite Hrows, length_app, length_map.
    rewrite filter_fst_count by now rewrite Hm.
    rewrite Hm, (Hlen s Hs).
    destruct (in_dec Nat.eq_dec s sts) as [Hin|Hout].
    + apply Hinsts in Hin. lia.
    + assert (~ k < quota n s) by (intros H; apply Hout, Hinsts; auto). lia.
  - rewrite Ha.
    rewrite (flat_map_ext_on g'
               (fun s => g s ++ map snd (filter (fun p => fst p =? s) picks)))
      by (intros s _; apply Hrows).
    rewrite flat_map_picks; [|now rewrite Hm|exact Hpk].
    apply Permutation_app; [symmetry; apply Permutation_rev | exact Hperm].
Qed.

Lemma rounds_fold (r : nat) :
  forall (k : nat) (g : nat -> list WorkerId) (assigned : list WorkerId),
    n <= length ids ->
    keeps k g assigned ->
    exists g' assigned' picks,
      foldM (fill_round scores needed) (seq k r) (mk_assignment g, assigned)
      = Some (mk_assignment g', assigned')
      /\ keeps (k + r) g' assigned'
      /\ greedy_choice la ids assigned picks
      /\ (forall s, g' s = g s ++ map snd (filter (fun p => fst p =? s) picks)).
Proof.
  induction r as [|r IH]; intros k g assigned Hn Hk.
  - exists g, assigned, []. cbn [seq foldM filter map].
    split; [reflexivity|]. rewrite Nat.add_0_r. split; [exact Hk|].
    split; [exact I|]. intros s. now rewrite app_nil_r.
  - cbn [seq foldM].
    destruct (fill_round_spec k k g assigned Hn Hk)
      as [g1 [a1 [p1 [Hstep [Hk1 [Hgr1 [Ha1 [Hrows1 _]]]]]]]].
    rewrite Hstep. cbn [bind].
    destruct (IH (S k) g1 a1 Hn Hk1) as [g2 [a2 [p2 [Hf [Hk2 [Hgr2 Hrows2]]]]]].
    exists g2, a2, (p1 ++ p2). split; [exact Hf|].
    split; [now replace (k + S r) with (S k + r) by lia|].
    split.
    + apply greedy_choice_app; [exact Hgr1|]. now rewrite <- Ha1.
    + intros s. rewrite Hrows2, Hrows1, filter_app, map_app.
      now rewrite <- app_assoc.
Qed.

Lemma find_optimal_assignment_spec (assignment_arg : Assignment) :
  n <= length ids ->
  exists g results picks,
    find_optimal_assignment factory_workers (Z.of_nat n) assignment_arg
    = Some (mk_assignment g, results)
    /\ assignment results = mk_assignment g
    /\ (forall s, In s stations -> length (g s) = quota n s)
    /\ NoDup (flat_map g stations)
    /\ incl (flat_map g stations) ids
    /\ greedy_choice la ids [] picks
    /\ forall s, g s = map snd (filter (fun p => fst p =? s) picks).
Proof.
  intros Hn.
  destruct (find_optimal_assignment_total factory_workers (Z.of_nat n)
              assignment_arg) as [[a results] Hres].
  pose proof Hres as Hrun. unfold find_optimal_assignment in Hrun.
  destruct (quota_le_max n) as [m [Hmax Hq]].
  rewrite Hmax in Hrun. cbn [bind] in Hrun.
  destruct (rounds_fold (Z.to_nat m) 0 (fun _ => []) [] Hn)
    as [g [assigned [picks [Hf [Hk [Hgr Hrows]]]]]].
  { split; [intros s _; cbn; lia|]. split.
    - cbn. constructor.
    - split; [constructor | intros x []]. }
  change empty_assignment with (mk_assignment (fun _ => [])) in Hrun.
  fold scores needed in Hrun. rewrite Hf in Hrun. cbn [bind] in Hrun.
  inv_bind Hrun.
  match goal with
  | H : foldM _ _ _ = Some ?p |- _ => is_var p; destruct p as [[tot cnt] det]
  end.
  inv_bind Hrun. injection Hrun as <- <-.
  destruct Hk as [Hlen [Hperm [Hnd Hincl]]].
  exists g. eexists. exists picks. split; [exact Hres|]. split; [reflexivity|].
  split.
  { intros s Hs. rewrite (Hlen s Hs). specialize (Hq s Hs). cbn [Nat.add]. lia. }
  split; [apply (Permutation_NoDup Hperm Hnd)|].
  split.
  { intros w Hw. apply Hincl. apply (Permutation_in _ (Permutation_sym Hperm) Hw). }
  split; [exact Hgr|]. intros s. now rewrite Hrows.
Qed.

End SolverFills.

(** X20.  Everybody gets a place.  Over uniquely identified factory workers and
    a head count that does not exceed their number, the solver returns a
    six-station assignment in which every station holds exactly its quota
    (N div 6, plus one for the first N mod 6 stations), nobody stands
    twice, everybody placed is a factory worker and N workers are placed
    in all; when N is the number of factory workers, as in the window's
    call, the assignment holds every factory worker exactly once.  The
    report's assignment is the returned one. *)
Theorem find_optimal_assignment_fills_quotas :
  forall (factory_workers : Store) (n : nat) (assignment_arg : Assignment),
    NoDup (ids_of factory_workers) ->
    n <= length factory_workers ->
    exists optimal_assignment results,
      find_optimal_assignment factory_workers (Z.of_nat n) assignment_arg
      = Some (optimal_assignment, results)
      /\ assignment results = optimal_assignment
      /\ well_keyed optimal_assignment
      /\ (forall station,
            In station stations ->
            dict_get Nat.eqb station (workers_needed_per_station (Z.of_nat n))
            = Some (Z.of_nat (length (row_of optimal_assignment station))))
      /\ NoDup (all_workers_of optimal_assignment)
      /\ incl (all_workers_of optimal_assignment) (ids_of factory_workers)
      /\ total_workers optimal_assignment = n
      /\ (n = length factory_workers ->
          Permutation (all_workers_of optimal_assignment)
                      (ids_of factory_workers)).
Proof.
  intros fw n arg Hnd Hn.
  assert (Hlen : length (ids_of fw) = length fw) by apply length_map.
  destruct (find_optimal_assignment_spec fw Hnd n arg)
    as [g [results [picks [Hrun [Hres [Hq [Hndg [Hincl _]]]]]]]]; [lia|].
  exists (mk_assignment g), results. split; [exact Hrun|]. split; [exact Hres|].
  split; [apply mk_well_keyed|]. rewrite all_workers_of_mk.
  assert (Htotal : length (flat_map g stations) = n).
  { rewrite length_flat_map_stations.
    rewrite (map_ext_in _ (quota n)) by (intros s Hs; now apply Hq).
    apply quota_sum. }
  split.
  { intros s Hs. rewrite quota_get, row_of_mk by assumption.
    now rewrite (Hq s Hs). }
  split; [exact Hndg|]. split; [exact Hincl|].
  split; [unfold total_workers; now rewrite all_workers_of_mk|].
  intros ->. apply NoDup_Permutation_bis; [exact Hndg | lia | exact Hincl].
Qed.

Lemma find_optimal_assignment_fills_quotas_witness :
  exists optimal_assignment results,
    find_optimal_assignment example_store 2 example_assignment
    = Some (optimal_assignment, results)
    /\ Permutation (all_workers_of optimal_assignment) (ids_of example_store).
Proof.
  destruct (find_optimal_assignment_fills_quotas example_store 2
              example_assignment example_ids_nodup (le_n 2))
    as [a [results [H [_ [_ [_ [_ [_ [_ Hperm]]]]]]]]].
  exists a, results. split; [exact H | exact (Hperm eq_refl)].
Defined.

(** X21.  The solver is greedy.  Under the same conditions the solver's
    assignment is built from a sequence of picks, a station and a worker
    each, such that every pick takes, among the factory workers no
    earlier pick holds, one with the highest learned average for the
    pick's station; each station's sequence is the workers picked for it,
    in the order of the picks. *)
Theorem find_optimal_assignment_is_greedy :
  forall (factory_workers : Store) (n : nat) (assignment_arg : Assignment),
    NoDup (ids_of factory_workers) ->
    n <= length factory_workers ->
    exists optimal_assignment results picks,
      find_optimal_assignment factory_workers (Z.of_nat n) assignment_arg
      = Some (optimal_assignment, results)
      /\ greedy_choice (learned_average factory_workers)
                       (ids_of factory_workers) [] picks
      /\ forall station,
           In station stations ->
           row_of optimal_assignment station
           = map snd (filter (fun p => fst p =? station) picks).
Proof.
  intros fw n arg Hnd Hn.
  assert (Hlen : length (ids_of fw) = length fw) by apply length_map.
  destruct (find_optimal_assignment_spec fw Hnd n arg)
    as [g [results [picks [Hrun [_ [_ [_ [_ [Hgr Hrows]]]]]]]]]; [lia|].
  exists (mk_assignment g), results, picks. split; [exact Hrun|].
  split; [exact Hgr|]. intros s Hs. rewrite row_of_mk by assumption.
  apply Hrows.
Qed.

Lemma find_optimal_assignment_is_greedy_witness :
  exists optimal_assignment results picks,
    find_optimal_assignment example_store 2 example_assignment
    = Some (optimal_assignment, results)
    /\ greedy_choice (learned_average example_store) (ids_of example_store)
                     [] picks.
Proof.
  destruct (find_optimal_assignment_is_greedy example_store 2
              example_assignment example_ids_nodup (le_n 2))
    as [a [results [picks [H [Hgr _]]]]].
  exists a, results, picks. split; [exact H | exact Hgr].
Defined.

Lemma score_total_empty (scores : ScoreTable) (s : nat) :
  score_total scores s [] = Some 0%R.
Proof.
  reflexivity.
Qed.

(** X22.  Nobody to place.  For a head count of zero or less the solver makes
    no round: it returns the six empty stations, a total and an average
    performance of 0 (the division is guarded) and empty leaderboards,
    whatever the factory workers are. *)
Theorem find_optimal_assignment_without_workers :
  forall (factory_workers : Store) (num_workers : Z) (assignment_arg : Assignment),
    (num_workers <= 0)%Z ->
    exists results,
      find_optimal_assignment factory_workers num_workers assignment_arg
      = Some (empty_assignment, results)
      /\ assignment results = empty_assignment
      /\ total_performance results = 0%R
      /\ average_performance results = 0%R
      /\ best_workers results = []
      /\ worst_workers results = [].
Proof.
  intros fw z arg Hz. unfold find_optimal_assignment.
  assert (Hm : exists m, max_quota (workers_needed_per_station z) = Some m
                         /\ Z.to_nat m = 0).
  { unfold workers_needed_per_station, stations, WSTATION.
    cbn [seq map max_quota snd fold_left]. eexists. split; [reflexivity|].
    change (Z.of_nat 6) with 6%Z.
    assert (Hd : (z / 6 <= 0)%Z) by (apply Z.div_le_upper_bound; lia).
    assert (Hb : forall k, (1 <= k)%Z ->
              ((z / 6 + (if (k <=? z mod 6)%Z then 1 else 0)) <= 0)%Z).
    { intros k Hk. pose proof (Z.mod_pos_bound z 6 ltac:(lia)) as Hr.
      pose proof (Z.div_mod z 6 ltac:(lia)) as Hdm.
      destruct (k <=? z mod 6)%Z eqn:E; [|lia].
      apply Z.leb_le in E. lia. }
    pose proof (Hb (Z.of_nat 1) ltac:(lia)) as B1.
    pose proof (Hb (Z.of_nat 2) ltac:(lia)) as B2.
    pose proof (Hb (Z.of_nat 3) ltac:(lia)) as B3.
    pose proof (Hb (Z.of_nat 4) ltac:(lia)) as B4.
    pose proof (Hb (Z.of_nat 5) ltac:(lia)) as B5.
    pose proof (Hb 6%Z ltac:(lia)) as B6.
    lia. }
  destruct Hm as [m [-> Hm0]]. cbn [bind]. rewrite Hm0. cbn [bind seq foldM].
  unfold empty_assignment, stations, WSTATION.
  cbn [seq map foldM fst snd bind score_total length Nat.add].
  eexists. split; [reflexivity|]. cbn [assignment total_performance
    average_performance best_workers worst_workers Nat.ltb Nat.leb sort_by
    fold_right firstn skipn length Nat.sub].
  split; [reflexivity|]. split; [lra|]. split; [reflexivity|].
  split; reflexivity.
Qed.

Lemma find_optimal_assignment_without_workers_witness :
  exists results,
    find_optimal_assignment example_complete_store 0 empty_assignment
    = Some (empty_assignment, results)
    /\ assignment results = empty_assignment
    /\ total_performance results = 0%R
    /\ average_performance results = 0%R
    /\ best_workers results = []
    /\ worst_workers results = [].
Proof.
  apply (find_optimal_assignment_without_workers example_complete_store 0
           empty_assignment).
  lia.
Defined.

(** ** The scheduler window *)

Lemma quota_succ (n s : nat) :
  In s stations ->
  quota (S n) s = quota n s + (if s =? n mod WSTATION + 1 then 1 else 0).
Proof.
  intros Hs. apply in_stations in Hs. unfold quota, WSTATION.
  pose proof (Nat.div_mod_eq n 6) as Hd.
  pose proof (Nat.mod_upper_bound n 6 ltac:(lia)) as Hm.
  destruct (Nat.eq_dec (n mod 6) 5) as [E|E].
  - assert (H1 : S n = 6 * (n / 6 + 1) + 0) by lia.
    assert (Hq : S n / 6 = n / 6 + 1).
    { symmetry. apply (Nat.div_unique (S n) 6 (n / 6 + 1) 0); lia. }
    assert (Hr : S n mod 6 = 0).
    { symmetry. apply (Nat.mod_unique (S n) 6 (n / 6 + 1) 0); lia. }
    rewrite Hq, Hr, E.
    destruct (Nat.leb_spec s 0); [lia|].
    destruct (Nat.leb_spec s 5); destruct (Nat.eqb_spec s (5 + 1)); lia.
  - assert (H1 : S n = 6 * (n / 6) + (n mod 6 + 1)) by lia.
    assert (Hq : S n / 6 = n / 6).
    { symmetry. apply (Nat.div_unique (S n) 6 (n / 6) (n mod 6 + 1)); lia. }
    assert (Hr : S n mod 6 = n mod 6 + 1).
    { symmetry. apply (Nat.mod_unique (S n) 6 (n / 6) (n mod 6 + 1)); lia. }
    rewrite Hq, Hr.
    destruct (Nat.leb_spec s (n mod 6 + 1)); destruct (Nat.leb_spec s (n mod 6));
      destruct (Nat.eqb_spec s (n mod 6 + 1)); lia.
Qed.

Lemma sel_snoc (ws : list WorkerId) (x : WorkerId) (s : nat) :
  forall k,
    sel k s (ws ++ [x])
    = sel k s ws ++ (if (k + length ws) mod WSTATION + 1 =? s then [x] else []).
Proof.
  induction ws as [|w ws IH]; intros k.
  - cbn [app sel length]. rewrite Nat.add_0_r.
    destruct (k mod WSTATION + 1 =? s); reflexivity.
  - cbn [app sel length]. rewrite IH.
    replace (S k + length ws) with (k + S (length ws)) by lia.
    destruct (k mod WSTATION + 1 =? s); reflexivity.
Qed.

Lemma filter_permutation {A : Type} (f : A -> bool) (l l' : list A) :
  Permutation l l' -> Permutation (filter f l) (filter f l').
Proof.
  induction 1 as [|x l l' _ IH|x y l|l l' l'' _ IH1 _ IH2].
  - reflexivity.
  - cbn [filter]. destruct (f x); [now constructor | exact IH].
  - cbn [filter]. destruct (f x), (f y); try reflexivity. apply perm_swap.
  - now rewrite IH1.
Qed.

Lemma filter_map_comm {A B : Type} (h : A -> B) (f : B -> bool) (l : list A) :
  map h (filter (fun x => f (h x)) l) = filter f (map h l).
Proof.
  induction l as [|x l IH]; [reflexivity|].
  cbn [filter map]. destruct (f (h x)); cbn [map]; now rewrite IH.
Qed.

Lemma flat_map_singleton_station (s : nat) (x : WorkerId) :
  In s stations ->
  flat_map (fun s' => if s' =? s then [x] else []) stations = [x].
Proof.
  intros Hs. apply in_stations in Hs.
  destruct s as [|[|[|[|[|[|[|s]]]]]]]; try lia; reflexivity.
Qed.

Section Window.
Import FactorySchedulerUI.

(** X23.  Hiring one by one is the sequential placement.  When the window's
    assignment is the sequential placement of the hired ids in hiring
    order, as it is in a fresh window, it is so again after
    [hire_worker]. *)
Theorem hire_worker_places_sequentially :
  forall (ui : UI) (w : World) (ui' : UI) (w' : World),
    create_initial_assignment_sequential (hired ui) = Some (assignment ui) ->
    hire_worker ui w = Some (ui', w') ->
    create_initial_assignment_sequential (hired ui') = Some (assignment ui')
    /\ hired ui' = hired ui ++ [format_04d (worker_id_counter w)]
    /\ ids_of (factory_workers ui')
       = ids_of (factory_workers ui) ++ [format_04d (worker_id_counter w)].
Proof.
  intros ui w ui' w' Hseq Hhire. unfold hire_worker in Hhire.
  destruct (generate_true_worker w) as [tw w1] eqn:Eg.
  assert (Hid : true_worker_id tw = format_04d (worker_id_counter w)).
  { apply (f_equal fst) in Eg. cbn [fst] in Eg. rewrite <- Eg. reflexivity. }
  inv_bind Hhire. injection Hhire as <- <-.
  unfold hired in *. cbn [true_workers assignment factory_workers].
  rewrite map_app. cbn [map]. rewrite Hid in *.
  split; [|split; [reflexivity|]].
  - rewrite create_initial_assignment_rows in Hseq |- *.
    injection Hseq as Hseq. rewrite <- Hseq in E.
    rewrite length_app in E. cbn [length] in E.
    rewrite station_append_mk in E by apply mod_station_in.
    injection E as <-. f_equal. apply mk_assignment_ext. intros s Hs.
    rewrite sel_snoc, length_map. cbn [Nat.add].
    replace (length (true_workers ui) + 1 - 1) with (length (true_workers ui))
      by lia.
    now rewrite Nat.eqb_sym.
  - unfold ids_of. rewrite map_app. reflexivity.
Qed.

Lemma hire_worker_places_sequentially_witness :
  exists ui' w',
    hire_worker (fst (init example_world)) (snd (init example_world))
    = Some (ui', w')
    /\ create_initial_assignment_sequential (hired ui') = Some (assignment ui').
Proof.
  destruct (hire_worker (fst (init example_world)) (snd (init example_world)))
    as [[ui' w']|] eqn:E; [|discriminate E].
  exists ui', w'. split; [reflexivity|].
  exact (proj1 (hire_worker_places_sequentially
                  (fst (init example_world)) (snd (init example_world))
                  ui' w' eq_refl E)).
Defined.

End Window.

Section WindowSessions.
Import FactorySchedulerUI.

Lemma init_session_ok (w : World) :
  draws_ok w -> session_ok (fst (init w)) (snd (init w)).
Proof.
  intros Hw. unfold init.
  pose proof (generated_tasks_ok w Hw) as Ht.
  destruct (generate_task_profiles w) as [generated w1] eqn:Eg.
  assert (Hw1 : draws_ok w1).
  { apply (f_equal snd) in Eg. cbn [snd] in Eg. rewrite <- Eg.
    intros i. cbn. apply Hw. }
  cbn [fst snd] in *. unfold session_ok, hired.
  cbn [state true_workers factory_workers tasks assignment map].
  split; [exact Hw1|]. split; [exact Ht|]. split; [intros tw []|].
  split; [reflexivity|]. split; [constructor|]. split; [intros id []|].
  split; [|discriminate].
  split; [reflexivity|]. split; [|reflexivity].
  intros s Hs. apply in_stations in Hs.
  destruct s as [|[|[|[|[|[|[|s]]]]]]]; try lia; reflexivity.
Qed.

Lemma hire_worker_ok (ui : UI) (w : World) :
  session_ok ui w -> state ui <> running ->
  exists ui' w', hire_worker ui w = Some (ui', w') /\ session_ok ui' w'
                 /\ state ui' = state ui.
Proof.
  intros [Hw [Ht [Htw [Hids [Hnd [Hctr [[Hk [Hsz Hperm]] _]]]]]]] Hst.
  unfold hire_worker.
  pose proof (generated_true_worker_ok w Hw) as Hok.
  destruct (generate_true_worker w) as [tw w1] eqn:Eg.
  assert (Hid : true_worker_id tw = format_04d (worker_id_counter w)).
  { apply (f_equal fst) in Eg. cbn [fst] in Eg. rewrite <- Eg. reflexivity. }
  assert (Hc1 : worker_id_counter w1 = worker_id_counter w + 1).
  { apply (f_equal snd) in Eg. cbn [snd] in Eg. rewrite <- Eg. reflexivity. }
  assert (Hw1 : draws_ok w1).
  { apply (f_equal snd) in Eg. cbn [snd] in Eg. rewrite <- Eg.
    intros i. cbn. apply Hw. }
  cbn [fst] in Hok.
  pose proof (well_keyed_mk _ Hk) as Ha. set (g := row_of (assignment ui)) in *.
  cbv zeta. rewrite length_app. cbn [length].
  replace (length (true_workers ui) + 1 - 1) with (length (true_workers ui)) by lia.
  set (st := length (true_workers ui) mod WSTATION + 1).
  assert (Hstin : In st stations) by apply mod_station_in.
  assert (Happ : station_append st (true_worker_id tw) (assignment ui)
                 = Some (mk_assignment
                           (fun s' => g s' ++ (if s' =? st
                                               then [true_worker_id tw] else [])))).
  { rewrite Ha. now apply station_append_mk. }
  rewrite Happ. cbn [bind].
  eexists _, w1. split; [reflexivity|]. split; [|reflexivity].
  unfold session_ok, hired in *.
  cbn [state true_workers factory_workers tasks assignment final_results
       current_cycle_data].
  rewrite map_app. cbn [map]. rewrite Hid.
  split; [exact Hw1|]. split; [exact Ht|]. split.
  { intros x Hx. apply in_app_iff in Hx. destruct Hx as [Hx|[<-|[]]]; auto. }
  split.
  { unfold ids_of in *. rewrite map_app, Hids. reflexivity. }
  assert (Hfresh : ~ In (format_04d (worker_id_counter w))
                        (map true_worker_id (true_workers ui))).
  { intros Hin. destruct (Hctr _ Hin) as [k [Hlt Heq]].
    apply format_04d_inj in Heq. lia. }
  split.
  { apply NoDup_app; [exact Hnd | repeat constructor; intros [] | ].
    intros x Hx [<-|[]]. contradiction. }
  split.
  { intros id Hin. apply in_app_iff in Hin. destruct Hin as [Hin|[<-|[]]].
    - destruct (Hctr id Hin) as [k [Hlt Heq]]. exists k. split; [lia | exact Heq].
    - exists (worker_id_counter w). split; [lia | reflexivity]. }
  split; [|intros E; contradiction].
  split; [apply mk_well_keyed|]. split.
  - intros s Hs. rewrite row_of_mk by assumption.
    rewrite length_app, length_app, !length_map. cbn [length].
    rewrite Nat.add_1_r, quota_succ by assumption.
    rewrite (Hsz s Hs), length_map. fold st.
    destruct (s =? st); reflexivity.
  - rewrite all_workers_of_mk.
    rewrite (flat_map_app_perm g
               (fun s' => if s' =? st
                          then [format_04d (worker_id_counter w)] else [])
               stations).
    rewrite flat_map_singleton_station by assumption.
    apply Permutation_app_tail.
    rewrite <- all_workers_of_mk, <- Ha. exact Hperm.
Qed.

Lemma fire_worker_ok (ui : UI) (w : World) (wid : WorkerId) :
  session_ok ui w -> state ui <> running ->
  exists ui', fire_worker ui wid = Some ui' /\ session_ok ui' w
              /\ state ui' = state ui.
Proof.
  intros [Hw [Ht [Htw [Hids [Hnd [Hctr [[Hk [Hsz Hperm]] _]]]]]]] Hst.
  unfold fire_worker.
  pose proof (well_keyed_mk _ Hk) as Ha. set (g := row_of (assignment ui)) in *.
  assert (Hfire : fire_worker_from_assignment wid (assignment ui)
                  = Some (mk_assignment
                            (fun s => sel 0 s (drop_worker wid
                                                (all_workers_of (assignment ui)))))).
  { unfold fire_worker_from_assignment. rewrite Ha at 1.
    rewrite remaining_workers_mk. cbn [bind]. rewrite <- Ha.
    apply create_initial_assignment_rows. }
  rewrite Hfire. cbn [bind].
  eexists. split; [reflexivity|]. split; [|reflexivity].
  set (ws := drop_worker wid (all_workers_of (assignment ui))).
  unfold session_ok, hired in *.
  cbn [state true_workers factory_workers tasks assignment final_results
       current_cycle_data].
  set (keep := fun id => negb (String.eqb id wid)).
  assert (Hmap : map true_worker_id
                     (filter (fun tw => negb (String.eqb (true_worker_id tw) wid))
                             (true_workers ui))
                 = filter keep (map true_worker_id (true_workers ui))).
  { apply (filter_map_comm true_worker_id keep). }
  rewrite Hmap.
  assert (Hpermws : Permutation ws
                      (filter keep (map true_worker_id (true_workers ui)))).
  { unfold ws, drop_worker. now apply filter_permutation. }
  split; [exact Hw|]. split; [exact Ht|]. split.
  { intros x Hx. apply filter_In in Hx. now apply Htw. }
  split.
  { unfold ids_of in *.
    rewrite (filter_map_comm worker_id keep), Hids. reflexivity. }
  split; [now apply NoDup_filter|]. split.
  { intros id Hin. apply filter_In in Hin. now apply Hctr. }
  split; [|intros E; contradiction].
  split; [apply mk_well_keyed|]. split.
  - intros s Hs. rewrite row_of_mk by assumption. rewrite sel_length by assumption.
    unfold quota, WSTATION. now rewrite (Permutation_length Hpermws).
  - rewrite all_workers_of_mk. rewrite sel_permutation. exact Hpermws.
Qed.

Lemma start_optimization_spec (ui : UI) (w : World) :
  session_ok ui w -> true_workers ui <> [] ->
  exists ui' results head_event later,
    start_optimization ui = Some ui'
    /\ session_ok ui' w
    /\ state ui' = running
    /\ cycle_history ui' = head_event :: later
    /\ current_cycle_data ui' = Some head_event
    /\ current_cycle_index ui' = 0
    /\ final_results ui' = Some results
    /\ assignment ui' = assignment ui
    /\ true_workers ui' = true_workers ui
    /\ places (hired ui) (results_assignment results).
Proof.
  intros Hok Hne. pose proof Hok as
    [Hw [Ht [Htw [Hids [Hnd [Hctr [[Hk [Hsz Hperm]] Hrun]]]]]]].
  unfold start_optimization.
  destruct (true_workers ui) as [|tw0 tws0] eqn:Etw; [contradiction|].
  rewrite <- Etw in *. clear tw0 tws0 Etw.
  unfold hired in *.
  destruct (systematic_data_collection_total (true_workers ui)
              (factory_workers ui) (tasks ui) (assignment ui) Hk Ht Htw)
    as [collected Hcol].
  { intros x Hx. now rewrite <- Hids. }
  { intros x Hx. rewrite Hids. apply (Permutation_in _ Hperm Hx). }
  rewrite Hcol. cbn [bind].
  assert (Hnd0 : NoDup (ids_of (factory_workers ui))) by now rewrite Hids.
  destruct (collection_run_spec _ _ _ _ _ Hnd0 Hcol)
    as [Hids' [_ [head_event [later [Hlog _]]]]].
  assert (Hnd1 : NoDup (ids_of (store_of collected))) by now rewrite Hids'.
  destruct (find_optimal_assignment_spec (store_of collected) Hnd1
              (length (true_workers ui)) (assignment ui))
    as [g [results [picks [Hsolve [Hres [Hq [Hndg [Hincl _]]]]]]]].
  { rewrite Hids', Hids, length_map. lia. }
  rewrite Hsolve. cbn [bind].
  assert (Hplaces : places (map true_worker_id (true_workers ui))
                           (results_assignment results)).
  { unfold results_assignment. rewrite Hres.
    split; [apply mk_well_keyed|]. split.
    - intros s Hs. rewrite row_of_mk by assumption. rewrite length_map.
      now apply Hq.
    - rewrite all_workers_of_mk. apply NoDup_Permutation_bis.
      + exact Hndg.
      + assert (Hlen : length (flat_map g stations) = length (true_workers ui)).
        { rewrite length_flat_map_stations.
          rewrite (map_ext_in _ (quota (length (true_workers ui))))
            by (intros s Hs; now apply Hq).
          apply quota_sum. }
        rewrite length_map. lia.
      + intros x Hx. rewrite <- Hids, <- Hids'. now apply Hincl. }
  eexists _, results, head_event, later. split; [reflexivity|].
  cbn [state true_workers factory_workers tasks assignment final_results
       current_cycle_data cycle_history current_cycle_index].
  rewrite Hlog.
  split; [|repeat (split; [reflexivity|]); exact Hplaces].
  unfold session_ok, hired.
  cbn [state true_workers factory_workers tasks assignment final_results
       current_cycle_data].
  split; [exact Hw|]. split; [exact Ht|]. split; [exact Htw|].
  split; [now rewrite Hids'|]. split; [exact Hnd|]. split; [exact Hctr|].
  split; [now split|]. intros _. split; [discriminate|].
  exists results. split; [reflexivity | exact Hplaces].
Qed.

Lemma start_optimization_ok (ui : UI) (w : World) :
  session_ok ui w ->
  exists ui', start_optimization ui = Some ui' /\ session_ok ui' w.
Proof.
  intros Hok. destruct (true_workers ui) as [|tw0 tws0] eqn:Etw.
  - exists ui. split; [|exact Hok]. unfold start_optimization. now rewrite Etw.
  - destruct (start_optimization_spec ui w Hok) as [ui' [? [? [? [H1 [H2 _]]]]]].
    + rewrite Etw. discriminate.
    + eauto.
Qed.

Lemma next_cycle_ok (ui : UI) (w : World) :
  session_ok ui w -> state ui = running ->
  exists ui', next_cycle ui = Some ui' /\ session_ok ui' w.
Proof.
  intros Hok Hst. pose proof Hok as
    [Hw [Ht [Htw [Hids [Hnd [Hctr [Hplaces Hrun]]]]]]].
  destruct (Hrun Hst) as [Hdata [results [Hres Hgood]]].
  unfold next_cycle.
  destruct (current_cycle_index ui <? length (cycle_history ui) - 1) eqn:Ei.
  - apply Nat.ltb_lt in Ei.
    destruct (current_cycle_data ui) as [shown|] eqn:Es; [|contradiction].
    cbn [bind].
    destruct (nth_error (cycle_history ui) (current_cycle_index ui + 1))
      as [next|] eqn:En; [|apply nth_error_None in En; lia].
    cbn [bind]. eexists. split; [reflexivity|].
    unfold session_ok, hired in *.
    cbn [state true_workers factory_workers tasks assignment final_results
         current_cycle_data].
    split; [exact Hw|]. split; [exact Ht|]. split; [exact Htw|].
    split; [exact Hids|]. split; [exact Hnd|]. split; [exact Hctr|].
    split; [exact Hplaces|]. intros _. split; [discriminate|].
    exists results. auto.
  - rewrite Hres. cbn [bind]. eexists. split; [reflexivity|].
    unfold session_ok, hired in *.
    cbn [state true_workers factory_workers tasks assignment final_results
         current_cycle_data].
    split; [exact Hw|]. split; [exact Ht|]. split; [exact Htw|].
    split; [exact Hids|]. split; [exact Hnd|]. split; [exact Hctr|].
    split; [exact Hgood|]. discriminate.
Qed.

Lemma get_worker_at_mouse_total (ui : UI) (mouse_pos : Z * Z) :
  well_keyed (assignment ui) ->
  exists found, get_worker_at_mouse ui mouse_pos = Some found.
Proof.
  intros Hk. unfold get_worker_at_mouse.
  assert (H : forall sts, incl sts stations ->
            exists found, worker_at_mouse_from ui mouse_pos sts = Some found).
  { induction sts as [|s sts IH]; intros Hincl; [cbn; eauto|].
    cbn [worker_at_mouse_from].
    assert (Hrow : exists row, pictures_of ui s = Some row).
    { unfold pictures_of. rewrite (well_keyed_mk _ Hk).
      rewrite station_get_mk by (apply Hincl; now left).
      destruct (state ui); eauto. }
    destruct Hrow as [row ->]. cbn [bind].
    destruct (worker_in_row _ _ _); [eauto|].
    apply IH. intros x Hx. apply Hincl. now right. }
  apply H. apply incl_refl.
Qed.

Lemma with_scroll_ok (ui : UI) (w : World) (offset : Z) :
  session_ok ui w -> session_ok (with_scroll ui offset) w.
Proof.
  intros H. exact H.
Qed.

Lemma handle_event_ok (ui : UI) (w : World) (event : PygameEvent) :
  session_ok ui w -> ~ fires_while_running ui event ->
  exists ui' w', handle_event ui w event = Some (ui', w') /\ session_ok ui' w'.
Proof.
  intros Hok Hnf. unfold handle_event.
  destruct event as [|button mouse_pos|y|]; try (exists ui, w; now split).
  - destruct (button =? 1)%Z.
    + destruct (state ui) eqn:Est.
      * destruct (collidepoint _ mouse_pos).
        -- destruct (hire_worker_ok ui w Hok) as [ui' [w' [H1 [H2 _]]]];
             [rewrite Est; discriminate|]. eauto.
        -- destruct (_ && _); [|exists ui, w; now split].
           destruct (start_optimization_ok ui w Hok) as [ui' [H1 H2]].
           rewrite H1. cbn [bind]. eauto.
      * destruct (collidepoint _ mouse_pos); [|exists ui, w; now split].
        destruct (next_cycle_ok ui w Hok Est) as [ui' [H1 H2]].
        rewrite H1. cbn [bind]. eauto.
      * destruct (collidepoint _ mouse_pos).
        -- destruct (hire_worker_ok ui w Hok) as [ui' [w' [H1 [H2 _]]]];
             [rewrite Est; discriminate|]. eauto.
        -- destruct (_ && _); [|exists ui, w; now split].
           destruct (start_optimization_ok ui w Hok) as [ui' [H1 H2]].
           rewrite H1. cbn [bind]. eauto.
    + destruct (button =? 3)%Z eqn:E3; [|exists ui, w; now split].
      apply Z.eqb_eq in E3. subst button.
      assert (Hst : state ui <> running).
      { intros Hr. apply Hnf. split; [exact Hr|]. now exists mouse_pos. }
      assert (Hk : well_keyed (assignment ui)) by apply Hok.
      destruct (get_worker_at_mouse_total ui mouse_pos Hk) as [found ->].
      cbn [bind].
      destruct found as [wid|]; [|exists ui, w; now split].
      destruct (truthy wid); [|exists ui, w; now split].
      destruct (fire_worker_ok ui w wid Hok Hst) as [ui' [H1 [H2 _]]].
      rewrite H1. cbn [bind]. eauto.
  - destruct (state ui); eexists _, w; (split; [reflexivity|]);
      first [exact Hok | now apply with_scroll_ok].
Qed.

Lemma same_session_ok (ui ui' : UI) (w : World) :
  same_session ui ui' -> session_ok ui w -> session_ok ui' w.
Proof.
  intros [E1 [E2 [E3 [E4 [E5 [E6 [E7 [E8 E9]]]]]]]].
  unfold session_ok, hired. rewrite E1, E2, E3, E4, E5, E6, E9. auto.
Qed.

Lemma reachable_session_ok (ui : UI) (w : World) :
  reachable ui w -> session_ok ui w.
Proof.
  induction 1 as [w Hw | ui w event ui' w' _ IH Hnf Hev | ui w ui' _ IH Hsame].
  - now apply init_session_ok.
  - destruct (handle_event_ok ui w event IH Hnf) as [ui2 [w2 [H1 H2]]].
    rewrite H1 in Hev. now injection Hev as <- <-.
  - now apply (same_session_ok ui ui').
Qed.

(** X24.  The window keeps its session sound.  In every window that the main
    loop reaches from a fresh one, no worker being fired while a run is
    shown: the tasks are one per station with parameters in range, the
    factory profiles are those of the hired workers in the same order,
    the ids are distinct, the assignment has the six stations with the
    sizes of a sequential placement and holds every hired worker exactly
    once, and while a run is shown there is a current event and a report
    whose assignment places the hired workers in the same way. *)
Theorem window_session_stays_sound :
  forall (ui : UI) (w : World), reachable ui w -> session_ok ui w.
Proof.
  exact reachable_session_ok.
Qed.

Lemma window_session_stays_sound_witness :
  session_ok (fst (init example_world)) (snd (init example_world)).
Proof.
  apply window_session_stays_sound. apply reach_init.
  intros i. cbn. lra.
Defined.

(** X25.  Handling an event does not raise.  In every window the main loop
    reaches, no worker being fired while a run is shown, handling a
    further event other than such a firing returns, and the window it
    leaves is reached in turn: the hire finds its station, a started run
    and the solver complete, the next cycle finds its event or its
    report, the hit test finds the six stations, and the fire rebuilds
    the assignment. *)
Theorem window_handles_every_event :
  forall (ui : UI) (w : World) (event : PygameEvent),
    reachable ui w ->
    ~ fires_while_running ui event ->
    exists ui' w', handle_event ui w event = Some (ui', w') /\ reachable ui' w'.
Proof.
  intros ui w event Hr Hnf.
  destruct (handle_event_ok ui w event (reachable_session_ok ui w Hr) Hnf)
    as [ui' [w' [H1 _]]].
  exists ui', w'. split; [exact H1|]. eapply reach_event; eassumption.
Qed.

Lemma window_handles_every_event_witness :
  exists ui' w',
    handle_event (fst (init example_world)) (snd (init example_world))
                 (MOUSEBUTTONDOWN 1 (60, 60)%Z) = Some (ui', w')
    /\ reachable ui' w'.
Proof.
  apply window_handles_every_event.
  - apply reach_init. intros i. cbn. lra.
  - intros [H _]. discriminate H.
Defined.

Lemma presses_add (a b : nat) :
  forall ui, presses (a + b) ui = (ui' <- presses a ui ;; presses b ui').
Proof.
  induction a as [|a IH]; intros ui; cbn [Nat.add presses bind].
  - reflexivity.
  - destruct (next_cycle ui) as [ui'|]; cbn [bind]; [apply IH | reflexivity].
Qed.

Lemma presses_advance (k : nat) :
  forall ui,
    current_cycle_index ui + k < length (cycle_history ui) ->
    current_cycle_data ui
    = nth_error (cycle_history ui) (current_cycle_index ui) ->
    exists ui',
      presses k ui = Some ui'
      /\ state ui' = state ui
      /\ cycle_history ui' = cycle_history ui
      /\ current_cycle_index ui' = current_cycle_index ui + k
      /\ current_cycle_data ui'
         = nth_error (cycle_history ui) (current_cycle_index ui + k)
      /\ final_results ui' = final_results ui
      /\ assignment ui' = assignment ui
      /\ true_workers ui' = true_workers ui
      /\ factory_workers ui' = factory_workers ui.
Proof.
  induction k as [|k IH]; intros ui Hlt Hdata.
  - exists ui. rewrite Nat.add_0_r. cbn [presses]. repeat split; auto.
  - cbn [presses]. unfold next_cycle.
    destruct (Nat.ltb_spec (current_cycle_index ui)
                           (length (cycle_history ui) - 1)) as [_|Hge]; [|lia].
    destruct (nth_error (cycle_history ui) (current_cycle_index ui))
      as [shown|] eqn:Es; [|apply nth_error_None in Es; lia].
    rewrite Hdata. cbn [bind].
    destruct (nth_error (cycle_history ui) (current_cycle_index ui + 1))
      as [next|] eqn:En; [|apply nth_error_None in En; lia].
    cbn [bind].
    match goal with
    | |- context [presses k ?u] => destruct (IH u) as [ui' [Hp H]]
    end.
    + cbn [current_cycle_index cycle_history]. lia.
    + cbn [current_cycle_index cycle_history current_cycle_data].
      now rewrite En.
    + cbn [state current_cycle_index cycle_history current_cycle_data
           final_results assignment true_workers factory_workers] in H.
      exists ui'. split; [exact Hp|].
      replace (current_cycle_index ui + S k)
        with (current_cycle_index ui + 1 + k) by lia.
      exact H.
Qed.

(** X26.  A run is shown event by event and then completes.  In a window the
    main loop reaches, with at least one worker hired,
    [start_optimization] returns a running window with a report and a
    history that is not empty; after [k] presses of the next-cycle
    button, [k] below the length of the history, the window is still
    running, shows the event of index [k] and has the assignment it
    started with; the press after the last event completes the run, and
    the window then has the report's assignment, which holds every hired
    worker exactly once with the station sizes of a sequential
    placement. *)
Theorem started_run_completes :
  forall (ui : UI) (w : World),
    reachable ui w ->
    true_workers ui <> [] ->
    exists ui1 results,
      start_optimization ui = Some ui1
      /\ state ui1 = running
      /\ final_results ui1 = Some results
      /\ cycle_history ui1 <> []
      /\ (forall k, k < length (cycle_history ui1) ->
            exists uik,
              presses k ui1 = Some uik
              /\ state uik = running
              /\ current_cycle_data uik = nth_error (cycle_history ui1) k
              /\ assignment uik = assignment ui)
      /\ exists ui2,
           presses (length (cycle_history ui1)) ui1 = Some ui2
           /\ state ui2 = completed
           /\ assignment ui2 = results_assignment results
           /\ hired ui2 = hired ui
           /\ places (hired ui) (assignment ui2).
Proof.
  intros ui w Hr Hne. apply reachable_session_ok in Hr.
  destruct (start_optimization_spec ui w Hr Hne)
    as [ui1 [results [head_event [later
         [Hstart [_ [Hst [Hhist [Hdata [Hidx [Hres [Hasg [Htw Hpl]]]]]]]]]]]]].
  exists ui1, results. split; [exact Hstart|]. split; [exact Hst|].
  split; [exact Hres|]. split; [rewrite Hhist; discriminate|].
  assert (Hd0 : current_cycle_data ui1
                = nth_error (cycle_history ui1) (current_cycle_index ui1)).
  { now rewrite Hidx, Hhist, Hdata. }
  split.
  - intros k Hk.
    destruct (presses_advance k ui1) as [uik [Hp [H1 [_ [_ [H4 [_ [H6 _]]]]]]]];
      [rewrite Hidx; exact Hk | exact Hd0 |].
    exists uik. rewrite Hidx in H4. cbn [Nat.add] in H4.
    split; [exact Hp|]. split; [congruence|]. split; [exact H4 | congruence].
  - set (n := length (cycle_history ui1)).
    assert (Hn : n = (n - 1) + 1).
    { unfold n. rewrite Hhist. cbn [length]. lia. }
    destruct (presses_advance (n - 1) ui1)
      as [uik [Hp [H1 [H2 [H3 [_ [H5 [_ [H7 _]]]]]]]]];
      [rewrite Hidx; unfold n; lia | exact Hd0 |].
    rewrite Hn, presses_add, Hp. cbn [bind presses]. unfold next_cycle.
    destruct (Nat.ltb_spec (current_cycle_index uik)
                           (length (cycle_history uik) - 1)) as [Hlt|_].
    { rewrite H2, H3, Hidx in Hlt. fold n in Hlt. lia. }
    rewrite H5, Hres. cbn [bind].
    eexists. split; [reflexivity|].
    unfold hired. cbn [state assignment true_workers].
    rewrite H7, Htw. repeat split; try reflexivity; apply Hpl.
Qed.

Lemma example_window_reachable :
  reachable (fst example_window) (snd example_window).
Proof.
  apply (reach_event (fst (init example_world)) (snd (init example_world))
                     (MOUSEBUTTONDOWN 1 (60, 60)%Z)).
  - apply reach_init. intros i. cbn. lra.
  - intros [H _]. discriminate H.
  - reflexivity.
Qed.

Lemma started_run_completes_witness :
  exists ui1 results,
    start_optimization (fst example_window) = Some ui1
    /\ state ui1 = running
    /\ final_results ui1 = Some results
    /\ cycle_history ui1 <> []
    /\ (forall k, k < length (cycle_history ui1) ->
          exists uik,
            presses k ui1 = Some uik
            /\ state uik = running
            /\ current_cycle_data uik = nth_error (cycle_history ui1) k
            /\ assignment uik = assignment (fst example_window))
    /\ exists ui2,
         presses (length (cycle_history ui1)) ui1 = Some ui2
         /\ state ui2 = completed
         /\ assignment ui2 = results_assignment results
         /\ hired ui2 = hired (fst example_window)
         /\ places (hired (fst example_window)) (assignment ui2).
Proof.
  apply (started_run_completes (fst example_window) (snd example_window)).
  - exact example_window_reachable.
  - discriminate.
Defined.

End WindowSessions.

Section WindowHitTest.
Import FactorySchedulerUI.

Lemma collidepoint_spec (x y width height : Z) (pos : Z * Z) :
  collidepoint (x, y, width, height) pos = true
  <-> (x <= fst pos < x + width)%Z /\ (y <= snd pos < y + height)%Z.
Proof.
  unfold collidepoint. rewrite !andb_true_iff, !Z.leb_le, !Z.ltb_lt. lia.
Qed.

Lemma in_picture_unique (ui : UI) (s s' idx idx' : nat) (pos : Z * Z) :
  in_picture ui s idx pos -> in_picture ui s' idx' pos -> s = s' /\ idx = idx'.
Proof.
  unfold in_picture, picture_y. destruct (state ui); lia.
Qed.

Lemma worker_in_row_spec (y : Z) (pos : Z * Z) (row : list WorkerId) :
  forall k,
    match worker_in_row y pos (combine (seq k (length row)) row) with
    | Some wid =>
        exists i, nth_error row i = Some wid
                  /\ collidepoint ((200 + Z.of_nat (k + i) * 80)%Z, y, 67%Z, 85%Z)
                                  pos = true
    | None =>
        forall i, i < length row ->
                  collidepoint ((200 + Z.of_nat (k + i) * 80)%Z, y, 67%Z, 85%Z)
                               pos = false
    end.
Proof.
  induction row as [|wid row IH]; intros k.
  - cbn. intros i Hi. lia.
  - cbn [length seq combine worker_in_row].
    destruct (collidepoint ((200 + Z.of_nat k * 80)%Z, y, 67%Z, 85%Z) pos) eqn:E.
    + exists 0. rewrite Nat.add_0_r. now split.
    + specialize (IH (S k)).
      destruct (worker_in_row y pos (combine (seq (S k) (length row)) row)).
      * destruct IH as [i [Hn Hc]]. exists (S i). split; [exact Hn|].
        now replace (k + S i) with (S k + i) by lia.
      * intros [|i] Hi.
        -- now rewrite Nat.add_0_r.
        -- replace (k + S i) with (S k + i) by lia. apply IH. lia.
Qed.

Lemma pictures_of_keyed (ui : UI) (s : nat) :
  well_keyed (assignment ui) -> In s stations ->
  pictures_of ui s = Some (row_of (assignment ui) s).
Proof.
  intros Hk Hs. unfold pictures_of, row_of.
  rewrite (well_keyed_mk _ Hk), station_get_mk by assumption.
  now destruct (state ui).
Qed.

Lemma worker_at_mouse_from_spec (ui : UI) (pos : Z * Z) :
  well_keyed (assignment ui) ->
  forall sts,
    incl sts stations ->
    exists found,
      worker_at_mouse_from ui pos sts = Some found
      /\ match found with
         | Some wid =>
             exists s idx,
               In s sts
               /\ nth_error (row_of (assignment ui) s) idx = Some wid
               /\ in_picture ui s idx pos
         | None =>
             forall s idx,
               In s sts -> idx < length (row_of (assignment ui) s) ->
               ~ in_picture ui s idx pos
         end.
Proof.
  intros Hk. induction sts as [|s sts IH]; intros Hincl.
  - exists None. split; [reflexivity|]. intros s idx [].
  - cbn [worker_at_mouse_from].
    rewrite pictures_of_keyed by (auto; apply Hincl; now left).
    cbn [bind]. unfold enumerate.
    pose proof (worker_in_row_spec (picture_y ui s) pos
                  (row_of (assignment ui) s) 0) as Hrow.
    destruct (worker_in_row (picture_y ui s) pos
                (combine (seq 0 (length (row_of (assignment ui) s)))
                         (row_of (assignment ui) s))) as [wid|].
    + exists (Some wid). split; [reflexivity|].
      destruct Hrow as [i [Hn Hc]]. exists s, i. split; [now left|].
      split; [exact Hn|]. apply collidepoint_spec in Hc. exact Hc.
    + destruct IH as [found [Hf Hspec]].
      { intros x Hx. apply Hincl. now right. }
      exists found. split; [exact Hf|].
      destruct found as [wid|].
      * destruct Hspec as [s' [idx [Hs' H]]]. exists s', idx.
        split; [now right | exact H].
      * intros s' idx [<-|Hs'] Hidx Hin.
        -- specialize (Hrow idx Hidx). cbn [Nat.add] in Hrow.
           apply collidepoint_spec in Hin. congruence.
        -- now apply (Hspec s' idx).
Qed.

(** X27.  The hit test finds the picture under the mouse.  On an assignment
    with the six stations [get_worker_at_mouse] returns; the pictures of
    two different places do not overlap, and the worker returned is the
    one whose picture holds the mouse: a worker is returned exactly when
    the picture of a place holding that worker contains the mouse
    position, and nothing is returned when the mouse is in no picture. *)
Theorem get_worker_at_mouse_finds_picture :
  forall (ui : UI) (pos : Z * Z),
    well_keyed (assignment ui) ->
    (forall s s' idx idx',
        in_picture ui s idx pos -> in_picture ui s' idx' pos ->
        s = s' /\ idx = idx')
    /\ exists found,
         get_worker_at_mouse ui pos = Some found
         /\ forall wid,
              found = Some wid
              <-> exists s idx,
                    In s stations
                    /\ nth_error (row_of (assignment ui) s) idx = Some wid
                    /\ in_picture ui s idx pos.
Proof.
  intros ui pos Hk. split; [intros s s' idx idx'; apply in_picture_unique|].
  destruct (worker_at_mouse_from_spec ui pos Hk stations (incl_refl _))
    as [found [Hf Hspec]].
  exists found. split; [exact Hf|]. intros wid. split.
  - intros ->. exact Hspec.
  - intros [s [idx [Hs [Hn Hin]]]]. destruct found as [wid'|].
    + destruct Hspec as [s' [idx' [_ [Hn' Hin']]]].
      destruct (in_picture_unique ui s s' idx idx' pos Hin Hin') as [<- <-].
      congruence.
    + exfalso. apply (Hspec s idx Hs); [|exact Hin].
      apply nth_error_Some. congruence.
Qed.

Lemma get_worker_at_mouse_finds_picture_witness :
  get_worker_at_mouse (fst example_window) (210, 200)%Z = Some (Some "0001"%string).
Proof.
  assert (Hk : well_keyed (assignment (fst example_window))) by reflexivity.
  destruct (get_worker_at_mouse_finds_picture (fst example_window)
              (210, 200)%Z Hk) as [_ [found [Hf Hiff]]].
  rewrite Hf. f_equal. apply Hiff. exists 1, 0.
  split; [cbn; auto|]. split; [reflexivity|].
  unfold in_picture, picture_y. cbn. lia.
Defined.

End WindowHitTest.
